(* ===== verification/_CoqProject ===== *)
-Q . S2P
Prelude.v
PyString.v
PySlice.v
Stats.v
Calibration.v
Image.v
Schema.v
SkyMatch.v
JoinCatalogs.v
Standard.v
Ccdred.v
Detection.v
Aperture.v
Psf.v
Astrometry.v
Plotfits.v
Catalogs.v
Units.v
Coords.v
Calendar.v
AstroTime.v
