(* ===== verification/Prelude.v ===== *)
(** * Photometry notebooks of vilardellsalles/master-uab: a verification development

    The repository is a course on CCD photometry written as Jupyter
    notebooks.  They run in a chain: the cleaning notebook
    (src/unnamed/part_001) writes bias- and flat-corrected images; the
    photutils notebook (src/notebooks/photutils.ipynb) adds the WCS solution
    to them, detects stars, flags the valid ones, measures aperture
    photometry and fits a PSF, and writes a catalog; the standard-photometry
    notebook (src/unnamed/part_000) reads that catalog back, cross-matches
    the b and y stars, matches them to a reference catalog and fits the
    colour transformation.  The plotfits notebook
    (src/notebooks/plotfits.ipynb) defines [plot], which the others call,
    and introduces numpy and astropy.  Almost every numerical step is a
    library call; what the development models is the logic the notebooks
    write around those calls, cell by cell, and the library calls by what
    they do to the data the notebooks pass them.

    ** How the program is modelled

    A cell is a function of the values it reads to a [result] (this file's
    error monad, with Python's exceptions as the [py_error] constructors and
    the notation [x <- r;; k]); a sequence of cells is their composition,
    and a loop is [for_each], a fold in the monad.  Where cells share state
    it is explicit: the files on disk ([Ccdred.disk], [Astrometry.fits_disk]
    and [Catalogs.text_disk], finite maps from paths) and the notebook's
    variables ([Ccdred.session], [Detection.session]; reading an unset one
    raises [NameError]).  Tables are a list of column names with typed rows;
    images are lists of rows.  Floating-point values are rationals [Q]: the
    float rounding is not modelled.  Library internals out of scope are
    interfaces (type classes), and every theorem holds for every instance:
    the angular separation ([SkyMatch.SkySeparation]) and
    [match_to_catalog_sky] by its contract ([SkyMatch.SkyMatcher], a class
    with its laws: [ValueError] on an empty catalog, else a nearest entry,
    whichever one on a tie), numpy's unstable
    table sort ([JoinCatalogs.TableSort]), the order of [glob]
    ([Ccdred.DirOrder]), DAOStarFinder and the pixel-to-sky transformation
    ([Detection.PhotLib]), photutils' aperture geometry
    ([Aperture.ApertureGeometry]), astropy's fitter and real power
    ([Psf.FitLib]), the WCS pixel scales ([Astrometry.WcsLib]) and its
    celestial test ([Plotfits.WcsAxes]) and the real powers of quantities
    ([Units.RealPow]).  Library code the cells go through and whose logic
    the theorems are about (CPython's calendar and [datetime] arithmetic,
    ERFA's date routines) is transcribed instead.  Each file has executable example
    instances, and the witnesses run the definitions on them with
    [vm_compute].

    ** Files (in dependency order)

    - [Prelude] (this file): [result], [for_each] and their lemmas, Python
      list indexing, boolean comparisons on [Q], the scope [phot_scope],
      the hint databases [phot] and [phot_rw] and the tactic [decide_closed].
    - [PyString]: [str.replace] and [in] (part_000 line 122, photutils
      96-98).  [PySlice]: [int()], [range], [l[a:b]], [m[a:b, c:d]] and
      [l[i]] with CPython's bound adjustment and negative indices.
    - [Stats]: [np.median], [np.mean], [np.var], the median absolute
      deviation and astropy's iterated [sigma_clip].
    - [Calibration]: scipy's [linregress] and the [final_b-y] column
      (part_000 145, 193-196).
    - [Image]: images, elementwise arithmetic with its shape errors, and
      the setoid of pixelwise equality with [Proper] operations.
    - [Schema], [SkyMatch], [JoinCatalogs], [Standard]: the column-name
      operations of astropy tables, the [SkyMatcher] interface of
      [match_to_catalog_sky] with a scanning implementation,
      [join_catalogs] (part_000 102-116) with its abstract specification,
      and the standard-photometry pipeline (part_000 82-167).
    - [Ccdred]: the cleaning notebook (part_001): master bias, master flats
      and science frames, on a disk of images.
    - [Detection]: statistics, detection grouped by file, the valid flag,
      ra/dec columns and the brightest valid star (photutils 157-360).
    - [Aperture]: global and local background aperture photometry, the
      comparison exercise, the stamp, the annulus statistics and the error
      estimate (photutils 548-874).
    - [Psf]: the profile cell as it runs ([image] is a table row there,
      so [image - median] raises [TypeError]), the radial profile loops on
      a given image, the model choice, the FWHM and the check of the fit
      (photutils 376-473).
    - [Astrometry]: FITS headers as lists of cards and astropy's
      [Header.extend(update=True)] as it runs ([Header.strip] of the WCS
      header, update in place, commentary cards, [Header.append] with
      blank-card reuse); the loop that writes the WCS-calibrated [bfa_]
      images, [plot(calibrated_name)] and the pixel scale (photutils
      95-129).
    - [Plotfits]: [plot] (plotfits 37-66) with the percentile limits of
      [simple_norm], the numpy cell (128-147) and the table cell (584-589).
    - [Catalogs]: the catalog file written by photutils (325-327) and read
      and split by the standard-photometry notebook (part_000 31-58).
    - [Units]: astropy units and quantities, [.to()], and the constants and
      units cells of plotfits (197-305).
    - [Coords]: astropy's angle lexer and sexagesimal parser, [Angle],
      [Longitude], [Latitude] and [SkyCoord], and the coordinate
      definition cells of plotfits (328-351).
    - [Calendar]: CPython's [_ymd2ord]/[_ord2ymd] and ERFA's [eraCal2jd]
      and [eraJd2cal] day loop, with the 400-year periodicity lemmas and one
      cycle checked by evaluation.
    - [AstroTime]: [datetime] with a fixed-offset [tzinfo] ([__add__],
      [astimezone], [fromutc]), [TimezoneInfo], ERFA's [eraDtf2d] and
      [eraD2dtf], astropy's [Time] from ISOT strings, MJDs and aware
      [datetime]s, its ISOT/FITS/[datetime] output, and the time cells of
      plotfits (479-561).

    ** What the theorems show

    - Cross-match: [join_catalogs] refines its specification (every right
      row used at most once, by its nearest left row, strictly within
      3 arcsec, and every such pair kept), for every sort that numpy may
      perform, and a larger tolerance keeps more rows; the mask product is
      the duplicate suppression; for every [SkyMatcher] the pipeline
      answers for a non-empty y catalog, raises [ValueError] for an empty
      one, names its columns [_b], [_y], [mag_b-y] and gives each b star a
      nearest y star and the colour [mag_b - mag_y].
    - Reduction and detection: when the bias frames are one image and the
      flats share one pixel response, the whole cleaning notebook runs and
      its b science frames come out flat; missing frames raise
      [IndexError]; the valid flag is
      computed per frame and a one-source frame makes the PSF cell raise;
      [group_by] partitions the rows; reruns of a cell are idempotent or
      raise as the code does.
    - Photometry: local background subtraction gives each source its own
      flux on a flat background, the global one is biased by the median;
      the error estimate does not depend on the source (a bug); the stamp
      of a source near the edge is empty; the least-squares fit of the
      calibration is optimal, and nan exactly when all colours are equal.
    - Astrometry and plotting: the calibration loop only writes the [bfa_]
      names of the WCS files it globbed (safety), finishes and plots the
      last one when every reduced image exists (progress), and raises
      [NameError] exactly when there is no WCS file; after
      [header.extend] a keyword has the WCS card unless [Header.strip]
      removed it, and [COMMENT]/[HISTORY] values are the header's followed
      by the new ones of the WCS header; [.T] is an involution on
      rectangular images; [plot] shows a [w x h] image with limits inside
      the data range and raises [IndexError] exactly for a bad extension.
    - Loops: [sigma_clip] reaches a fixed point within as many passes as
      values (termination); the Moffat fit, FWHM and check cells never
      raise on a non-empty profile.
    - The hand-off: reading back the catalog file and selecting
      [valid == 'True'] gives exactly the valid rows, per image.
    - Units: a unit string of names joined by ['/'] parses to the
      quotient of the named units ([ValueError] for an unknown name);
      [.to()] keeps the value in SI units and converting back is a round
      trip; the cells are dimensionally consistent for every real power.
    - Coordinates: the six definitions of the coordinate cells give the
      same point, as the notebook says; the letter, colon and spaced
      sexagesimal spellings of the same digits parse to the same angle,
      with astropy's range checks on minutes, seconds and hours.
    - Time: CPython's two calendar functions are inverse bijections on
      years 1 to 9999 and ERFA's calendar agrees with them;
      [eraD2dtf] inverts [eraDtf2d] at every precision; [Time(dt)] then
      [to_datetime(timezone=...)] gives an aware [datetime] back, and
      [Time(dt)] raises [OverflowError] exactly when the UTC time leaves
      [datetime]'s range; the cells print what the notebook shows.

    ** Bounds and fuel

    No definition runs on fuel except [Stats.sigma_clip], whose fuel is
    astropy's [maxiters] (5 in [sigma_clipped_stats], 2 for the annulus):
    [sigma_clip_converges] shows that more passes than values reach the
    fixed point, so the bound is the code's, not the model's.  All other
    loops are folds over finite lists ([for_each], [foldl], [map]), or
    closed-form divisions (the calendars).  [AstroTime.fmt_int_fuel] prints
    integers with 20 digits of fuel, enough for every value it is given
    (years, fields of a time and fractions below [10^20]).  The calendar
    theorems quantify over all years: the 4800 months of one 400-year
    cycle are checked by [vm_compute], piece by piece (on a piece the
    conversions are affine), and periodicity carries them to the rest.

    ** Not modelled

    Drawing and printing ([plt], [show_in_notebook], [my_python_ds9]);
    FITS and text encodings (a file holds its header and data; number
    columns are not rendered); the Vizier query; photutils' Background2D
    cell (photutils 508-515), which reads an undefined name; the other
    SkyCoord cells of plotfits (367-461): spherical trigonometry, frame
    transformations and a name lookup over the network, with no logic of
    the notebook's own; the spelled-out unit names and unicode symbols of
    astropy's angle lexer; leap seconds ([eraDat]'s table: every UTC day has
    86400 s in the model) and so [t1[0].gps], [byear_str] and [jyear_str]
    (plotfits 521-523); [strptime] spellings other than zero-padded fields;
    float rounding. *)

From Stdlib Require Export QArith Qabs Qminmax Lqa.
From stdpp Require Export base list sorting strings.

Open Scope nat_scope.

Declare Scope phot_scope.
Delimit Scope phot_scope with phot.
Open Scope phot_scope.

(** ** Python errors raised through the libraries the notebooks call *)

Inductive py_error :=
| IndexError
| KeyError (name : string)
| ValueError
| TableMergeError
| NameError (name : string)
| TypeError
| Exception (msg : string)
| FileNotFoundError
| OSError
| AttributeError
| UnitConversionError
| OverflowError.

Inductive result (A : Type) :=
| Ok (a : A)
| Err (e : py_error).
Arguments Ok {A} a.
Arguments Err {A} e.

Definition bind {A B} (r : result A) (k : A -> result B) : result B :=
  match r with
  | Ok a => k a
  | Err e => Err e
  end.

Notation "x <- r ;; k" := (bind r (fun x => k))
  (at level 60, r at next level, right associativity) : phot_scope.

Lemma bind_Ok {A B} (r : result A) (k : A -> result B) (b : B) :
  bind r k = Ok b <-> exists a, r = Ok a /\ k a = Ok b.
Proof.
  destruct r as [a|e]; simpl; split.
  - intros H. eauto.
  - intros (a' & [= ->] & H). exact H.
  - discriminate.
  - intros (a' & ? & _). discriminate.
Qed.

(** The monad laws of [result]. *)
Lemma bind_ret_l {A B} (a : A) (k : A -> result B) : bind (Ok a) k = k a.
Proof. reflexivity. Qed.

Lemma bind_ret_r {A} (r : result A) : bind r Ok = r.
Proof. destruct r; reflexivity. Qed.

Lemma bind_assoc {A B C} (r : result A) (f : A -> result B) (g : B -> result C) :
  bind (bind r f) g = bind r (fun a => bind (f a) g).
Proof. destruct r; reflexivity. Qed.

Lemma bind_Err {A B} (r : result A) (k : A -> result B) (e : py_error) :
  bind r k = Err e <-> r = Err e \/ exists a, r = Ok a /\ k a = Err e.
Proof.
  destruct r as [a|e']; cbn; split.
  - intros H. right. eauto.
  - intros [H|(a' & [= <-] & H)]; [discriminate | exact H].
  - intros H. left. congruence.
  - intros [H|(? & H & _)]; [congruence | discriminate].
Qed.

(** ** Rationals: the strict comparison the code writes with [<] *)

Definition Qltb (x y : Q) : bool := negb (Qle_bool y x).

Lemma Qltb_iff x y : Qltb x y = true <-> (x < y)%Q.
Proof.
  unfold Qltb. rewrite negb_true_iff.
  split; intros H.
  - apply Qnot_le_lt. intros Hle. apply Qle_bool_iff in Hle. congruence.
  - destruct (Qle_bool y x) eqn:E; [|reflexivity].
    apply Qle_bool_iff in E. exfalso. apply (Qlt_not_le x y); assumption.
Qed.

Lemma Qltb_false x y : Qltb x y = false <-> (y <= x)%Q.
Proof.
  unfold Qltb. rewrite negb_false_iff. apply Qle_bool_iff.
Qed.

(** Degrees of an angle given in arcseconds, as [coord.Angle('3 arcsec').degree]. *)
Definition arcsec (n : Z) : Q := (inject_Z n / 3600)%Q.

(** ** Python indexing of a list *)

(** [l[i]] for a non-negative index: [IndexError] out of range. *)
Definition py_index {A} (l : list A) (i : nat) : result A :=
  match l !! i with
  | Some a => Ok a
  | None => Err IndexError
  end.

(** [arr[idx]] for an integer array [idx] (numpy fancy indexing): all the
    selected elements, or [IndexError] when one index is out of range. *)
Fixpoint py_take {A} (l : list A) (idx : list nat) : result (list A) :=
  match idx with
  | [] => Ok []
  | i :: idx' =>
      a <- py_index l i;;
      rest <- py_take l idx';;
      Ok (a :: rest)
  end.

(** [[f(x) for x in l]] for a fallible [f]: the first error stops the loop. *)
Fixpoint map_result {A B} (f : A -> result B) (l : list A) : result (list B) :=
  match l with
  | [] => Ok []
  | x :: l' => y <- f x;; ys <- map_result f l';; Ok (y :: ys)
  end.

(** [for x in l: acc = f(acc, x)]: a loop that threads a state. *)
Fixpoint for_each {S A} (f : S -> A -> result S) (l : list A) (acc : S) : result S :=
  match l with
  | [] => Ok acc
  | x :: l' => acc' <- f acc x;; for_each f l' acc'
  end.

(** Syntactic equality of rationals (numerator and denominator), for the
    records that hold them; [Qeq] is the coarser equality of values. *)
#[export] Instance Q_eq_dec : EqDecision Q.
Proof. solve_decision. Defined.

(** ** Automation *)

Create HintDb phot.
Create Rewrite HintDb phot_rw.

Ltac invc H := inversion H; subst; clear H.

(** Close a decidable proposition about closed data by evaluation, or a
    disequality of constructors. *)
Ltac decide_closed :=
  first [ reflexivity
        | (apply (bool_decide_unpack _); vm_compute; reflexivity)
        | (let Hc := fresh in intros Hc; vm_compute in Hc; discriminate Hc) ].

(** Case split on the membership of a closed list. *)
Ltac elem_cases H :=
  repeat (apply elem_of_cons in H as [H|H]; [subst|]);
  try (apply elem_of_nil in H; contradiction).

(** Split every [bind _ _ = Ok _] hypothesis into its two steps. *)
Ltac unbind :=
  repeat match goal with
  | H : bind _ _ = Ok _ |- _ =>
      apply bind_Ok in H; destruct H as (? & ? & H)
  | H : Ok _ = Ok _ |- _ => injection H as H
  end.

Lemma py_index_Ok {A} (l : list A) i a : py_index l i = Ok a <-> l !! i = Some a.
Proof.
  unfold py_index. destruct (l !! i); split; intros H; congruence.
Qed.

Lemma py_take_Ok {A} (l : list A) idx out :
  py_take l idx = Ok out <-> Forall2 (fun i a => l !! i = Some a) idx out.
Proof.
  revert out. induction idx as [|i idx IH]; intros out; simpl.
  - split; [intros [= <-]; constructor | intros H; invc H; reflexivity].
  - split.
    + intros H. unbind. subst. rewrite py_index_Ok in *.
      constructor; [assumption | apply IH; assumption].
    + intros H. invc H. apply bind_Ok. exists y.
      rewrite py_index_Ok. split; [assumption|].
      apply bind_Ok. exists l'. split; [apply IH; assumption | reflexivity].
Qed.

(** Fancy indexing succeeds exactly when every index is in range. *)
Lemma py_take_in_range {A} (l : list A) idx :
  Forall (fun i => i < length l) idx -> exists out, py_take l idx = Ok out.
Proof.
  induction 1 as [|i idx Hi _ [out IH]]; simpl; [eauto|].
  destruct (lookup_lt_is_Some_2 l i Hi) as [a Ha].
  exists (a :: out). unfold py_index. rewrite Ha. simpl. rewrite IH. reflexivity.
Qed.

#[export] Hint Resolve py_take_in_range : phot.

Lemma map_result_Ok {A B} (f : A -> result B) l ys :
  map_result f l = Ok ys <-> Forall2 (fun x y => f x = Ok y) l ys.
Proof.
  revert ys. induction l as [|x l IH]; intros ys; simpl.
  - split; [intros [= <-]; constructor | intros H; invc H; reflexivity].
  - split.
    + intros H. unbind. subst. constructor; [assumption | apply IH; assumption].
    + intros H. invc H. rewrite H2. simpl.
      apply bind_Ok. exists l'. split; [apply IH; assumption | reflexivity].
Qed.

Lemma map_result_ext {A B} (f g : A -> result B) l :
  (forall x, x ∈ l -> f x = g x) -> map_result f l = map_result g l.
Proof.
  induction l as [|x l IH]; intros Hfg; simpl; [reflexivity|].
  rewrite Hfg by apply list_elem_of_here.
  rewrite IH by (intros y Hy; apply Hfg; apply list_elem_of_further, Hy). reflexivity.
Qed.

Lemma Forall2_Forall_r_in {A B} (R : A -> B -> Prop) (P : B -> Prop) l l' :
  Forall2 R l l' -> (forall x y, x ∈ l -> R x y -> P y) -> Forall P l'.
Proof.
  induction 1 as [|x y l l' Hxy _ IH]; intros HP; constructor.
  - apply (HP x y); [apply list_elem_of_here | exact Hxy].
  - apply IH. intros x' y' Hx'. apply HP. apply list_elem_of_further, Hx'.
Qed.

(** A loop whose steps can only fail with [e] fails with [e] when one does. *)
Lemma map_result_one_Err {A B} (f : A -> result B) l x e :
  (forall y, y ∈ l -> (exists b, f y = Ok b) \/ f y = Err e) ->
  x ∈ l -> f x = Err e -> map_result f l = Err e.
Proof.
  intros Hall Hx Hfx. induction l as [|y l IH]; [apply elem_of_nil in Hx; contradiction|].
  simpl. destruct (Hall y (list_elem_of_here _ _)) as [[b Hb]|Hb]; rewrite Hb; simpl; [|reflexivity].
  apply elem_of_cons in Hx as [->|Hx]; [congruence|].
  rewrite IH; [reflexivity| |exact Hx]. intros z Hz. apply Hall, list_elem_of_further, Hz.
Qed.

(** A loop over a list of successful steps succeeds. *)
Lemma map_result_total {A B} (f : A -> result B) l :
  Forall (fun x => exists y, f x = Ok y) l -> exists ys, map_result f l = Ok ys.
Proof.
  induction 1 as [|x l [y Hy] _ [ys IH]]; simpl; [eauto|].
  rewrite Hy. simpl. rewrite IH. eauto.
Qed.

(** The first failing step of a loop stops it with its error. *)
Lemma map_result_Err {A B} (f : A -> result B) l1 x l2 e :
  Forall (fun x => exists y, f x = Ok y) l1 -> f x = Err e ->
  map_result f (l1 ++ x :: l2) = Err e.
Proof.
  intros Hok Hx. induction Hok as [|x' l1 [y Hy] _ IH]; simpl.
  - rewrite Hx. reflexivity.
  - rewrite Hy. simpl. rewrite IH. reflexivity.
Qed.

(** ** Lists *)

Lemma concat_Permutation {A} (ls ls' : list (list A)) :
  ls ≡ₚ ls' -> concat ls ≡ₚ concat ls'.
Proof.
  induction 1; simpl.
  - reflexivity.
  - apply Permutation_app_head. assumption.
  - rewrite !app_assoc. apply Permutation_app_tail, Permutation_app_comm.
  - etrans; eassumption.
Qed.

Lemma elem_of_concat {A} (x : A) (ls : list (list A)) :
  x ∈ concat ls <-> exists l, x ∈ l /\ l ∈ ls.
Proof.
  rewrite list_elem_of_In, in_concat.
  split; intros [l [H1 H2]]; exists l; rewrite !list_elem_of_In in *; tauto.
Qed.

Lemma Forall2_map_l {A B C} (P : B -> C -> Prop) (f : A -> B) l k :
  Forall2 P (map f l) k <-> Forall2 (fun x y => P (f x) y) l k.
Proof.
  revert k. induction l as [|x l IH]; intros [|y k]; simpl;
    split; intros H; inversion H; subst; constructor; try apply IH; assumption.
Qed.

(** Fancy indexing with an out-of-range index raises [IndexError]. *)
Lemma py_take_out_of_range {A} (l : list A) idx :
  Exists (fun i => length l <= i) idx -> py_take l idx = Err IndexError.
Proof.
  induction idx as [|i idx IH]; intros Hex; [inversion Hex|]. simpl. unfold py_index.
  destruct (l !! i) eqn:Hi; simpl; [|reflexivity].
  apply Exists_cons in Hex as [Hge|Hex].
  - apply lookup_ge_None_2 in Hge. congruence.
  - rewrite IH by exact Hex. reflexivity.
Qed.

Lemma elem_of_map {A B} (f : A -> B) (l : list A) (y : B) :
  y ∈ map f l <-> exists x, y = f x /\ x ∈ l.
Proof.
  rewrite list_elem_of_In, in_map_iff.
  split; intros (x & Hx & Hin); exists x; rewrite list_elem_of_In in *; auto.
Qed.

Lemma NoDup_map_inj {A B} (f : A -> B) (l : list A) :
  (forall x y, f x = f y -> x = y) -> NoDup l -> NoDup (map f l).
Proof.
  intros Hinj Hnd. induction Hnd as [|x l Hx Hnd IH]; simpl; constructor; [|exact IH].
  intros Hin. apply Hx. apply elem_of_map in Hin as (y & Hy & Hin).
  rewrite (Hinj x y Hy). exact Hin.
Qed.

Lemma lookup_map {A B} (f : A -> B) (l : list A) i : map f l !! i = f <$> l !! i.
Proof. revert i. induction l as [|x l IH]; intros [|i]; simpl; auto. Qed.

Lemma filter_all_true {A} (f : A -> bool) (l : list A) :
  (forall x, x ∈ l -> f x = true) -> List.filter f l = l.
Proof.
  induction l as [|x l IH]; intros Hall; simpl; [reflexivity|].
  rewrite (Hall x (list_elem_of_here _ _)), IH; [reflexivity|].
  intros y Hy. apply Hall, elem_of_cons. right. exact Hy.
Qed.

Lemma sublist_map {A B} (f : A -> B) (l1 l2 : list A) :
  l1 `sublist_of` l2 -> map f l1 `sublist_of` map f l2.
Proof.
  induction 1; simpl; [constructor | apply sublist_skip | apply sublist_cons]; assumption.
Qed.

Lemma zip_with_fmap_same {A B C D} (h : B -> C -> D) (f : A -> B) (g : A -> C) (l : list A) :
  zip_with h (f <$> l) (g <$> l) = (fun x => h (f x) (g x)) <$> l.
Proof. induction l as [|x l IH]; [reflexivity|]. cbn. rewrite IH. reflexivity. Qed.

Lemma for_each_nil {S A} (f : S -> A -> result S) acc : for_each f [] acc = Ok acc.
Proof. reflexivity. Qed.

Lemma for_each_cons {S A} (f : S -> A -> result S) x l acc :
  for_each f (x :: l) acc = (acc' <- f acc x;; for_each f l acc').
Proof. reflexivity. Qed.

(** A loop whose every iteration appends to two accumulated lists
    appends their concatenations. *)
Lemma for_each_append2 {A B C} (f : list B * list C -> A -> result (list B * list C))
    (a : A -> list B) (b : A -> list C) l acc :
  (forall acc x, x ∈ l -> f acc x = Ok (acc.1 ++ a x, acc.2 ++ b x)) ->
  for_each f l acc = Ok (acc.1 ++ concat (a <$> l), acc.2 ++ concat (b <$> l)).
Proof.
  revert acc. induction l as [|x l IH]; intros acc Hf.
  - cbn. rewrite !app_nil_r. destruct acc. reflexivity.
  - cbn [for_each]. rewrite (Hf acc x (list_elem_of_here _ _)). cbn [bind].
    rewrite IH by (intros acc' y Hy; apply Hf, list_elem_of_further, Hy). cbn [fst snd].
    rewrite !fmap_cons. cbn [concat]. rewrite !app_assoc. reflexivity.
Qed.

(** A loop whose iterations either succeed or raise [e], one of them
    raising [e] whatever the state, raises [e]. *)
Lemma for_each_Err {S A} (f : S -> A -> result S) l acc e :
  (forall acc x, x ∈ l -> (exists acc', f acc x = Ok acc') \/ f acc x = Err e) ->
  (exists x, x ∈ l /\ forall acc, f acc x = Err e) ->
  for_each f l acc = Err e.
Proof.
  revert acc. induction l as [|x l IH]; intros acc Hf (y & Hy & Hye); [apply elem_of_nil in Hy; contradiction|].
  cbn [for_each]. destruct (Hf acc x (list_elem_of_here _ _)) as [[acc' Hx]|Hx]; rewrite Hx; [|reflexivity].
  cbn [bind]. apply elem_of_cons in Hy as [->|Hy]; [congruence|].
  apply IH; [intros acc'' z Hz; apply Hf, list_elem_of_further, Hz | eauto].
Qed.

(** ** Strings *)

Lemma str_app_cons c s t : String c s +:+ t = String c (s +:+ t).
Proof. reflexivity. Qed.

Lemma str_app_nil_r s : s +:+ EmptyString = s.
Proof. induction s as [|c s IH]; [reflexivity | rewrite str_app_cons, IH; reflexivity]. Qed.

Lemma str_app_assoc s t u : s +:+ (t +:+ u) = (s +:+ t) +:+ u.
Proof. induction s as [|c s IH]; [reflexivity | rewrite !str_app_cons, IH; reflexivity]. Qed.

Lemma str_length_app s t : String.length (s +:+ t) = String.length s + String.length t.
Proof. induction s as [|c s IH]; simpl; [reflexivity | rewrite IH; reflexivity]. Qed.

(** Appending two characters is appending one, then the other. *)
Lemma str_app_two c a b :
  c +:+ String a (String b EmptyString) = (c +:+ String a EmptyString) +:+ String b EmptyString.
Proof. rewrite <- str_app_assoc. reflexivity. Qed.

#[export] Hint Rewrite str_app_cons str_app_nil_r str_length_app : phot_rw.
