(* ===== verification/PyString.v ===== *)
(** Python's [str.replace(old, new)] and substring test [old in s], as the
    column tidy-up of the standard-photometry notebook uses them
    (src/unnamed/part_000, line 122:
    [col.replace('_2', '_b').replace('_3', '_y')]).  CPython scans the
    string from the left and replaces every non-overlapping occurrence; with
    an empty [old] it inserts [new] around every character.  The scan is a
    structural recursion that carries the number of characters of the last
    match still to skip. *)

From S2P Require Import Prelude.

Module PyString.

Local Open Scope string_scope.

(** [old in s]. *)
Fixpoint occurs (old s : string) : bool :=
  match s with
  | EmptyString => String.prefix old s
  | String _ s' => String.prefix old s || occurs old s'
  end.

(** The left-to-right scan for a non-empty [old]: [skip] characters of the
    previous match are still to be consumed. *)
Fixpoint replace_scan (old new : string) (skip : nat) (s : string) : string :=
  match s with
  | EmptyString => EmptyString
  | String c s' =>
      match skip with
      | S k => replace_scan old new k s'
      | O =>
          if String.prefix old s
          then new +:+ replace_scan old new (String.length old - 1) s'
          else String c (replace_scan old new 0 s')
      end
  end.

(** [new] before every character and at the end (the empty pattern). *)
Fixpoint interleave (new s : string) : string :=
  match s with
  | EmptyString => new
  | String c s' => new +:+ String c (interleave new s')
  end.

Definition str_replace (old new s : string) : string :=
  match old with
  | EmptyString => interleave new s
  | String _ _ => replace_scan old new 0 s
  end.

(** No match of [old] starts inside [s] in [s ++ t]. *)
Fixpoint no_match_before (old s t : string) : bool :=
  match s with
  | EmptyString => true
  | String c s' => negb (String.prefix old (String c (s' +:+ t))) && no_match_before old s' t
  end.

Lemma prefix_two u v c s :
  String.prefix (String u (String v EmptyString)) (String c s) = true <->
  c = u /\ exists s', s = String v s'.
Proof.
  simpl. destruct (Ascii.ascii_dec u c) as [<-|Hne].
  - destruct s as [|d s']; simpl.
    + split; [discriminate | intros [_ [s' Hs]]; discriminate].
    + destruct (Ascii.ascii_dec v d) as [<-|Hvd].
      * split; [eauto | intros _; destruct s'; reflexivity].
      * split; [discriminate | intros [_ [s'' Hs]]; injection Hs as ->; contradiction].
  - split; [discriminate | intros [-> _]; contradiction].
Qed.

Lemma occurs_cons old c s : occurs old s = true -> occurs old (String c s) = true.
Proof. intros H. simpl. rewrite H. apply orb_true_r. Qed.

(** A two-character pattern that does not occur in [s] and cannot straddle
    the boundary (the next character is not its second one) leaves [s] as it
    is and replaces in the rest. *)
Lemma replace_scan_app_two u v new s t :
  occurs (String u (String v EmptyString)) s = false ->
  (forall t', t <> String v t') ->
  replace_scan (String u (String v EmptyString)) new 0 (s +:+ t) =
  s +:+ replace_scan (String u (String v EmptyString)) new 0 t.
Proof.
  intros Hs Ht. induction s as [|c s IH]; [reflexivity|].
  cbn [occurs] in Hs. apply orb_false_iff in Hs as [Hpre Hs].
  rewrite str_app_cons. cbn [replace_scan].
  destruct (String.prefix (String u (String v EmptyString)) (String c (s +:+ t))) eqn:E.
  - exfalso. apply prefix_two in E as [-> [s' Hs']].
    destruct s as [|d s0]; rewrite ?str_app_cons in Hs'.
    + exact (Ht s' Hs').
    + injection Hs' as -> _.
      assert (Hp : String.prefix (String u (String v EmptyString)) (String u (String v s0)) = true)
        by (apply prefix_two; eauto).
      congruence.
  - rewrite IH by exact Hs. reflexivity.
Qed.

Lemma replace_scan_self_two u v new :
  replace_scan (String u (String v EmptyString)) new 0 (String u (String v EmptyString)) = new.
Proof.
  cbn. destruct (Ascii.ascii_dec u u) as [_|]; [|contradiction].
  destruct (Ascii.ascii_dec v v) as [_|]; [|contradiction].
  cbn. apply str_app_nil_r.
Qed.

Lemma prefix_app s u : String.prefix s (s +:+ u) = true.
Proof.
  induction s as [|c s IH]; [destruct u; reflexivity|]. rewrite str_app_cons. cbn.
  destruct (Ascii.ascii_dec c c); [exact IH | contradiction].
Qed.

(** The scan copies a part where no match starts. *)
Lemma replace_scan_no_match old new s t :
  no_match_before old s t = true ->
  replace_scan old new 0 (s +:+ t) = s +:+ replace_scan old new 0 t.
Proof.
  induction s as [|c s IH]; [reflexivity|]. cbn [no_match_before].
  intros [Hp Hs]%andb_true_iff. apply negb_true_iff in Hp.
  rewrite str_app_cons. cbn [replace_scan]. rewrite Hp, IH by exact Hs. reflexivity.
Qed.

(** The characters of a match still to skip are skipped. *)
Lemma replace_scan_skip old new p u :
  replace_scan old new (String.length p) (p +:+ u) = replace_scan old new 0 u.
Proof. induction p as [|c p IH]; [reflexivity|]. rewrite str_app_cons. exact IH. Qed.

(** A match at the start is replaced and skipped. *)
Lemma replace_scan_match old new u :
  old <> EmptyString ->
  replace_scan old new 0 (old +:+ u) = new +:+ replace_scan old new 0 u.
Proof.
  destruct old as [|c o]; [congruence|]. intros _.
  rewrite str_app_cons. cbn [replace_scan]. rewrite <- str_app_cons, prefix_app.
  replace (String.length (String c o) - 1) with (String.length o) by (cbn; lia).
  rewrite replace_scan_skip. reflexivity.
Qed.

(** Replacing a pattern that occurs only at the end. *)
Lemma str_replace_suffix old new s :
  old <> EmptyString -> no_match_before old s old = true ->
  str_replace old new (s +:+ old) = s +:+ new.
Proof.
  intros Hne Hs. destruct old as [|c o]; [congruence|]. unfold str_replace.
  rewrite replace_scan_no_match by exact Hs.
  rewrite <- (str_app_nil_r (String c o)) at 2. rewrite replace_scan_match by exact Hne.
  rewrite str_app_nil_r. reflexivity.
Qed.

(** Replacing a pattern that occurs once. *)
Lemma str_replace_once old new p r :
  old <> EmptyString -> no_match_before old p (old +:+ r) = true ->
  no_match_before old r EmptyString = true ->
  str_replace old new (p +:+ old +:+ r) = p +:+ new +:+ r.
Proof.
  intros Hne Hp Hr. destruct old as [|c o]; [congruence|]. unfold str_replace.
  rewrite replace_scan_no_match by exact Hp. rewrite replace_scan_match by exact Hne.
  rewrite <- (str_app_nil_r r) at 1. rewrite replace_scan_no_match by exact Hr.
  rewrite str_app_nil_r. reflexivity.
Qed.

End PyString.
