(* ===== verification/PySlice.v ===== *)
(** Python's integer conversion, [range], integer indexing and slicing, as
    the notebooks use them on lists and numpy arrays: [int(y - r)] in the
    stamp of src/notebooks/photutils.ipynb (lines 747-760), the pixel window
    [range(x_cen - r, x_cen + r)] and [image[y][x]] (lines 376-390), and the
    trimming slice [valid_area = slice(0, 4096), slice(53, 2101)] of
    src/unnamed/part_001 (lines 82-83, 111, 207, 214).

    Slicing follows CPython's [PySlice_AdjustIndices] for a step of 1: a
    negative bound counts from the end, and both bounds are clamped to the
    length.  Integer indexing counts a negative index once from the end and
    raises [IndexError] outside.  [int] of a float truncates toward zero. *)

From S2P Require Import Prelude.
From Stdlib Require Import Qround.

Module PySlice.

(** [int(x)] for a float [x]: truncation toward zero. *)
Definition py_int (x : Q) : Z := Z.quot (Qnum x) (Zpos (Qden x)).

(** [range(a, b)]. *)
Definition py_range (a b : Z) : list Z :=
  map (fun k => (a + Z.of_nat k)%Z) (seq 0 (Z.to_nat (b - a))).

(** One bound of [l[start:stop]] on a sequence of length [n]. *)
Definition slice_bound (n : nat) (i : Z) : nat :=
  if (i <? 0)%Z then Z.to_nat (Z.max 0 (i + Z.of_nat n))
  else Nat.min (Z.to_nat i) n.

(** [l[start:stop]]. *)
Definition py_slice {A} (l : list A) (start stop : Z) : list A :=
  let s := slice_bound (length l) start in
  let e := slice_bound (length l) stop in
  take (e - s) (drop s l).

(** [m[r0:r1, c0:c1]] on a 2-D array stored as its list of rows. *)
Definition py_slice2 {A} (m : list (list A)) (r0 r1 c0 c1 : Z) : list (list A) :=
  (fun row => py_slice row c0 c1) <$> py_slice m r0 r1.

(** [l[i]] for an integer [i]. *)
Definition py_getitem {A} (l : list A) (i : Z) : result A :=
  let j := if (i <? 0)%Z then (i + Z.of_nat (length l))%Z else i in
  if (j <? 0)%Z then Err IndexError else py_index l (Z.to_nat j).

(** ** Lemmas *)

Lemma py_int_nonneg x : (0 <= x)%Q -> py_int x = Qfloor x.
Proof.
  destruct x as [n d]. unfold py_int, Qfloor, Qle; simpl. intros H.
  apply Z.quot_div_nonneg; lia.
Qed.

(** Truncation toward zero: [int(x)] is [0] on (-1, 1). *)
Lemma py_int_small x : (-1 < x)%Q -> (x < 1)%Q -> py_int x = 0%Z.
Proof.
  destruct x as [n d]. unfold py_int, Qlt; simpl. intros H1 H2.
  apply Z.quot_small_iff; [lia|]. lia.
Qed.

Lemma py_int_neg x : (x <= -1)%Q -> (py_int x < 0)%Z.
Proof.
  destruct x as [n d]. unfold py_int, Qle; simpl. intros H.
  assert (Hq : (Z.quot (- n) (Z.pos d) >= 1)%Z).
  { apply Z.le_ge. apply Z.quot_le_lower_bound; lia. }
  rewrite Z.quot_opp_l in Hq by lia. lia.
Qed.

Lemma py_int_opp x : py_int (- x) = (- py_int x)%Z.
Proof. destruct x as [n d]. unfold py_int. cbn [Qopp Qnum Qden]. apply Z.quot_opp_l. lia. Qed.

Lemma py_int_inject_Z z : py_int (inject_Z z) = z.
Proof. unfold py_int. cbn. apply Z.quot_1_r. Qed.

(** Truncation is monotone on the non-negative rationals. *)
Lemma py_int_le_nonneg x y : (0 <= x)%Q -> (x <= y)%Q -> (py_int x <= py_int y)%Z.
Proof.
  intros Hx Hxy. rewrite !py_int_nonneg by lra. apply Qfloor_resp_le, Hxy.
Qed.

(** [int(x)] of [x] between two integers of one sign lies between them. *)
Lemma py_int_between_nonneg (m M : Z) x :
  (0 <= m)%Z -> (inject_Z m <= x)%Q -> (x <= inject_Z M)%Q -> (m <= py_int x <= M)%Z.
Proof.
  intros Hm Hl Hu. assert (H0 : (0 <= inject_Z m)%Q) by (change 0%Q with (inject_Z 0); rewrite <- Zle_Qle; exact Hm).
  split.
  - rewrite <- (py_int_inject_Z m). apply py_int_le_nonneg; lra.
  - rewrite <- (py_int_inject_Z M). apply py_int_le_nonneg; lra.
Qed.

Lemma py_int_between_nonpos (m M : Z) x :
  (M <= 0)%Z -> (inject_Z m <= x)%Q -> (x <= inject_Z M)%Q -> (m <= py_int x <= M)%Z.
Proof.
  intros HM Hl Hu.
  assert (Hb : (- M <= py_int (- x) <= - m)%Z).
  { apply py_int_between_nonneg; [lia | rewrite inject_Z_opp; lra | rewrite inject_Z_opp; lra]. }
  rewrite py_int_opp in Hb. lia.
Qed.

Lemma py_range_length a b : length (py_range a b) = Z.to_nat (b - a).
Proof. unfold py_range. rewrite length_map, length_seq. reflexivity. Qed.

Lemma elem_of_py_range a b k : k ∈ py_range a b <-> (a <= k < b)%Z.
Proof.
  unfold py_range. rewrite elem_of_map. split.
  - intros (j & -> & Hj). apply list_elem_of_In, in_seq in Hj. lia.
  - intros Hk. exists (Z.to_nat (k - a)). split; [lia|].
    apply list_elem_of_In, in_seq. lia.
Qed.

Lemma lookup_py_range a b j :
  (j < Z.to_nat (b - a))%nat -> py_range a b !! j = Some (a + Z.of_nat j)%Z.
Proof.
  intros Hj. unfold py_range. rewrite list_lookup_fmap, lookup_seq_lt by exact Hj.
  reflexivity.
Qed.

Lemma slice_bound_le n i : slice_bound n i <= n.
Proof. unfold slice_bound. destruct (i <? 0)%Z eqn:E; lia. Qed.

Lemma slice_bound_in_range n i : (0 <= i <= Z.of_nat n)%Z -> slice_bound n i = Z.to_nat i.
Proof. unfold slice_bound. intros H. destruct (i <? 0)%Z eqn:E; lia. Qed.

(** A negative bound [i] with [-n <= i] counts from the end. *)
Lemma slice_bound_neg n i : (- Z.of_nat n <= i < 0)%Z -> slice_bound n i = Z.to_nat (i + Z.of_nat n).
Proof. unfold slice_bound. intros H. destruct (i <? 0)%Z eqn:E; lia. Qed.

Lemma length_py_slice {A} (l : list A) s e :
  length (py_slice l s e) = slice_bound (length l) e - slice_bound (length l) s.
Proof.
  unfold py_slice. rewrite length_take, length_drop.
  pose proof (slice_bound_le (length l) e). lia.
Qed.

Lemma lookup_py_slice {A} (l : list A) s e k :
  k < slice_bound (length l) e - slice_bound (length l) s ->
  py_slice l s e !! k = l !! (slice_bound (length l) s + k).
Proof.
  intros Hk. unfold py_slice. rewrite lookup_take_lt by lia. apply lookup_drop.
Qed.

Lemma py_getitem_nonneg {A} (l : list A) (i : Z) :
  (0 <= i)%Z -> py_getitem l i = py_index l (Z.to_nat i).
Proof.
  intros Hi. unfold py_getitem. destruct (i <? 0)%Z eqn:E; [lia|].
  rewrite E. reflexivity.
Qed.

(** A negative index [i] with [-n <= i] reads the element [n + i]. *)
Lemma py_getitem_neg {A} (l : list A) (i : Z) :
  (- Z.of_nat (length l) <= i < 0)%Z ->
  py_getitem l i = py_index l (Z.to_nat (i + Z.of_nat (length l))).
Proof.
  intros Hi. unfold py_getitem. destruct (i <? 0)%Z eqn:E; [|lia].
  destruct (i + Z.of_nat (length l) <? 0)%Z eqn:E'; [lia|]. reflexivity.
Qed.

Lemma py_getitem_Ok {A} (l : list A) (i : Z) a :
  py_getitem l i = Ok a ->
  (- Z.of_nat (length l) <= i < Z.of_nat (length l))%Z.
Proof.
  unfold py_getitem, py_index. intros H.
  destruct (i <? 0)%Z eqn:E;
    destruct (_ <? 0)%Z eqn:E' in H; [discriminate| |discriminate|];
    destruct (l !! _) eqn:Hl in H; try discriminate;
    apply lookup_lt_Some in Hl; lia.
Qed.

(** The position [l[i]] reads. *)
Definition wrap_index (n : nat) (i : Z) : Z := if (i <? 0)%Z then (i + Z.of_nat n)%Z else i.

Lemma py_getitem_in_range {A} (l : list A) (i : Z) (d : A) :
  (- Z.of_nat (length l) <= i < Z.of_nat (length l))%Z ->
  py_getitem l i = Ok (nth (Z.to_nat (wrap_index (length l) i)) l d).
Proof.
  intros Hi. unfold py_getitem, wrap_index.
  set (j := if (i <? 0)%Z then (i + Z.of_nat (length l))%Z else i).
  assert (Hj : (0 <= j < Z.of_nat (length l))%Z) by (unfold j; destruct (i <? 0)%Z eqn:E; lia).
  destruct (j <? 0)%Z eqn:E; [lia|]. unfold py_index.
  destruct (lookup_lt_is_Some_2 l (Z.to_nat j)) as [a Ha]; [lia|].
  rewrite Ha, (nth_lookup_Some l _ d a Ha). reflexivity.
Qed.

Lemma py_getitem_ge {A} (l : list A) (i : Z) :
  (Z.of_nat (length l) <= i)%Z -> py_getitem l i = Err IndexError.
Proof.
  intros Hi. unfold py_getitem, py_index. destruct (i <? 0)%Z eqn:E; [lia|].
  destruct (i <? 0)%Z; [lia|]. rewrite lookup_ge_None_2 by lia. reflexivity.
Qed.

(** Slicing only looks at the length of the sequence. *)
#[export] Instance py_slice_proper {A} `{Equiv A} :
  Proper ((≡@{list A}) ==> (=) ==> (=) ==> (≡)) py_slice.
Proof.
  intros l l' Hl s ? <- e ? <-. unfold py_slice.
  rewrite (length_proper l l' Hl). apply (take_proper _), (drop_proper _), Hl.
Qed.

#[export] Instance py_slice2_proper {A} `{Equiv A} :
  Proper ((≡@{list (list A)}) ==> (=) ==> (=) ==> (=) ==> (=) ==> (≡)) py_slice2.
Proof.
  intros m m' Hm r0 ? <- r1 ? <- c0 ? <- c1 ? <-. unfold py_slice2.
  apply list_fmap_proper; [|apply py_slice_proper; auto].
  intros row row' Hrow. apply py_slice_proper; auto.
Qed.

End PySlice.
