(* ===== verification/Stats.v ===== *)
(** The statistics the notebooks take of pixel values and source columns:
    [np.median] and [median_absolute_deviation] (src/notebooks/photutils.ipynb
    lines 252-255, 820-822), [np.mean] (lines 820, src/unnamed/part_001 line
    139), and the pixelwise median of [ccdproc.combine(..., method='median')]
    (src/unnamed/part_001 lines 78-80, 144-146, 179-181).

    Values are rationals (the float rounding is not modelled); numpy's nan for
    the statistic of no value is [None].  The median sorts the values (in
    lowest terms, which changes no value) and takes the middle one, or the
    mean of the two middle ones for an even count, as [np.median] does.
    [sigma_clip] is astropy's iterated clipping (photutils 165, 842-846),
    with [maxiters] as its bound; [sigma_clip_converges] shows that more
    passes than values reach a list that clipping leaves unchanged. *)

From S2P Require Import Prelude.

Module Stats.

#[export] Instance Qle_rel_dec : RelDecision Qle.
Proof.
  intros x y. destruct (Qle_bool x y) eqn:E.
  - left. apply Qle_bool_iff, E.
  - right. intros H. apply Qle_bool_iff in H. congruence.
Defined.

#[export] Instance Qle_Transitive : Transitive Qle.
Proof. intros x y z. apply Qle_trans. Qed.

#[export] Instance Qle_Total : Total Qle.
Proof. intros x y. destruct (Qlt_le_dec x y); [left; lra | right; exact q]. Qed.

(** [np.sort]. *)
Definition q_sort (l : list Q) : list Q := merge_sort Qle (map Qred l).

Definition q_sum (l : list Q) : Q := foldr Qplus 0%Q l.

(** [np.median]. *)
Definition np_median (l : list Q) : option Q :=
  let s := q_sort l in
  let n := length s in
  if n =? 0 then None
  else if Nat.even n then Some ((nth (n / 2 - 1) s 0 + nth (n / 2) s 0) / 2)%Q
  else Some (nth (n / 2) s 0%Q).

(** [np.mean]. *)
Definition np_mean (l : list Q) : option Q :=
  match l with
  | [] => None
  | _ :: _ => Some (q_sum l / inject_Z (Z.of_nat (length l)))%Q
  end.

(** [np.var]: the mean squared deviation from the mean ([np.std] is its
    square root). *)
Definition np_var (l : list Q) : option Q :=
  m ← np_mean l; np_mean (map (fun x => (x - m) * (x - m))%Q l).

(** One pass of astropy's [sigma_clip]: keep the values within [sigma]
    standard deviations of the median, [|x - median| <= sigma * std], which
    for [sigma >= 0] is [(x - median)^2 <= sigma^2 * var]. *)
Definition clip_pass (sigma : Q) (l : list Q) : list Q :=
  match np_median l, np_var l with
  | Some m, Some v => List.filter (fun x => Qle_bool ((x - m) * (x - m)) (sigma * sigma * v)) l
  | _, _ => l
  end.

(** [sigma_clip(data, sigma, maxiters)]: passes until one removes nothing,
    at most [maxiters] of them. *)
Fixpoint sigma_clip (sigma : Q) (maxiters : nat) (l : list Q) : list Q :=
  match maxiters with
  | O => l
  | S n =>
      let l' := clip_pass sigma l in
      if length l' =? length l then l' else sigma_clip sigma n l'
  end.

(** astropy's [median_absolute_deviation]: [median(abs(x - median(x)))]. *)
Definition median_absolute_deviation (l : list Q) : option Q :=
  m ← np_median l; np_median (map (fun x => Qabs (x - m)) l).

(** ** Lemmas *)

Lemma q_sort_Permutation l : q_sort l ≡ₚ map Qred l.
Proof. apply merge_sort_Permutation. Qed.

Lemma q_sort_Sorted l : Sorted Qle (q_sort l).
Proof. apply Sorted_merge_sort. exact Qle_Total. Qed.

Lemma length_q_sort l : length (q_sort l) = length l.
Proof. rewrite (Permutation_length (q_sort_Permutation l)), length_map. reflexivity. Qed.

Lemma elem_of_q_sort l x : x ∈ q_sort l -> exists y, y ∈ l /\ x = Qred y.
Proof. rewrite (q_sort_Permutation l), elem_of_map. intros (y & -> & Hy). eauto. Qed.

(** The sort does not depend on the order of its input. *)
Lemma q_sort_perm l1 l2 : l1 ≡ₚ l2 -> q_sort l1 = q_sort l2.
Proof.
  intros Hp. apply (@Sorted_unique_strong _ Qle _); [|apply q_sort_Sorted..|].
  - intros x1 x2 Hx1 Hx2 H12 H21.
    destruct (elem_of_q_sort _ _ Hx1) as (y1 & _ & ->).
    destruct (elem_of_q_sort _ _ Hx2) as (y2 & _ & ->).
    apply Qred_complete. rewrite !Qred_correct in *. lra.
  - rewrite !q_sort_Permutation, Hp. reflexivity.
Qed.

Lemma np_median_perm l1 l2 : l1 ≡ₚ l2 -> np_median l1 = np_median l2.
Proof. intros Hp. unfold np_median. rewrite (q_sort_perm l1 l2 Hp). reflexivity. Qed.

Lemma np_median_None l : np_median l = None <-> l = [].
Proof.
  unfold np_median. rewrite length_q_sort.
  destruct l as [|x l]; simpl; [split; reflexivity|].
  split; [|discriminate]. case_match; discriminate.
Qed.

(** A property of values that every value has, that survives [==] and the
    mean of two values, holds of the median. *)
Lemma np_median_convex (P : Q -> Prop) l m :
  (forall x y, x == y -> P x -> P y) ->
  (forall x y, P x -> P y -> P ((x + y) / 2)%Q) ->
  Forall P l -> np_median l = Some m -> P m.
Proof.
  intros Hext Hmid Hall. unfold np_median.
  set (s := q_sort l). set (n := length s).
  assert (Hs : forall i, i < n -> P (nth i s 0%Q)).
  { intros i Hi. destruct (elem_of_q_sort l (nth i s 0%Q)) as (y & Hy & Heq).
    - apply list_elem_of_In, nth_In. exact Hi.
    - rewrite Heq. apply (Hext y); [symmetry; apply Qred_correct|].
      rewrite Forall_forall in Hall. apply Hall, Hy. }
  destruct (n =? 0) eqn:E0; [discriminate|]. apply Nat.eqb_neq in E0.
  assert (Hlt : n / 2 < n) by (apply Nat.div_lt; lia).
  set (h := n / 2) in *.
  destruct (Nat.even n); intros Hm; injection Hm as <-; [apply Hmid; apply Hs; lia | apply Hs, Hlt].
Qed.

Lemma np_median_lower lo l m :
  Forall (fun x => lo <= x)%Q l -> np_median l = Some m -> (lo <= m)%Q.
Proof.
  apply np_median_convex; [intros x y -> ? | intros x y Hx Hy]; [assumption|].
  apply Qle_shift_div_l; [reflexivity | lra].
Qed.

Lemma np_median_upper hi l m :
  Forall (fun x => x <= hi)%Q l -> np_median l = Some m -> (m <= hi)%Q.
Proof.
  apply (np_median_convex (fun z => z <= hi)%Q); [intros x y -> ? | intros x y Hx Hy]; [assumption|].
  apply Qle_shift_div_r; [reflexivity | lra].
Qed.

Lemma np_median_const c l m :
  Forall (fun x => x == c) l -> np_median l = Some m -> m == c.
Proof.
  apply (np_median_convex (fun z => z == c)); [intros x y -> ? | intros x y Hx Hy]; [assumption|].
  rewrite Hx, Hy. field.
Qed.

Lemma np_median_Some l : l <> [] -> exists m, np_median l = Some m.
Proof.
  intros Hne. destruct (np_median l) as [m|] eqn:E; [eauto|].
  apply np_median_None in E. contradiction.
Qed.

Lemma median_absolute_deviation_nonneg l d :
  median_absolute_deviation l = Some d -> (0 <= d)%Q.
Proof.
  unfold median_absolute_deviation. destruct (np_median l) as [m|]; [|discriminate].
  apply (np_median_lower 0 (map (fun x => Qabs (x - m)) l)).
  apply Forall_forall. intros x Hx.
  apply elem_of_map in Hx as (y & -> & _). apply Qabs_nonneg.
Qed.

Lemma clip_pass_sublist sigma l : sublist (clip_pass sigma l) l.
Proof.
  unfold clip_pass. destruct (np_median l), (np_var l); try reflexivity.
  induction l as [|x l IH]; simpl; [constructor|].
  destruct (Qle_bool _ _); [apply sublist_skip|apply sublist_cons]; exact IH.
Qed.

(** Clipping only removes values, in order. *)
Lemma sigma_clip_sublist sigma n l : sublist (sigma_clip sigma n l) l.
Proof.
  revert l. induction n as [|n IH]; intros l; simpl; [reflexivity|].
  destruct (_ =? _); [apply clip_pass_sublist|].
  etrans; [apply IH | apply clip_pass_sublist].
Qed.

Lemma Qsq_nonneg x : (0 <= x * x)%Q.
Proof. nra. Qed.

(** Sums of a function over a list: linearity, as the moment arguments use. *)
Section Sums.
Context {A : Type}.
Implicit Types (f g : A -> Q) (l : list A).

Lemma q_sum_map_ext f g l : (forall a, f a == g a) -> q_sum (map f l) == q_sum (map g l).
Proof. intros H. induction l as [|a l IH]; simpl; [reflexivity|]. rewrite H, IH. reflexivity. Qed.

Lemma q_sum_map_ext_in f g l :
  (forall a, a ∈ l -> f a == g a) -> q_sum (map f l) == q_sum (map g l).
Proof.
  intros H. induction l as [|a l IH]; cbn [map]; unfold q_sum in *; cbn [foldr]; [reflexivity|].
  rewrite (H a (list_elem_of_here _ _)), IH; [reflexivity|].
  intros b Hb. apply H, list_elem_of_further, Hb.
Qed.

Lemma q_sum_map_nonneg f l : (forall a, 0 <= f a)%Q -> (0 <= q_sum (map f l))%Q.
Proof.
  intros H. induction l as [|a l IH]; cbn [map]; unfold q_sum in *; cbn [foldr]; [lra|].
  pose proof (H a). lra.
Qed.

(** A sum of squares is 0 only when every term is. *)
Lemma q_sum_sq_zero f l :
  q_sum (map (fun a => f a * f a)%Q l) == 0 -> forall a, a ∈ l -> f a == 0.
Proof.
  induction l as [|a l IH]; cbn [map]; unfold q_sum in *; cbn [foldr]; intros H b Hb;
    [apply elem_of_nil in Hb; contradiction|].
  pose proof (q_sum_map_nonneg (fun a => f a * f a)%Q l (fun a => Qsq_nonneg (f a))) as Hl.
  unfold q_sum in Hl. pose proof (Qsq_nonneg (f a)) as Ha.
  apply elem_of_cons in Hb as [->|Hb].
  - destruct (Qmult_integral (f a) (f a)); [lra | assumption..].
  - apply IH; [lra | exact Hb].
Qed.

Lemma q_sum_map_add f g l :
  q_sum (map (fun a => f a + g a)%Q l) == q_sum (map f l) + q_sum (map g l).
Proof. induction l as [|a l IH]; cbn [map]; unfold q_sum in *; cbn [foldr]; [ring|]. rewrite IH. ring. Qed.

Lemma q_sum_map_scale c f l : q_sum (map (fun a => c * f a)%Q l) == c * q_sum (map f l).
Proof. induction l as [|a l IH]; cbn [map]; unfold q_sum in *; cbn [foldr]; [ring|]. rewrite IH. ring. Qed.

Lemma q_sum_map_const c l : q_sum (map (fun _ => c) l) == inject_Z (Z.of_nat (length l)) * c.
Proof.
  induction l as [|a l IH]; [reflexivity|].
  change (length (a :: l)) with (S (length l)). rewrite Nat2Z.inj_succ, <- Z.add_1_r, inject_Z_plus.
  change (c + q_sum (map (fun _ => c) l) == (inject_Z (Z.of_nat (length l)) + inject_Z 1) * c).
  rewrite IH. ring.
Qed.

End Sums.

#[export] Hint Rewrite @q_sum_map_add @q_sum_map_scale @q_sum_map_const : phot_rw.

Lemma np_median_single x : np_median [x] = Some (Qred x).
Proof. reflexivity. Qed.

Lemma median_absolute_deviation_single x :
  median_absolute_deviation [x] = Some (Qred (Qabs (x - Qred x))).
Proof. reflexivity. Qed.

(** A sub-list as long as the list is the list itself. *)
Lemma sublist_same_length {A} (l1 l2 : list A) :
  sublist l1 l2 -> length l1 = length l2 -> l1 = l2.
Proof.
  induction 1 as [|x l1 l2 _ IH|x l1 l2 Hs _]; cbn [length]; intros Hl.
  - reflexivity.
  - f_equal. apply IH. lia.
  - apply sublist_length in Hs. lia.
Qed.

(** A pass that removes nothing leaves the list unchanged. *)
Lemma clip_pass_same_length sigma l :
  length (clip_pass sigma l) = length l -> clip_pass sigma l = l.
Proof. apply sublist_same_length, clip_pass_sublist. Qed.

(** [sigma_clip] converges: with more passes than values, the loop
    stops at a list that one more clipping pass leaves unchanged, because
    every pass that does not stop removes at least one value. *)
Theorem sigma_clip_converges sigma n l :
  length l < n -> clip_pass sigma (sigma_clip sigma n l) = sigma_clip sigma n l.
Proof.
  revert l. induction n as [|n IH]; intros l Hn; [lia|]. cbn [sigma_clip].
  pose proof (sublist_length _ _ (clip_pass_sublist sigma l)) as Hle.
  destruct (Nat.eqb_spec (length (clip_pass sigma l)) (length l)) as [Heq|Hne].
  - rewrite (clip_pass_same_length _ _ Heq). apply clip_pass_same_length, Heq.
  - apply IH. lia.
Qed.

Lemma sigma_clip_converges_witness :
  length [1; 2; 3; 100]%Q < 5 /\
  clip_pass 3 (sigma_clip 3 5 [1; 2; 3; 100]%Q) = sigma_clip 3 5 [1; 2; 3; 100]%Q.
Proof. split; [cbn; lia | apply sigma_clip_converges; cbn; lia]. Defined.

End Stats.
