(* ===== verification/Calibration.v ===== *)
(** The photometric calibration of src/unnamed/part_000: the rejection of
    the reference stars without a [b-y] colour (line 145), the linear fit
    [(b-y)_std = m * (b-y)_ins + b] by [scipy.stats.linregress] and the
    [final_b-y] column it gives every matched star (lines 193-196).

    [linregress] is modelled as scipy computes it: the means of both
    columns, the biased covariances [ssxm] and [ssxym] of [np.cov(x, y,
    bias=1)], [slope = ssxym / ssxm] and [intercept = ymean - slope * xmean].
    When every [x] is the same (an empty table included) [ssxm] is 0 and
    the notebook's scipy returns nan coefficients: that is [None].  The
    printed [stderr] and [rvalue] are not modelled. *)

From S2P Require Import Prelude Stats.

Module Calibration.

Import Stats.

(** The fitted line. *)
Record regression := mk_regression { slope : Q; intercept : Q }.

(** [phot_std[~phot_std['b-y'].mask]]: the rows whose [b-y] is present. *)
Section Reject.
Context {R : Type} (b_y : R -> option Q).

Definition reject_masked (rows : list R) : list R :=
  List.filter (fun r => match b_y r with Some _ => true | None => false end) rows.

End Reject.

(** [linregress(x, y)] of two columns of one table, given as the pairs
    [(x, y)] of its rows. *)
Definition linregress (pts : list (Q * Q)) : option regression :=
  xmean ← np_mean (fst <$> pts);
  ymean ← np_mean (snd <$> pts);
  let n := inject_Z (Z.of_nat (length pts)) in
  let ssxm := (q_sum ((fun p => (p.1 - xmean) * (p.1 - xmean)) <$> pts) / n)%Q in
  let ssxym := (q_sum ((fun p => (p.1 - xmean) * (p.2 - ymean)) <$> pts) / n)%Q in
  if Qeq_bool ssxm 0 then None
  else Some (mk_regression (ssxym / ssxm) (ymean - ssxym / ssxm * xmean)).

(** [fit = regression.intercept + regression.slope * x] and
    [phot_std_ins['final_b-y'] = fit]: every row with its calibrated
    colour, or [None] for nan coefficients. *)
Section Cell.
Context {R : Type} (mag_b_y b_y : R -> Q).

Definition calibration_cell (phot_std_ins : list R) : option (regression * list (R * Q)) :=
  regression ← linregress ((fun r => (mag_b_y r, b_y r)) <$> phot_std_ins);
  let fit := (fun r => (r, intercept regression + slope regression * mag_b_y r)%Q) <$> phot_std_ins in
  Some (regression, fit).

End Cell.

(** ** The least-squares objective *)

Definition residual (reg : regression) (p : Q * Q) : Q :=
  (p.2 - (intercept reg + slope reg * p.1))%Q.

(** The sum of squared residuals of a line. *)
Definition sse (reg : regression) (pts : list (Q * Q)) : Q :=
  q_sum (map (fun p => residual reg p * residual reg p)%Q pts).

(** ** Lemmas *)

Lemma np_mean_map {A} (f : A -> Q) (l : list A) :
  l <> [] -> np_mean (f <$> l) = Some (q_sum (f <$> l) / inject_Z (Z.of_nat (length l)))%Q.
Proof.
  destruct l as [|a l]; [congruence|]. intros _.
  rewrite <- (length_fmap f (a :: l)). reflexivity.
Qed.

Lemma inject_Z_length_pos {A} (l : list A) : l <> [] -> ~ inject_Z (Z.of_nat (length l)) == 0.
Proof.
  destruct l as [|a l]; [congruence|]. intros _ H. unfold Qeq in H. cbn [Qnum Qden inject_Z length] in H. rewrite Nat2Z.inj_succ in H. lia.
Qed.

(** The deviations from the mean sum to 0. *)
Lemma q_sum_deviation {A} (f : A -> Q) (l : list A) :
  l <> [] ->
  q_sum ((fun a => f a - q_sum (f <$> l) / inject_Z (Z.of_nat (length l))) <$> l)%Q == 0.
Proof.
  intros Hne. pose proof (inject_Z_length_pos l Hne) as Hn.
  set (c := (q_sum (f <$> l) / inject_Z (Z.of_nat (length l)))%Q).
  rewrite (q_sum_map_ext _ (fun a => f a + (-1) * c)%Q) by (intros; ring).
  rewrite q_sum_map_add, (q_sum_map_scale _ (fun _ => c)), q_sum_map_const.
  unfold c. change (q_sum (map f l)) with (q_sum (f <$> l)). field. exact Hn.
Qed.

(** The means and the sums of products of deviations, as the proofs name them. *)
Definition n_of (pts : list (Q * Q)) : Q := inject_Z (Z.of_nat (length pts)).
Definition xbar (pts : list (Q * Q)) : Q := (q_sum (fst <$> pts) / n_of pts)%Q.
Definition ybar (pts : list (Q * Q)) : Q := (q_sum (snd <$> pts) / n_of pts)%Q.
Definition sxx (pts : list (Q * Q)) : Q :=
  q_sum ((fun p => (p.1 - xbar pts) * (p.1 - xbar pts)) <$> pts)%Q.
Definition sxy (pts : list (Q * Q)) : Q :=
  q_sum ((fun p => (p.1 - xbar pts) * (p.2 - ybar pts)) <$> pts)%Q.

(** The [Some] case of [linregress]. *)
Lemma linregress_Some pts reg :
  linregress pts = Some reg ->
  pts <> [] /\ ~ sxx pts == 0 /\
  slope reg == sxy pts / sxx pts /\ intercept reg == ybar pts - sxy pts / sxx pts * xbar pts.
Proof.
  unfold linregress. destruct pts as [|p0 pts0] eqn:Ep; [discriminate|]. rewrite <- Ep.
  assert (Hne : pts <> []) by (rewrite Ep; discriminate).
  rewrite !np_mean_map by exact Hne. cbn [mbind option_bind].
  pose proof (inject_Z_length_pos pts Hne) as Hn. fold (n_of pts) in *.
  fold (xbar pts) (ybar pts). fold (sxx pts) (sxy pts).
  destruct (Qeq_bool _ 0) eqn:E; [discriminate|]. intros [= <-].
  apply Qeq_bool_neq in E. cbn [slope intercept].
  assert (Hs : ~ sxx pts == 0) by (intros H; apply E; rewrite H; field; exact Hn).
  split; [exact Hne|]. split; [exact Hs|]. split; [field; auto|].
  apply Qplus_comp; [reflexivity|]. apply Qopp_comp, Qmult_comp; [field; auto | reflexivity].
Qed.

Lemma q_sum_dev_x pts : pts <> [] -> q_sum ((fun p => p.1 - xbar pts)%Q <$> pts) == 0.
Proof. apply (q_sum_deviation fst). Qed.

Lemma q_sum_dev_y pts : pts <> [] -> q_sum ((fun p => p.2 - ybar pts)%Q <$> pts) == 0.
Proof. apply (q_sum_deviation snd). Qed.

Section Fitted.
Context (pts : list (Q * Q)) (reg : regression) (Hreg : linregress pts = Some reg).

Lemma residual_centred p :
  residual reg p == (p.2 - ybar pts) + (- slope reg) * (p.1 - xbar pts).
Proof.
  destruct (linregress_Some _ _ Hreg) as (_ & _ & Hs & Hi).
  unfold residual. rewrite Hi, <- Hs. ring.
Qed.

(** The first normal equation: the residuals sum to 0. *)
Lemma sum_residual : q_sum (residual reg <$> pts) == 0.
Proof.
  destruct (linregress_Some _ _ Hreg) as (Hne & _).
  rewrite (q_sum_map_ext _ _ _ residual_centred), q_sum_map_add, q_sum_map_scale.
  rewrite (q_sum_dev_x pts Hne), (q_sum_dev_y pts Hne). ring.
Qed.

(** The second normal equation: the residuals are orthogonal to [x]. *)
Lemma sum_residual_x : q_sum ((fun p => residual reg p * p.1)%Q <$> pts) == 0.
Proof.
  destruct (linregress_Some _ _ Hreg) as (Hne & Hsxx & Hs & _).
  rewrite (q_sum_map_ext _ (fun p => (p.1 - xbar pts) * (p.2 - ybar pts) +
             (- slope reg) * ((p.1 - xbar pts) * (p.1 - xbar pts)) +
             xbar pts * residual reg p)%Q)
    by (intros p; rewrite residual_centred; ring).
  rewrite !q_sum_map_add, !q_sum_map_scale.
  change (q_sum (map (fun a => (a.1 - xbar pts) * (a.2 - ybar pts))%Q pts)) with (sxy pts).
  change (q_sum (map (fun a => (a.1 - xbar pts) * (a.1 - xbar pts))%Q pts)) with (sxx pts).
  change (q_sum (map (residual reg) pts)) with (q_sum (residual reg <$> pts)).
  rewrite sum_residual, Hs. field. exact Hsxx.
Qed.

End Fitted.

(** [linregress] answers whenever the table is not empty and its [x] are
    not all equal. *)
Lemma linregress_is_Some pts : pts <> [] -> ~ sxx pts == 0 -> is_Some (linregress pts).
Proof.
  intros Hne Hs. unfold linregress. rewrite !np_mean_map by exact Hne. cbn [mbind option_bind].
  pose proof (inject_Z_length_pos pts Hne) as Hn. fold (n_of pts) in *.
  fold (xbar pts) (ybar pts). fold (sxx pts) (sxy pts).
  destruct (Qeq_bool _ 0) eqn:E; [|eauto].
  apply Qeq_bool_eq in E. exfalso. apply Hs.
  assert (Hx : sxx pts == (sxx pts / n_of pts * n_of pts)%Q) by (field; exact Hn).
  rewrite Hx, E. ring.
Qed.

(** [ssxm] is 0 exactly when every [x] is the mean. *)
Lemma sxx_zero pts : sxx pts == 0 -> forall p, p ∈ pts -> p.1 == xbar pts.
Proof.
  intros H p Hp. apply (q_sum_sq_zero (fun p => p.1 - xbar pts)%Q) with (a := p) in H; [lra | exact Hp].
Qed.

(** The sum of squared residuals of any line is that of the fitted line
    plus the squares of the difference of the two lines. *)
Lemma linregress_least_squares pts reg m b :
  linregress pts = Some reg -> (sse reg pts <= sse (mk_regression m b) pts)%Q.
Proof.
  intros Hreg. unfold sse.
  set (d := fun p : Q * Q => ((slope reg - m) * p.1 + (intercept reg - b))%Q).
  rewrite (q_sum_map_ext (fun p => residual (mk_regression m b) p * residual (mk_regression m b) p)%Q
             (fun p => residual reg p * residual reg p +
             (2 * (slope reg - m)) * (residual reg p * p.1) +
             (2 * (intercept reg - b)) * residual reg p + d p * d p)%Q)
    by (intros p; unfold d, residual; cbn [slope intercept]; ring).
  rewrite !q_sum_map_add, !q_sum_map_scale.
  change (q_sum (map (fun p => residual reg p * p.1)%Q pts)) with
    (q_sum ((fun p => residual reg p * p.1)%Q <$> pts)).
  change (q_sum (map (residual reg) pts)) with (q_sum (residual reg <$> pts)).
  rewrite (sum_residual_x _ _ Hreg), (sum_residual _ _ Hreg).
  pose proof (q_sum_map_nonneg (fun p => d p * d p)%Q pts (fun p => Qsq_nonneg (d p))). lra.
Qed.

Lemma linregress_nil : linregress [] = None.
Proof. reflexivity. Qed.

Lemma linregress_sxx_zero pts : sxx pts == 0 -> linregress pts = None.
Proof.
  intros Hs. destruct pts as [|p0 pts0] eqn:Ep; [reflexivity|]. rewrite <- Ep in *.
  assert (Hne : pts <> []) by (rewrite Ep; discriminate).
  unfold linregress. rewrite !np_mean_map by exact Hne. cbn [mbind option_bind].
  fold (n_of pts) (xbar pts) (ybar pts). fold (sxx pts) (sxy pts).
  pose proof (inject_Z_length_pos pts Hne) as Hn.
  assert (Hz : (sxx pts / n_of pts == 0)%Q) by (rewrite Hs; field; exact Hn).
  apply Qeq_bool_iff in Hz. rewrite Hz. reflexivity.
Qed.

(** The mean of values that are all [c] is [c]. *)
Lemma xbar_const pts c : pts <> [] -> (forall p, p ∈ pts -> p.1 == c) -> xbar pts == c.
Proof.
  intros Hne Hc. pose proof (inject_Z_length_pos pts Hne) as Hn. unfold xbar, n_of.
  change (q_sum (fst <$> pts)) with (q_sum (map (fun p => p.1) pts)).
  rewrite (q_sum_map_ext_in _ (fun _ => c) _ Hc), q_sum_map_const. field. exact Hn.
Qed.

(** The mean of [y = m * x + b] is [m * xbar + b]. *)
Lemma ybar_linear pts m b :
  pts <> [] -> (forall p, p ∈ pts -> p.2 == m * p.1 + b) -> ybar pts == m * xbar pts + b.
Proof.
  intros Hne Hl. pose proof (inject_Z_length_pos pts Hne) as Hn. unfold ybar, xbar, n_of.
  change (q_sum (snd <$> pts)) with (q_sum (map (fun p => p.2) pts)).
  change (q_sum (fst <$> pts)) with (q_sum (map (fun p => p.1) pts)).
  rewrite (q_sum_map_ext_in _ (fun p => m * p.1 + b)%Q _ Hl), q_sum_map_add, q_sum_map_scale,
    q_sum_map_const.
  change (map (fun p : Q * Q => p.1) pts) with (map fst pts). field. exact Hn.
Qed.

(** (C16) On stars whose standard colours lie exactly on a line
    [(b-y)_std = m * (b-y)_ins + b], and whose instrumental colours are not
    all equal, [linregress] answers and recovers [m] and [b]. *)
Theorem linregress_exact pts m b p q :
  (forall p, p ∈ pts -> p.2 == m * p.1 + b) -> p ∈ pts -> q ∈ pts -> ~ p.1 == q.1 ->
  exists reg, linregress pts = Some reg /\ slope reg == m /\ intercept reg == b.
Proof.
  intros Hl Hp Hq Hpq. assert (Hne : pts <> []) by (intros ->; apply elem_of_nil in Hp; exact Hp).
  assert (Hs : ~ sxx pts == 0).
  { intros Hs. apply Hpq. rewrite (sxx_zero _ Hs p Hp), (sxx_zero _ Hs q Hq). reflexivity. }
  destruct (linregress_is_Some pts Hne Hs) as [reg Hreg]. exists reg. split; [exact Hreg|].
  destruct (linregress_Some _ _ Hreg) as (_ & _ & Hsl & Hi).
  assert (Hxy : sxy pts == m * sxx pts).
  { unfold sxy, sxx. change (q_sum (?f <$> pts)) with (q_sum (map f pts)).
    rewrite <- q_sum_map_scale. apply q_sum_map_ext_in. intros a Ha.
    rewrite (Hl a Ha), (ybar_linear pts m b Hne Hl). ring. }
  assert (Hm : slope reg == m) by (rewrite Hsl, Hxy; field; exact Hs).
  split; [exact Hm|]. rewrite Hi, <- Hsl, Hm, (ybar_linear pts m b Hne Hl). ring.
Qed.


(** (C12) The [final_b-y] column: every matched star gets
    [intercept + slope * (b-y)_ins], and no other line brings these values
    closer to the standard colours in the least-squares sense. *)
Theorem calibration_cell_least_squares {R} (mag_b_y b_y : R -> Q) rows reg fit m b :
  calibration_cell mag_b_y b_y rows = Some (reg, fit) ->
  fit = (fun r => (r, intercept reg + slope reg * mag_b_y r)%Q) <$> rows /\
  (q_sum (map (fun rf => (b_y rf.1 - rf.2) * (b_y rf.1 - rf.2))%Q fit) <=
   q_sum (map (fun r => (b_y r - (b + m * mag_b_y r)) * (b_y r - (b + m * mag_b_y r)))%Q rows))%Q.
Proof.
  unfold calibration_cell. destruct (linregress _) as [reg'|] eqn:Hreg; [|discriminate].
  cbn [mbind option_bind]. intros [= <- <-]. split; [reflexivity|].
  pose proof (linregress_least_squares _ _ m b Hreg) as Hls. unfold sse, residual in Hls.
  cbn [slope intercept] in Hls. change (?f <$> rows) with (map f rows) in Hls |- *.
  rewrite !map_map in Hls. rewrite map_map. cbn [fst snd] in Hls |- *. exact Hls.
Qed.

(** ** Examples *)

Local Open Scope Q_scope.

Definition ex_line : list (Q * Q) := [(1, 3); (2, 5); (4, 9)].

Lemma linregress_exact_witness :
  exists reg, linregress ex_line = Some reg /\ slope reg == 2 /\ intercept reg == 1.
Proof.
  apply (linregress_exact ex_line 2 1 (1, 3) (2, 5)).
  - intros p Hp. repeat (apply elem_of_cons in Hp as [->|Hp]; [vm_compute; reflexivity|]).
    apply elem_of_nil in Hp. contradiction.
  - apply (bool_decide_unpack _). vm_compute. reflexivity.
  - apply (bool_decide_unpack _). vm_compute. reflexivity.
  - vm_compute. discriminate.
Defined.


Definition ex_fit : regression * list ((Q * Q) * Q) :=
  default (mk_regression 0 0, []) (calibration_cell fst snd [(0, 1); (1, 2); (2, 2)]).

Lemma calibration_cell_least_squares_witness :
  calibration_cell fst snd [(0, 1); (1, 2); (2, 2)] = Some ex_fit /\
  (q_sum (map (fun rf => (rf.1.2 - rf.2) * (rf.1.2 - rf.2))%Q ex_fit.2) <=
   q_sum (map (fun r => (r.2 - (1 + 1 * r.1)) * (r.2 - (1 + 1 * r.1)))%Q [(0, 1); (1, 2); (2, 2)]))%Q.
Proof.
  split; [vm_compute; reflexivity|].
  apply (calibration_cell_least_squares fst snd [(0, 1); (1, 2); (2, 2)] ex_fit.1 ex_fit.2 1 1).
  vm_compute. reflexivity.
Defined.

End Calibration.
