(* ===== verification/Image.v ===== *)
(** Images as the notebooks handle them through numpy and ccdproc: a 2-D
    array stored as its list of rows of pixel values.

    Elementwise arithmetic ([raw - bias], [ccd / flat], [data * scale]) is
    [img_op]: numpy raises [ValueError] when the shapes differ (broadcasting
    of a row or a column against an image does not occur in the notebooks and
    is not modelled).  [img_mean] is [data.mean()] over every pixel, and
    [combine_pixels] is the pixelwise reduction of a stack of images that
    [ccdproc.combine] performs.  Pixel values are compared with [==]: images
    carry the setoid [≡] (pixelwise [==] with the same shape) and the
    operations are [Proper] for it, so that equal-valued images can be
    rewritten into each other. *)

From S2P Require Import Prelude Stats.

Module Image.

Import Stats.

#[export] Instance Q_equiv : Equiv Q := Qeq.
#[export] Instance Q_equivalence : Equivalence (≡@{Q}) := Q_Setoid.

Notation image := (list (list Q)).

Definition shape (a : image) : list nat := length <$> a.

(** The pixel at row [i], column [j] (0 outside the image). *)
Definition pix (a : image) (i j : nat) : Q := nth j (nth i a []) 0%Q.

Definition img_map (f : Q -> Q) (a : image) : image := (fun row : list Q => f <$> row) <$> a.

Definition img_zip (f : Q -> Q -> Q) (a b : image) : image := zip_with (zip_with f) a b.

(** [a op b] elementwise. *)
Definition img_op (f : Q -> Q -> Q) (a b : image) : result image :=
  if decide (shape a = shape b) then Ok (img_zip f a b) else Err ValueError.

(** [a.mean()]; an image has at least one pixel wherever the notebooks take
    it, and the empty case (numpy's nan) is mapped to 0. *)
Definition img_mean (a : image) : Q := default 0%Q (np_mean (concat a)).

(** The image whose pixel [(i, j)] is [f] of the stack of pixels [(i, j)] of
    the images, on the shape of the first one. *)
Definition combine_pixels (f : list Q -> Q) (imgs : list image) : image :=
  match imgs with
  | [] => []
  | a :: _ => imap (fun i row => imap (fun j _ => f ((fun b => pix b i j) <$> imgs)) row) a
  end.

(** ** Pixel-level description of an image *)

(** [a] has the shape [sh] and, at every pixel of it, the value [f i j]. *)
Definition img_is (a : image) (sh : list nat) (f : nat -> nat -> Q) : Prop :=
  shape a = sh /\ forall i j n, sh !! i = Some n -> j < n -> pix a i j == f i j.

(** ** Lemmas *)

Lemma length_shape a : length (shape a) = length a.
Proof. apply length_fmap. Qed.

Lemma lookup_shape a i : shape a !! i = length <$> a !! i.
Proof. apply list_lookup_fmap. Qed.

Lemma pix_lookup a i j row x : a !! i = Some row -> row !! j = Some x -> pix a i j = x.
Proof.
  intros Hi Hj. unfold pix. rewrite (nth_lookup_Some a i [] row Hi).
  apply nth_lookup_Some, Hj.
Qed.

(** Two images of one shape with equal pixels are [≡]. *)
Lemma img_equiv_pix a b :
  shape a = shape b ->
  (forall i j n, shape a !! i = Some n -> j < n -> pix a i j == pix b i j) -> a ≡ b.
Proof.
  intros Hsh Hpix. apply list_equiv_Forall2, Forall2_lookup. intros i.
  pose proof (f_equal (.!! i) Hsh) as Hi; simpl in Hi. rewrite !lookup_shape in Hi.
  destruct (a !! i) as [ra|] eqn:Ea, (b !! i) as [rb|] eqn:Eb; simpl in Hi;
    try discriminate; constructor.
  injection Hi as Hlen. apply list_equiv_Forall2, Forall2_lookup. intros j.
  destruct (ra !! j) as [x|] eqn:Ex, (rb !! j) as [y|] eqn:Ey.
  - constructor. rewrite <- (pix_lookup a i j ra x Ea Ex), <- (pix_lookup b i j rb y Eb Ey).
    apply (Hpix i j (length ra)); [rewrite lookup_shape, Ea; reflexivity|].
    apply lookup_lt_Some in Ex. exact Ex.
  - apply lookup_lt_Some in Ex. apply lookup_ge_None in Ey. lia.
  - apply lookup_ge_None in Ex. apply lookup_lt_Some in Ey. lia.
  - constructor.
Qed.

Lemma img_is_equiv a sh f : img_is a sh f -> forall b, img_is b sh f -> a ≡ b.
Proof.
  intros [Ha Hf] b [Hb Hg]. apply img_equiv_pix; [congruence|].
  intros i j n Hn Hj. rewrite Ha in Hn. rewrite (Hf i j n Hn Hj), (Hg i j n Hn Hj).
  reflexivity.
Qed.

Lemma shape_img_zip f a b : shape a = shape b -> shape (img_zip f a b) = shape a.
Proof.
  unfold shape, img_zip. revert b. induction a as [|ra a IH]; intros [|rb b] Hsh;
    simpl in *; try discriminate; [reflexivity|].
  injection Hsh as Hl Hsh. rewrite length_zip_with, IH by exact Hsh. f_equal. lia.
Qed.

Lemma pix_img_zip f a b i j n :
  shape a = shape b -> shape a !! i = Some n -> j < n ->
  pix (img_zip f a b) i j = f (pix a i j) (pix b i j).
Proof.
  intros Hsh Hi Hj. rewrite lookup_shape in Hi.
  destruct (a !! i) as [ra|] eqn:Ea; [|discriminate]. injection Hi as <-.
  pose proof (f_equal (.!! i) Hsh) as Hb; simpl in Hb. rewrite !lookup_shape, Ea in Hb.
  destruct (b !! i) as [rb|] eqn:Eb; [|discriminate]. injection Hb as Hlen.
  destruct (lookup_lt_is_Some_2 ra j Hj) as [x Ex].
  destruct (lookup_lt_is_Some_2 rb j ltac:(lia)) as [y Ey].
  rewrite (pix_lookup a i j ra x Ea Ex), (pix_lookup b i j rb y Eb Ey).
  apply (pix_lookup _ i j (zip_with f ra rb)).
  - unfold img_zip. rewrite lookup_zip_with, Ea, Eb. reflexivity.
  - rewrite lookup_zip_with, Ex, Ey. reflexivity.
Qed.

Lemma img_is_zip f a b sh g h :
  Proper ((≡) ==> (≡) ==> (≡)) f ->
  img_is a sh g -> img_is b sh h -> img_is (img_zip f a b) sh (fun i j => f (g i j) (h i j)).
Proof.
  intros Hf [Ha Hg] [Hb Hh]. split; [rewrite shape_img_zip; congruence|].
  intros i j n Hn Hj. rewrite pix_img_zip with (n := n) by congruence.
  apply Hf; [apply (Hg i j n) | apply (Hh i j n)]; assumption.
Qed.

Lemma img_op_Ok f a b c : img_op f a b = Ok c <-> shape a = shape b /\ c = img_zip f a b.
Proof.
  unfold img_op. case_decide; split; [intros [= <-] | intros [_ ->] | discriminate | intros [? _]];
    auto; contradiction.
Qed.

Lemma img_is_ext a sh g g' :
  (forall i j n, sh !! i = Some n -> j < n -> g i j == g' i j) ->
  img_is a sh g -> img_is a sh g'.
Proof.
  intros Hgg [Ha Hg]. split; [exact Ha|]. intros i j n Hn Hj.
  rewrite <- (Hgg i j n Hn Hj). exact (Hg i j n Hn Hj).
Qed.

Lemma shape_img_map f a : shape (img_map f a) = shape a.
Proof.
  unfold shape, img_map. rewrite <- list_fmap_compose. apply list_fmap_ext.
  intros i row _. apply length_fmap.
Qed.

Lemma pix_img_map f a i j n :
  shape a !! i = Some n -> j < n -> pix (img_map f a) i j = f (pix a i j).
Proof.
  intros Hi Hj. rewrite lookup_shape in Hi.
  destruct (a !! i) as [ra|] eqn:Ea; [|discriminate]. injection Hi as <-.
  destruct (lookup_lt_is_Some_2 ra j Hj) as [x Ex].
  rewrite (pix_lookup a i j ra x Ea Ex).
  apply (pix_lookup _ i j (f <$> ra)).
  - unfold img_map. rewrite list_lookup_fmap, Ea. reflexivity.
  - rewrite list_lookup_fmap, Ex. reflexivity.
Qed.

Lemma img_is_map f a sh g :
  Proper ((≡) ==> (≡)) f -> img_is a sh g -> img_is (img_map f a) sh (fun i j => f (g i j)).
Proof.
  intros Hf [Ha Hg]. split; [rewrite shape_img_map; exact Ha|].
  intros i j n Hn Hj. rewrite pix_img_map with (n := n) by congruence.
  apply Hf, (Hg i j n Hn Hj).
Qed.

Lemma shape_combine_pixels f a imgs : shape (combine_pixels f (a :: imgs)) = shape a.
Proof.
  unfold shape, combine_pixels. apply list_eq. intros i.
  rewrite !list_lookup_fmap, list_lookup_imap.
  destruct (a !! i) as [row|]; [|reflexivity]. simpl. f_equal. apply length_imap.
Qed.

Lemma pix_combine_pixels f a imgs i j n :
  shape a !! i = Some n -> j < n ->
  pix (combine_pixels f (a :: imgs)) i j = f ((fun b => pix b i j) <$> (a :: imgs)).
Proof.
  intros Hi Hj. rewrite lookup_shape in Hi.
  destruct (a !! i) as [ra|] eqn:Ea; [|discriminate]. injection Hi as <-.
  destruct (lookup_lt_is_Some_2 ra j Hj) as [x Ex].
  apply (pix_lookup _ i j (imap (fun j _ => f ((fun b => pix b i j) <$> (a :: imgs))) ra)).
  - unfold combine_pixels. rewrite list_lookup_imap, Ea. reflexivity.
  - rewrite list_lookup_imap, Ex. reflexivity.
Qed.

(** A reduction that gives [c] for any stack of values all [== c] maps a
    stack of images that all have the pixels [g] to an image with them. *)
Lemma img_is_combine f imgs sh g :
  (forall l c, l <> [] -> Forall (fun x => x == c) l -> f l == c) ->
  imgs <> [] -> Forall (fun b => img_is b sh g) imgs ->
  img_is (combine_pixels f imgs) sh g.
Proof.
  intros Hf Hne Hall. destruct imgs as [|a imgs]; [contradiction|].
  pose proof Hall as Ha. apply Forall_cons in Ha as [[Hsh _] _].
  split; [rewrite shape_combine_pixels; exact Hsh|].
  intros i j n Hn Hj. rewrite pix_combine_pixels with (n := n) by congruence.
  apply Hf; [discriminate|]. apply Forall_fmap, (Forall_impl _ _ _ Hall).
  intros b [_ Hb]. exact (Hb i j n Hn Hj).
Qed.

Lemma Forall2_nth {A B} (R : A -> B -> Prop) l l' d d' i :
  Forall2 R l l' -> R d d' -> R (nth i l d) (nth i l' d').
Proof.
  intros Hl Hd. revert i. induction Hl as [|x y l l' Hxy _ IH]; intros [|i]; simpl; auto.
Qed.

Lemma pix_equiv a b i j : a ≡ b -> pix a i j == pix b i j.
Proof.
  intros Hab. unfold pix. apply list_equiv_Forall2 in Hab.
  assert (Hrow : nth i a [] ≡ nth i b []) by (apply Forall2_nth; [exact Hab | reflexivity]).
  apply list_equiv_Forall2 in Hrow. apply (Forall2_nth _ _ _ _ _ _ Hrow). reflexivity.
Qed.

Lemma shape_equiv a b : a ≡ b -> shape a = shape b.
Proof.
  intros Hab. apply list_equiv_Forall2 in Hab. unfold shape.
  induction Hab as [|ra rb a b Hr _ IH]; [reflexivity|].
  rewrite !fmap_cons, IH. f_equal. apply length_proper, Hr.
Qed.

Lemma img_is_self a : img_is a (shape a) (pix a).
Proof. split; [reflexivity | intros; reflexivity]. Qed.

Lemma img_equiv_img_is a b : a ≡ b -> img_is a (shape b) (pix b).
Proof.
  intros Hab. split; [apply shape_equiv, Hab|]. intros i j n _ _. apply pix_equiv, Hab.
Qed.

(** ** The mean of an image *)

Lemma q_sum_proper l l' : Forall2 Qeq l l' -> q_sum l == q_sum l'.
Proof. induction 1 as [|x x' l l' Hx _ IH]; simpl; [reflexivity|]. rewrite Hx, IH. reflexivity. Qed.

Lemma q_sum_scale k f l : (forall x, f x == k * x) -> q_sum (f <$> l) == k * q_sum l.
Proof.
  intros Hf. induction l as [|x l IH]; simpl; [ring|]. rewrite Hf, IH. ring.
Qed.

Lemma concat_equiv (a b : image) : a ≡ b -> Forall2 Qeq (concat a) (concat b).
Proof.
  rewrite list_equiv_Forall2. induction 1 as [|ra rb a b Hr _ IH]; simpl; [constructor|].
  apply Forall2_app; [|exact IH]. apply list_equiv_Forall2 in Hr. exact Hr.
Qed.

#[export] Instance img_mean_proper : Proper ((≡) ==> (≡)) img_mean.
Proof.
  intros a b Hab. apply concat_equiv in Hab. unfold img_mean, np_mean.
  destruct (concat a) as [|x l] eqn:Ea, (concat b) as [|y l'] eqn:Eb;
    inversion Hab; subst; [reflexivity|].
  change (q_sum (x :: l) / inject_Z (Z.of_nat (length (x :: l))) ==
          q_sum (y :: l') / inject_Z (Z.of_nat (length (y :: l'))))%Q.
  rewrite (Forall2_length _ _ _ Hab).
  apply Qmult_comp; [apply (q_sum_proper (x :: l) (y :: l')); constructor; assumption | reflexivity].
Qed.

Lemma img_mean_scale k f a :
  (forall x, f x == k * x) -> img_mean (img_map f a) == k * img_mean a.
Proof.
  intros Hf.
  assert (Hc : concat (img_map f a) = f <$> concat a).
  { unfold img_map. induction a as [|row a IH]; [reflexivity|].
    rewrite fmap_cons. cbn [concat]. rewrite IH, fmap_app. reflexivity. }
  unfold img_mean.
  rewrite Hc. destruct (concat a) as [|x l]; [simpl; ring|].
  change (q_sum (f <$> x :: l) / inject_Z (Z.of_nat (length (f <$> x :: l))) ==
          k * (q_sum (x :: l) / inject_Z (Z.of_nat (length (x :: l)))))%Q.
  rewrite length_fmap.
  rewrite (q_sum_scale k f (x :: l)) by exact Hf. unfold Qdiv. ring.
Qed.

(** The mean of an image that is [k] times [r] pixel by pixel. *)
Lemma img_mean_is b r k :
  img_is b (shape r) (fun i j => k * pix r i j)%Q -> img_mean b == k * img_mean r.
Proof.
  intros Hb. rewrite <- (img_mean_scale k (Qmult k) r) by (intros x; reflexivity).
  apply img_mean_proper. apply (img_is_equiv _ _ _ Hb).
  apply (img_is_map (Qmult k) r (shape r) (pix r)); [|apply img_is_self].
  intros x x' Hx. unfold equiv, Q_equiv in *. rewrite Hx. reflexivity.
Qed.

End Image.
