(* ===== verification/Schema.v ===== *)
(** Tables and the astropy column-name operations the notebooks rely on.

    A table is its list of column names and its list of rows; the rows are
    typed by the component that uses them.  The operations here are the
    schema side of the calls made at src/unnamed/part_000 lines 104-114 and
    121-126: [table.hstack] renames a name that occurs in another stacked
    table to [name_<k>] ([k] the 1-based position of its table) and raises
    [TableMergeError] when the result repeats a name; [del t[names]] raises
    [KeyError] for a missing name; [t.rename_column(a, b)] raises
    [KeyError] when [a] is missing or [b] already exists (and does nothing
    when [a = b]); [t[name] = col] replaces a column or appends it. *)

From S2P Require Import Prelude.
From stdpp Require Import pretty.

Module Schema.

Local Open Scope string_scope.

Record table (Row : Type) := mk_table { colnames : list string; rows : list Row }.
Arguments mk_table {Row} colnames rows.
Arguments colnames {Row} t.
Arguments rows {Row} t.

(** ** [hstack]: astropy's [get_col_name_map] with no common names *)

(** [name] occurs in a table other than the [idx]-th ([others.pop(idx)]). *)
Definition collides (schemas : list (list string)) (idx : nat) (name : string) : bool :=
  existsb (fun cols => bool_decide (name ∈ cols)) (delete idx schemas).

(** [uniq_col_name = '{col_name}_{table_name}'], [table_name = str(idx + 1)]. *)
Definition uniq_col_name (name : string) (idx : nat) : string :=
  name +:+ "_" +:+ pretty (S idx).

Definition hstack_out_names (schemas : list (list string)) : list string :=
  concat (imap (fun idx cols =>
    map (fun name => if collides schemas idx name then uniq_col_name name idx else name) cols)
    schemas).

Definition hstack_colnames (schemas : list (list string)) : result (list string) :=
  let out := hstack_out_names schemas in
  if bool_decide (NoDup out) then Ok out else Err TableMergeError.

(** ** [del t[names]] *)

Definition del_columns (names cols : list string) : result (list string) :=
  match List.find (fun n => negb (bool_decide (n ∈ cols))) names with
  | Some n => Err (KeyError n)
  | None => Ok (List.filter (fun c => negb (bool_decide (c ∈ names))) cols)
  end.

(** ** [t.rename_column(name, new)] *)

Definition rename_column (cols : list string) (name new : string) : result (list string) :=
  if bool_decide (name ∈ cols) then
    if bool_decide (name = new) then Ok cols
    else if bool_decide (new ∈ cols) then Err (KeyError new)
    else Ok (map (fun c => if bool_decide (c = name) then new else c) cols)
  else Err (KeyError name).

(** ** [t[name]] and [t[name] = column] *)

Definition get_column (cols : list string) (name : string) : result unit :=
  if bool_decide (name ∈ cols) then Ok tt else Err (KeyError name).

Definition set_column (cols : list string) (name : string) : list string :=
  if bool_decide (name ∈ cols) then cols else cols ++ [name].

(** ** Lemmas *)

Lemma str_app_inj_l s s' t : s +:+ t = s' +:+ t -> s = s'.
Proof.
  intros H. apply (f_equal String.length) in H as Hlen.
  rewrite !str_length_app in Hlen.
  revert s' H Hlen. induction s as [|c s IH]; intros [|c' s'] H Hlen;
    simpl in *; try lia; [reflexivity|].
  rewrite !str_app_cons in H. injection H as -> H. f_equal. apply IH; [exact H | lia].
Qed.

(** Two names that end in different characters differ. *)
Lemma str_last_neq s s' a b :
  a <> b -> s +:+ String a EmptyString <> s' +:+ String b EmptyString.
Proof.
  intros Hab. revert s'. induction s as [|c s IH]; intros [|c' s'] H;
    rewrite ?str_app_cons in H; simpl in H.
  - injection H as ->. contradiction.
  - injection H as _ H. destruct s'; discriminate.
  - injection H as _ H. destruct s; discriminate.
  - injection H as _ H. exact (IH s' H).
Qed.

Lemma hstack_colnames_Ok schemas out :
  hstack_colnames schemas = Ok out <-> out = hstack_out_names schemas /\ NoDup out.
Proof.
  unfold hstack_colnames. case_bool_decide as Hnd; split.
  - intros [= <-]. auto.
  - intros [-> _]. reflexivity.
  - discriminate.
  - intros [-> Hnd']. contradiction.
Qed.

(** A name of one table of a family with no repeated name occurs in no
    other table of it. *)
Lemma collides_NoDup schemas idx cols name :
  NoDup (concat schemas) -> schemas !! idx = Some cols -> name ∈ cols ->
  collides schemas idx name = false.
Proof.
  intros Hnd Hidx Hin. unfold collides.
  apply not_true_iff_false. intros Hc.
  apply existsb_exists in Hc as [cols' [Hin' Hname]].
  apply bool_decide_eq_true in Hname.
  assert (Hp : concat schemas ≡ₚ cols ++ concat (delete idx schemas)).
  { exact (concat_Permutation _ _ (delete_Permutation schemas idx cols Hidx)). }
  rewrite Hp in Hnd. apply NoDup_app in Hnd as (_ & Hdisj & _).
  apply (Hdisj name Hin). apply elem_of_concat. exists cols'.
  split; [exact Hname | apply list_elem_of_In; exact Hin'].
Qed.

(** Tables with disjoint names are stacked without renaming. *)
Lemma hstack_disjoint schemas :
  NoDup (concat schemas) -> hstack_colnames schemas = Ok (concat schemas).
Proof.
  intros Hnd. apply hstack_colnames_Ok. split; [|exact Hnd].
  unfold hstack_out_names.
  assert (Hid : imap (fun idx cols =>
    map (fun name => if collides schemas idx name then uniq_col_name name idx else name) cols)
    schemas = imap (const id) schemas).
  { apply imap_ext. intros idx cols Hidx. unfold const, id.
    rewrite <- (map_id cols) at 2. apply map_ext_in. intros name Hin.
    rewrite (collides_NoDup schemas idx cols name); [reflexivity | exact Hnd | exact Hidx |].
    apply list_elem_of_In. exact Hin. }
  rewrite Hid, imap_const, list_fmap_id. reflexivity.
Qed.

Lemma del_columns_Ok names cols :
  Forall (fun n => n ∈ cols) names ->
  del_columns names cols = Ok (List.filter (fun c => negb (bool_decide (c ∈ names))) cols).
Proof.
  intros Hall. unfold del_columns.
  destruct (List.find _ names) as [n|] eqn:Hf; [|reflexivity].
  apply find_some in Hf as [Hin Hn]. rewrite Forall_forall in Hall.
  rewrite negb_true_iff, bool_decide_eq_false in Hn.
  exfalso. apply Hn, Hall, list_elem_of_In, Hin.
Qed.

End Schema.
