(* ===== verification/SkyMatch.v ===== *)
(** The positional match the standard-photometry notebook builds its index
    tables with (src/unnamed/part_000 lines 82-84 and 160-162):

      pos_by = table.Table(b_pos.match_to_catalog_sky(y_pos), masked=True,
                           names=['index', 'distance', '3d'])
      del pos_by['3d']

    [match_to_catalog_sky] is astropy's: for every coordinate it returns the
    index of a nearest catalog coordinate and the angular separation, and it
    raises [ValueError] on an empty catalog.  astropy answers from a k-d
    tree, which does not specify which of two equally near catalog entries
    it returns; the match is therefore an interface ([SkyMatcher]) whose law
    is exactly that contract, and the pipeline's theorems hold for every
    lawful matcher.  The separation is an interface ([SkySeparation]) with
    the laws of a great-circle distance that the theorems use.  The linear
    scan [scan_match] (lowest index on ties) is one lawful matcher; with
    [EquatorPos], points of the celestial equator where the great-circle
    separation of two right ascensions is exact in rationals, it runs the
    witnesses. *)

From S2P Require Import Prelude Schema.

Module SkyMatch.

Import Schema.

(** Angular separation in degrees, with the laws of a distance on the sphere
    that the theorems rely on. *)
Class SkySeparation (P : Type) := {
  separation : P -> P -> Q;
  separation_nonneg : forall a b, (0 <= separation a b)%Q;
  separation_sym : forall a b, separation a b == separation b a;
  separation_refl : forall a, separation a a == 0
}.

(** One row of the index table: the columns ['index'] and ['distance']
    (the ['3d'] column is deleted at once by the notebook). *)
Record IndexRow := mk_index_row { index : nat; distance : Q }.

Section Nearest.
Context {P : Type} `{SkySeparation P}.

(** Linear scan: keep the current best and replace it only by a strictly
    nearer entry, so the lowest index wins a tie. *)
Fixpoint nearest_from (c : P) (cat : list P) (i : nat) (best : IndexRow) : IndexRow :=
  match cat with
  | [] => best
  | p :: cat' =>
      if Qltb (separation c p) (distance best)
      then nearest_from c cat' (S i) (mk_index_row i (separation c p))
      else nearest_from c cat' (S i) best
  end.

Definition nearest (c : P) (cat : list P) : option IndexRow :=
  match cat with
  | [] => None
  | p :: cat' => Some (nearest_from c cat' 1 (mk_index_row 0 (separation c p)))
  end.

(** The specification of one nearest-neighbour answer. *)
Definition is_nearest (c : P) (cat : list P) (r : IndexRow) : Prop :=
  (exists p, cat !! index r = Some p /\ distance r = separation c p) /\
  (forall j q, cat !! j = Some q -> (distance r <= separation c q)%Q).

(** The same, with the lowest index among the nearest. *)
Definition is_first_nearest (c : P) (cat : list P) (r : IndexRow) : Prop :=
  is_nearest c cat r /\
  (forall j q, j < index r -> cat !! j = Some q -> (distance r < separation c q)%Q).

Lemma nearest_from_spec c cat i best :
  let r := nearest_from c cat i best in
  (distance r <= distance best)%Q /\
  (forall j q, cat !! j = Some q -> (distance r <= separation c q)%Q) /\
  ((r = best /\ forall j q, cat !! j = Some q -> (distance best <= separation c q)%Q) \/
   (exists j p, cat !! j = Some p /\ index r = i + j /\ distance r = separation c p /\
      (distance r < distance best)%Q /\
      forall j' q, j' < j -> cat !! j' = Some q -> (distance r < separation c q)%Q)).
Proof.
  revert i best. induction cat as [|p cat IH]; intros i best; simpl.
  - split; [apply Qle_refl|]. split; [intros j q Hq; discriminate|].
    left. split; [reflexivity | intros j q Hq; discriminate].
  - destruct (Qltb (separation c p) (distance best)) eqn:Hlt.
    + apply Qltb_iff in Hlt.
      destruct (IH (S i) (mk_index_row i (separation c p))) as (Hle & Hall & Hcase);
        simpl in *.
      split; [lra|]. split.
      { intros [|j] q Hq; simpl in Hq; [injection Hq as <-; exact Hle | eauto]. }
      right. destruct Hcase as [[-> Hrest] | (j & p' & Hj & Hidx & Hd & Hlt' & Hbefore)].
      * exists 0, p. simpl. repeat split; [lia | lra | intros j' q Hj'; lia].
      * exists (S j), p'. simpl. repeat split; [exact Hj | lia | exact Hd | lra |].
        intros [|j'] q Hj' Hq; simpl in Hq.
        -- injection Hq as <-. lra.
        -- apply (Hbefore j' q); [lia | exact Hq].
    + apply Qltb_false in Hlt.
      destruct (IH (S i) best) as (Hle & Hall & Hcase).
      split; [exact Hle|]. split.
      { intros [|j] q Hq; simpl in Hq; [injection Hq as <-; lra | eauto]. }
      destruct Hcase as [[-> Hrest] | (j & p' & Hj & Hidx & Hd & Hlt' & Hbefore)].
      * left. split; [reflexivity|].
        intros [|j] q Hq; simpl in Hq; [injection Hq as <-; exact Hlt | eauto].
      * right. exists (S j), p'. repeat split; [exact Hj | lia | exact Hd | exact Hlt' |].
        intros [|j'] q Hj' Hq; simpl in Hq.
        -- injection Hq as <-. lra.
        -- apply (Hbefore j' q); [lia | exact Hq].
Qed.

(** For a coordinate and a non-empty catalog, the scan answers an in-range
    index of a catalog entry whose separation is the answered distance and is
    minimal over the catalog, the lowest such index on ties. *)
Lemma nearest_first_nearest (c : P) (cat : list P) :
  cat <> [] -> exists r, nearest c cat = Some r /\ is_first_nearest c cat r.
Proof.
  intros Hne. destruct cat as [|p cat']; [contradiction|].
  eexists; split; [reflexivity|].
  destruct (nearest_from_spec c cat' 1 (mk_index_row 0 (separation c p)))
    as (Hle & Hall & [[Hr Hrest] | (j & p' & Hj & Hidx & Hd & Hlt & Hbefore)]);
    simpl in *.
  - rewrite Hr. repeat split; simpl.
    + exists p. auto.
    + intros [|j] q Hq; simpl in Hq; [injection Hq as <-; apply Qle_refl | eauto].
    + intros j q Hj. lia.
  - repeat split.
    + exists p'. rewrite Hidx. simpl. auto.
    + intros [|j'] q Hq; simpl in Hq; [injection Hq as <-; lra | eauto].
    + rewrite Hidx. intros [|j'] q Hj' Hq; simpl in Hq.
      * injection Hq as <-. exact Hlt.
      * apply (Hbefore j' q); [lia | exact Hq].
Qed.

(** The linear scan as a whole-catalog match. *)
Definition scan_match (coords cat : list P) : result (list IndexRow) :=
  match cat with
  | [] => Err ValueError
  | _ :: _ => Ok (map (fun c => default (mk_index_row 0 0) (nearest c cat)) coords)
  end.

Lemma scan_match_first_nearest (coords cat : list P) :
  cat <> [] -> exists rows, scan_match coords cat = Ok rows /\
     Forall2 (fun c r => is_first_nearest c cat r) coords rows.
Proof.
  intros Hne. destruct cat as [|p cat']; [contradiction|].
  eexists; split; [reflexivity|].
  induction coords as [|c coords IH]; cbn [map]; constructor; [|exact IH].
  destruct (nearest_first_nearest c (p :: cat')) as (r & Hr & Hspec); [discriminate|].
  rewrite Hr. exact Hspec.
Qed.

End Nearest.

(** [matchcoord.match_to_catalog_sky(catalogcoord)]: one row per coordinate,
    each a nearest catalog entry, and [ValueError] on an empty catalog. *)
Class SkyMatcher (P : Type) `{SkySeparation P} := {
  match_to_catalog_sky : list P -> list P -> result (list IndexRow);
  match_empty_catalog : forall coords, match_to_catalog_sky coords [] = Err ValueError;
  match_nearest : forall coords cat, cat <> [] ->
    exists rows, match_to_catalog_sky coords cat = Ok rows /\
      Forall2 (fun c r => is_nearest c cat r) coords rows
}.

(** The scan is a lawful matcher. *)
Program Definition scan_matcher {P : Type} `{SkySeparation P} : SkyMatcher P :=
  {| match_to_catalog_sky := scan_match |}.
Next Obligation. reflexivity. Qed.
Next Obligation.
  intros P HS coords cat Hne.
  destruct (scan_match_first_nearest coords cat Hne) as (rows & Hr & Hall).
  exists rows. split; [exact Hr|]. eapply Forall2_impl; [exact Hall|]. intros c r [Hn _]. exact Hn.
Qed.

Section Table.
Context {P : Type} `{SkyMatcher P}.

(** [table.Table(..., names=['index', 'distance', '3d'])] then [del t['3d']]. *)
Definition index_table (coords cat : list P) : result (table IndexRow) :=
  rows <- match_to_catalog_sky coords cat;;
  names <- del_columns ["3d"] ["index"; "distance"; "3d"];;
  Ok (mk_table names rows).

(** The index table has the columns [index] and [distance] and the rows of
    the match. *)
Lemma index_table_Ok coords cat t :
  index_table coords cat = Ok t <->
  colnames t = ["index"; "distance"] /\ match_to_catalog_sky coords cat = Ok (rows t).
Proof.
  unfold index_table. destruct (match_to_catalog_sky coords cat) as [rs|e]; simpl.
  - split; [intros [= <-]; auto | intros [Hn [= Hr]]; destruct t; simpl in *; subst; reflexivity].
  - split; [discriminate | intros [_ Habs]; discriminate].
Qed.

(** It is built whenever the catalog is not empty. *)
Lemma index_table_nonempty coords cat :
  cat <> [] -> exists t, index_table coords cat = Ok t.
Proof.
  intros Hne. destruct (match_nearest coords cat Hne) as (rows & Hr & _).
  unfold index_table. rewrite Hr. eexists. reflexivity.
Qed.

End Table.

(** ** Positions on the celestial equator *)

Record EquatorPos := mk_equator_pos { eq_ra : Q }.

(** Great-circle separation of two points of the equator, in degrees. *)
Definition equator_separation (a b : EquatorPos) : Q :=
  let d := Qabs (eq_ra a - eq_ra b) in Qmin d (Qabs (360 - d))%Q.

#[export] Program Instance equator_sky : SkySeparation EquatorPos := {
  separation := equator_separation
}.
Next Obligation.
  intros a b. unfold equator_separation.
  destruct (Q.min_spec_le (Qabs (eq_ra a - eq_ra b)) (Qabs (360 - Qabs (eq_ra a - eq_ra b))))
    as [[_ ->] | [_ ->]]; apply Qabs_nonneg.
Qed.
Next Obligation.
  intros a b. unfold equator_separation. rewrite Qabs_Qminus. reflexivity.
Qed.
Next Obligation.
  intros a. unfold equator_separation.
  assert (H0 : eq_ra a - eq_ra a == 0) by ring.
  rewrite H0. reflexivity.
Qed.

#[export] Instance equator_matcher : SkyMatcher EquatorPos := scan_matcher.

End SkyMatch.
