(* ===== verification/JoinCatalogs.v ===== *)
(** [join_catalogs], the cross-match the standard-photometry notebook writes
    itself (src/unnamed/part_000 lines 102-116):

      def join_catalogs(index_table, left_table, right_table):
          matched = table.hstack([index_table, left_table,
                                  right_table[index_table['index']]])
          matched.sort(['index', 'distance'])
          index = matched["index"]
          good_match = [True]
          good_match += [star != oldstar for star, oldstar in zip(index, index[1:])]
          nearby = matched['distance'] < coord.Angle('3 arcsec').degree
          result = matched[good_match * nearby]
          del result['index', 'distance']
          return result

    Every step is a definition below, in the code's order and with its error:
    fancy indexing ([py_take], IndexError), the names of [hstack]
    ([Schema.hstack_colnames], TableMergeError), the sort (the [TableSort]
    interface), the two masks, their product under numpy broadcasting
    ([np_mul], ValueError), the boolean selection ([bool_select],
    IndexError) and the deletion ([Schema.del_columns], KeyError).  The
    rows of [hstack] are the three row lists side by side: astropy pads a
    shorter table with masked values, a case the notebook never reaches
    since its index table has one row per left row (see [Standard]).
    [join_catalogs_tol] is the function with its 3 arcsec constant as a
    parameter, for the tolerance theorems; [join_catalogs] fixes it.

    The theorems: the mask computation equals a recursive reference
    selection ([select_sorted]); on a list sorted by (index, distance) that
    selection keeps the first row of every index group when it lies within
    the tolerance; hence the result meets the abstract contract
    [best_matches] for every sort satisfying the interface. *)

From S2P Require Import Prelude Schema SkyMatch.

Module JoinCatalogs.

Import Schema SkyMatch.

(** ** The sort [matched.sort(['index', 'distance'])] *)

(** Lexicographic order on the (index, distance) key. *)
Definition key_leb (k1 k2 : nat * Q) : bool :=
  Nat.ltb k1.1 k2.1 || (Nat.eqb k1.1 k2.1 && Qle_bool k1.2 k2.2).

(** What the code needs of the library's sort: a permutation of the rows, in
    key order.  numpy's default sort is not stable, so nothing is assumed of
    the order of rows with equal keys. *)
Class TableSort := {
  sort_by : forall {A : Type}, (A -> nat * Q) -> list A -> list A;
  sort_by_perm : forall A (key : A -> nat * Q) (l : list A), sort_by key l ≡ₚ l;
  sort_by_sorted : forall A (key : A -> nat * Q) (l : list A),
    Sorted (fun x y => key_leb (key x) (key y) = true) (sort_by key l)
}.

Lemma key_leb_spec i1 d1 i2 d2 :
  key_leb (i1, d1) (i2, d2) = true <-> i1 < i2 \/ (i1 = i2 /\ (d1 <= d2)%Q).
Proof.
  unfold key_leb; simpl.
  rewrite orb_true_iff, andb_true_iff, Nat.ltb_lt, Nat.eqb_eq, Qle_bool_iff.
  reflexivity.
Qed.

Lemma key_leb_total k1 k2 : key_leb k1 k2 = true \/ key_leb k2 k1 = true.
Proof.
  destruct k1 as [i1 d1], k2 as [i2 d2]. rewrite !key_leb_spec.
  destruct (Nat.lt_trichotomy i1 i2) as [?|[->|?]]; [auto| |auto].
  destruct (Qlt_le_dec d2 d1); [right; right; split; [reflexivity | lra] | auto].
Qed.

Lemma key_leb_trans k1 k2 k3 :
  key_leb k1 k2 = true -> key_leb k2 k3 = true -> key_leb k1 k3 = true.
Proof.
  destruct k1 as [i1 d1], k2 as [i2 d2], k3 as [i3 d3]. rewrite !key_leb_spec.
  intros [?|[-> ?]] [?|[-> ?]]; [left; lia | left; lia | left; lia |].
  right. split; [reflexivity | lra].
Qed.

(** The executable instance: stdpp's merge sort. *)
#[export] Program Instance merge_table_sort : TableSort := {
  sort_by A key l := @merge_sort A (fun x y => key_leb (key x) (key y) = true)
                        (fun x y => bool_eq_dec _ _) l
}.
Next Obligation. intros A key l. apply merge_sort_Permutation. Qed.
Next Obligation.
  intros A key l. apply Sorted_merge_sort. intros x y. apply key_leb_total.
Qed.

(** ** Numpy's mask arithmetic and boolean selection *)

(** [a * b] on two boolean arrays of one dimension: elementwise when the
    lengths agree, broadcast when one has length 1, [ValueError] otherwise. *)
Definition np_mul (a b : list bool) : result (list bool) :=
  if length a =? length b then Ok (zip_with andb a b)
  else match a, b with
       | [x], _ => Ok (map (andb x) b)
       | _, [y] => Ok (map (fun x => andb x y) a)
       | _, _ => Err ValueError
       end.

(** [t[mask]]: the rows where the mask holds; [IndexError] on a mask of
    another length. *)
Definition bool_select {A} (l : list A) (mask : list bool) : result (list A) :=
  if length l =? length mask then Ok (map fst (List.filter snd (zip l mask)))
  else Err IndexError.

Section Join.
Context {L R : Type} `{TableSort}.

(** A row of [matched]: the index-table row, the left row and the right row
    it points to. *)
Definition cand : Type := (IndexRow * L * R)%type.
Definition cidx (c : cand) : nat := index c.1.1.
Definition cdist (c : cand) : Q := distance c.1.1.
Definition cand_key (c : cand) : nat * Q := (cidx c, cdist c).

(** The rows of [hstack([index_table, left_table, right_rows])]. *)
Definition hstack_rows (it : list IndexRow) (lt : list L) (rt : list R) : list cand :=
  zip (zip it lt) rt.

(** [good_match = [True] + [star != oldstar for star, oldstar in zip(index, index[1:])]]. *)
Definition good_match (index : list nat) : list bool :=
  true :: zip_with (fun star oldstar => negb (star =? oldstar)) index (tail index).

(** [nearby = matched['distance'] < tol]. *)
Definition nearby (tol : Q) (matched : list cand) : list bool :=
  map (fun c => Qltb (cdist c) tol) matched.

Definition join_catalogs_tol (tol : Q) (index_table : table IndexRow)
    (left_table : table L) (right_table : table R) : result (table (L * R)) :=
  right_rows <- py_take (rows right_table) (map index (rows index_table));;
  names <- hstack_colnames
             [colnames index_table; colnames left_table; colnames right_table];;
  let matched := sort_by cand_key (hstack_rows (rows index_table) (rows left_table) right_rows) in
  mask <- np_mul (good_match (map cidx matched)) (nearby tol matched);;
  result <- bool_select matched mask;;
  names' <- del_columns ["index"; "distance"] names;;
  Ok (mk_table names' (map (fun c => (c.1.2, c.2)) result)).

Definition join_catalogs := join_catalogs_tol (arcsec 3).

(** ** Reference selection: the first row of each index group, if near *)

Fixpoint select_sorted (tol : Q) (prev : option nat) (s : list cand) : list cand :=
  match s with
  | [] => []
  | c :: s' =>
      if bool_decide (prev = Some (cidx c)) then select_sorted tol (Some (cidx c)) s'
      else if Qltb (cdist c) tol then c :: select_sorted tol (Some (cidx c)) s'
      else select_sorted tol (Some (cidx c)) s'
  end.

(** Key order between two rows of [matched]. *)
Definition key_le (c1 c2 : cand) : Prop := key_leb (cand_key c1) (cand_key c2) = true.

Lemma key_le_idx c1 c2 : key_le c1 c2 -> cidx c1 <= cidx c2.
Proof. unfold key_le, cand_key. rewrite key_leb_spec. lia. Qed.

Lemma key_le_dist c1 c2 : key_le c1 c2 -> cidx c1 = cidx c2 -> (cdist c1 <= cdist c2)%Q.
Proof. unfold key_le, cand_key. rewrite key_leb_spec. intros [?|[_ ?]] ?; [exfalso; lia | assumption]. Qed.

Lemma zip_with_neq_length (i : nat) (l : list nat) :
  length (zip_with (fun star oldstar => negb (star =? oldstar)) (i :: l) l) = length l.
Proof. rewrite length_zip_with. cbn [length]. apply Nat.min_r. lia. Qed.

(** After a row of index [i], the masks select what [select_sorted]
    selects with [i] as the previous index. *)
Lemma mask_select_after tol i s :
  map fst (List.filter snd (zip s (zip_with andb
    (zip_with (fun star oldstar => negb (star =? oldstar)) (i :: map cidx s) (map cidx s))
    (nearby tol s)))) = select_sorted tol (Some i) s.
Proof.
  revert i. induction s as [|c s IH]; intros i; [reflexivity|].
  cbn [map zip_with zip List.filter select_sorted nearby].
  rewrite <- (IH (cidx c)).
  destruct (Nat.eqb_spec i (cidx c)) as [<-|Hne].
  - rewrite bool_decide_true by reflexivity. reflexivity.
  - rewrite bool_decide_false by congruence.
    destruct (Qltb (cdist c) tol); reflexivity.
Qed.

Lemma zip_with_cons2 {A B C} (f : A -> B -> C) x y a b :
  zip_with f (x :: a) (y :: b) = f x y :: zip_with f a b.
Proof. reflexivity. Qed.

Lemma filter_zip_cons {A} (c : A) s b m :
  map fst (List.filter snd (zip (c :: s) (b :: m))) =
  if b then c :: map fst (List.filter snd (zip s m)) else map fst (List.filter snd (zip s m)).
Proof. destruct b; reflexivity. Qed.

Lemma mask_select_reference tol (s : list cand) :
  (mask <- np_mul (good_match (map cidx s)) (nearby tol s);; bool_select s mask)
  = Ok (select_sorted tol None s).
Proof.
  destruct s as [|c s]; [reflexivity|].
  set (g := zip_with (fun star oldstar => negb (star =? oldstar)) (cidx c :: map cidx s) (map cidx s)).
  assert (Hg : length g = length s) by (unfold g; rewrite zip_with_neq_length, length_map; reflexivity).
  assert (Hgm : good_match (map cidx (c :: s)) = true :: g) by reflexivity.
  assert (Hn : nearby tol (c :: s) = Qltb (cdist c) tol :: nearby tol s) by reflexivity.
  assert (Hnl : length (nearby tol s) = length s) by apply length_map.
  rewrite Hgm, Hn. unfold np_mul. cbn [length]. rewrite Hg, Hnl, Nat.eqb_refl. cbn [bind].
  unfold bool_select. rewrite zip_with_cons2. cbn [length].
  rewrite length_zip_with, Hg, Hnl, Nat.min_id, Nat.eqb_refl, filter_zip_cons.
  unfold g. rewrite mask_select_after. cbn [select_sorted].
  rewrite bool_decide_false by discriminate.
  destruct (Qltb (cdist c) tol); reflexivity.
Qed.

(** (C2) The code's mask arithmetic never raises and selects exactly what
    the recursive reference selection selects: the first row of each run of
    equal indices, when it is nearer than the tolerance. *)
Theorem mask_select_equiv tol (s : list cand) :
  (mask <- np_mul (good_match (map cidx s)) (nearby tol s);; bool_select s mask)
  = Ok (select_sorted tol None s).
Proof. apply mask_select_reference. Qed.

Lemma select_sorted_sublist tol prev s : select_sorted tol prev s `sublist_of` s.
Proof.
  revert prev. induction s as [|c s IH]; intros prev; simpl; [constructor|].
  case_bool_decide; [apply sublist_cons, IH|].
  destruct (Qltb (cdist c) tol); [apply sublist_skip, IH | apply sublist_cons, IH].
Qed.

Lemma select_sorted_tol tol prev s :
  Forall (fun c => (cdist c < tol)%Q) (select_sorted tol prev s).
Proof.
  revert prev. induction s as [|c s IH]; intros prev; simpl; [constructor|].
  case_bool_decide; [apply IH|].
  destruct (Qltb (cdist c) tol) eqn:Hlt; [constructor; [apply Qltb_iff, Hlt | apply IH] | apply IH].
Qed.

(** Rows selected after a row of index [i] of a sorted list have larger indices. *)
Lemma select_sorted_gt tol s i :
  StronglySorted key_le s -> Forall (fun c => i <= cidx c) s ->
  Forall (fun c => i < cidx c) (select_sorted tol (Some i) s).
Proof.
  revert i. induction s as [|c s IH]; intros i Hs Hi; simpl; [constructor|].
  inversion Hs as [|? ? Hs' Hc]; subst. inversion Hi as [|? ? Hic Hi']; subst.
  assert (Hge : Forall (fun x => cidx c <= cidx x) s).
  { eapply Forall_impl; [exact Hc | intros x; apply key_le_idx]. }
  case_bool_decide as Heq.
  - injection Heq as <-. apply IH; assumption.
  - assert (i < cidx c) by (assert (i <> cidx c) by congruence; lia).
    assert (Hrest : Forall (fun x => i < cidx x) (select_sorted tol (Some (cidx c)) s)).
    { eapply Forall_impl; [apply IH; assumption | intros x Hx; simpl in Hx; lia]. }
    destruct (Qltb (cdist c) tol); [constructor|]; assumption.
Qed.

Definition prev_below (prev : option nat) (s : list cand) : Prop :=
  forall i, prev = Some i -> Forall (fun c => i <= cidx c) s.

Lemma prev_below_next c s :
  StronglySorted key_le (c :: s) -> prev_below (Some (cidx c)) s.
Proof.
  intros Hs i [= <-]. inversion Hs as [|? ? _ Hc]; subst.
  eapply Forall_impl; [exact Hc | intros x; apply key_le_idx].
Qed.

Lemma select_sorted_NoDup tol prev s :
  StronglySorted key_le s -> NoDup (map cidx (select_sorted tol prev s)).
Proof.
  revert prev. induction s as [|c s IH]; intros prev Hs; simpl; [constructor|].
  assert (Hs' : StronglySorted key_le s) by (inversion Hs; assumption).
  case_bool_decide; [apply IH; exact Hs'|].
  destruct (Qltb (cdist c) tol); [|apply IH; exact Hs'].
  simpl. constructor; [|apply IH; exact Hs'].
  intros Hin. apply list_elem_of_In, in_map_iff in Hin as (x & Hx & Hin).
  pose proof (select_sorted_gt tol s (cidx c) Hs' (prev_below_next c s Hs (cidx c) eq_refl))
    as Hgt.
  rewrite Forall_forall in Hgt. specialize (Hgt x (proj2 (list_elem_of_In _ _) Hin)). lia.
Qed.

(** The selected row of an index group is its nearest row. *)
Lemma select_sorted_min tol prev s :
  StronglySorted key_le s ->
  Forall (fun c => forall c', c' ∈ s -> cidx c' = cidx c -> (cdist c <= cdist c')%Q)
    (select_sorted tol prev s).
Proof.
  revert prev. induction s as [|c s IH]; intros prev Hs; simpl; [constructor|].
  assert (Hs' : StronglySorted key_le s) by (inversion Hs; assumption).
  assert (Hc : Forall (key_le c) s) by (inversion Hs; assumption).
  assert (Hrest : Forall (fun x => forall c', c' ∈ c :: s -> cidx c' = cidx x ->
                    (cdist x <= cdist c')%Q) (select_sorted tol (Some (cidx c)) s)).
  { pose proof (select_sorted_gt tol s (cidx c) Hs' (prev_below_next c s Hs _ eq_refl)) as Hgt.
    pose proof (IH (Some (cidx c)) Hs') as Hmin.
    rewrite Forall_forall in *. intros x Hx c' Hc' Heq.
    apply elem_of_cons in Hc' as [->|Hc'].
    - specialize (Hgt x Hx). simpl in Hgt. exfalso. lia.
    - exact (Hmin x Hx c' Hc' Heq). }
  case_bool_decide; [exact Hrest|].
  destruct (Qltb (cdist c) tol); [constructor; [|exact Hrest] | exact Hrest].
  intros c' Hc' Heq. apply elem_of_cons in Hc' as [->|Hc']; [apply Qle_refl|].
  rewrite Forall_forall in Hc. apply key_le_dist; [apply Hc, Hc' | symmetry; exact Heq].
Qed.

(** Every index group whose nearest row is within the tolerance is selected,
    unless it is the group of the previous row. *)
Lemma select_sorted_complete tol prev s c' :
  StronglySorted key_le s -> c' ∈ s -> prev <> Some (cidx c') ->
  (forall c'', c'' ∈ s -> cidx c'' = cidx c' -> (cdist c' <= cdist c'')%Q) ->
  (cdist c' < tol)%Q ->
  exists c, c ∈ select_sorted tol prev s /\ cidx c = cidx c'.
Proof.
  revert prev. induction s as [|c s IH]; intros prev Hs Hin Hprev Hmin Htol;
    [apply elem_of_nil in Hin; contradiction|].
  assert (Hs' : StronglySorted key_le s) by (inversion Hs; assumption).
  assert (Hc : Forall (key_le c) s) by (inversion Hs; assumption).
  simpl. destruct (decide (cidx c = cidx c')) as [Heq|Hne].
  - rewrite bool_decide_false by (rewrite Heq; exact Hprev).
    assert (Hd : (cdist c <= cdist c')%Q).
    { apply elem_of_cons in Hin as [->|Hin]; [apply Qle_refl|].
      rewrite Forall_forall in Hc. apply key_le_dist; [apply Hc, Hin | exact Heq]. }
    assert (Hlt : Qltb (cdist c) tol = true) by (apply Qltb_iff; lra). rewrite Hlt.
    exists c. split; [apply elem_of_cons; left; reflexivity | exact Heq].
  - assert (Hin' : c' ∈ s) by (apply elem_of_cons in Hin as [->|?]; [contradiction | assumption]).
    assert (Hprev' : Some (cidx c) <> Some (cidx c')) by congruence.
    assert (Hmin' : forall c'', c'' ∈ s -> cidx c'' = cidx c' -> (cdist c' <= cdist c'')%Q).
    { intros c'' ? ?. apply Hmin; [apply elem_of_cons; right|]; assumption. }
    destruct (IH (Some (cidx c)) Hs' Hin' Hprev' Hmin' Htol) as (x & Hx & Hxi).
    exists x. split; [|exact Hxi].
    case_bool_decide; [exact Hx|].
    destruct (Qltb (cdist c) tol); [apply elem_of_cons; right|]; exact Hx.
Qed.

Lemma select_sorted_mono tol1 tol2 prev s :
  (tol1 <= tol2)%Q -> select_sorted tol1 prev s `sublist_of` select_sorted tol2 prev s.
Proof.
  intros Hle. revert prev. induction s as [|c s IH]; intros prev; simpl; [constructor|].
  case_bool_decide; [apply IH|].
  destruct (Qltb (cdist c) tol1) eqn:E1, (Qltb (cdist c) tol2) eqn:E2.
  - apply sublist_skip, IH.
  - apply Qltb_iff in E1. apply Qltb_false in E2. exfalso. lra.
  - apply sublist_cons, IH.
  - apply IH.
Qed.

(** ** The abstract contract of the join *)

(** What [join_catalogs] promises of the rows it keeps, as a relation between
    the candidate rows of [hstack] and the kept rows: they are candidates
    (each left row at most once), no right index is kept twice, each kept row
    is within the tolerance and nearest among the candidates of its right
    row, and every right row whose nearest candidate is within the tolerance
    is kept. *)
Definition best_matches (tol : Q) (cands out : list cand) : Prop :=
  out ⊆+ cands /\
  NoDup (map cidx out) /\
  Forall (fun c => (cdist c < tol)%Q /\
    forall c', c' ∈ cands -> cidx c' = cidx c -> (cdist c <= cdist c')%Q) out /\
  (forall c', c' ∈ cands ->
     (forall c'', c'' ∈ cands -> cidx c'' = cidx c' -> (cdist c' <= cdist c'')%Q) ->
     (cdist c' < tol)%Q -> exists c, c ∈ out /\ cidx c = cidx c').

Lemma sort_by_strongly_sorted (cands : list cand) :
  StronglySorted key_le (sort_by cand_key cands).
Proof.
  apply Sorted_StronglySorted; [|apply sort_by_sorted].
  intros x y z. apply key_leb_trans.
Qed.

(** Whatever order the library's sort leaves equal keys in, the rows the
    reference selection keeps satisfy the abstract contract. *)
Theorem select_sorted_refines tol (cands : list cand) :
  best_matches tol cands (select_sorted tol None (sort_by cand_key cands)).
Proof.
  pose proof (sort_by_perm _ cand_key cands) as Hp.
  pose proof (sort_by_strongly_sorted cands) as Hs.
  set (s := sort_by cand_key cands) in *.
  assert (Hmem : forall x, x ∈ s <-> x ∈ cands) by (intros x; rewrite Hp; reflexivity).
  split; [|split; [|split]].
  - etrans; [apply sublist_submseteq, select_sorted_sublist | apply Permutation_submseteq, Hp].
  - apply select_sorted_NoDup, Hs.
  - pose proof (select_sorted_tol tol None s) as Ht.
    pose proof (select_sorted_min tol None s Hs) as Hm.
    rewrite Forall_forall in *. intros c Hc. split; [apply Ht, Hc|].
    intros c' Hc'. apply Hm; [exact Hc | apply Hmem, Hc'].
  - intros c' Hc' Hmin Htol.
    apply (select_sorted_complete tol None s c' Hs); [apply Hmem, Hc' | discriminate | | exact Htol].
    intros c'' Hc''. apply Hmin, Hmem, Hc''.
Qed.

(** A row of [hstack] is the [k]-th row of each of the three tables. *)
Lemma hstack_rows_lookup it lt rt c :
  c ∈ hstack_rows it lt rt ->
  exists k, it !! k = Some c.1.1 /\ lt !! k = Some c.1.2 /\ rt !! k = Some c.2.
Proof.
  intros Hc. apply list_elem_of_lookup in Hc as [k Hk]. unfold hstack_rows, zip in Hk.
  apply lookup_zip_with_Some in Hk as (ab & r & -> & Hab & Hr).
  apply lookup_zip_with_Some in Hab as (a & b & -> & Ha & Hb).
  exists k. auto.
Qed.

(** ** [join_catalogs] itself *)

Definition proj_row (c : cand) : L * R := (c.1.2, c.2).

(** The successful run of [join_catalogs_tol], step by step. *)
Lemma join_catalogs_tol_Ok tol it lt rt out :
  join_catalogs_tol tol it lt rt = Ok out ->
  exists right_rows names,
    py_take (rows rt) (map index (rows it)) = Ok right_rows /\
    hstack_colnames [colnames it; colnames lt; colnames rt] = Ok names /\
    del_columns ["index"; "distance"] names = Ok (colnames out) /\
    rows out = map proj_row
      (select_sorted tol None (sort_by cand_key (hstack_rows (rows it) (rows lt) right_rows))).
Proof.
  unfold join_catalogs_tol. intros Hj.
  apply bind_Ok in Hj as (rr & Hrr & Hj).
  apply bind_Ok in Hj as (names & Hn & Hj).
  apply bind_Ok in Hj as (mask & Hm & Hj).
  apply bind_Ok in Hj as (sel & Hsel & Hj).
  apply bind_Ok in Hj as (names' & Hd & Hj). injection Hj as <-.
  pose proof (mask_select_reference tol (sort_by cand_key (hstack_rows (rows it) (rows lt) rr)))
    as He.
  rewrite Hm in He. cbn [bind] in He. rewrite Hsel in He. injection He as ->.
  exists rr, names. repeat split; assumption.
Qed.

Lemma join_catalogs_best tol it lt rt out :
  join_catalogs_tol tol it lt rt = Ok out ->
  exists right_rows sel,
    Forall2 (fun ir r => rows rt !! index ir = Some r) (rows it) right_rows /\
    best_matches tol (hstack_rows (rows it) (rows lt) right_rows) sel /\
    rows out = map proj_row sel.
Proof.
  intros Hj. destruct (join_catalogs_tol_Ok tol it lt rt out Hj)
    as (rr & names & Hrr & _ & _ & Hout).
  exists rr, (select_sorted tol None (sort_by cand_key (hstack_rows (rows it) (rows lt) rr))).
  split; [|split; [apply select_sorted_refines | exact Hout]].
  apply py_take_Ok, Forall2_map_l in Hrr. exact Hrr.
Qed.

(** (C1) Each row [join_catalogs] keeps is a left row with the right row its
    index row points to, and the kept rows are exactly what the abstract
    contract [best_matches] allows: no right row twice, each left row at
    most once, nearest per right row, strictly within the tolerance, and no
    right row left out whose nearest candidate is within the tolerance. *)
Theorem join_catalogs_refines tol it lt rt out :
  join_catalogs_tol tol it lt rt = Ok out ->
  exists right_rows sel,
    Forall2 (fun ir r => rows rt !! index ir = Some r) (rows it) right_rows /\
    best_matches tol (hstack_rows (rows it) (rows lt) right_rows) sel /\
    rows out = map proj_row sel.
Proof. apply join_catalogs_best. Qed.

(** The conditions under which [join_catalogs] raises nothing. *)
Lemma join_catalogs_tol_exists tol it lt rt names :
  Forall (fun ir => index ir < length (rows rt)) (rows it) ->
  hstack_colnames [colnames it; colnames lt; colnames rt] = Ok names ->
  "index" ∈ names -> "distance" ∈ names ->
  exists out, join_catalogs_tol tol it lt rt = Ok out.
Proof.
  intros Hrange Hn Hi Hd.
  destruct (py_take_in_range (rows rt) (map index (rows it))) as [rr Hrr].
  { apply Forall_map. exact Hrange. }
  unfold join_catalogs_tol. rewrite Hrr. cbn [bind]. rewrite Hn. cbn [bind].
  set (s := sort_by cand_key (hstack_rows (rows it) (rows lt) rr)).
  pose proof (mask_select_reference tol s) as He.
  destruct (np_mul (good_match (map cidx s)) (nearby tol s)) as [mask|e]; [|discriminate].
  cbn [bind] in *. rewrite He. cbn [bind].
  rewrite del_columns_Ok by (repeat constructor; assumption). cbn [bind]. eauto.
Qed.


(** An index that points past the end of the right table raises
    [IndexError] before anything else happens. *)
Theorem join_catalogs_index_error tol it lt rt ir :
  ir ∈ rows it -> length (rows rt) <= index ir ->
  join_catalogs_tol tol it lt rt = Err IndexError.
Proof.
  intros Hin Hge. unfold join_catalogs_tol.
  rewrite py_take_out_of_range; [reflexivity|].
  apply Exists_exists. exists (index ir). split; [|exact Hge].
  apply list_elem_of_In, in_map, list_elem_of_In, Hin.
Qed.

(** An empty index table gives an empty result. *)
Theorem join_catalogs_empty tol it lt rt out :
  rows it = [] -> join_catalogs_tol tol it lt rt = Ok out -> rows out = [].
Proof.
  intros Hnil Hj. destruct (join_catalogs_best tol it lt rt out Hj)
    as (rr & sel & _ & (Hsub & _) & Hout).
  rewrite Hnil in Hsub. apply submseteq_nil_r in Hsub. rewrite Hout, Hsub. reflexivity.
Qed.

(** (C14) Raising the tolerance never drops a row: the rows kept under a
    smaller tolerance are a sub-sequence of those kept under a larger one. *)
Theorem join_catalogs_monotone tol1 tol2 it lt rt out1 out2 :
  (tol1 <= tol2)%Q ->
  join_catalogs_tol tol1 it lt rt = Ok out1 ->
  join_catalogs_tol tol2 it lt rt = Ok out2 ->
  rows out1 `sublist_of` rows out2.
Proof.
  intros Hle H1 H2.
  destruct (join_catalogs_tol_Ok _ _ _ _ _ H1) as (rr1 & n1 & Hrr1 & _ & _ & ->).
  destruct (join_catalogs_tol_Ok _ _ _ _ _ H2) as (rr2 & n2 & Hrr2 & _ & _ & ->).
  rewrite Hrr1 in Hrr2. injection Hrr2 as <-.
  apply sublist_map, select_sorted_mono, Hle.
Qed.

(** Closer wins, the loser is dropped: when two left rows have the same
    nearest right row and one of them is strictly closer, the farther pair is
    not kept (and, the kept pairs being candidates, its left row is not paired
    with any other right row either). *)
Theorem join_catalogs_closer_wins tol it lt rt out :
  join_catalogs_tol tol it lt rt = Ok out ->
  exists right_rows sel,
    rows out = map proj_row sel /\
    sel ⊆+ hstack_rows (rows it) (rows lt) right_rows /\
    forall a b, a ∈ hstack_rows (rows it) (rows lt) right_rows ->
      b ∈ hstack_rows (rows it) (rows lt) right_rows ->
      cidx a = cidx b -> (cdist a < cdist b)%Q -> b ∉ sel.
Proof.
  intros Hj. destruct (join_catalogs_best tol it lt rt out Hj)
    as (rr & sel & _ & (Hsub & _ & Hbest & _) & Hout).
  exists rr, sel. split; [exact Hout|]. split; [exact Hsub|].
  intros a b Ha _ Hab Hlt Hb. rewrite Forall_forall in Hbest.
  destruct (Hbest b Hb) as [_ Hmin].
  specialize (Hmin a Ha Hab). lra.
Qed.

End Join.

(** ** Concrete tables for the witnesses *)

Local Open Scope string_scope.

(** Two left rows whose nearest right row is row 0, at 0.72 and 1.08
    arcsec; right row 1 lies 1.44 arcsec from left row 1 (positions on the
    equator: left 10 and 10.0005 degrees, right 10.0002 and 10.0009). *)
Definition ex_index_table : table IndexRow :=
  mk_table ["index"; "distance"] [mk_index_row 0 (1#5000); mk_index_row 0 (3#10000)].
Definition ex_left : table nat := mk_table ["id"] [0; 1].
Definition ex_right : table nat := mk_table ["id"] [0; 1].
Definition ex_joined : table (nat * nat) := mk_table ["id_2"; "id_3"] [(0, 0)].

(** Two left rows with distinct nearest right rows, at 0.72 and 2 arcsec. *)
Definition ex_index_table2 : table IndexRow :=
  mk_table ["index"; "distance"] [mk_index_row 0 (1#5000); mk_index_row 1 (1#1800)].

Lemma join_catalogs_refines_witness :
  join_catalogs ex_index_table ex_left ex_right = Ok ex_joined /\
  exists right_rows sel,
    Forall2 (fun ir r => rows ex_right !! index ir = Some r) (rows ex_index_table) right_rows /\
    best_matches (arcsec 3) (hstack_rows (rows ex_index_table) (rows ex_left) right_rows) sel /\
    rows ex_joined = map proj_row sel.
Proof.
  assert (H : join_catalogs ex_index_table ex_left ex_right = Ok ex_joined)
    by (vm_compute; reflexivity).
  split; [exact H | exact (join_catalogs_refines _ _ _ _ _ H)].
Defined.


Lemma join_catalogs_index_error_witness :
  join_catalogs ex_index_table ex_left (mk_table ["id"] [] : table nat) = Err IndexError.
Proof.
  apply (join_catalogs_index_error (arcsec 3) _ _ _ (mk_index_row 0 (1#5000))).
  - apply elem_of_cons. left. reflexivity.
  - simpl. lia.
Defined.

Lemma join_catalogs_empty_witness :
  exists out, join_catalogs (mk_table ["index"; "distance"] []) ex_left ex_right = Ok out /\
    rows out = [].
Proof.
  exists (mk_table ["id_2"; "id_3"] []).
  assert (H : join_catalogs (mk_table ["index"; "distance"] []) ex_left ex_right =
              Ok (mk_table ["id_2"; "id_3"] [])) by (vm_compute; reflexivity).
  split; [exact H | exact (join_catalogs_empty (arcsec 3) (mk_table ["index"; "distance"] []) ex_left ex_right _ eq_refl H)].
Defined.

Lemma join_catalogs_monotone_witness :
  join_catalogs_tol (arcsec 1) ex_index_table2 ex_left ex_right =
    Ok (mk_table ["id_2"; "id_3"] [(0, 0)]) /\
  join_catalogs ex_index_table2 ex_left ex_right =
    Ok (mk_table ["id_2"; "id_3"] [(0, 0); (1, 1)]) /\
  [(0, 0)] `sublist_of` [(0, 0); (1, 1)].
Proof.
  assert (H1 : join_catalogs_tol (arcsec 1) ex_index_table2 ex_left ex_right =
               Ok (mk_table ["id_2"; "id_3"] [(0, 0)])) by (vm_compute; reflexivity).
  assert (H3 : join_catalogs ex_index_table2 ex_left ex_right =
               Ok (mk_table ["id_2"; "id_3"] [(0, 0); (1, 1)])) by (vm_compute; reflexivity).
  split; [exact H1 | split; [exact H3|]].
  exact (join_catalogs_monotone (arcsec 1) (arcsec 3) _ _ _ _ _
           (proj1 (Qle_bool_iff (arcsec 1) (arcsec 3)) eq_refl) H1 H3).
Defined.

Lemma join_catalogs_closer_wins_witness :
  join_catalogs ex_index_table ex_left ex_right = Ok ex_joined /\
  exists right_rows sel,
    rows ex_joined = map proj_row sel /\
    sel ⊆+ hstack_rows (rows ex_index_table) (rows ex_left) right_rows /\
    forall a b, a ∈ hstack_rows (rows ex_index_table) (rows ex_left) right_rows ->
      b ∈ hstack_rows (rows ex_index_table) (rows ex_left) right_rows ->
      cidx a = cidx b -> (cdist a < cdist b)%Q -> b ∉ sel.
Proof.
  assert (H : join_catalogs ex_index_table ex_left ex_right = Ok ex_joined)
    by (vm_compute; reflexivity).
  split; [exact H | exact (join_catalogs_closer_wins _ _ _ _ _ H)].
Defined.

(** The cut-off is strict: a pair exactly 3 arcsec apart is dropped
    (the specification keeps a pair unless it is farther than the
    tolerance). *)
Example join_catalogs_boundary_dropped :
  join_catalogs (mk_table ["index"; "distance"] [mk_index_row 0 (arcsec 3)])
    (mk_table ["id"] [0]) (mk_table ["id"] [0]) = Ok (mk_table ["id_2"; "id_3"] []).
Proof. vm_compute. reflexivity. Qed.

End JoinCatalogs.
