(* ===== verification/Standard.v ===== *)
(** The standard-photometry notebook (src/unnamed/part_000) from the
    positional match to the instrumental colour:

      pos_by = table.Table(b_pos.match_to_catalog_sky(y_pos), ...)   (82-84)
      phot_ins = join_catalogs(pos_by, b_catalog, y_catalog)         (118)
      for col in phot_ins.colnames:                                 (121-123)
          new_name = col.replace('_2', '_b').replace('_3','_y')
          phot_ins.rename_column(col, new_name)
      phot_ins['mag_b-y'] = phot_ins['mag_b'] - phot_ins['mag_y']    (126)

    and the second join against the reference catalog (155-164).  The loop
    iterates over a snapshot of the names ([colnames] returns a new list)
    while the table's names change; a rename onto an existing name raises
    [KeyError].  Source rows are abstract ([Src]), with their sky position
    ([pos]) and instrumental magnitude ([mag]) as section variables.

    The theorems: the loop renames every name exactly once when the renaming
    is injective and never maps a name onto another one; for two catalogs
    of one schema whose names contain neither [_2] nor [_3] the merged names
    are the schema suffixed by [_b] and by [_y]; the pipeline then returns
    for a non-empty y catalog, raises [ValueError] for an empty one, and
    every output row pairs a b source with its nearest y source, within
    3 arcsec, with the colour [mag_b - mag_y]. *)

From S2P Require Import Prelude PyString Schema SkyMatch JoinCatalogs.
From Stdlib Require Import Ascii.

Module Standard.

Import PyString Schema SkyMatch JoinCatalogs.


(** [col.replace('_2', '_b').replace('_3', '_y')]. *)
Definition tidy_name (col : string) : string :=
  str_replace "_3" "_y" (str_replace "_2" "_b" col).

(** [for col in snapshot: t.rename_column(col, f(col))]. *)
Fixpoint rename_loop (f : string -> string) (snapshot cols : list string)
    : result (list string) :=
  match snapshot with
  | [] => Ok cols
  | col :: rest =>
      cols' <- rename_column cols col (f col);;
      rename_loop f rest cols'
  end.

Definition tidy_up (cols : list string) : result (list string) :=
  rename_loop tidy_name cols cols.

(** ** The rename loop *)

Section RenameLoop.
Variable f : string -> string.
Variable cols : list string.
Hypothesis cols_NoDup : NoDup cols.
(** The renaming is injective on the names ... *)
Hypothesis f_inj : forall c d, c ∈ cols -> d ∈ cols -> f c = f d -> c = d.
(** ... and never renames a name onto another one. *)
Hypothesis f_no_capture : forall c d, c ∈ cols -> d ∈ cols -> f c = d -> c = d.

Lemma map_rename_one done c todo :
  c ∉ map f done -> c ∉ todo ->
  map (fun x => if bool_decide (x = c) then f c else x) (map f done ++ c :: todo) =
  map f done ++ f c :: todo.
Proof.
  intros Hdone Htodo. rewrite List.map_app. f_equal.
  - rewrite <- (map_id (map f done)) at 2. apply map_ext_in. intros x Hx.
    case_bool_decide; [subst; exfalso; apply Hdone, list_elem_of_In, Hx | reflexivity].
  - simpl. rewrite bool_decide_true by reflexivity. f_equal.
    rewrite <- (map_id todo) at 2. apply map_ext_in. intros x Hx.
    case_bool_decide; [subst; exfalso; apply Htodo, list_elem_of_In, Hx | reflexivity].
Qed.

Lemma rename_loop_progress done todo :
  done ++ todo = cols ->
  rename_loop f todo (map f done ++ todo) = Ok (map f cols).
Proof.
  revert done. induction todo as [|c todo IH]; intros done Hcols; simpl.
  - rewrite app_nil_r in *. subst. reflexivity.
  - assert (Hc : c ∈ cols) by (rewrite <- Hcols; apply elem_of_app; right; left).
    assert (Hnd : NoDup (done ++ c :: todo)) by (rewrite Hcols; exact cols_NoDup).
    apply NoDup_app in Hnd as (_ & Hdisj & Hnd'). apply NoDup_cons in Hnd' as [Hct _].
    assert (Hcd : c ∉ done) by (intros Hin; exact (Hdisj c Hin (list_elem_of_here _ _))).
    assert (Hsub : forall x, x ∈ done -> x ∈ cols)
      by (intros x Hx; rewrite <- Hcols; apply elem_of_app; left; exact Hx).
    assert (Hsub' : forall x, x ∈ todo -> x ∈ cols)
      by (intros x Hx; rewrite <- Hcols; apply elem_of_app; right; right; exact Hx).
    assert (Hnext : map f (done ++ [c]) ++ todo = map f done ++ f c :: todo)
      by (rewrite List.map_app, <- app_assoc; reflexivity).
    assert (Hcols' : (done ++ [c]) ++ todo = cols) by (rewrite <- app_assoc; exact Hcols).
    unfold rename_column.
    rewrite bool_decide_true by (apply elem_of_app; right; left).
    case_bool_decide as Hfix.
    + cbn [bind]. rewrite <- (IH (done ++ [c]) Hcols'), Hnext, <- Hfix. reflexivity.
    + rewrite bool_decide_false.
      * cbn [bind]. rewrite map_rename_one, <- Hnext; [apply IH, Hcols'| |exact Hct].
        intros Hin. apply elem_of_map in Hin as (d & Hd & Hdin).
        apply Hcd. rewrite <- (f_no_capture d c (Hsub d Hdin) Hc (eq_sym Hd)). exact Hdin.
      * intros Hin. apply elem_of_app in Hin as [Hin|Hin].
        -- apply elem_of_map in Hin as (d & Hd & Hdin).
           apply Hcd. rewrite (f_inj c d Hc (Hsub d Hdin) Hd). exact Hdin.
        -- apply elem_of_cons in Hin as [Hin|Hin]; [exact (Hfix (eq_sym Hin))|].
           exact (Hfix (f_no_capture c (f c) Hc (Hsub' _ Hin) eq_refl)).
Qed.

(** The tidy-up loop renames every name once, in place, and never
    raises, when the renaming is injective and never maps a name onto
    another one. *)
Theorem rename_loop_map : rename_loop f cols cols = Ok (map f cols).
Proof. exact (rename_loop_progress [] cols eq_refl). Qed.

Lemma rename_loop_snapshot : rename_loop f cols cols = Ok (map f cols).
Proof. exact (rename_loop_progress [] cols eq_refl). Qed.

End RenameLoop.

(** ** The tidy-up on the names [hstack] gives two catalogs of one schema *)

(** A schema name the tidy-up leaves alone apart from its suffix: it
    contains neither [_2] nor [_3]. *)
Definition plain_name (c : string) : bool := negb (occurs "_2" c) && negb (occurs "_3" c).

Lemma tidy_name_2 c : plain_name c = true -> tidy_name (c +:+ "_2") = c +:+ "_b".
Proof.
  unfold plain_name. rewrite andb_true_iff, !negb_true_iff. intros [H2 H3].
  unfold tidy_name, str_replace.
  rewrite replace_scan_app_two, replace_scan_self_two by (exact H2 || (intros t Ht; discriminate)).
  rewrite replace_scan_app_two by (exact H3 || (intros t Ht; discriminate)).
  reflexivity.
Qed.

Lemma tidy_name_3 c : plain_name c = true -> tidy_name (c +:+ "_3") = c +:+ "_y".
Proof.
  unfold plain_name. rewrite andb_true_iff, !negb_true_iff. intros [H2 H3].
  unfold tidy_name, str_replace.
  rewrite replace_scan_app_two by (exact H2 || (intros t Ht; discriminate)).
  change (replace_scan "_2" "_b" 0 "_3") with "_3".
  rewrite replace_scan_app_two, replace_scan_self_two by (exact H3 || (intros t Ht; discriminate)).
  reflexivity.
Qed.

Lemma suffixed_neq c d a b x y :
  b <> y -> c +:+ String a (String b EmptyString) <> d +:+ String x (String y EmptyString).
Proof. intros Hby. rewrite !str_app_two. apply str_last_neq, Hby. Qed.

Lemma suffixed_neq2 c d a b x :
  a <> x -> c +:+ String a (String b EmptyString) <> d +:+ String x (String b EmptyString).
Proof.
  intros Hax H. rewrite !str_app_two in H. apply str_app_inj_l in H.
  revert H. apply str_last_neq, Hax.
Qed.

Lemma suffix_inj a b c d :
  c +:+ String a (String b EmptyString) = d +:+ String a (String b EmptyString) -> c = d.
Proof. apply str_app_inj_l. Qed.

Lemma hstack_out_names_three a b c :
  hstack_out_names [a; b; c] =
  map (fun n => if collides [a; b; c] 0 n then uniq_col_name n 0 else n) a ++
  map (fun n => if collides [a; b; c] 1 n then uniq_col_name n 1 else n) b ++
  map (fun n => if collides [a; b; c] 2 n then uniq_col_name n 2 else n) c.
Proof. unfold hstack_out_names. cbn [imap concat]. rewrite app_nil_r. reflexivity. Qed.

Section SameSchema.
Variable S : list string.
Hypothesis S_NoDup : NoDup S.
Hypothesis S_plain : Forall (fun c => plain_name c = true) S.
Hypothesis S_keys : ("index" ∉ S) /\ ("distance" ∉ S).

Definition index_names : list string := ["index"; "distance"].
Definition names_2 : list string := map (fun c => c +:+ "_2") S.
Definition names_3 : list string := map (fun c => c +:+ "_3") S.

Lemma key_not_suffixed n c a b :
  n ∈ index_names -> b <> "x"%char -> b <> "e"%char -> n <> c +:+ String a (String b EmptyString).
Proof.
  intros Hn Hx He. apply elem_of_cons in Hn as [->|Hn];
    [|apply elem_of_cons in Hn as [->|Hn]; [|apply elem_of_nil in Hn; contradiction]].
  - change "index" with ("ind" +:+ String "e" (String "x" EmptyString)).
    intros H. symmetry in H. revert H. apply suffixed_neq. congruence.
  - change "distance" with ("distan" +:+ String "c" (String "e" EmptyString)).
    intros H. symmetry in H. revert H. apply suffixed_neq. congruence.
Qed.

Lemma hstack_two_catalogs_names :
  hstack_colnames [index_names; S; S] = Ok (index_names ++ names_2 ++ names_3).
Proof.
  apply hstack_colnames_Ok. split.
  - rewrite hstack_out_names_three. unfold names_2, names_3. symmetry. f_equal; [|f_equal].
    + transitivity (map (fun x => x) index_names); [|apply map_id]. apply map_ext_in. intros n Hn.
      unfold collides. cbn [delete list_delete existsb].
      destruct S_keys as [Hi Hd]. simpl in Hn.
      destruct Hn as [<-|[<-|[]]]; rewrite !bool_decide_false by assumption; reflexivity.
    + apply map_ext_in. intros n Hn. unfold collides. cbn [delete list_delete existsb].
      rewrite (bool_decide_true (n ∈ S)) by (apply list_elem_of_In, Hn).
      rewrite orb_true_r. reflexivity.
    + apply map_ext_in. intros n Hn. unfold collides. cbn [delete list_delete existsb].
      rewrite (bool_decide_true (n ∈ S)) by (apply list_elem_of_In, Hn).
      rewrite orb_true_r. reflexivity.
  - apply NoDup_app. split; [|split].
    + constructor; [|constructor; [apply not_elem_of_nil | constructor]].
      intros Hin. apply elem_of_cons in Hin as [H|H];
        [discriminate | apply elem_of_nil in H; exact H].
    + intros n Hn Hin. apply elem_of_app in Hin as [Hin|Hin];
        apply elem_of_map in Hin as (c & -> & _).
      * exact (key_not_suffixed _ c "_" "2" Hn ltac:(discriminate) ltac:(discriminate) eq_refl).
      * exact (key_not_suffixed _ c "_" "3" Hn ltac:(discriminate) ltac:(discriminate) eq_refl).
    + apply NoDup_app. split; [|split].
      * apply NoDup_map_inj; [apply suffix_inj | exact S_NoDup].
      * intros n Hn Hin. apply elem_of_map in Hn as (c & -> & _).
        apply elem_of_map in Hin as (d & Hcd & _). revert Hcd.
        apply suffixed_neq. discriminate.
      * apply NoDup_map_inj; [apply suffix_inj | exact S_NoDup].
Qed.

(** [hstack] of the index table and two catalogs of one schema
    renames every catalog name to [name_2] and [name_3] and keeps [index]
    and [distance], without a clash. *)
Theorem hstack_two_catalogs :
  hstack_colnames [index_names; S; S] = Ok (index_names ++ names_2 ++ names_3).
Proof. apply hstack_two_catalogs_names. Qed.

Definition names_b : list string := map (fun c => c +:+ "_b") S.
Definition names_y : list string := map (fun c => c +:+ "_y") S.

(** [del result['index', 'distance']] on the stacked names. *)
Lemma del_index_names :
  del_columns index_names (index_names ++ names_2 ++ names_3) = Ok (names_2 ++ names_3).
Proof.
  rewrite del_columns_Ok.
  - f_equal. rewrite List.filter_app. simpl. apply filter_all_true.
    intros n Hn. apply negb_true_iff, bool_decide_eq_false. intros Hin.
    apply elem_of_app in Hn as [Hn|Hn]; apply elem_of_map in Hn as (c & -> & _).
    + exact (key_not_suffixed _ c "_" "2" Hin ltac:(discriminate) ltac:(discriminate) eq_refl).
    + exact (key_not_suffixed _ c "_" "3" Hin ltac:(discriminate) ltac:(discriminate) eq_refl).
  - constructor; [apply elem_of_app; left; apply elem_of_cons; left; reflexivity|].
    constructor; [|constructor].
    apply elem_of_app; left; apply elem_of_cons; right; apply elem_of_cons; left; reflexivity.
Qed.

Lemma stacked_name_cases x :
  x ∈ names_2 ++ names_3 ->
  exists c, c ∈ S /\ ((x = c +:+ "_2" /\ tidy_name x = c +:+ "_b") \/
                      (x = c +:+ "_3" /\ tidy_name x = c +:+ "_y")).
Proof.
  rewrite Forall_forall in S_plain.
  intros Hx. apply elem_of_app in Hx as [Hx|Hx]; apply elem_of_map in Hx as (c & -> & Hc);
    exists c; split; auto.
  - left. split; [reflexivity | apply tidy_name_2, S_plain, Hc].
  - right. split; [reflexivity | apply tidy_name_3, S_plain, Hc].
Qed.

(** The tidy-up loop on the names of the join of two catalogs of one schema. *)
Lemma tidy_two_catalogs : tidy_up (names_2 ++ names_3) = Ok (names_b ++ names_y).
Proof.
  assert (Hnd : NoDup (names_2 ++ names_3)).
  { pose proof (hstack_two_catalogs_names) as H. apply hstack_colnames_Ok in H as [_ H].
    apply NoDup_app in H as (_ & _ & H). exact H. }
  unfold tidy_up. rewrite (rename_loop_snapshot tidy_name (names_2 ++ names_3) Hnd).
  - f_equal. rewrite List.map_app. unfold names_2, names_3, names_b, names_y.
    rewrite !List.map_map. rewrite Forall_forall in S_plain.
    f_equal; apply map_ext_in; intros c Hc;
      [apply tidy_name_2 | apply tidy_name_3]; apply S_plain, list_elem_of_In, Hc.
  - intros x y Hx Hy Hxy.
    destruct (stacked_name_cases x Hx) as (c & _ & [[-> Hc]|[-> Hc]]);
    destruct (stacked_name_cases y Hy) as (d & _ & [[-> Hd]|[-> Hd]]);
      rewrite Hc, Hd in Hxy;
      [f_equal; exact (suffix_inj _ _ _ _ Hxy) | exfalso; revert Hxy; apply suffixed_neq; discriminate
      | exfalso; revert Hxy; apply suffixed_neq; discriminate | f_equal; exact (suffix_inj _ _ _ _ Hxy)].
  - intros x y Hx Hy Hxy. exfalso.
    destruct (stacked_name_cases x Hx) as (c & _ & [[-> Hc]|[-> Hc]]);
    destruct (stacked_name_cases y Hy) as (d & _ & [[-> Hd]|[-> Hd]]);
      rewrite Hc in Hxy; revert Hxy; apply suffixed_neq; discriminate.
Qed.

(** The colour column is a new column of the tidied names. *)
Lemma set_colour_column :
  set_column (names_b ++ names_y) "mag_b-y" = names_b ++ names_y ++ ["mag_b-y"].
Proof.
  unfold set_column. rewrite bool_decide_false, app_assoc; [reflexivity|].
  change "mag_b-y" with ("mag_b" +:+ String "-" (String "y" EmptyString)).
  intros Hin. apply elem_of_app in Hin as [Hin|Hin]; apply elem_of_map in Hin as (c & Hc & _).
  - revert Hc. apply suffixed_neq. discriminate.
  - revert Hc. apply suffixed_neq2. discriminate.
Qed.

End SameSchema.

(** ** The pipeline *)

Section Pipeline.
Context {P Src : Type} `{SkyMatcher P} `{TableSort}.
(** The sky position of a catalog row ([SkyCoord(t['ra'], t['dec'])]). *)
Variable pos : Src -> P.
(** The instrumental magnitude of a catalog row ([t['mag']]). *)
Variable mag : Src -> Q.

(** A row of [phot_ins]: the b source, the y source and [mag_b-y]. *)
Definition colour_row (by_ : Src * Src) : Src * Src * Q :=
  (by_.1, by_.2, (mag by_.1 - mag by_.2)%Q).

(** Lines 77-84 and 118-126: match, join, tidy the names, add the colour. *)
Definition instrumental_photometry (b_catalog y_catalog : table Src)
    : result (table (Src * Src * Q)) :=
  pos_by <- index_table (map pos (rows b_catalog)) (map pos (rows y_catalog));;
  phot_ins <- join_catalogs pos_by b_catalog y_catalog;;
  names <- tidy_up (colnames phot_ins);;
  _ <- get_column names "mag_b";;
  _ <- get_column names "mag_y";;
  Ok (mk_table (set_column names "mag_b-y") (map colour_row (rows phot_ins))).

(** Lines 155-164: match the reference catalog against [phot_ins] by the b
    position ([ra_b], [dec_b]) and join. *)
Definition standard_photometry {Std : Type} (std_pos : Std -> P)
    (phot_std : table Std) (phot_ins : table (Src * Src * Q))
    : result (table (Std * (Src * Src * Q))) :=
  pos_std_ins <- index_table (map std_pos (rows phot_std))
                             (map (fun r => pos r.1.1) (rows phot_ins));;
  join_catalogs pos_std_ins phot_std phot_ins.

Variable S : list string.
Hypothesis S_NoDup : NoDup S.
Hypothesis S_plain : Forall (fun c => plain_name c = true) S.
Hypothesis S_keys : ("index" ∉ S) /\ ("distance" ∉ S).
Hypothesis S_mag : "mag" ∈ S.

(** The names of the join of two catalogs of schema [S]. *)
Lemma join_two_catalogs_names it (b y : table Src) out :
  colnames it = index_names -> colnames b = S -> colnames y = S ->
  join_catalogs it b y = Ok out -> colnames out = names_2 S ++ names_3 S.
Proof.
  intros Hi Hb Hy Hj.
  destruct (join_catalogs_tol_Ok _ _ _ _ _ Hj) as (rr & names & _ & Hn & Hd & _).
  rewrite Hi, Hb, Hy, (hstack_two_catalogs_names S S_NoDup S_keys) in Hn.
  injection Hn as <-.
  change (del_columns index_names (index_names ++ names_2 S ++ names_3 S) = Ok (colnames out))
    in Hd.
  rewrite (del_index_names S) in Hd.
  injection Hd as <-. reflexivity.
Qed.

Lemma get_mag_columns :
  get_column (names_b S ++ names_y S) "mag_b" = Ok tt /\
  get_column (names_b S ++ names_y S) "mag_y" = Ok tt.
Proof.
  unfold get_column. split; rewrite bool_decide_true; [reflexivity| |reflexivity|];
    apply elem_of_app; [left|right]; apply elem_of_map; exists "mag"; auto.
Qed.

(** (C29) The merged catalog's names are the schema suffixed by [_b], then by
    [_y], then the colour column. *)
Theorem instrumental_names (b y : table Src) out :
  colnames b = S -> colnames y = S ->
  instrumental_photometry b y = Ok out ->
  colnames out = names_b S ++ names_y S ++ ["mag_b-y"].
Proof.
  intros Hb Hy Hout. unfold instrumental_photometry in Hout.
  apply bind_Ok in Hout as (pos_by & Hpb & Hout). apply index_table_Ok in Hpb as [Hpbn _].
  apply bind_Ok in Hout as (phot & Hj & Hout).
  rewrite (join_two_catalogs_names pos_by b y phot Hpbn Hb Hy Hj),
    (tidy_two_catalogs S S_NoDup S_plain S_keys) in Hout. cbn [bind] in Hout.
  destruct get_mag_columns as [Hmb Hmy]. rewrite Hmb, Hmy in Hout.
  cbn [bind] in Hout. injection Hout as <-.
  apply (set_colour_column S).
Qed.

(** (C13) For catalogs of the expected schema and a non-empty y catalog
    the instrumental pipeline returns a table. *)
Theorem instrumental_total (b y : table Src) :
  colnames b = S -> colnames y = S -> rows y <> [] ->
  exists out, instrumental_photometry b y = Ok out.
Proof.
  intros Hb Hy Hne.
  assert (Hne' : map pos (rows y) <> []) by (destruct (rows y); [contradiction | discriminate]).
  destruct (index_table_nonempty (map pos (rows b)) _ Hne') as [pos_by Hpb].
  pose proof Hpb as Hpb'. apply index_table_Ok in Hpb' as [Hpbn Hm].
  destruct (match_nearest (map pos (rows b)) (map pos (rows y)) Hne') as (rs & Hrs & Hall).
  rewrite Hm in Hrs. injection Hrs as <-.
  destruct (join_catalogs_tol_exists (arcsec 3) pos_by b y (index_names ++ names_2 S ++ names_3 S))
    as [phot Hj].
  - apply Forall_forall. intros ir Hir. apply list_elem_of_lookup in Hir as [k Hk].
    destruct (Forall2_lookup_r _ _ _ _ _ Hall Hk) as (c & _ & [(p & Hp & _) _]).
    apply lookup_lt_Some in Hp. rewrite length_map in Hp. exact Hp.
  - rewrite Hpbn, Hb, Hy. apply (hstack_two_catalogs_names S S_NoDup S_keys).
  - apply elem_of_app. left. apply elem_of_cons. left. reflexivity.
  - apply elem_of_app. left. apply elem_of_cons. right. apply elem_of_cons. left. reflexivity.
  - unfold instrumental_photometry. rewrite Hpb. cbn [bind]. unfold join_catalogs.
    rewrite Hj. cbn [bind].
    rewrite (join_two_catalogs_names pos_by b y phot Hpbn Hb Hy Hj),
      (tidy_two_catalogs S S_NoDup S_plain S_keys). cbn [bind].
    destruct get_mag_columns as [-> ->]. cbn [bind]. eauto.
Qed.

(** (C3) Every row of the merged catalog is a b source with a y source
    nearest to it (whichever one the matcher answers on a tie), strictly
    within 3 arcsec, and the colour [mag_b - mag_y] of the pair. *)
Theorem instrumental_rows (b y : table Src) out :
  instrumental_photometry b y = Ok out ->
  Forall (fun r =>
    r.2 = (mag r.1.1 - mag r.1.2)%Q /\ r.1.1 ∈ rows b /\
    exists ir, is_nearest (pos r.1.1) (map pos (rows y)) ir /\
      (distance ir < arcsec 3)%Q /\ rows y !! index ir = Some r.1.2) (rows out).
Proof.
  intros Hout. unfold instrumental_photometry in Hout.
  apply bind_Ok in Hout as (pos_by & Hpb & Hout). apply index_table_Ok in Hpb as [_ Hm].
  apply bind_Ok in Hout as (phot & Hj & Hout).
  apply bind_Ok in Hout as (names & _ & Hout).
  apply bind_Ok in Hout as ([] & _ & Hout).
  apply bind_Ok in Hout as ([] & _ & Hout). injection Hout as <-. cbn [rows].
  destruct (join_catalogs_best _ _ _ _ _ Hj) as (rr & sel & Hrr & (Hsub & _ & Hbest & _) & Hrows).
  assert (Hne : map pos (rows y) <> []).
  { intros Hnil. rewrite Hnil, match_empty_catalog in Hm. discriminate. }
  destruct (match_nearest (map pos (rows b)) (map pos (rows y)) Hne) as (rs & Hrs & Hall).
  rewrite Hm in Hrs. injection Hrs as <-.
  rewrite Hrows. apply Forall_forall. intros r Hr.
  apply elem_of_map in Hr as (bc & -> & Hbc). apply elem_of_map in Hbc as (c & -> & Hc).
  rewrite Forall_forall in Hbest. destruct (Hbest c Hc) as [Htol _].
  destruct (hstack_rows_lookup _ _ _ c (elem_of_submseteq _ _ _ Hc Hsub))
    as (k & Hk1 & Hk2 & Hk3).
  unfold colour_row, proj_row. cbn [fst snd].
  split; [reflexivity|]. split; [apply list_elem_of_lookup; eauto|].
  exists c.1.1. split; [|split; [exact Htol|]].
  - apply (Forall2_lookup_lr _ _ _ k _ _ Hall); [|exact Hk1].
    rewrite lookup_map, Hk2. reflexivity.
  - exact (Forall2_lookup_lr _ _ _ k _ _ Hrr Hk1 Hk3).
Qed.

End Pipeline.

(** An empty y catalog makes the positional match raise [ValueError], so
    the pipeline stops there (the specification expects an empty result). *)
Lemma instrumental_empty_y {P Src : Type} `{SkyMatcher P} `{TableSort}
    (pos : Src -> P) (mag : Src -> Q) b y :
  rows y = [] -> instrumental_photometry pos mag b y = Err ValueError.
Proof.
  intros Hnil. unfold instrumental_photometry, index_table. rewrite Hnil. cbn [map].
  rewrite match_empty_catalog.
  reflexivity.
Qed.

(** ** Concrete catalogs for the witnesses *)

Record star := mk_star { star_ra : Q; star_dec : Q; star_mag : Q }.

(** Positions on the equator (every star has declination 0). *)
Definition star_pos (s : star) : EquatorPos := mk_equator_pos (star_ra s).

Definition ex_schema : list string := ["ra"; "dec"; "mag"].

(** b stars at 10 and 10.0005 degrees, y stars at 10.0002 and 10.0009:
    both b stars are nearest to the first y star; the first b star is closer. *)
Definition ex_b : table star :=
  mk_table ex_schema [mk_star 10 0 15; mk_star (20001#2000) 0 16].
Definition ex_y : table star :=
  mk_table ex_schema [mk_star (50001#5000) 0 (29#2); mk_star (100009#10000) 0 (76#5)].

Definition ex_phot_ins : table (star * star * Q) :=
  mk_table ["ra_b"; "dec_b"; "mag_b"; "ra_y"; "dec_y"; "mag_y"; "mag_b-y"]
    [(mk_star 10 0 15, mk_star (50001#5000) 0 (29#2), (15 - (29#2))%Q)].

Lemma instrumental_photometry_ex :
  instrumental_photometry star_pos star_mag ex_b ex_y = Ok ex_phot_ins.
Proof. vm_compute. reflexivity. Qed.

Lemma rename_loop_map_witness :
  rename_loop tidy_name ["ra_2"; "mag_3"] ["ra_2"; "mag_3"] = Ok ["ra_b"; "mag_y"].
Proof.
  apply (rename_loop_map tidy_name ["ra_2"; "mag_3"]).
  - decide_closed.
  - intros c d Hc Hd. elem_cases Hc; elem_cases Hd; intros Heq;
      first [reflexivity | vm_compute in Heq; discriminate Heq].
  - intros c d Hc Hd. elem_cases Hc; elem_cases Hd; intros Heq;
      first [reflexivity | vm_compute in Heq; discriminate Heq].
Defined.

Lemma hstack_two_catalogs_witness :
  hstack_colnames [index_names; ex_schema; ex_schema] =
  Ok (index_names ++ names_2 ex_schema ++ names_3 ex_schema).
Proof. apply hstack_two_catalogs; decide_closed. Defined.

Lemma instrumental_names_witness :
  colnames ex_phot_ins = names_b ex_schema ++ names_y ex_schema ++ ["mag_b-y"].
Proof.
  refine (instrumental_names star_pos star_mag ex_schema _ _ _ _ ex_b ex_y _
            _ _ instrumental_photometry_ex); decide_closed.
Defined.

Lemma instrumental_total_witness :
  exists out, instrumental_photometry star_pos star_mag ex_b ex_y = Ok out.
Proof. apply (instrumental_total star_pos star_mag ex_schema); decide_closed. Defined.

Lemma instrumental_rows_witness :
  Forall (fun r =>
    r.2 = (star_mag r.1.1 - star_mag r.1.2)%Q /\ r.1.1 ∈ rows ex_b /\
    exists ir, is_nearest (star_pos r.1.1) (map star_pos (rows ex_y)) ir /\
      (distance ir < arcsec 3)%Q /\ rows ex_y !! index ir = Some r.1.2) (rows ex_phot_ins).
Proof. exact (instrumental_rows star_pos star_mag ex_b ex_y _ instrumental_photometry_ex). Defined.

(** The specification's example: one star at 10 degrees and one at
    10.001 degrees on the equator, 3.6 arcsec apart, are not matched by the
    notebook's 3 arcsec cut-off. *)
Example spec_separation_example :
  instrumental_photometry star_pos star_mag
    (mk_table ex_schema [mk_star 10 0 15]) (mk_table ex_schema [mk_star (10001#1000) 0 14])
  = Ok (mk_table ["ra_b"; "dec_b"; "mag_b"; "ra_y"; "dec_y"; "mag_y"; "mag_b-y"] []).
Proof. vm_compute. reflexivity. Qed.

End Standard.
