(* ===== verification/Ccdred.v ===== *)
(** The CCD reduction notebook (src/unnamed/part_001): a master bias, one
    master flat per Strömgren band and the bias- and flat-corrected science
    frames of M67, computed with ccdproc and written to disk.

    The state of the notebook is a [session]: the [disk] (its directories and
    its FITS files, by path) and the variables the later cells read
    ([master_bias], [master_flat_b], [master_flat_y]; reading one that no cell
    has set raises [NameError]).  Every cell is a function [session -> result
    session], and [ccdred_run] runs the cells in the notebook's order.

    The library calls are modelled by what they do to the data: [glob] lists
    the files of a directory whose name starts with the pattern's prefix, in
    an order that the [DirOrder] interface leaves open (the operating
    system's), [ccdproc.combine(..., method='median', scale=...)] is the
    pixelwise median of the scaled frames ([IndexError] for no frame,
    [TypeError] for frames of different shapes), [subtract_bias] and
    [flat_correct] are elementwise arithmetic, the latter dividing by the
    flat normalised by its mean, and [write] raises [OSError] on an existing
    file unless [overwrite=True].  The plots are output only, but the last
    cell's [plot(image)] reads the loop variable, which is unbound (a
    [NameError]) when neither science glob lists a frame.

    The theorems: each cell runs when its inputs exist and have matching
    shapes (the [_total] lemmas), so the whole notebook runs on a raw
    directory with a bias frame, a flat of each band and a b science frame
    of one trimmed shape and an empty reduced directory; on uniform frames
    the flat field removes the pixel response and the illuminations; the
    bias cell can be re-run and raises [IndexError] with no bias frame. *)

From S2P Require Import Prelude PyString PySlice Stats Image.
From stdpp Require Import gmap.
From Stdlib Require Import Ascii.

Module Ccdred.

Import PySlice Stats Image.
Local Open Scope string_scope.

(** ** Paths *)

(** [os.path.join(dir, name)] for a relative [name]. *)
Definition path_join (dir name : string) : string := dir +:+ "/" +:+ name.

Fixpoint slash_free (s : string) : bool :=
  match s with
  | EmptyString => true
  | String c s' => negb (bool_decide (c = "/"%char)) && slash_free s'
  end.

Fixpoint basename_from (acc s : string) : string :=
  match s with
  | EmptyString => acc
  | String c s' =>
      if bool_decide (c = "/"%char) then basename_from "" s'
      else basename_from (acc +:+ String c EmptyString) s'
  end.

(** [os.path.basename(p)]: what follows the last [/]. *)
Definition basename (p : string) : string := basename_from "" p.

Fixpoint strip_prefix (pre s : string) : option string :=
  match pre, s with
  | EmptyString, _ => Some s
  | String c pre', String d s' => if bool_decide (c = d) then strip_prefix pre' s' else None
  | String _ _, EmptyString => None
  end.

(** [p] matches [os.path.join(dir, prefix + '*')]: it names a file of
    [dir] itself whose name starts with [prefix]. *)
Definition glob_match (dir prefix p : string) : bool :=
  match strip_prefix (dir +:+ "/") p with
  | Some name => slash_free name && bool_decide (is_Some (strip_prefix prefix name))
  | None => false
  end.

(** ** The disk *)

Record disk := mk_disk { dirs : gset string; files : gmap string image }.

(** The order in which the operating system lists a directory: a
    permutation of its entries that depends only on which entries there
    are. *)
Class DirOrder := {
  dir_order : list string -> list string;
  dir_order_perm : forall l, dir_order l ≡ₚ l;
  dir_order_canon : forall l1 l2, l1 ≡ₚ l2 -> dir_order l1 = dir_order l2
}.

Section Disk.
Context `{DirOrder}.

(** [glob(os.path.join(dir, prefix + '*'))]. *)
Definition glob (d : disk) (dir prefix : string) : list string :=
  dir_order (List.filter (glob_match dir prefix) (elements (dom (files d)))).

End Disk.

(** Alphabetical listing, as [sorted(glob(...))] or [ls] gives it. *)
#[export] Program Instance sorted_dir_order : DirOrder := {
  dir_order l := merge_sort strings.String.le l
}.
Next Obligation. intros l. apply merge_sort_Permutation. Qed.
Next Obligation.
  intros l1 l2 Hp. apply (@Sorted_unique _ strings.String.le _ _);
    [apply Sorted_merge_sort, strings.String.le_total..|].
  etrans; [apply merge_sort_Permutation|]. etrans; [exact Hp|].
  symmetry. apply merge_sort_Permutation.
Qed.

Definition isfile (d : disk) (p : string) : bool := bool_decide (p ∈ dom (files d)).

(** [os.remove(p)], under the notebook's [if os.path.isfile(p)] guard. *)
Definition remove_if_file (d : disk) (p : string) : disk :=
  if isfile d p then mk_disk (dirs d) (delete p (files d)) else d.

(** [if not os.path.isdir(dir): os.mkdir(dir)]. *)
Definition ensure_dir (d : disk) (dir : string) : disk :=
  if bool_decide (dir ∈ dirs d) then d else mk_disk ({[dir]} ∪ dirs d) (files d).

(** [CCDData.read(p)]. *)
Definition read_image (d : disk) (p : string) : result image :=
  match files d !! p with
  | Some im => Ok im
  | None => Err FileNotFoundError
  end.

(** [im.write(os.path.join(dir, name), overwrite=overwrite)]. *)
Definition write_image (d : disk) (dir name : string) (im : image) (overwrite : bool)
    : result disk :=
  if bool_decide (dir ∈ dirs d) then
    if negb overwrite && isfile d (path_join dir name) then Err OSError
    else Ok (mk_disk (dirs d) (<[path_join dir name := im]> (files d)))
  else Err FileNotFoundError.

(** ** ccdproc *)

Definition median_or_zero (l : list Q) : Q := default 0%Q (np_median l).

(** [ccdproc.combine(imgs, method='median', scale=scale)]. *)
Definition combine_median (imgs : list image) (scale : option (list Q)) : result image :=
  match imgs with
  | [] => Err IndexError
  | a :: _ =>
      if bool_decide (Forall (fun b => shape b = shape a) imgs) then
        match scale with
        | None => Ok (combine_pixels median_or_zero imgs)
        | Some cs =>
            if bool_decide (length cs = length imgs) then
              Ok (combine_pixels median_or_zero (zip_with (fun b c => img_map (Qmult c) b) imgs cs))
            else Err ValueError
        end
      else Err TypeError
  end.

(** [ccdproc.subtract_bias(ccd, master)]. *)
Definition subtract_bias (ccd master : image) : result image := img_op Qminus ccd master.

(** [ccdproc.flat_correct(ccd, flat)]: divide by the flat over its mean. *)
Definition flat_correct (ccd flat : image) : result image :=
  let m := img_mean flat in
  img_op Qdiv ccd (img_map (fun x => x / m)%Q flat).

(** [ccdproc.ccd_process(ccd, master_bias=b, master_flat=f)]. *)
Definition ccd_process (ccd b f : image) : result image :=
  sub <- subtract_bias ccd b;; flat_correct sub f.

(** ** The notebook *)

Record session := mk_session {
  disk_of : disk;
  master_bias : option image;
  master_flat_b : option image;
  master_flat_y : option image
}.

Definition get_var {A} (name : string) (v : option A) : result A :=
  match v with
  | Some a => Ok a
  | None => Err (NameError name)
  end.

Definition raw_data_dir : string := "../resources/raw_data".
Definition red_data_dir : string := "../resources/red_data".

(** [ccdproc.trim_image(im[valid_area])], [valid_area = slice(0, 4096), slice(53, 2101)]. *)
Definition valid_area (im : image) : image := py_slice2 im 0 4096 53 2101.

Section Cells.
Context `{DirOrder}.

(** Lines 66-85: the master bias. *)
Definition bias_cell (s : session) : result session :=
  let d0 := disk_of s in
  let bias_list := glob d0 raw_data_dir "bias" in
  let d1 := remove_if_file d0 (path_join red_data_dir "zero.fit") in
  let d2 := ensure_dir d1 red_data_dir in
  imgs <- map_result (read_image d2) bias_list;;
  full_bias <- combine_median imgs None;;
  d3 <- write_image d2 red_data_dir "zero.fit" full_bias false;;
  Ok (mk_session d3 (Some (valid_area full_bias)) (master_flat_b s) (master_flat_y s)).

(** [for p in paths: im = F(read(p)); im.write(os.path.join(red_data_dir,
    out(p)), overwrite=True)], the shape of both loops of lines 110-114 and
    206-218. *)
Definition write_loop (F : image -> result image) (out : string -> string)
    (paths : list string) (d0 : disk) : result disk :=
  for_each (fun d p =>
      raw <- read_image d p;;
      im <- F raw;;
      write_image d red_data_dir (out p) im true) paths d0.

(** Lines 108-114: every flat, trimmed and bias subtracted, to [b_<name>]. *)
Definition flat_bias_cell (s : session) : result session :=
  d <- write_loop (fun raw =>
         mb <- get_var "master_bias" (master_bias s);;
         subtract_bias (valid_area raw) mb)
       (fun flat => "b_" +:+ basename flat)
       (glob (disk_of s) raw_data_dir "flat") (disk_of s);;
  Ok (mk_session d (master_bias s) (master_flat_b s) (master_flat_y s)).

(** Lines 130-146 and 164-181: the flats of one band, each scaled by the
    inverse of its mean, median-combined into [master_flat_<band>.fit]. *)
Definition master_flat (band : string) (d0 : disk) : result (disk * image) :=
  let out := "master_flat_" +:+ band +:+ ".fit" in
  let d1 := remove_if_file d0 (path_join red_data_dir out) in
  clean_flats <- map_result (read_image d1) (glob d1 red_data_dir ("b_flat_" +:+ band));;
  let mean_values := map (fun raw => 1 / img_mean raw)%Q clean_flats in
  master <- combine_median clean_flats (Some mean_values);;
  d2 <- write_image d1 red_data_dir out master false;;
  Ok (d2, master).

Definition master_flat_b_cell (s : session) : result session :=
  r <- master_flat "b" (disk_of s);;
  Ok (mk_session r.1 (master_bias s) (Some r.2) (master_flat_y s)).

Definition master_flat_y_cell (s : session) : result session :=
  r <- master_flat "y" (disk_of s);;
  Ok (mk_session r.1 (master_bias s) (master_flat_b s) (Some r.2)).

(** One loop of lines 206-218: every science frame of a band, trimmed,
    bias subtracted and flat corrected, to [bf_<name>]. *)
Definition science_loop (s : session) (prefix flat_name : string)
    (master_flat : option image) (d0 : disk) : result disk :=
  write_loop (fun raw =>
      mb <- get_var "master_bias" (master_bias s);;
      mf <- get_var flat_name master_flat;;
      ccd_process (valid_area raw) mb mf)
    (fun image => "bf_" +:+ basename image)
    (glob d0 raw_data_dir prefix) d0.

(** Lines 206-221: both loops, then [plot(image)] and [plot(output_file)],
    which read the loop variables (the [image] of [plot] is local): with no
    [m67_b*] and no [m67_y*] frame neither is bound and the cell raises
    [NameError]; otherwise the two plots only display files on the disk. *)
Definition science_cell (s : session) : result session :=
  d1 <- science_loop s "m67_b" "master_flat_b" (master_flat_b s) (disk_of s);;
  d2 <- science_loop s "m67_y" "master_flat_y" (master_flat_y s) d1;;
  match glob (disk_of s) raw_data_dir "m67_b", glob d1 raw_data_dir "m67_y" with
  | [], [] => Err (NameError "image")
  | _, _ => Ok (mk_session d2 (master_bias s) (master_flat_b s) (master_flat_y s))
  end.

(** The notebook, cell after cell. *)
Definition ccdred_run (s : session) : result session :=
  s1 <- bias_cell s;;
  s2 <- flat_bias_cell s1;;
  s3 <- master_flat_b_cell s2;;
  s4 <- master_flat_y_cell s3;;
  science_cell s4.

End Cells.

(** ** Paths and [glob] *)

Lemma str_app_inj_r s a b : s +:+ a = s +:+ b -> a = b.
Proof.
  induction s as [|c s IH]; [auto|]. rewrite !str_app_cons. intros [= H]. auto.
Qed.

Lemma path_join_inj dir a b : path_join dir a = path_join dir b -> a = b.
Proof. unfold path_join. intros H. apply str_app_inj_r in H. injection H. auto. Qed.

Lemma strip_prefix_app pre s : strip_prefix pre (pre +:+ s) = Some s.
Proof.
  induction pre as [|c pre IH]; [destruct s; reflexivity|].
  rewrite str_app_cons. simpl. rewrite bool_decide_true by reflexivity. exact IH.
Qed.

Lemma strip_prefix_Some pre s r : strip_prefix pre s = Some r -> s = pre +:+ r.
Proof.
  revert s. induction pre as [|c pre IH]; intros s.
  - destruct s; intros [= <-]; reflexivity.
  - destruct s as [|d s]; [discriminate|]. simpl.
    case_bool_decide as Hcd; [subst d|discriminate].
    intros H. rewrite str_app_cons. f_equal. apply IH, H.
Qed.

Lemma basename_from_slash_free acc s : slash_free s = true -> basename_from acc s = acc +:+ s.
Proof.
  revert acc. induction s as [|c s IH]; intros acc Hs; simpl in *.
  - rewrite str_app_nil_r. reflexivity.
  - apply andb_true_iff in Hs as [Hc Hs]. apply negb_true_iff, bool_decide_eq_false in Hc.
    rewrite bool_decide_false by exact Hc. rewrite IH by exact Hs.
    rewrite <- str_app_assoc. reflexivity.
Qed.

Lemma basename_from_path acc dir name :
  basename_from acc (path_join dir name) = basename_from "" name.
Proof.
  unfold path_join. revert acc. induction dir as [|c dir IH]; intros acc; [reflexivity|].
  rewrite str_app_cons. simpl. case_bool_decide; apply IH.
Qed.

Lemma basename_path_join dir name :
  slash_free name = true -> basename (path_join dir name) = name.
Proof.
  intros Hs. unfold basename. rewrite basename_from_path.
  apply basename_from_slash_free, Hs.
Qed.

Lemma glob_match_spec dir prefix p :
  glob_match dir prefix p = true <->
  exists name, p = path_join dir name /\ slash_free name = true /\
               exists rest, name = prefix +:+ rest.
Proof.
  unfold glob_match, path_join. split.
  - destruct (strip_prefix _ p) as [name|] eqn:E; [|discriminate].
    intros [Hs Hp]%andb_true_iff. apply bool_decide_eq_true in Hp as [rest Hrest].
    exists name. split; [|split; [exact Hs|]].
    + apply strip_prefix_Some in E. rewrite E, <- str_app_assoc. reflexivity.
    + exists rest. apply strip_prefix_Some, Hrest.
  - intros (name & -> & Hs & rest & ->).
    rewrite str_app_assoc, strip_prefix_app, Hs, strip_prefix_app. reflexivity.
Qed.

Section GlobLemmas.
Context `{DirOrder}.

Lemma elem_of_glob d dir prefix p :
  p ∈ glob d dir prefix <-> p ∈ dom (files d) /\ glob_match dir prefix p = true.
Proof.
  unfold glob. rewrite (dir_order_perm _), list_elem_of_In, filter_In, <- list_elem_of_In.
  rewrite elem_of_elements. reflexivity.
Qed.

Lemma NoDup_glob d dir prefix : NoDup (glob d dir prefix).
Proof.
  unfold glob. rewrite (dir_order_perm _). apply NoDup_ListNoDup, List.NoDup_filter.
  apply NoDup_ListNoDup, NoDup_elements.
Qed.

(** [glob] only sees the files that match it. *)
Lemma glob_ext d d' dir prefix :
  (forall p, glob_match dir prefix p = true -> p ∈ dom (files d) <-> p ∈ dom (files d')) ->
  glob d dir prefix = glob d' dir prefix.
Proof.
  intros Hext. unfold glob. apply dir_order_canon.
  apply NoDup_Permutation; [apply NoDup_ListNoDup, List.NoDup_filter, NoDup_ListNoDup, NoDup_elements..|].
  intros p. rewrite !list_elem_of_In, !filter_In, <- !list_elem_of_In, !elem_of_elements.
  split; intros [Hp Hm]; split; try exact Hm; apply (Hext p Hm); exact Hp.
Qed.

End GlobLemmas.

Lemma raw_not_red prefix name :
  glob_match raw_data_dir prefix (path_join red_data_dir name) = false.
Proof. reflexivity. Qed.

Lemma red_not_raw prefix name :
  glob_match red_data_dir prefix (path_join raw_data_dir name) = false.
Proof. reflexivity. Qed.

(** A path that [glob] finds in the raw directory is not in the reduced one. *)
Lemma raw_path_not_red prefix p name :
  glob_match raw_data_dir prefix p = true -> p <> path_join red_data_dir name.
Proof. intros Hp ->. rewrite raw_not_red in Hp. discriminate. Qed.

(** ** The write loop *)

Lemma write_step_Ok F out d p raw im :
  red_data_dir ∈ dirs d -> files d !! p = Some raw -> F raw = Ok im ->
  (raw' <- read_image d p;; im' <- F raw';; write_image d red_data_dir (out p) im' true) =
  Ok (mk_disk (dirs d) (<[path_join red_data_dir (out p) := im]> (files d))).
Proof.
  intros Hdir Hp HF. unfold read_image. rewrite Hp. simpl. rewrite HF. simpl.
  unfold write_image. rewrite bool_decide_true by exact Hdir. reflexivity.
Qed.

(** Every path of the loop that is not in the reduced directory, and whose
    image [F] accepts, is written once to its own output name; nothing else
    changes. *)
Lemma write_loop_spec F out paths d0 :
  red_data_dir ∈ dirs d0 ->
  NoDup (out <$> paths) ->
  Forall (fun p => (forall n, p <> path_join red_data_dir n) /\
                   exists raw im, files d0 !! p = Some raw /\ F raw = Ok im) paths ->
  exists d', write_loop F out paths d0 = Ok d' /\ dirs d' = dirs d0 /\
    (forall p, p ∈ paths -> exists raw im, files d0 !! p = Some raw /\ F raw = Ok im /\
       files d' !! path_join red_data_dir (out p) = Some im) /\
    (forall q, (forall p, p ∈ paths -> q <> path_join red_data_dir (out p)) ->
       files d' !! q = files d0 !! q).
Proof.
  revert d0. induction paths as [|p paths IH]; intros d0 Hdir Hnd Hall.
  { exists d0. split; [reflexivity|]. split; [reflexivity|].
    split; [intros p Hp; apply elem_of_nil in Hp; contradiction | reflexivity]. }
  apply Forall_cons in Hall as [[Hnot (raw & im & Hp & HF)] Hall].
  rewrite fmap_cons in Hnd. apply NoDup_cons in Hnd as [Hout Hnd].
  set (d1 := mk_disk (dirs d0) (<[path_join red_data_dir (out p) := im]> (files d0))).
  assert (Hframe : forall q, (forall n, q <> path_join red_data_dir n) -> files d1 !! q = files d0 !! q).
  { intros q Hq. simpl. apply lookup_insert_ne. intros Heq. apply (Hq (out p)). auto. }
  destruct (IH d1) as (d' & Hrun & Hdirs & Hwritten & Hrest).
  - exact Hdir.
  - exact Hnd.
  - eapply Forall_impl; [exact Hall|]. intros p' [Hn' Hex]. split; [exact Hn'|].
    rewrite Hframe by exact Hn'. exact Hex.
  - exists d'. split.
    { unfold write_loop. simpl. rewrite (write_step_Ok F out d0 p raw im Hdir Hp HF). exact Hrun. }
    split; [exact Hdirs|]. split.
    + intros p' Hp'. apply elem_of_cons in Hp' as [->|Hp'].
      * exists raw, im. split; [exact Hp|]. split; [exact HF|].
        rewrite Hrest; [simpl; apply lookup_insert_eq|].
        intros p'' Hp'' Heq. apply path_join_inj in Heq. apply Hout.
        rewrite Heq. apply list_elem_of_fmap_2, Hp''.
      * destruct (Hwritten p' Hp') as (raw' & im' & Hr' & HF' & Hw').
        exists raw', im'. split; [|auto]. rewrite <- Hframe; [exact Hr'|].
        rewrite Forall_forall in Hall. apply Hall, Hp'.
    + intros q Hq. rewrite Hrest by (intros p' Hp'; apply Hq; apply elem_of_cons; auto).
      simpl. apply lookup_insert_ne. intros Heq. apply (Hq p); [apply elem_of_cons; auto|].
      auto.
Qed.

Lemma read_image_Ok d p im : read_image d p = Ok im <-> files d !! p = Some im.
Proof. unfold read_image. destruct (files d !! p); split; congruence. Qed.

Lemma get_var_Ok {A} name (v : option A) a : get_var name v = Ok a -> v = Some a.
Proof. destruct v; simpl; congruence. Qed.

(** ** ccdproc on images described pixel by pixel *)

Lemma Q_proper2 (f : Q -> Q -> Q) :
  (forall x x' y y', x == x' -> y == y' -> f x y == f x' y') -> Proper ((≡) ==> (≡) ==> (≡)) f.
Proof. intros Hf x x' Hx y y' Hy. apply Hf; assumption. Qed.

Lemma Q_proper1 (f : Q -> Q) :
  (forall x x', x == x' -> f x == f x') -> Proper ((≡) ==> (≡)) f.
Proof. intros Hf x x' Hx. apply Hf, Hx. Qed.

Lemma median_or_zero_const l c :
  l <> [] -> Forall (fun x => x == c) l -> median_or_zero l == c.
Proof.
  intros Hne Hall. destruct (np_median_Some l Hne) as [m Hm].
  unfold median_or_zero. rewrite Hm. exact (np_median_const c l m Hall Hm).
Qed.

Lemma combine_median_plain imgs sh g :
  imgs <> [] -> Forall (fun b => img_is b sh g) imgs ->
  exists M, combine_median imgs None = Ok M /\ img_is M sh g.
Proof.
  intros Hne Hall. destruct imgs as [|a rest]; [contradiction|].
  pose proof Hall as Ha. apply Forall_cons in Ha as [[Hsa _] _].
  unfold combine_median. rewrite bool_decide_true.
  - eexists. split; [reflexivity|].
    apply img_is_combine; [exact median_or_zero_const | exact Hne | exact Hall].
  - apply (Forall_impl _ _ _ Hall). intros b [Hb _]. congruence.
Qed.

Lemma combine_median_scaled imgs cs sh g :
  imgs <> [] -> Forall (fun b => shape b = sh) imgs -> length cs = length imgs ->
  Forall (fun b => img_is b sh g) (zip_with (fun b c => img_map (Qmult c) b) imgs cs) ->
  exists M, combine_median imgs (Some cs) = Ok M /\ img_is M sh g.
Proof.
  intros Hne Hsh Hlen Hall. destruct imgs as [|a rest]; [contradiction|].
  pose proof Hsh as Ha. apply Forall_cons in Ha as [Hsa _].
  unfold combine_median. rewrite bool_decide_true.
  - rewrite bool_decide_true by exact Hlen. eexists. split; [reflexivity|].
    apply img_is_combine; [exact median_or_zero_const | | exact Hall].
    destruct cs; [discriminate|]. discriminate.
  - apply (Forall_impl _ _ _ Hsh). intros b Hb. congruence.
Qed.

Lemma subtract_bias_is a b sh g h :
  img_is a sh g -> img_is b sh h ->
  exists c, subtract_bias a b = Ok c /\ img_is c sh (fun i j => g i j - h i j)%Q.
Proof.
  intros Ha Hb. unfold subtract_bias, img_op.
  rewrite decide_True by (destruct Ha, Hb; congruence).
  eexists. split; [reflexivity|]. apply img_is_zip; [|exact Ha | exact Hb].
  apply Q_proper2. intros x x' y y' -> ->. reflexivity.
Qed.

Lemma flat_correct_is a f sh g h :
  img_is a sh g -> img_is f sh h ->
  exists c, flat_correct a f = Ok c /\
    img_is c sh (fun i j => g i j / (h i j / img_mean f))%Q.
Proof.
  intros Ha Hf. unfold flat_correct.
  assert (Hn : img_is (img_map (fun x => x / img_mean f)%Q f) sh (fun i j => h i j / img_mean f)%Q).
  { apply (img_is_map (fun x => x / img_mean f)%Q f sh h); [|exact Hf]. apply Q_proper1. intros x x' ->. reflexivity. }
  unfold img_op. rewrite decide_True by (destruct Ha, Hn; congruence).
  eexists. split; [reflexivity|]. apply img_is_zip; [|exact Ha | exact Hn].
  apply Q_proper2. intros x x' y y' -> ->. reflexivity.
Qed.

(** The loop of a successful run: every path was read and written once. *)
Lemma write_loop_Ok F out paths d0 d' :
  red_data_dir ∈ dirs d0 ->
  NoDup (out <$> paths) ->
  Forall (fun p => forall n, p <> path_join red_data_dir n) paths ->
  write_loop F out paths d0 = Ok d' ->
  dirs d' = dirs d0 /\
  (forall p, p ∈ paths -> exists raw im, files d0 !! p = Some raw /\ F raw = Ok im /\
     files d' !! path_join red_data_dir (out p) = Some im) /\
  (forall q, (forall p, p ∈ paths -> q <> path_join red_data_dir (out p)) ->
     files d' !! q = files d0 !! q).
Proof.
  intros Hdir Hnd Hnot Hrun.
  enough (Hall : Forall (fun p => (forall n, p <> path_join red_data_dir n) /\
                   exists raw im, files d0 !! p = Some raw /\ F raw = Ok im) paths).
  { destruct (write_loop_spec F out paths d0 Hdir Hnd Hall) as (d'' & Hrun' & Hrest).
    rewrite Hrun in Hrun'. injection Hrun' as <-. exact Hrest. }
  clear - Hdir Hnd Hnot Hrun. revert d0 Hdir Hrun. induction paths as [|p paths IH]; intros d0 Hdir Hrun; [constructor|].
  apply Forall_cons in Hnot as [Hp Hnot]. rewrite fmap_cons in Hnd.
  apply NoDup_cons in Hnd as [Hout Hnd].
  unfold write_loop in Hrun. cbn [for_each] in Hrun.
  apply bind_Ok in Hrun as (d1 & Hstep & Hrun).
  apply bind_Ok in Hstep as (raw & Hraw & Hstep).
  apply bind_Ok in Hstep as (im & HF & Hw).
  apply read_image_Ok in Hraw.
  unfold write_image in Hw. rewrite bool_decide_true in Hw by exact Hdir.
  simpl in Hw. injection Hw as <-.
  constructor; [split; [exact Hp | eauto]|].
  specialize (IH Hnd Hnot (mk_disk (dirs d0) (<[path_join red_data_dir (out p) := im]> (files d0))) Hdir Hrun).
  apply Forall_and. split; [exact Hnot|]. apply (Forall_impl _ _ _ IH).
  intros p' [Hp' (raw' & im' & Hr' & HF')]. exists raw', im'. split; [|exact HF'].
  rewrite <- Hr'. symmetry. simpl. apply lookup_insert_ne. intros Heq. apply (Hp' (out p)). auto.
Qed.

(** ** The directories of the notebook *)

Lemma raw_ne_red n m : path_join raw_data_dir n <> path_join red_data_dir m.
Proof. unfold path_join, raw_data_dir, red_data_dir. simpl. discriminate. Qed.

Section CellLemmas.
Context `{DirOrder}.

Lemma glob_raw d prefix p :
  p ∈ glob d raw_data_dir prefix ->
  exists n, p = path_join raw_data_dir n /\ slash_free n = true /\ exists r, n = prefix +:+ r.
Proof. intros Hp. apply elem_of_glob in Hp as [_ Hm]. apply glob_match_spec, Hm. Qed.

(** Two disks with the same files in the raw directory. *)
Definition raw_same (d d' : disk) : Prop :=
  forall n, files d' !! path_join raw_data_dir n = files d !! path_join raw_data_dir n.

Lemma glob_raw_same d d' prefix : raw_same d d' -> glob d' raw_data_dir prefix = glob d raw_data_dir prefix.
Proof.
  intros Hsame. apply glob_ext. intros p Hm.
  apply glob_match_spec in Hm as (n & -> & _). rewrite !elem_of_dom, Hsame. reflexivity.
Qed.

Lemma glob_raw_not_red d prefix :
  Forall (fun p => forall n, p <> path_join red_data_dir n) (glob d raw_data_dir prefix).
Proof.
  apply Forall_forall. intros p Hp n ->. destruct (glob_raw _ _ _ Hp) as (m & Hm & _).
  symmetry in Hm. exact (raw_ne_red m n Hm).
Qed.

(** Distinct files of the raw directory get distinct output names. *)
Lemma glob_raw_out_NoDup d prefix pfx :
  NoDup ((fun p => pfx +:+ basename p) <$> glob d raw_data_dir prefix).
Proof.
  apply NoDup_fmap_2_strong; [|apply NoDup_glob].
  intros x y Hx Hy Hxy.
  destruct (glob_raw _ _ _ Hx) as (n & -> & Hn & _), (glob_raw _ _ _ Hy) as (m & -> & Hm & _).
  rewrite !basename_path_join in Hxy by assumption. apply str_app_inj_r in Hxy. congruence.
Qed.

(** What the bias cell did, when it ran. *)
Lemma bias_cell_Ok s s1 :
  bias_cell s = Ok s1 ->
  red_data_dir ∈ dirs (disk_of s1) /\
  raw_same (disk_of s) (disk_of s1) /\
  (forall n, n <> "zero.fit" ->
     files (disk_of s1) !! path_join red_data_dir n = files (disk_of s) !! path_join red_data_dir n) /\
  master_flat_b s1 = master_flat_b s /\ master_flat_y s1 = master_flat_y s /\
  exists imgs full,
    map_result (read_image (disk_of s)) (glob (disk_of s) raw_data_dir "bias") = Ok imgs /\
    combine_median imgs None = Ok full /\ master_bias s1 = Some (valid_area full).
Proof.
  unfold bias_cell. intros Hrun.
  apply bind_Ok in Hrun as (imgs & Himgs & Hrun).
  apply bind_Ok in Hrun as (full & Hfull & Hrun).
  apply bind_Ok in Hrun as (d3 & Hw & [= <-]).
  set (zero := path_join red_data_dir "zero.fit") in *.
  set (d2 := ensure_dir (remove_if_file (disk_of s) zero) red_data_dir) in *.
  assert (Hdir2 : red_data_dir ∈ dirs d2).
  { unfold d2, ensure_dir. case_bool_decide; [assumption|]. simpl. set_solver. }
  assert (Hd2 : forall q, q <> zero -> files d2 !! q = files (disk_of s) !! q).
  { intros q Hq. unfold d2, ensure_dir, remove_if_file.
    destruct (isfile _ _); case_bool_decide; cbn [files]; try reflexivity;
      apply lookup_delete_ne; congruence. }
  unfold write_image in Hw. rewrite bool_decide_true in Hw by exact Hdir2.
  cbn [negb andb] in Hw. destruct (isfile _ _) in Hw; [discriminate|]. injection Hw as <-.
  cbn [disk_of files dirs master_bias master_flat_b master_flat_y].
  assert (Hraw : forall n, path_join raw_data_dir n <> zero) by (intros n; apply raw_ne_red).
  split; [exact Hdir2|]. split.
  { intros n. cbn [files]. rewrite lookup_insert_ne by (intros Heq; apply (Hraw n); auto). apply Hd2, Hraw. }
  split.
  { intros n Hn. cbn [files]. rewrite lookup_insert_ne by (intros Heq; apply path_join_inj in Heq; auto).
    apply Hd2. intros Heq. apply Hn. apply path_join_inj in Heq. exact Heq. }
  split; [reflexivity|]. split; [reflexivity|].
  exists imgs, full. split; [|split; [exact Hfull | reflexivity]].
  rewrite <- Himgs. apply map_result_ext. intros p Hp.
  destruct (glob_raw _ _ _ Hp) as (n & -> & _). unfold read_image. rewrite Hd2 by apply Hraw.
  reflexivity.
Qed.

Lemma raw_same_refl d : raw_same d d.
Proof. intros n. reflexivity. Qed.

Lemma raw_same_trans d1 d2 d3 : raw_same d1 d2 -> raw_same d2 d3 -> raw_same d1 d3.
Proof. intros H12 H23 n. rewrite H23. apply H12. Qed.

(** A loop that writes into the reduced directory leaves the raw one as it was. *)
Lemma write_loop_raw_same (out : string -> string) (paths : list string) d d' :
  (forall q, (forall p, p ∈ paths -> q <> path_join red_data_dir (out p)) ->
     files d' !! q = files d !! q) -> raw_same d d'.
Proof. intros Hframe n. apply Hframe. intros p _. apply raw_ne_red. Qed.

(** What the flat cell did, when it ran. *)
Lemma flat_bias_cell_Ok s s1 :
  red_data_dir ∈ dirs (disk_of s) -> flat_bias_cell s = Ok s1 ->
  dirs (disk_of s1) = dirs (disk_of s) /\ raw_same (disk_of s) (disk_of s1) /\
  master_bias s1 = master_bias s /\ master_flat_b s1 = master_flat_b s /\
  master_flat_y s1 = master_flat_y s /\
  (forall p, p ∈ glob (disk_of s) raw_data_dir "flat" -> exists raw mb sub,
     files (disk_of s) !! p = Some raw /\ master_bias s = Some mb /\
     subtract_bias (valid_area raw) mb = Ok sub /\
     files (disk_of s1) !! path_join red_data_dir ("b_" +:+ basename p) = Some sub) /\
  (forall q, (forall p, p ∈ glob (disk_of s) raw_data_dir "flat" ->
                q <> path_join red_data_dir ("b_" +:+ basename p)) ->
     files (disk_of s1) !! q = files (disk_of s) !! q).
Proof.
  intros Hdir Hrun. unfold flat_bias_cell in Hrun.
  apply bind_Ok in Hrun as (d & Hloop & [= <-]).
  destruct (write_loop_Ok _ _ _ _ _ Hdir (glob_raw_out_NoDup _ _ _) (glob_raw_not_red _ _) Hloop)
    as (Hdirs & Hw & Hframe).
  cbn [disk_of master_bias master_flat_b master_flat_y].
  split; [exact Hdirs|]. split; [exact (write_loop_raw_same _ _ _ _ Hframe)|].
  do 3 (split; [reflexivity|]). split; [|exact Hframe].
  intros p Hp. destruct (Hw p Hp) as (raw & sub & Hraw & HF & Hout).
  apply bind_Ok in HF as (mb & Hmb & Hsub).
  exists raw, mb, sub. repeat split; try assumption. apply get_var_Ok in Hmb. exact Hmb.
Qed.

Lemma b_flat_not_master band band' p :
  glob_match red_data_dir ("b_flat_" +:+ band) p = true ->
  p <> path_join red_data_dir ("master_flat_" +:+ band' +:+ ".fit").
Proof.
  intros Hm ->. apply glob_match_spec in Hm as (n & Hn & _ & r & ->).
  apply path_join_inj in Hn. discriminate.
Qed.

(** What the master-flat cell of a band did, when it ran. *)
Lemma master_flat_Ok band d d' M :
  master_flat band d = Ok (d', M) ->
  raw_same d d' /\ dirs d' = dirs d /\
  exists clean,
    map_result (read_image d) (glob d red_data_dir ("b_flat_" +:+ band)) = Ok clean /\
    combine_median clean (Some (map (fun raw => 1 / img_mean raw)%Q clean)) = Ok M.
Proof.
  unfold master_flat. intros Hrun.
  apply bind_Ok in Hrun as (clean & Hclean & Hrun).
  apply bind_Ok in Hrun as (master & HM & Hrun).
  apply bind_Ok in Hrun as (d2 & Hw & [= <- <-]).
  set (out := path_join red_data_dir ("master_flat_" +:+ band +:+ ".fit")) in *.
  set (d1 := remove_if_file d out) in *.
  assert (Hd1 : forall q, q <> out -> files d1 !! q = files d !! q).
  { intros q Hq. unfold d1, remove_if_file. destruct (isfile _ _); [|reflexivity].
    apply lookup_delete_ne. congruence. }
  assert (Hdirs1 : dirs d1 = dirs d) by (unfold d1, remove_if_file; destruct (isfile _ _); reflexivity).
  assert (Hglob : glob d1 red_data_dir ("b_flat_" +:+ band) = glob d red_data_dir ("b_flat_" +:+ band)).
  { apply glob_ext. intros p Hm. rewrite !elem_of_dom, Hd1; [reflexivity|].
    eapply b_flat_not_master, Hm. }
  unfold write_image in Hw. destruct (bool_decide (red_data_dir ∈ dirs d1)); [|discriminate].
  cbn [negb andb] in Hw. destruct (isfile _ _) in Hw; [discriminate|]. injection Hw as <-.
  split; [|split].
  - intros n. cbn [files].
    rewrite lookup_insert_ne by (intros Heq; symmetry in Heq; exact (raw_ne_red _ _ Heq)).
    apply Hd1, raw_ne_red.
  - exact Hdirs1.
  - exists clean. split; [|exact HM]. rewrite <- Hclean, Hglob. apply map_result_ext.
    intros p Hp. apply elem_of_glob in Hp as [_ Hm]. unfold read_image.
    rewrite Hd1 by (eapply b_flat_not_master, Hm). reflexivity.
Qed.

(** What the science cell did to the frames of the b band, when it ran. *)
Lemma science_cell_b_Ok s s1 :
  red_data_dir ∈ dirs (disk_of s) -> science_cell s = Ok s1 ->
  forall p, p ∈ glob (disk_of s) raw_data_dir "m67_b" ->
  exists raw mb mf out, files (disk_of s) !! p = Some raw /\ master_bias s = Some mb /\
    master_flat_b s = Some mf /\ ccd_process (valid_area raw) mb mf = Ok out /\
    files (disk_of s1) !! path_join red_data_dir ("bf_" +:+ basename p) = Some out.
Proof.
  intros Hdir Hrun p Hp. unfold science_cell in Hrun.
  apply bind_Ok in Hrun as (d1 & Hb & Hrun). apply bind_Ok in Hrun as (d2 & Hy & Hrun).
  assert (Hs1 : s1 = mk_session d2 (master_bias s) (master_flat_b s) (master_flat_y s)).
  { revert Hrun. destruct (glob (disk_of s) raw_data_dir "m67_b");
      [destruct (glob d1 raw_data_dir "m67_y")|]; congruence. }
  subst s1.
  unfold science_loop in Hb, Hy.
  destruct (write_loop_Ok _ _ _ _ _ Hdir (glob_raw_out_NoDup _ _ _) (glob_raw_not_red _ _) Hb)
    as (Hdirs1 & Hw1 & _).
  assert (Hdir1 : red_data_dir ∈ dirs d1) by (rewrite Hdirs1; exact Hdir).
  destruct (write_loop_Ok _ _ _ _ _ Hdir1 (glob_raw_out_NoDup _ _ _) (glob_raw_not_red _ _) Hy)
    as (_ & _ & Hframe2).
  destruct (Hw1 p Hp) as (raw & out & Hraw & HF & Hout).
  apply bind_Ok in HF as (mb & Hmb%get_var_Ok & HF).
  apply bind_Ok in HF as (mf & Hmf%get_var_Ok & HF).
  exists raw, mb, mf, out. cbn [disk_of]. repeat split; try assumption.
  rewrite Hframe2; [exact Hout|]. intros p' Hp' Heq.
  apply path_join_inj, str_app_inj_r in Heq.
  destruct (glob_raw _ _ _ Hp) as (n & -> & Hn & r & ->).
  destruct (glob_raw _ _ _ Hp') as (n' & -> & Hn' & r' & ->).
  rewrite !basename_path_join in Heq by assumption. discriminate.
Qed.

(** ** Uniform frames *)

Lemma Qmult_proper k : Proper ((≡) ==> (≡)) (Qmult k).
Proof. apply Q_proper1. intros x x' ->. reflexivity. Qed.

(** Bias frames that are all one image give that image, trimmed, as the
    master bias. *)
Lemma master_bias_uniform s s1 Bfull :
  bias_cell s = Ok s1 ->
  (forall p, p ∈ glob (disk_of s) raw_data_dir "bias" ->
     exists im, files (disk_of s) !! p = Some im /\ im ≡ Bfull) ->
  exists mb, master_bias s1 = Some mb /\ mb ≡ valid_area Bfull.
Proof.
  intros Hrun Hbias.
  destruct (bias_cell_Ok _ _ Hrun) as (_ & _ & _ & _ & _ & imgs & full & Himgs & Hfull & ->).
  exists (valid_area full). split; [reflexivity|].
  apply map_result_Ok in Himgs.
  assert (Hall : Forall (fun b => img_is b (shape Bfull) (pix Bfull)) imgs).
  { apply (Forall2_Forall_r_in _ _ _ _ Himgs). intros p im Hp Hread.
    apply read_image_Ok in Hread. destruct (Hbias p Hp) as (im' & Him' & Heq).
    rewrite Hread in Him'. injection Him' as <-. apply img_equiv_img_is, Heq. }
  destruct imgs as [|a imgs']; [discriminate|].
  destruct (combine_median_plain (a :: imgs') (shape Bfull) (pix Bfull) ltac:(discriminate) Hall) as (M & HM & HMis).
  rewrite Hfull in HM. injection HM as <-.
  unfold valid_area. rewrite (img_is_equiv _ _ _ HMis _ (img_is_self Bfull)). reflexivity.
Qed.

(** A flat that is [k] times the response [r], scaled by the inverse of its
    mean, is the response over its mean: the illumination [k] drops out. *)
Lemma scaled_flat_is b r k :
  ~ k == 0 -> ~ img_mean r == 0 ->
  img_is b (shape r) (fun i j => k * pix r i j)%Q ->
  img_is (img_map (Qmult (1 / img_mean b)) b) (shape r) (fun i j => pix r i j / img_mean r)%Q.
Proof.
  intros Hk Hr Hb. pose proof (img_mean_is b r k Hb) as Hm.
  eapply img_is_ext; [|apply (img_is_map _ _ _ _ (Qmult_proper _) Hb)].
  intros i j n _ _. cbv beta. rewrite Hm. field. split; assumption.
Qed.

Lemma zip_with_map_same {A B C} (f : A -> B -> C) (g : A -> B) l :
  zip_with f l (map g l) = map (fun x => f x (g x)) l.
Proof. induction l as [|x l IH]; simpl; [reflexivity | rewrite IH; reflexivity]. Qed.

(** Flats of one band that are multiples of one response combine into the
    response over its mean. *)
Lemma master_flat_uniform band d d' M r :
  ~ img_mean r == 0 ->
  (forall q, q ∈ glob d red_data_dir ("b_flat_" +:+ band) -> exists k im,
     ~ k == 0 /\ files d !! q = Some im /\ img_is im (shape r) (fun i j => k * pix r i j)%Q) ->
  master_flat band d = Ok (d', M) ->
  img_is M (shape r) (fun i j => pix r i j / img_mean r)%Q.
Proof.
  intros Hr Hflats Hrun. destruct (master_flat_Ok _ _ _ _ Hrun) as (_ & _ & clean & Hclean & HM).
  apply map_result_Ok in Hclean.
  assert (Hall : Forall (fun b => exists k, ~ k == 0 /\
                   img_is b (shape r) (fun i j => k * pix r i j)%Q) clean).
  { apply (Forall2_Forall_r_in _ _ _ _ Hclean). intros q im Hq Hread.
    apply read_image_Ok in Hread. destruct (Hflats q Hq) as (k & im' & Hk & Him' & His).
    rewrite Hread in Him'. injection Him' as <-. eauto. }
  destruct clean as [|a rest]; [discriminate|].
  destruct (combine_median_scaled (a :: rest) (map (fun raw => 1 / img_mean raw)%Q (a :: rest))
              (shape r) (fun i j => pix r i j / img_mean r)%Q) as (M' & HM' & HMis).
  - discriminate.
  - apply (Forall_impl _ _ _ Hall). intros b (k & _ & [Hb _]). exact Hb.
  - apply length_map.
  - rewrite zip_with_map_same. apply Forall_forall. intros b' Hb'.
    apply Prelude.elem_of_map in Hb' as (b & -> & Hb). rewrite Forall_forall in Hall.
    destruct (Hall b Hb) as (k & Hk & His). apply (scaled_flat_is b r k Hk Hr His).
  - rewrite HM in HM'. injection HM' as <-. exact HMis.
Qed.

(** A science frame [bias + s * r] processed with those masters is the
    constant [s * mean(r)]. *)
Lemma science_uniform raw mb M out r bias s :
  ~ img_mean r == 0 ->
  (forall i j n, shape r !! i = Some n -> j < n -> ~ pix r i j == 0) ->
  img_is mb (shape r) bias ->
  img_is M (shape r) (fun i j => pix r i j / img_mean r)%Q ->
  img_is raw (shape r) (fun i j => bias i j + s * pix r i j)%Q ->
  ccd_process raw mb M = Ok out ->
  img_is out (shape r) (fun _ _ => s * img_mean r)%Q.
Proof.
  intros Hr Hpix Hmb HM Hraw Hrun. unfold ccd_process in Hrun.
  destruct (subtract_bias_is _ _ _ _ _ Hraw Hmb) as (sub & Hsub & Hsubis).
  rewrite Hsub in Hrun. simpl in Hrun.
  destruct (flat_correct_is _ _ _ _ _ Hsubis HM) as (out' & Hout & Houtis).
  rewrite Hrun in Hout. injection Hout as <-.
  assert (Hm1 : img_mean M == 1).
  { rewrite (img_mean_is M r (/ img_mean r)).
    - field. exact Hr.
    - eapply img_is_ext; [|exact HM]. intros i j n _ _. cbv beta. field. exact Hr. }
  eapply img_is_ext; [|exact Houtis]. intros i j n Hn Hj. cbv beta. rewrite Hm1.
  pose proof (Hpix i j n Hn Hj). field. repeat split; assumption.
Qed.

(** After the bias and flat cells, with nothing in the reduced directory
    before, every [b_flat_<band>*] file is a raw [flat_<band>*] frame,
    trimmed, minus the master bias. *)
Lemma b_flat_source s0 s1 s2 band mb q :
  bias_cell s0 = Ok s1 -> flat_bias_cell s1 = Ok s2 -> master_bias s1 = Some mb ->
  (forall n, files (disk_of s0) !! path_join red_data_dir n = None) ->
  q ∈ glob (disk_of s2) red_data_dir ("b_flat_" +:+ band) ->
  exists p raw sub, p ∈ glob (disk_of s0) raw_data_dir ("flat_" +:+ band) /\
    files (disk_of s0) !! p = Some raw /\ subtract_bias (valid_area raw) mb = Ok sub /\
    files (disk_of s2) !! q = Some sub.
Proof.
  intros Hbias Hflat Hmb Hred Hq.
  destruct (bias_cell_Ok _ _ Hbias) as (Hdir1 & Hraw1 & Hred1 & _).
  destruct (flat_bias_cell_Ok _ _ Hdir1 Hflat) as (_ & _ & _ & _ & _ & Hout & Hframe).
  apply elem_of_glob in Hq as [Hdom Hm].
  apply glob_match_spec in Hm as (n & -> & _ & rest & ->).
  destruct (decide (Exists (fun p => path_join red_data_dir ("b_flat_" +:+ band +:+ rest) =
                     path_join red_data_dir ("b_" +:+ basename p))
                   (glob (disk_of s1) raw_data_dir "flat"))) as [Hex|Hnex].
  - apply Exists_exists in Hex as (p & Hp & Heq).
    destruct (Hout p Hp) as (raw & mb' & sub & Hraw & Hmb' & Hsub & Hfile).
    rewrite Hmb in Hmb'. injection Hmb' as <-.
    destruct (glob_raw _ _ _ Hp) as (n' & -> & Hn' & _).
    rewrite basename_path_join in Heq, Hfile by exact Hn'. apply path_join_inj in Heq.
    cbn in Heq. injection Heq as Hname. change (EmptyString +:+ n') with n' in Hname.
    exists (path_join raw_data_dir n'), raw, sub. split; [|split; [|split]].
    + apply elem_of_glob. split.
      * apply elem_of_dom. rewrite <- Hraw1, Hraw. eauto.
      * apply glob_match_spec. exists n'. split; [reflexivity|]. split; [exact Hn'|].
        exists rest. rewrite <- Hname. reflexivity.
    + rewrite <- Hraw1. exact Hraw.
    + exact Hsub.
    + rewrite <- Hname in Hfile. exact Hfile.
  - exfalso. apply elem_of_dom in Hdom. rewrite Hframe in Hdom.
    + rewrite Hred1, Hred in Hdom by discriminate. inversion Hdom. discriminate.
    + intros p Hp Heq. apply Hnex, Exists_exists. eauto.
Qed.

(** After the bias and flat cells, with nothing in the reduced directory
    before, the [b_flat_b*] files are the bias-subtracted b flats. *)
Lemma b_flats_after_flat_cell s0 s1 s2 Bfull r c mb :
  bias_cell s0 = Ok s1 -> flat_bias_cell s1 = Ok s2 ->
  master_bias s1 = Some mb -> img_is mb (shape r) (pix (valid_area Bfull)) ->
  (forall p, p ∈ glob (disk_of s0) raw_data_dir "flat_b" -> ~ c p == 0 /\
     exists im, files (disk_of s0) !! p = Some im /\
       img_is (valid_area im) (shape r) (fun i j => pix (valid_area Bfull) i j + c p * pix r i j)%Q) ->
  (forall n, files (disk_of s0) !! path_join red_data_dir n = None) ->
  forall q, q ∈ glob (disk_of s2) red_data_dir ("b_flat_" +:+ "b") -> exists k im,
    ~ k == 0 /\ files (disk_of s2) !! q = Some im /\
    img_is im (shape r) (fun i j => k * pix r i j)%Q.
Proof.
  intros Hbias Hflat Hmb Hmbis Hflats Hred q Hq.
  destruct (b_flat_source _ _ _ "b" _ _ Hbias Hflat Hmb Hred Hq) as (p & raw & sub & Hp & Hraw & Hsub & Hfile).
  destruct (Hflats p Hp) as (Hc & im & Him & Himis). rewrite Him in Hraw. injection Hraw as <-.
  destruct (subtract_bias_is _ _ _ _ _ Himis Hmbis) as (sub' & Hsub' & Hsubis).
  rewrite Hsub in Hsub'. injection Hsub' as <-.
  exists (c p), sub. split; [exact Hc|]. split; [exact Hfile|].
  eapply img_is_ext; [|exact Hsubis]. intros i j k _ _. cbv beta. ring.
Qed.

(** What a run of the notebook does to the b science frames, when it ran. *)
Lemma ccdred_flat_field_run s0 s5 Bfull r c :
  (forall p, p ∈ glob (disk_of s0) raw_data_dir "bias" ->
     exists im, files (disk_of s0) !! p = Some im /\ im ≡ Bfull) ->
  shape (valid_area Bfull) = shape r ->
  ~ img_mean r == 0 ->
  (forall i j n, shape r !! i = Some n -> j < n -> ~ pix r i j == 0) ->
  (forall p, p ∈ glob (disk_of s0) raw_data_dir "flat_b" -> ~ c p == 0 /\
     exists im, files (disk_of s0) !! p = Some im /\
       img_is (valid_area im) (shape r) (fun i j => pix (valid_area Bfull) i j + c p * pix r i j)%Q) ->
  (forall n, files (disk_of s0) !! path_join red_data_dir n = None) ->
  ccdred_run s0 = Ok s5 ->
  forall p im s, p ∈ glob (disk_of s0) raw_data_dir "m67_b" ->
    files (disk_of s0) !! p = Some im ->
    img_is (valid_area im) (shape r) (fun i j => pix (valid_area Bfull) i j + s * pix r i j)%Q ->
    exists out, files (disk_of s5) !! path_join red_data_dir ("bf_" +:+ basename p) = Some out /\
      img_is out (shape r) (fun _ _ => s * img_mean r)%Q.
Proof.
  intros Hbias Hsh Hr Hpix Hflats Hred Hrun p im s Hp Him Himis.
  unfold ccdred_run in Hrun.
  apply bind_Ok in Hrun as (s1 & H1 & Hrun). apply bind_Ok in Hrun as (s2 & H2 & Hrun).
  apply bind_Ok in Hrun as (s3 & H3 & Hrun). apply bind_Ok in Hrun as (s4 & H4 & H5).
  destruct (bias_cell_Ok _ _ H1) as (Hdir1 & Hraw1 & _).
  destruct (master_bias_uniform _ _ _ H1 Hbias) as (mb & Hmb & Hmbeq).
  assert (Hmbis : img_is mb (shape r) (pix (valid_area Bfull)))
    by (rewrite <- Hsh; apply img_equiv_img_is, Hmbeq).
  destruct (flat_bias_cell_Ok _ _ Hdir1 H2) as (Hdirs2 & Hraw2 & Hmb2 & _).
  pose proof (b_flats_after_flat_cell _ _ _ _ _ _ _ H1 H2 Hmb Hmbis Hflats Hred) as Hbflats.
  unfold master_flat_b_cell in H3. apply bind_Ok in H3 as ([d3 Mb] & HMb & [= <-]).
  pose proof (master_flat_uniform _ _ _ _ _ Hr Hbflats HMb) as HMbis.
  destruct (master_flat_Ok _ _ _ _ HMb) as (Hraw3 & Hdirs3 & _).
  unfold master_flat_y_cell in H4. apply bind_Ok in H4 as ([d4 My] & HMy & [= <-]).
  destruct (master_flat_Ok _ _ _ _ HMy) as (Hraw4 & Hdirs4 & _).
  cbn [disk_of master_bias master_flat_b master_flat_y fst snd] in *.
  assert (Hraw : raw_same (disk_of s0) d4) by eauto using raw_same_trans.
  assert (Hdir4 : red_data_dir ∈ dirs d4) by congruence.
  destruct (science_cell_b_Ok (mk_session d4 (master_bias s2) (Some Mb) (Some My)) s5 Hdir4 H5 p) as (raw & mb' & mf & out & Hraw' & Hmb' & Hmf & Hproc & Hout).
  - cbn [disk_of]. rewrite (glob_raw_same _ _ _ Hraw). exact Hp.
  - exists out. split; [exact Hout|].
    cbn [master_bias master_flat_b] in Hmb', Hmf. injection Hmf as <-.
    rewrite Hmb2, Hmb in Hmb'. injection Hmb' as <-.
    destruct (glob_raw _ _ _ Hp) as (n & -> & _). cbn [disk_of] in Hraw'.
    rewrite Hraw, Him in Hraw'. injection Hraw' as <-.
    exact (science_uniform _ _ _ _ _ _ _ Hr Hpix Hmbis HMbis Himis Hproc).
Qed.

(** ** The cells run *)

Lemma img_op_total f a b : shape a = shape b -> exists c, img_op f a b = Ok c.
Proof. intros Hab. unfold img_op. rewrite decide_True by exact Hab. eauto. Qed.

Lemma subtract_bias_shape a b c : subtract_bias a b = Ok c -> shape c = shape a.
Proof. unfold subtract_bias. intros [Hsh ->]%img_op_Ok. apply shape_img_zip, Hsh. Qed.

Lemma ccd_process_total raw mb mf :
  shape raw = shape mb -> shape mf = shape mb -> exists out, ccd_process raw mb mf = Ok out.
Proof.
  intros H1 H2. unfold ccd_process. destruct (img_op_total Qminus raw mb H1) as [sub Hsub].
  unfold subtract_bias. rewrite Hsub. cbn [bind]. unfold flat_correct. apply img_op_total.
  rewrite shape_img_map, (subtract_bias_shape _ _ _ Hsub). congruence.
Qed.

Lemma combine_median_shape imgs cs M sh :
  combine_median imgs cs = Ok M -> Forall (fun b => shape b = sh) imgs -> shape M = sh.
Proof.
  intros HM Hsh. destruct imgs as [|a rest]; [discriminate|]. pose proof (Forall_inv Hsh) as Ha.
  unfold combine_median in HM. cbn beta iota in HM.
  destruct (decide (Forall (fun b => shape b = shape a) (a :: rest))) as [Hf|Hf];
    [rewrite bool_decide_true in HM by exact Hf | rewrite bool_decide_false in HM by exact Hf; discriminate].
  destruct cs as [cs|];
    [|injection HM as <-; exact (eq_trans (shape_combine_pixels median_or_zero a rest) Ha)].
  destruct (decide (length cs = length (a :: rest))) as [Hl|Hl];
    [rewrite bool_decide_true in HM by exact Hl | rewrite bool_decide_false in HM by exact Hl; discriminate].
  destruct cs as [|c0 cs]; [discriminate|]. injection HM as <-.
  exact (eq_trans (shape_combine_pixels median_or_zero (img_map (Qmult c0) a)
                     (zip_with (fun b c => img_map (Qmult c) b) rest cs))
           (eq_trans (shape_img_map (Qmult c0) a) Ha)).
Qed.

Lemma glob_prefix_sub d dir pre x p : p ∈ glob d dir (pre +:+ x) -> p ∈ glob d dir pre.
Proof.
  rewrite !elem_of_glob, !glob_match_spec. intros [Hd (n & -> & Hn & rest & ->)].
  split; [exact Hd|]. exists ((pre +:+ x) +:+ rest). split; [reflexivity|]. split; [exact Hn|].
  exists (x +:+ rest). apply eq_sym, str_app_assoc.
Qed.

(** The preparation of the bias cell: the reduced directory exists and
    holds no [zero.fit]; every other file is as it was. *)
Lemma bias_prepare d :
  let d2 := ensure_dir (remove_if_file d (path_join red_data_dir "zero.fit")) red_data_dir in
  red_data_dir ∈ dirs d2 /\ files d2 !! path_join red_data_dir "zero.fit" = None /\
  (forall q, q <> path_join red_data_dir "zero.fit" -> files d2 !! q = files d !! q).
Proof.
  cbn zeta. set (zero := path_join red_data_dir "zero.fit"). split; [|split].
  - unfold ensure_dir. case_bool_decide; [assumption|]. cbn [dirs]. set_solver.
  - unfold ensure_dir, remove_if_file, isfile.
    destruct (decide (zero ∈ dom (files d))) as [Hin|Hnin].
    + rewrite (bool_decide_true (zero ∈ dom (files d))) by exact Hin.
      case_bool_decide; cbn [files]; apply lookup_delete_eq.
    + rewrite (bool_decide_false (zero ∈ dom (files d))) by exact Hnin.
      case_bool_decide; cbn [files]; apply not_elem_of_dom, Hnin.
  - intros q Hq. unfold ensure_dir, remove_if_file.
    destruct (isfile _ _); case_bool_decide; cbn [files]; try reflexivity;
      apply lookup_delete_ne; congruence.
Qed.

(** The bias cell runs when there is a bias frame and all are one image. *)
Lemma bias_cell_total s Bfull :
  glob (disk_of s) raw_data_dir "bias" <> [] ->
  (forall p, p ∈ glob (disk_of s) raw_data_dir "bias" ->
     exists im, files (disk_of s) !! p = Some im /\ im ≡ Bfull) ->
  exists s1, bias_cell s = Ok s1.
Proof.
  intros Hne Hbias. pose proof (bias_prepare (disk_of s)) as Hp. cbn zeta in Hp.
  destruct Hp as (Hdir & Hz & Hq). unfold bias_cell.
  set (zero := path_join red_data_dir "zero.fit") in *.
  set (d2 := ensure_dir (remove_if_file (disk_of s) zero) red_data_dir) in *.
  assert (Hnz : forall p, p ∈ glob (disk_of s) raw_data_dir "bias" -> p <> zero)
    by (intros p Hp; destruct (glob_raw _ _ _ Hp) as (n & -> & _); apply raw_ne_red).
  destruct (map_result_total (read_image d2) (glob (disk_of s) raw_data_dir "bias")) as [imgs Himgs].
  { apply Forall_forall. intros p Hp. destruct (Hbias p Hp) as (im & Him & _).
    exists im. apply read_image_Ok. rewrite Hq by exact (Hnz p Hp). exact Him. }
  rewrite Himgs. cbn [bind]. apply map_result_Ok in Himgs.
  assert (Hall : Forall (fun b => img_is b (shape Bfull) (pix Bfull)) imgs).
  { apply (Forall2_Forall_r_in _ _ _ _ Himgs). intros p im Hp Hread.
    apply read_image_Ok in Hread. rewrite Hq in Hread by exact (Hnz p Hp).
    destruct (Hbias p Hp) as (im' & Him' & Heq). rewrite Hread in Him'. injection Him' as <-.
    apply img_equiv_img_is, Heq. }
  assert (Hne' : imgs <> []) by (intros ->; apply Forall2_nil_inv_r in Himgs; contradiction).
  destruct (combine_median_plain imgs _ _ Hne' Hall) as (full & -> & _). cbn [bind].
  unfold write_image. fold zero. rewrite bool_decide_true by exact Hdir.
  assert (Hnf : isfile d2 zero = false) by (unfold isfile; apply bool_decide_eq_false, not_elem_of_dom, Hz).
  rewrite Hnf. cbn [negb andb bind]. eauto.
Qed.

(** The flat cell runs when every flat, trimmed, has the master bias's shape. *)
Lemma flat_bias_cell_total s mb :
  red_data_dir ∈ dirs (disk_of s) -> master_bias s = Some mb ->
  (forall p im, p ∈ glob (disk_of s) raw_data_dir "flat" -> files (disk_of s) !! p = Some im ->
     shape (valid_area im) = shape mb) ->
  exists s1, flat_bias_cell s = Ok s1.
Proof.
  intros Hdir Hmb Hsh. unfold flat_bias_cell.
  match goal with |- context [write_loop ?F ?out ?paths ?d] =>
    destruct (write_loop_spec F out paths d Hdir (glob_raw_out_NoDup _ _ _)) as (d' & -> & _) end.
  - apply Forall_forall. intros p Hp. split; [exact (proj1 (Forall_forall _ _) (glob_raw_not_red _ _) p Hp)|].
    destruct (proj1 (elem_of_glob _ _ _ _) Hp) as [Hdom _]. apply elem_of_dom in Hdom as [raw Hraw].
    destruct (img_op_total Qminus (valid_area raw) mb (Hsh p raw Hp Hraw)) as [sub Hsub].
    exists raw, sub. split; [exact Hraw|]. rewrite Hmb. exact Hsub.
  - cbn [bind]. eauto.
Qed.

(** The master flat of a band keeps every other file. *)
Lemma master_flat_frame band d d' M q :
  master_flat band d = Ok (d', M) ->
  q <> path_join red_data_dir ("master_flat_" +:+ band +:+ ".fit") -> files d' !! q = files d !! q.
Proof.
  unfold master_flat. intros Hrun Hq.
  apply bind_Ok in Hrun as (clean & _ & Hrun). apply bind_Ok in Hrun as (master & _ & Hrun).
  apply bind_Ok in Hrun as (d2 & Hw & [= <- _]). unfold write_image in Hw.
  destruct (bool_decide _); [|discriminate]. destruct (negb _ && _); [discriminate|].
  injection Hw as <-. cbn [files]. rewrite lookup_insert_ne by congruence.
  unfold remove_if_file. destruct (isfile _ _); [|reflexivity]. apply lookup_delete_ne. congruence.
Qed.

(** The master-flat cell runs when there is a [b_flat_<band>*] file and all
    have one shape; the master has that shape. *)
Lemma master_flat_total band d sh :
  red_data_dir ∈ dirs d -> glob d red_data_dir ("b_flat_" +:+ band) <> [] ->
  (forall q im, q ∈ glob d red_data_dir ("b_flat_" +:+ band) -> files d !! q = Some im -> shape im = sh) ->
  exists d' M, master_flat band d = Ok (d', M) /\ shape M = sh.
Proof.
  intros Hdir Hne Hsh. unfold master_flat.
  set (out := path_join red_data_dir ("master_flat_" +:+ band +:+ ".fit")).
  set (d1 := remove_if_file d out).
  assert (Hd1 : forall q, q <> out -> files d1 !! q = files d !! q).
  { intros q Hq. unfold d1, remove_if_file. destruct (isfile _ _); [|reflexivity].
    apply lookup_delete_ne. congruence. }
  assert (Hglob : glob d1 red_data_dir ("b_flat_" +:+ band) = glob d red_data_dir ("b_flat_" +:+ band)).
  { apply glob_ext. intros p Hm. rewrite !elem_of_dom, Hd1; [reflexivity|]. eapply b_flat_not_master, Hm. }
  assert (Hout : forall q, q ∈ glob d red_data_dir ("b_flat_" +:+ band) -> q <> out)
    by (intros q Hq; apply elem_of_glob in Hq as [_ Hm]; eapply b_flat_not_master, Hm).
  rewrite Hglob.
  destruct (map_result_total (read_image d1) (glob d red_data_dir ("b_flat_" +:+ band))) as [clean Hclean].
  { apply Forall_forall. intros q Hq. pose proof Hq as Hq'. apply elem_of_glob in Hq' as [Hdom _].
    apply elem_of_dom in Hdom as [im Him]. exists im. apply read_image_Ok. rewrite Hd1 by exact (Hout q Hq). exact Him. }
  rewrite Hclean. cbn [bind]. apply map_result_Ok in Hclean.
  assert (Hcsh : Forall (fun b => shape b = sh) clean).
  { apply (Forall2_Forall_r_in _ _ _ _ Hclean). intros q im Hq Hread.
    apply read_image_Ok in Hread. rewrite Hd1 in Hread by exact (Hout q Hq). exact (Hsh q im Hq Hread). }
  destruct clean as [|a rest]; [apply Forall2_nil_inv_r in Hclean; contradiction|].
  assert (HM : combine_median (a :: rest) (Some (map (fun raw => 1 / img_mean raw)%Q (a :: rest))) =
    Ok (combine_pixels median_or_zero (zip_with (fun b c => img_map (Qmult c) b) (a :: rest)
          (map (fun raw => 1 / img_mean raw)%Q (a :: rest))))).
  { unfold combine_median. rewrite bool_decide_true, bool_decide_true; [reflexivity | apply length_map|].
    pose proof (Forall_inv Hcsh) as Ha. eapply Forall_impl; [exact Hcsh|]. intros b Hb. congruence. }
  rewrite HM. cbn [bind]. unfold write_image. fold out.
  assert (Hdirs : dirs d1 = dirs d) by (unfold d1, remove_if_file; destruct (isfile _ _); reflexivity).
  rewrite Hdirs, bool_decide_true by exact Hdir.
  assert (Hnf : isfile d1 out = false).
  { unfold d1, remove_if_file. destruct (isfile d out) eqn:E; [|exact E].
    unfold isfile. cbn [files]. apply bool_decide_eq_false. rewrite dom_delete_L. set_solver. }
  rewrite Hnf. cbn [negb andb bind]. do 2 eexists. split; [reflexivity|].
  exact (combine_median_shape _ _ _ _ HM Hcsh).
Qed.

(** The science cell runs when the masters and every science frame,
    trimmed, have one shape and there is a b science frame. *)
Lemma science_cell_total s mb fb fy :
  red_data_dir ∈ dirs (disk_of s) -> master_bias s = Some mb ->
  master_flat_b s = Some fb -> master_flat_y s = Some fy ->
  shape fb = shape mb -> shape fy = shape mb ->
  (forall p im, p ∈ glob (disk_of s) raw_data_dir "m67_b" \/ p ∈ glob (disk_of s) raw_data_dir "m67_y" ->
     files (disk_of s) !! p = Some im -> shape (valid_area im) = shape mb) ->
  glob (disk_of s) raw_data_dir "m67_b" <> [] ->
  exists s1, science_cell s = Ok s1.
Proof.
  intros Hdir Hmb Hfb Hfy Hshb Hshy Hfr Hne. unfold science_cell, science_loop.
  match goal with |- context [write_loop ?F ?out (glob (disk_of s) raw_data_dir "m67_b") ?d] =>
    destruct (write_loop_spec F out (glob (disk_of s) raw_data_dir "m67_b") d Hdir (glob_raw_out_NoDup _ _ _))
      as (d1 & -> & Hdirs1 & _ & Hframe1) end.
  { apply Forall_forall. intros p Hp. split; [exact (proj1 (Forall_forall _ _) (glob_raw_not_red _ _) p Hp)|].
    destruct (proj1 (elem_of_glob _ _ _ _) Hp) as [Hdom _]. apply elem_of_dom in Hdom as [raw Hraw].
    destruct (ccd_process_total (valid_area raw) mb fb (Hfr p raw (or_introl Hp) Hraw) Hshb) as [out Hout].
    exists raw, out. split; [exact Hraw|]. rewrite Hmb, Hfb. exact Hout. }
  cbn [bind]. pose proof (write_loop_raw_same _ _ _ _ Hframe1) as Hsame.
  rewrite (glob_raw_same _ _ _ Hsame).
  assert (Hdir1 : red_data_dir ∈ dirs d1) by (rewrite Hdirs1; exact Hdir).
  match goal with |- context [write_loop ?F ?out (glob (disk_of s) raw_data_dir "m67_y") ?d] =>
    destruct (write_loop_spec F out (glob (disk_of s) raw_data_dir "m67_y") d Hdir1 (glob_raw_out_NoDup _ _ _))
      as (d2 & -> & _) end.
  { apply Forall_forall. intros p Hp. split; [exact (proj1 (Forall_forall _ _) (glob_raw_not_red _ _) p Hp)|].
    destruct (proj1 (elem_of_glob _ _ _ _) Hp) as [Hdom _]. apply elem_of_dom in Hdom as [raw Hraw].
    destruct (glob_raw _ _ _ Hp) as (n & Hn & _).
    assert (Hraw1 : files d1 !! p = Some raw) by (rewrite Hn, (Hsame n), <- Hn; exact Hraw).
    destruct (ccd_process_total (valid_area raw) mb fy (Hfr p raw (or_intror Hp) Hraw) Hshy) as [out Hout].
    exists raw, out. split; [exact Hraw1|]. rewrite Hmb, Hfy. exact Hout. }
  cbn [bind]. destruct (glob (disk_of s) raw_data_dir "m67_b"); [contradiction|]. eauto.
Qed.

(** After the bias and flat cells, with nothing in the reduced directory
    before, a band with a raw flat has [b_flat_<band>*] files, all of the
    shape of the trimmed raw flats. *)
Lemma b_flats_ready s0 s1 s2 band mb sh :
  bias_cell s0 = Ok s1 -> flat_bias_cell s1 = Ok s2 -> master_bias s1 = Some mb ->
  (forall n, files (disk_of s0) !! path_join red_data_dir n = None) ->
  (forall p im, p ∈ glob (disk_of s0) raw_data_dir ("flat_" +:+ band) ->
     files (disk_of s0) !! p = Some im -> shape (valid_area im) = sh) ->
  glob (disk_of s0) raw_data_dir ("flat_" +:+ band) <> [] ->
  glob (disk_of s2) red_data_dir ("b_flat_" +:+ band) <> [] /\
  (forall q im, q ∈ glob (disk_of s2) red_data_dir ("b_flat_" +:+ band) ->
     files (disk_of s2) !! q = Some im -> shape im = sh).
Proof.
  intros H1 H2 Hmb Hred Hsh Hne.
  destruct (bias_cell_Ok _ _ H1) as (Hdir1 & Hraw1 & _).
  destruct (flat_bias_cell_Ok _ _ Hdir1 H2) as (_ & _ & _ & _ & _ & Hout & _). split.
  - destruct (glob (disk_of s0) raw_data_dir ("flat_" +:+ band)) as [|p ps] eqn:E; [contradiction|].
    assert (Hp0 : p ∈ glob (disk_of s0) raw_data_dir ("flat_" +:+ band)) by (rewrite E; apply list_elem_of_here).
    assert (Hp : p ∈ glob (disk_of s1) raw_data_dir "flat").
    { rewrite (glob_raw_same _ _ _ Hraw1). apply (glob_prefix_sub _ _ "flat" ("_" +:+ band)). exact Hp0. }
    destruct (Hout p Hp) as (raw & mb' & sub & _ & _ & _ & Hfile).
    destruct (glob_raw _ _ _ Hp0) as (n & -> & Hn & rest & ->).
    rewrite basename_path_join in Hfile by exact Hn. intros Hnil.
    assert (Hin : path_join red_data_dir ("b_" +:+ (("flat_" +:+ band) +:+ rest)) ∈
                  glob (disk_of s2) red_data_dir ("b_flat_" +:+ band)).
    { apply elem_of_glob. split; [apply elem_of_dom; eauto|].
      apply glob_match_spec. eexists. split; [reflexivity|]. split; [cbn; exact Hn|].
      exists rest. rewrite !str_app_assoc. reflexivity. }
    rewrite Hnil in Hin. apply elem_of_nil in Hin. exact Hin.
  - intros q im Hq Him.
    destruct (b_flat_source _ _ _ band _ _ H1 H2 Hmb Hred Hq) as (p & raw & sub & Hp & Hraw & Hsub & Hfile).
    assert (Heq : im = sub) by congruence. subst im.
    rewrite (subtract_bias_shape _ _ _ Hsub). exact (Hsh p raw Hp Hraw).
Qed.

(** The notebook runs to the end when there is a bias frame, all bias
    frames are one image [B], every flat and science frame has, trimmed,
    the trimmed shape of [B], there is a b flat, a y flat and a b science
    frame, and the reduced directory starts empty. *)
Lemma ccdred_run_total s0 Bfull r :
  glob (disk_of s0) raw_data_dir "bias" <> [] ->
  (forall p, p ∈ glob (disk_of s0) raw_data_dir "bias" ->
     exists im, files (disk_of s0) !! p = Some im /\ im ≡ Bfull) ->
  shape (valid_area Bfull) = shape r ->
  (forall n im, files (disk_of s0) !! path_join raw_data_dir n = Some im ->
     (exists x, n = "flat" +:+ x \/ n = "m67" +:+ x) -> shape (valid_area im) = shape r) ->
  glob (disk_of s0) raw_data_dir "flat_b" <> [] -> glob (disk_of s0) raw_data_dir "flat_y" <> [] ->
  glob (disk_of s0) raw_data_dir "m67_b" <> [] ->
  (forall n, files (disk_of s0) !! path_join red_data_dir n = None) ->
  exists s5, ccdred_run s0 = Ok s5.
Proof.
  intros Hne Hbias Hsh Hframes Hfb Hfy Hsci Hred.
  assert (Hfr : forall d pre x p im, raw_same (disk_of s0) d -> pre = "flat" \/ pre = "m67" ->
            p ∈ glob d raw_data_dir (pre +:+ x) -> files d !! p = Some im -> shape (valid_area im) = shape r).
  { intros d pre x p im Hsame Hpre Hp Him. destruct (glob_raw _ _ _ Hp) as (n & -> & _ & rest & ->).
    rewrite Hsame in Him. apply (Hframes _ _ Him). exists (x +:+ rest). rewrite str_app_assoc.
    destruct Hpre as [-> | ->]; [left | right]; reflexivity. }
  destruct (bias_cell_total s0 Bfull Hne Hbias) as [s1 H1].
  destruct (bias_cell_Ok _ _ H1) as (Hdir1 & Hraw1 & _).
  destruct (master_bias_uniform _ _ _ H1 Hbias) as (mb & Hmb & Hmbeq).
  assert (Hmbsh : shape mb = shape r) by (rewrite (shape_equiv _ _ Hmbeq); exact Hsh).
  destruct (flat_bias_cell_total s1 mb Hdir1 Hmb) as [s2 H2].
  { intros p im Hp Him. rewrite Hmbsh. exact (Hfr _ "flat" EmptyString p im Hraw1 (or_introl eq_refl) Hp Him). }
  destruct (flat_bias_cell_Ok _ _ Hdir1 H2) as (Hdirs2 & Hraw2 & Hmb2 & _).
  assert (Hready : forall band, glob (disk_of s0) raw_data_dir ("flat_" +:+ band) <> [] ->
     glob (disk_of s2) red_data_dir ("b_flat_" +:+ band) <> [] /\
     forall q im, q ∈ glob (disk_of s2) red_data_dir ("b_flat_" +:+ band) ->
       files (disk_of s2) !! q = Some im -> shape im = shape r).
  { intros band. apply (b_flats_ready _ _ _ band _ _ H1 H2 Hmb Hred). intros p im Hp Him.
    exact (Hfr _ "flat" ("_" +:+ band) p im (raw_same_refl _) (or_introl eq_refl) Hp Him). }
  assert (Hdir2 : red_data_dir ∈ dirs (disk_of s2)) by (rewrite Hdirs2; exact Hdir1).
  destruct (Hready "b" Hfb) as [Hneb Hshb]. destruct (Hready "y" Hfy) as [Hney Hshy].
  destruct (master_flat_total "b" (disk_of s2) (shape r) Hdir2 Hneb Hshb) as (d3 & Mb & H3 & HMb).
  assert (Hf3 : forall q, glob_match red_data_dir ("b_flat_" +:+ "y") q = true ->
                  files d3 !! q = files (disk_of s2) !! q)
    by (intros q Hq; apply (master_flat_frame _ _ _ _ _ H3); eapply b_flat_not_master, Hq).
  assert (Hg3 : glob d3 red_data_dir ("b_flat_" +:+ "y") = glob (disk_of s2) red_data_dir ("b_flat_" +:+ "y"))
    by (apply glob_ext; intros q Hq; rewrite !elem_of_dom, Hf3 by exact Hq; reflexivity).
  destruct (master_flat_Ok _ _ _ _ H3) as (Hraw3 & Hdirs3 & _).
  destruct (master_flat_total "y" d3 (shape r)) as (d4 & My & H4 & HMy).
  { rewrite Hdirs3. exact Hdir2. }
  { rewrite Hg3. exact Hney. }
  { intros q im Hq Him. rewrite Hg3 in Hq. apply (Hshy q im Hq). rewrite <- Hf3; [exact Him|].
    apply elem_of_glob in Hq as [_ Hq]. exact Hq. }
  destruct (master_flat_Ok _ _ _ _ H4) as (Hraw4 & Hdirs4 & _).
  assert (Hraw04 : raw_same (disk_of s0) d4) by eauto using raw_same_trans.
  unfold ccdred_run. rewrite H1. cbn [bind]. rewrite H2. cbn [bind].
  unfold master_flat_b_cell. rewrite H3. cbn [bind fst snd].
  unfold master_flat_y_cell. cbn [disk_of]. rewrite H4. cbn [bind fst snd].
  apply (science_cell_total _ mb Mb My); cbn [disk_of master_bias master_flat_b master_flat_y].
  - rewrite Hdirs4, Hdirs3. exact Hdir2.
  - rewrite Hmb2. exact Hmb.
  - reflexivity.
  - reflexivity.
  - congruence.
  - congruence.
  - intros p im [Hp | Hp] Him; rewrite Hmbsh;
      [exact (Hfr d4 "m67" "_b" p im Hraw04 (or_intror eq_refl) Hp Him)
      | exact (Hfr d4 "m67" "_y" p im Hraw04 (or_intror eq_refl) Hp Him)].
  - rewrite (glob_raw_same _ _ _ Hraw04). exact Hsci.
Qed.

(** (C9) Flat fielding: when the bias frames are all one image [B], the b
    flats are [B + c_p * r] for a nowhere-zero response [r] and
    illuminations [c_p <> 0], every flat and science frame has, trimmed,
    the shape of [r], there is a bias frame, a b flat, a y flat and a b
    science frame, and the reduced directory starts empty, the notebook
    runs to the end, and it turns every b science frame [B + s * r] into
    the constant image [s * mean(r)]: the pixel response and the flat
    illuminations drop out. *)
Theorem ccdred_flat_field s0 Bfull r c :
  glob (disk_of s0) raw_data_dir "bias" <> [] ->
  (forall p, p ∈ glob (disk_of s0) raw_data_dir "bias" ->
     exists im, files (disk_of s0) !! p = Some im /\ im ≡ Bfull) ->
  shape (valid_area Bfull) = shape r ->
  ~ img_mean r == 0 ->
  (forall i j n, shape r !! i = Some n -> j < n -> ~ pix r i j == 0) ->
  (forall p, p ∈ glob (disk_of s0) raw_data_dir "flat_b" -> ~ c p == 0 /\
     exists im, files (disk_of s0) !! p = Some im /\
       img_is (valid_area im) (shape r) (fun i j => pix (valid_area Bfull) i j + c p * pix r i j)%Q) ->
  (forall n im, files (disk_of s0) !! path_join raw_data_dir n = Some im ->
     (exists x, n = "flat" +:+ x \/ n = "m67" +:+ x) -> shape (valid_area im) = shape r) ->
  glob (disk_of s0) raw_data_dir "flat_b" <> [] -> glob (disk_of s0) raw_data_dir "flat_y" <> [] ->
  glob (disk_of s0) raw_data_dir "m67_b" <> [] ->
  (forall n, files (disk_of s0) !! path_join red_data_dir n = None) ->
  exists s5, ccdred_run s0 = Ok s5 /\
  forall p im s, p ∈ glob (disk_of s0) raw_data_dir "m67_b" ->
    files (disk_of s0) !! p = Some im ->
    img_is (valid_area im) (shape r) (fun i j => pix (valid_area Bfull) i j + s * pix r i j)%Q ->
    exists out, files (disk_of s5) !! path_join red_data_dir ("bf_" +:+ basename p) = Some out /\
      img_is out (shape r) (fun _ _ => s * img_mean r)%Q.
Proof.
  intros Hne Hbias Hsh Hr Hpix Hflats Hframes Hfb Hfy Hsci Hred.
  destruct (ccdred_run_total s0 Bfull r Hne Hbias Hsh Hframes Hfb Hfy Hsci Hred) as [s5 Hrun].
  exists s5. split; [exact Hrun|].
  exact (ccdred_flat_field_run s0 s5 Bfull r c Hbias Hsh Hr Hpix Hflats Hred Hrun).
Qed.

(** With no [bias*] file in the raw directory, [ccdproc.combine] gets
    an empty list and the bias cell raises [IndexError]. *)
Theorem bias_cell_no_frames s :
  glob (disk_of s) raw_data_dir "bias" = [] -> bias_cell s = Err IndexError.
Proof. intros Hnil. unfold bias_cell. rewrite Hnil. reflexivity. Qed.

(** (C33) The bias cell can be run again: its [os.path.isfile]/[os.remove]
    guard deletes the master bias it wrote before [ccdproc.combine] writes
    it again without [overwrite], so a second run succeeds and leaves the
    session as the first one did. *)
Theorem bias_cell_rerun s s1 : bias_cell s = Ok s1 -> bias_cell s1 = Ok s1.
Proof.
  intros Hrun. destruct (bias_cell_Ok _ _ Hrun) as (_ & Hraw & _).
  unfold bias_cell in Hrun |- *.
  apply bind_Ok in Hrun as (imgs & Himgs & Hrun).
  apply bind_Ok in Hrun as (full & Hfull & Hrun).
  apply bind_Ok in Hrun as (d3 & Hw & Hs1).
  set (zero := path_join red_data_dir "zero.fit") in *.
  set (d2 := ensure_dir (remove_if_file (disk_of s) zero) red_data_dir) in *.
  assert (Hz : files d2 !! zero = None).
  { unfold d2, ensure_dir, remove_if_file, isfile.
    destruct (decide (zero ∈ dom (files (disk_of s)))) as [Hin|Hnin].
    - rewrite (bool_decide_true (zero ∈ dom (files (disk_of s)))) by exact Hin.
      case_bool_decide; cbn [files]; apply lookup_delete_eq.
    - rewrite (bool_decide_false (zero ∈ dom (files (disk_of s)))) by exact Hnin.
      case_bool_decide; cbn [files];
        apply not_elem_of_dom, Hnin. }
  assert (Hdir2 : red_data_dir ∈ dirs d2).
  { unfold d2, ensure_dir. case_bool_decide; [assumption|]. cbn [dirs]. set_solver. }
  assert (Hnf : isfile d2 zero = false).
  { unfold isfile. apply bool_decide_eq_false, not_elem_of_dom, Hz. }
  unfold write_image in Hw. fold zero in Hw. rewrite bool_decide_true, Hnf in Hw by exact Hdir2.
  injection Hw as <-. injection Hs1 as <-. cbn [disk_of master_flat_b master_flat_y].
  rewrite (glob_raw_same _ _ _ Hraw).
  assert (Hrm : remove_if_file (mk_disk (dirs d2) (<[zero := full]> (files d2))) zero = d2).
  { unfold remove_if_file, isfile. cbn [files dirs].
    rewrite bool_decide_true by (rewrite dom_insert_L; set_solver).
    rewrite delete_insert_id by exact Hz. destruct d2; reflexivity. }
  assert (Hens : ensure_dir d2 red_data_dir = d2)
    by (unfold ensure_dir; rewrite bool_decide_true by exact Hdir2; reflexivity).
  rewrite Hrm, Hens.
  rewrite Himgs. cbn [bind]. rewrite Hfull. cbn [bind].
  unfold write_image. fold zero. rewrite bool_decide_true, Hnf by exact Hdir2. reflexivity.
Qed.

End CellLemmas.

(** ** A run on concrete frames *)

(** One row of 54 pixels: the valid area keeps its last pixel. *)
Definition ex_row (x : Q) : list Q := repeat x 54.

Definition ex_disk : disk :=
  mk_disk ∅
    (<[path_join raw_data_dir "bias1.fit" := [ex_row 1]]>
    (<[path_join raw_data_dir "flat_b1.fit" := [ex_row 3]]>
    (<[path_join raw_data_dir "flat_y1.fit" := [ex_row 3]]>
    (<[path_join raw_data_dir "m67_b1.fit" := [ex_row 6]]> ∅)))).

Definition ex_session : session := mk_session ex_disk None None None.

(** Close a goal about the single pixel of a 1x1 image. *)
Ltac one_pixel :=
  let i := fresh "i" in let j := fresh "j" in let n := fresh "n" in
  let Hn := fresh "Hn" in let Hj := fresh "Hj" in
  intros i j n Hn Hj; destruct i as [|i]; [|destruct i; discriminate];
  vm_compute in Hn; injection Hn as <-; destruct j as [|j]; [|lia];
  vm_compute; first [reflexivity | intros ?; discriminate].

Lemma ccdred_flat_field_witness :
  exists s5 out, ccdred_run ex_session = Ok s5 /\
    files (disk_of s5) !! path_join red_data_dir ("bf_" +:+ basename (path_join raw_data_dir "m67_b1.fit")) = Some out /\
    img_is out [1] (fun _ _ => 5 * 1)%Q.
Proof.
  assert (Hgb : glob (disk_of ex_session) raw_data_dir "bias" = [path_join raw_data_dir "bias1.fit"])
    by (vm_compute; reflexivity).
  assert (Hgf : glob (disk_of ex_session) raw_data_dir "flat_b" = [path_join raw_data_dir "flat_b1.fit"])
    by (vm_compute; reflexivity).
  assert (Hgy : glob (disk_of ex_session) raw_data_dir "flat_y" = [path_join raw_data_dir "flat_y1.fit"])
    by (vm_compute; reflexivity).
  assert (Hgs : glob (disk_of ex_session) raw_data_dir "m67_b" = [path_join raw_data_dir "m67_b1.fit"])
    by (vm_compute; reflexivity).
  destruct (ccdred_flat_field ex_session [ex_row 1] [[1%Q]] (fun _ => 2%Q)) as (s5 & Hrun & Hconc).
  - rewrite Hgb. discriminate.
  - intros p Hp. rewrite Hgb in Hp. apply list_elem_of_singleton in Hp as ->.
    exists [ex_row 1]. split; [vm_compute; reflexivity | reflexivity].
  - vm_compute. reflexivity.
  - vm_compute. discriminate.
  - one_pixel.
  - intros p Hp. rewrite Hgf in Hp. apply list_elem_of_singleton in Hp as ->.
    split; [vm_compute; discriminate|]. exists [ex_row 3]. split; [vm_compute; reflexivity|].
    split; [vm_compute; reflexivity|]. one_pixel.
  - intros n im Him _. cbn [disk_of ex_session ex_disk files] in Him.
    repeat (apply lookup_insert_Some in Him as [[_ <-] | [_ Him]]; [vm_compute; reflexivity|]).
    rewrite lookup_empty in Him. discriminate.
  - rewrite Hgf. discriminate.
  - rewrite Hgy. discriminate.
  - rewrite Hgs. discriminate.
  - intros n. cbn [disk_of ex_session ex_disk files].
    rewrite !lookup_insert_ne by apply raw_ne_red. apply lookup_empty.
  - destruct (Hconc (path_join raw_data_dir "m67_b1.fit") [ex_row 6] 5%Q) as (out & Hout & His).
    + rewrite Hgs. apply list_elem_of_here.
    + vm_compute. reflexivity.
    + split; [vm_compute; reflexivity|]. one_pixel.
    + exists s5, out. split; [exact Hrun|]. split; [exact Hout|].
      eapply img_is_ext; [|exact His]. intros i j n _ _. vm_compute. reflexivity.
Defined.


Lemma bias_cell_no_frames_witness :
  glob (disk_of (mk_session (mk_disk ∅ ∅) None None None)) raw_data_dir "bias" = [] /\
  bias_cell (mk_session (mk_disk ∅ ∅) None None None) = Err IndexError.
Proof.
  split; [vm_compute; reflexivity|]. apply bias_cell_no_frames. vm_compute. reflexivity.
Defined.


Lemma bias_cell_rerun_witness :
  exists s1, bias_cell ex_session = Ok s1 /\ bias_cell s1 = Ok s1.
Proof.
  destruct (bias_cell ex_session) as [s1|e] eqn:Hrun; [|vm_compute in Hrun; discriminate].
  exists s1. split; [reflexivity|]. exact (bias_cell_rerun ex_session s1 Hrun).
Defined.

End Ccdred.
