(* ===== verification/Detection.v ===== *)
(** Source detection and selection in src/notebooks/photutils.ipynb: the
    image statistics (lines 157-171), the DAOStarFinder detection grouped by
    file (lines 189-204), the [valid] flag of each star from the median and
    the median absolute deviation of its frame's sharpness and roundness
    (lines 244-268), the sky position columns (lines 306-329) and the
    brightest valid star of each frame (lines 354-360).

    The notebook's state is a [session] of the variables these cells set;
    reading one that is unset raises [NameError].  DAOStarFinder and the
    pixel-to-sky transformation are library calls, given by the [PhotLib]
    interface: what they return is not modelled, only how the notebook uses
    it.  [sigma_clipped_stats] is modelled ([Stats.sigma_clip]) up to the
    square root of the variance, which is the interface's [q_sqrt].  A
    table grouped by [Filename] is kept as its groups: astropy's [group_by]
    is a stable sort on the key, so each group keeps the order of its rows
    and the groups come in key order. *)

From S2P Require Import Prelude PyString PySlice Stats Image Schema Ccdred.
From stdpp Require Import gmap.

Module Detection.

Import Stats Image Schema Ccdred.
Local Open Scope string_scope.

(** ** Data *)

(** The DAOStarFinder columns the notebooks read. *)
Record source := mk_source {
  xcentroid : Q; ycentroid : Q; sharpness : Q; roundness1 : Q;
  peak : Q; flux : Q; mag : Q
}.

(** A row of [catalogs]: the source, its [Filename] and, once the cells
    have added them, its [valid] flag and sky position. *)
Record cat_row := mk_cat_row {
  row_src : source; row_file : string; row_valid : bool; row_ra : Q; row_dec : Q
}.

(** A row of [statistics]. *)
Record stat_row := mk_stat_row {
  st_file : string; st_mean : Q; st_median : Q; st_dev : Q; st_image : image
}.

#[export] Instance source_eq_dec : EqDecision source.
Proof. solve_decision. Defined.
#[export] Instance cat_row_eq_dec : EqDecision cat_row.
Proof. solve_decision. Defined.

(** What the notebook takes from photutils and astropy without modelling. *)
Class PhotLib := {
  (** [np.sqrt], for the standard deviation. *)
  q_sqrt : Q -> Q;
  (** [DAOStarFinder(fwhm, threshold)(data)]: [None] when it finds nothing. *)
  dao_find : Q -> Q -> image -> option (list source);
  (** [SkyCoord.from_pixel(x, y, WCS(header of file))]. *)
  from_pixel : string -> Q -> Q -> Q * Q
}.

(** [np.transpose] of an image stored by rows. *)
Fixpoint transpose (a : image) : image :=
  match a with
  | [] => []
  | row :: rest =>
      match rest with
      | [] => (fun x => [x]) <$> row
      | _ => zip_with cons row (transpose rest)
      end
  end.

(** ** Statistics (lines 157-171) *)

Section Cells.
Context `{DirOrder} `{PhotLib}.

(** [sigma_clipped_stats(data, sigma=3.0, maxiters=5)]: mean, median and
    standard deviation of the clipped pixels. *)
Definition sigma_clipped_stats (data : image) : Q * Q * Q :=
  let l := sigma_clip 3 5 (concat data) in
  (default 0%Q (np_mean l), default 0%Q (np_median l), q_sqrt (default 0%Q (np_var l))).

Definition stat_of (d : disk) (filename : string) : result stat_row :=
  data <- read_image d filename;;
  let '(mean, median, dev) := sigma_clipped_stats data in
  Ok (mk_stat_row filename mean median dev (transpose data)).

(** [statistics.sort('Filename')]. *)
Definition sort_by_file (rows : list stat_row) : list stat_row :=
  merge_sort (fun r1 r2 => strings.String.le (st_file r1) (st_file r2)) rows.

(** [s] ends with [suf]. *)
Definition ends_with (suf s : string) : bool :=
  Nat.leb (String.length suf) (String.length s) &&
  String.eqb (String.substring (String.length s - String.length suf) (String.length suf) s) suf.

(** [glob(os.path.join(dir, prefix + '*' + suffix))]. *)
Definition glob_suffix (d : disk) (dir prefix suffix : string) : list string :=
  dir_order (List.filter (fun p => glob_match dir prefix p && ends_with suffix p)
                         (elements (dom (files d)))).

Definition statistics_cell (d : disk) : result (list stat_row) :=
  rows <- map_result (stat_of d) (glob_suffix d red_data_dir "bfa_" ".fit");;
  Ok (sort_by_file rows).

(** ** Detection (lines 189-204) *)

(** [photometry = daofind(image['Image'] - median)] and
    [photometry['Filename'] = [filename] * len(photometry)]: [TypeError]
    when DAOStarFinder returns [None]. *)
Definition detect (fwhm : Q) (image_row : stat_row) : result (list cat_row) :=
  let daofind := dao_find fwhm (5 * st_dev image_row)%Q in
  match daofind (img_map (fun x => x - st_median image_row)%Q (st_image image_row)) with
  | None => Err TypeError
  | Some photometry =>
      Ok ((fun src => mk_cat_row src (st_file image_row) false 0 0) <$> photometry)
  end.

(** [table.group_by('Filename')] of a table, as its groups in key order. *)
Definition group_by (rows : list cat_row) : list (string * list cat_row) :=
  (fun k => (k, List.filter (fun r => bool_decide (row_file r = k)) rows)) <$>
    merge_sort strings.String.le (remove_dups (row_file <$> rows)).

(** [catalogs = table.vstack(sources).group_by('Filename')];
    [table.vstack([])] raises [ValueError]. *)
Definition detection_cell (pixel_scale : Q) (statistics : list stat_row)
    : result (list (string * list cat_row)) :=
  let fwhm := (3 / 2 / pixel_scale)%Q in
  sources <- map_result (detect fwhm) statistics;;
  match sources with
  | [] => Err ValueError
  | _ => Ok (group_by (concat sources))
  end.

End Cells.

(** ** The catalog of all frames *)

(** [catalogs]: its column names and its groups by [Filename]. *)
Record catalog := mk_catalog {
  cat_names : list string;
  cat_groups : list (string * list cat_row)
}.

Definition cat_rows (c : catalog) : list cat_row := concat (snd <$> cat_groups c).

(** The columns of [DAOStarFinder] and the added [Filename]. *)
Definition dao_names : list string :=
  ["id"; "xcentroid"; "ycentroid"; "sharpness"; "roundness1"; "roundness2";
   "npix"; "sky"; "peak"; "flux"; "mag"; "Filename"].

(** [l.insert(i, x)] for [0 <= i]. *)
Definition list_insert_at {A} (i : nat) (x : A) (l : list A) : list A :=
  take i l ++ x :: drop i l.

(** Distribute a column given for all the rows, in row order, to the groups. *)
Fixpoint assign {A} (set : cat_row -> A -> cat_row) (groups : list (string * list cat_row))
    (col : list A) : list (string * list cat_row) :=
  match groups with
  | [] => []
  | (k, rs) :: gs =>
      (k, zip_with set rs (take (length rs) col)) :: assign set gs (drop (length rs) col)
  end.

(** [catalogs.add_column(col, index=i, name=name)]: [ValueError] for a name
    that is already a column or a column of the wrong length. *)
Definition add_column {A} (set : cat_row -> A -> cat_row) (c : catalog) (col : list A)
    (i : nat) (name : string) : result catalog :=
  if bool_decide (name ∈ cat_names c) then Err ValueError
  else if bool_decide (length col = length (cat_rows c)) then
    Ok (mk_catalog (list_insert_at i name (cat_names c)) (assign set (cat_groups c) col))
  else Err ValueError.

(** [if name in catalogs.colnames: del catalogs[name]]. *)
Definition del_if_present (c : catalog) (name : string) : catalog :=
  mk_catalog (List.filter (fun n => negb (bool_decide (n = name))) (cat_names c)) (cat_groups c).

Definition set_valid (r : cat_row) (v : bool) : cat_row :=
  mk_cat_row (row_src r) (row_file r) v (row_ra r) (row_dec r).
Definition set_ra (r : cat_row) (x : Q) : cat_row :=
  mk_cat_row (row_src r) (row_file r) (row_valid r) x (row_dec r).
Definition set_dec (r : cat_row) (x : Q) : cat_row :=
  mk_cat_row (row_src r) (row_file r) (row_valid r) (row_ra r) x.

(** ** Valid stars (lines 244-268) *)

Definition sq (x : Q) : Q := (x * x)%Q.

(** The [mask] of one frame's sources. *)
Definition star_mask (sources : list cat_row) : list bool :=
  let sharp := (fun r => sharpness (row_src r)) <$> sources in
  let round := (fun r => roundness1 (row_src r)) <$> sources in
  let sharp_med := default 0%Q (np_median sharp) in
  let sharp_mas := default 0%Q (median_absolute_deviation sharp) in
  let round_med := default 0%Q (np_median round) in
  let round_mas := default 0%Q (median_absolute_deviation round) in
  (fun r =>
     Qltb (sq (sharpness (row_src r) - sharp_med)) (9 * sq sharp_mas) &&
     Qltb (sq (roundness1 (row_src r) - round_med)) (9 * sq round_mas) &&
     Qltb (peak (row_src r)) 50000) <$> sources.

Definition valid_cell (catalogs : catalog) : result catalog :=
  let valid := concat ((fun g => star_mask g.2) <$> cat_groups catalogs) in
  add_column set_valid catalogs valid 1 "valid".

(** ** Sky positions (lines 306-329) *)

Section WithLib.
Context `{PhotLib}.

(** [SkyCoord.from_pixel(sources['ycentroid'], sources['xcentroid'], wcs)]:
    the image was transposed for the detection, so the centroids are
    swapped back. *)
Definition group_coords (g : string * list cat_row) : list (Q * Q) :=
  (fun r => from_pixel g.1 (ycentroid (row_src r)) (xcentroid (row_src r))) <$> g.2.

(** The loop accumulating [coords]; [None] when there is no group, and
    [coords.ra] then raises [AttributeError]. *)
Definition radec_cell (catalogs : catalog) : result catalog :=
  let coords := match cat_groups catalogs with
                 | [] => None
                 | gs => Some (concat (group_coords <$> gs))
                 end in
  match coords with
  | None => Err AttributeError
  | Some cs =>
      let c1 := del_if_present (del_if_present catalogs "ra") "dec" in
      c2 <- add_column set_ra c1 (fst <$> cs) 2 "ra";;
      add_column set_dec c2 (snd <$> cs) 3 "dec"
  end.

End WithLib.

(** ** The brightest valid star of each frame (lines 354-360) *)

(** [sources.sort('mag')]: numpy's default sort is not stable, so only a
    permutation in magnitude order is assumed. *)
Class MagSort := {
  sort_mag : list cat_row -> list cat_row;
  sort_mag_perm : forall l, sort_mag l ≡ₚ l;
  sort_mag_sorted : forall l, Sorted (fun r1 r2 => (mag (row_src r1) <= mag (row_src r2))%Q) (sort_mag l)
}.

Section Psf.
Context `{MagSort}.

(** [sources[sources['valid']][0]]. *)
Definition first_valid (sources : list cat_row) : result cat_row :=
  py_index (List.filter row_valid sources) 0.

(** The cell sorts each group in place, through the group's view of
    [catalogs], and collects the selected rows into [psf_sources]. *)
Definition psf_cell (catalogs : catalog) : result (catalog * list cat_row) :=
  let groups := (fun g => (g.1, sort_mag g.2)) <$> cat_groups catalogs in
  psf_sources <- map_result (fun g => first_valid g.2) groups;;
  Ok (mk_catalog (cat_names catalogs) groups, psf_sources).

End Psf.

(** ** The cells in the notebook's order *)

Definition detection_run `{DirOrder} `{PhotLib} `{MagSort} (d : disk) (pixel_scale : Q)
    : result (catalog * list cat_row) :=
  statistics <- statistics_cell d;;
  groups <- detection_cell pixel_scale statistics;;
  c1 <- valid_cell (mk_catalog dao_names groups);;
  c2 <- radec_cell c1;;
  psf_cell c2.

(** ** Lemmas *)

Lemma length_star_mask g : length (star_mask g) = length g.
Proof. apply length_fmap. Qed.

Lemma assign_concat {A} (set : cat_row -> A -> cat_row) (gs : list (string * list cat_row))
    (f : list cat_row -> list A) :
  (forall g, length (f g) = length g) ->
  assign set gs (concat ((fun g => f g.2) <$> gs)) =
  (fun g => (g.1, zip_with set g.2 (f g.2))) <$> gs.
Proof.
  intros Hf. induction gs as [|[k rs] gs IH]; [reflexivity|].
  rewrite fmap_cons. cbn [concat assign fst snd]. rewrite <- (Hf rs).
  rewrite take_app_length, drop_app_length, IH. reflexivity.
Qed.

Lemma length_concat_fmap {A} (gs : list (string * list cat_row)) (f : list cat_row -> list A) :
  (forall g, length (f g) = length g) ->
  length (concat ((fun g => f g.2) <$> gs)) = length (concat (snd <$> gs)).
Proof.
  intros Hf. induction gs as [|g gs IH]; [reflexivity|].
  rewrite !fmap_cons. cbn [concat]. rewrite !length_app, Hf, IH. reflexivity.
Qed.

(** A frame with a single source: its median is its value and its median
    absolute deviation is 0, so [(x - median)**2 < 9 * 0] fails. *)
Lemma star_mask_single r : star_mask [r] = [false].
Proof.
  unfold star_mask. rewrite !fmap_cons, !fmap_nil.
  rewrite !np_median_single, !median_absolute_deviation_single. cbn [default fmap list_fmap].
  f_equal. apply andb_false_iff. left. apply andb_false_iff. left.
  apply Qltb_false. unfold sq. rewrite !Qred_correct.
  set (s := sharpness (row_src r)). unfold id.
  assert (Hz : (s - s == 0)%Q) by ring. rewrite Hz. compute. discriminate.
Qed.

(** The valid cell, exactly: [ValueError] when the column exists already,
    and otherwise each group gets its own frame's mask, in row order. *)
Lemma valid_cell_eq c :
  valid_cell c =
  if bool_decide ("valid" ∈ cat_names c) then Err ValueError
  else Ok (mk_catalog (list_insert_at 1 "valid" (cat_names c))
             ((fun g => (g.1, zip_with set_valid g.2 (star_mask g.2))) <$> cat_groups c)).
Proof.
  unfold valid_cell, add_column. case_bool_decide; [reflexivity|].
  rewrite bool_decide_true by (unfold cat_rows; apply length_concat_fmap, length_star_mask).
  rewrite assign_concat by apply length_star_mask. reflexivity.
Qed.

Lemma sort_mag_single `{MagSort} x : sort_mag [x] = [x].
Proof. apply Permutation_singleton_r, sort_mag_perm. Qed.

(** (C23) [catalogs.add_column(valid, index=1)] puts on every star the flag
    computed from its own frame: the list [valid] built group after group
    lines up with the rows of the grouped table. *)
Theorem valid_cell_aligned c c' k rs :
  valid_cell c = Ok c' -> (k, rs) ∈ cat_groups c ->
  (k, zip_with set_valid rs (star_mask rs)) ∈ cat_groups c' /\
  cat_names c' = list_insert_at 1 "valid" (cat_names c).
Proof.
  rewrite valid_cell_eq. case_bool_decide; [discriminate|]. intros [= <-] Hin.
  split; [|reflexivity]. cbn [cat_groups].
  apply (list_elem_of_fmap_2 (fun g => (g.1, zip_with set_valid g.2 (star_mask g.2))) _ (k, rs) Hin).
Qed.


(** (C24) A frame in which DAOStarFinder found a single source has no valid
    star (its median absolute deviations are 0), so the PSF cell's
    [sources[sources['valid']][0]] raises [IndexError]. *)
Theorem single_source_frame_psf_error `{MagSort} c c' k r :
  valid_cell c = Ok c' -> (k, [r]) ∈ cat_groups c -> psf_cell c' = Err IndexError.
Proof.
  rewrite valid_cell_eq. case_bool_decide; [discriminate|]. intros [= <-] Hin.
  unfold psf_cell. cbn [cat_groups].
  rewrite (map_result_one_Err _ _ (k, [set_valid r false]) IndexError); [reflexivity| | |].
  - intros g _. unfold first_valid, py_index.
    destruct (List.filter row_valid g.2 !! 0); [left; eauto | right; reflexivity].
  - rewrite <- list_fmap_compose. apply (list_elem_of_fmap_2' _ _ (k, [r])); [exact Hin|].
    unfold compose. cbn [fst snd]. rewrite star_mask_single. cbn [zip_with].
    rewrite sort_mag_single. reflexivity.
  - reflexivity.
Qed.

Definition mag_le (r1 r2 : cat_row) : Prop := (mag (row_src r1) <= mag (row_src r2))%Q.
#[export] Instance mag_le_dec : RelDecision mag_le :=
  fun r1 r2 => Qle_rel_dec (mag (row_src r1)) (mag (row_src r2)).

(** The first valid row of a list in magnitude order is a valid row of
    least magnitude among the valid ones. *)
Lemma first_valid_least l s :
  StronglySorted mag_le l -> first_valid l = Ok s ->
  s ∈ l /\ row_valid s = true /\ forall r, r ∈ l -> row_valid r = true -> mag_le s r.
Proof.
  unfold first_valid. intros Hs. induction Hs as [|x l Hs IH Hx]; [discriminate|].
  cbn [List.filter]. destruct (row_valid x) eqn:Ex.
  - intros [= <-]. split; [apply list_elem_of_here|]. split; [exact Ex|].
    intros r Hr _. apply elem_of_cons in Hr as [->|Hr]; [unfold mag_le; lra|].
    rewrite Forall_forall in Hx. apply Hx, Hr.
  - intros Hf. destruct (IH Hf) as (Hin & Hv & Hleast). split; [apply list_elem_of_further, Hin|].
    split; [exact Hv|]. intros r Hr Hrv. apply elem_of_cons in Hr as [->|Hr]; [congruence|].
    apply Hleast; assumption.
Qed.

(** (C22) The PSF cell selects, in every frame, a valid star of least
    magnitude (the brightest), and, through the group's view, leaves each
    frame's rows of [catalogs] reordered by magnitude. *)
Theorem psf_cell_brightest `{MagSort} c c' sel :
  psf_cell c = Ok (c', sel) ->
  Forall2 (fun g s => s ∈ g.2 /\ row_valid s = true /\
             forall r, r ∈ g.2 -> row_valid r = true -> (mag (row_src s) <= mag (row_src r))%Q)
          (cat_groups c) sel /\
  Forall2 (fun g g' => g'.1 = g.1 /\ g'.2 ≡ₚ g.2 /\ Sorted mag_le g'.2) (cat_groups c) (cat_groups c').
Proof.
  unfold psf_cell. intros Hrun. apply bind_Ok in Hrun as (sel' & Hsel & [= <- <-]).
  split.
  - apply map_result_Ok, Forall2_fmap_l in Hsel. apply (Forall2_impl _ _ _ _ Hsel).
    intros g s Hs. cbn [compose fst snd] in Hs.
    assert (Hss : StronglySorted mag_le (sort_mag g.2)).
    { apply Sorted.Sorted_StronglySorted; [|apply sort_mag_sorted].
      intros x y z Hxy Hyz. unfold mag_le in *. lra. }
    destruct (first_valid_least _ _ Hss Hs) as (Hin & Hv & Hleast).
    split; [rewrite <- (sort_mag_perm g.2); exact Hin|]. split; [exact Hv|].
    intros r Hr Hrv. apply Hleast; [rewrite (sort_mag_perm g.2); exact Hr | exact Hrv].
  - cbn [cat_groups]. apply Forall2_fmap_r, Forall_Forall2_diag, Forall_forall.
    intros g _. cbn [fst snd]. split; [reflexivity|]. split; [apply sort_mag_perm | apply sort_mag_sorted].
Qed.

Section Partition.
Context {A : Type} (key : A -> string).

Definition key_filter (l : list A) (k : string) : list A :=
  List.filter (fun r => bool_decide (key r = k)) l.

Lemma concat_key_filter_cons ks r l :
  NoDup ks -> key r ∈ ks ->
  concat (key_filter (r :: l) <$> ks) ≡ₚ r :: concat (key_filter l <$> ks).
Proof.
  induction 1 as [|k ks Hk Hnd IH]; intros Hr; [apply elem_of_nil in Hr; contradiction|].
  rewrite !fmap_cons. cbn [concat]. unfold key_filter at 1 3. cbn [List.filter].
  case_bool_decide as Hkr.
  - subst k. cbn [app]. apply perm_skip, Permutation_app_head.
    assert (Heq : key_filter (r :: l) <$> ks = key_filter l <$> ks).
    { apply list_fmap_ext. intros i k' Hk'. unfold key_filter. cbn [List.filter].
      rewrite bool_decide_false; [reflexivity|]. intros Heq. apply Hk. rewrite Heq.
      eapply list_elem_of_lookup_2; eauto. }
    rewrite Heq. reflexivity.
  - apply elem_of_cons in Hr as [Hr|Hr]; [congruence|].
    rewrite IH by exact Hr. symmetry. apply Permutation_middle.
Qed.

Lemma concat_key_filter ks l :
  NoDup ks -> (forall r, r ∈ l -> key r ∈ ks) -> concat (key_filter l <$> ks) ≡ₚ l.
Proof.
  intros Hnd. induction l as [|r l IH]; intros Hks.
  - unfold key_filter. cbn [List.filter]. clear. induction ks as [|k ks IHks]; [reflexivity|].
    rewrite fmap_cons. exact IHks.
  - rewrite concat_key_filter_cons; [|exact Hnd | apply Hks, list_elem_of_here].
    apply perm_skip, IH. intros r' Hr'. apply Hks, list_elem_of_further, Hr'.
Qed.

End Partition.


(** ** Examples *)

(** A stand-in for the library calls, for the examples: the identity for
    the square root, no detection, and pixel coordinates as positions. *)
#[export] Instance ex_phot_lib : PhotLib := {
  q_sqrt x := x;
  dao_find _ _ _ := None;
  from_pixel _ x y := (x, y)
}.

(** numpy's sort on a concrete input: a merge sort by magnitude. *)
#[export] Program Instance ex_mag_sort : MagSort := {
  sort_mag := merge_sort mag_le
}.
Next Obligation. intros l. apply merge_sort_Permutation. Qed.
Next Obligation.
  intros l. apply Sorted_merge_sort. intros x y. unfold mag_le. apply Qle_Total.
Qed.

Definition ex_src (sharp round m : Q) : source := mk_source 10 20 sharp round 1000 500 m.
Definition ex_star (f : string) (sharp round m : Q) : cat_row :=
  mk_cat_row (ex_src sharp round m) f false 0 0.

(** Five stars on one frame whose sharpness and roundness spread by one
    median absolute deviation, and a frame with a single star. *)
Definition ex_frame : list cat_row :=
  [ex_star "bfa_m67_b1.fits" 3 3 (-7); ex_star "bfa_m67_b1.fits" 1 2 (-9);
   ex_star "bfa_m67_b1.fits" 2 5 (-8); ex_star "bfa_m67_b1.fits" 5 4 (-6);
   ex_star "bfa_m67_b1.fits" 4 1 (-10)].
Definition ex_lonely : list cat_row := [ex_star "bfa_m67_y1.fits" 1 1 (-5)].
Definition ex_catalog : catalog :=
  mk_catalog dao_names [("bfa_m67_b1.fits", ex_frame); ("bfa_m67_y1.fits", ex_lonely)].
Definition ex_frames : catalog :=
  mk_catalog dao_names [("bfa_m67_b1.fits", ex_frame)].

Definition ok_or {A} (d : A) (r : result A) : A :=
  match r with Ok x => x | Err _ => d end.
Definition ex_valid : catalog := ok_or ex_catalog (valid_cell ex_catalog).
Definition ex_valid_frames : catalog := ok_or ex_frames (valid_cell ex_frames).
Definition ex_psf : catalog * list cat_row :=
  ok_or (ex_frames, []) (psf_cell ex_valid_frames).

Lemma valid_cell_aligned_witness :
  valid_cell ex_catalog = Ok ex_valid /\
  ("bfa_m67_b1.fits", zip_with set_valid ex_frame (star_mask ex_frame)) ∈ cat_groups ex_valid /\
  cat_names ex_valid = list_insert_at 1 "valid" (cat_names ex_catalog).
Proof.
  split; [vm_compute; reflexivity|].
  apply (valid_cell_aligned ex_catalog ex_valid "bfa_m67_b1.fits" ex_frame);
    [vm_compute; reflexivity | apply (bool_decide_unpack _); vm_compute; reflexivity].
Defined.


Lemma single_source_frame_psf_error_witness :
  valid_cell ex_catalog = Ok ex_valid /\ psf_cell ex_valid = Err IndexError.
Proof.
  split; [vm_compute; reflexivity|].
  apply (single_source_frame_psf_error ex_catalog ex_valid "bfa_m67_y1.fits"
           (ex_star "bfa_m67_y1.fits" 1 1 (-5))); [vm_compute; reflexivity | apply (bool_decide_unpack _); vm_compute; reflexivity].
Defined.

(** On the frame of five stars every star is valid and the brightest,
    of magnitude -10, is selected. *)
Lemma psf_cell_brightest_witness :
  psf_cell ex_valid_frames = Ok ex_psf /\
  (mag (row_src (hd (ex_star "" 0 0 0) ex_psf.2)) == -10)%Q /\
  Forall2 (fun g s => s ∈ g.2 /\ row_valid s = true /\
             forall r, r ∈ g.2 -> row_valid r = true -> (mag (row_src s) <= mag (row_src r))%Q)
          (cat_groups ex_valid_frames) ex_psf.2.
Proof.
  split; [vm_compute; reflexivity|]. split; [vm_compute; reflexivity|].
  apply (psf_cell_brightest ex_valid_frames ex_psf.1 ex_psf.2). vm_compute. reflexivity.
Defined.

End Detection.
