(* ===== verification/Aperture.v ===== *)
(** Aperture photometry in src/notebooks/photutils.ipynb: the circular
    apertures on the detected sources (lines 548-551), the photometry after
    subtracting the global median (lines 577-580), the photometry in the
    aperture and an annulus (lines 606-609, 629-630), the local background
    subtraction (lines 647, 663-665), the exercise that compares the two
    (lines 714-718), the stamp around one source (lines 750-759), the
    statistics of the annulus pixels (lines 777-779, 799, 818-823,
    842-846) and the error estimate (lines 871-874).

    photutils' geometry is an interface, [ApertureGeometry]: the fraction
    of each pixel an aperture covers (method 'exact'), the area of an
    aperture shape and whether a pixel centre lies in it (method 'center').
    An aperture sum is the sum of the pixels weighted by their fractions,
    as photutils computes it.  The aperture cells follow cells that read
    names the notebook never defines ([sdss_g_hdu_list], [my_python_ds9]);
    they are modelled as functions of the values those names stand for.
    The annulus cutout [m0.apply(data)] is modelled on the whole image:
    outside the mask's bounding box the mask is 0, so the non-zero values
    in row-major order, which is all [cutout_data[cutout_data != 0]] keeps,
    are the same. *)

From S2P Require Import Prelude PySlice Stats Image Detection.

Module Aperture.

Import PySlice Stats Image Detection.

(** ** Apertures *)

Inductive ap_shape :=
| Circle (r : Q)
| Annulus (r_in r_out : Q).

Record aperture := mk_aperture { ap_x : Q; ap_y : Q; ap_kind : ap_shape }.

Class ApertureGeometry := {
  (** The fraction of pixel [data[i][j]] inside the aperture. *)
  overlap : aperture -> nat -> nat -> Q;
  (** [aperture.area()]. *)
  area : ap_shape -> Q;
  (** Whether the centre of pixel [data[i][j]] is inside the aperture. *)
  center_in : aperture -> nat -> nat -> bool
}.

(** The sum of the pixels of a row weighted by [w]. *)
Definition row_wsum (w : nat -> Q) (row : list Q) : Q := q_sum (imap (fun j v => w j * v)%Q row).

(** The sum of the pixels of [d] weighted by [w], row by row. *)
Definition weighted_sum (w : nat -> nat -> Q) (d : image) : Q :=
  q_sum (imap (fun i row => row_wsum (w i) row) d).

(** The sum of the weights over the pixels of [d]: the area an aperture
    covers on the image. *)
Definition weight_total (w : nat -> nat -> Q) (d : image) : Q :=
  weighted_sum w (img_map (fun _ => 1%Q) d).

(** A row of a photometry table: the centre and one [aperture_sum_k] per
    aperture ([aperture_sum] when there is one). *)
Record phot_row := mk_phot_row { xcenter : Q; ycenter : Q; aperture_sums : list Q }.

Section Photometry.
Context `{ApertureGeometry}.

Definition aperture_sum (a : aperture) (d : image) : Q := weighted_sum (overlap a) d.

(** [aperture_photometry(data, apers)] for apertures of the given shapes at
    common positions. *)
Definition aperture_photometry (d : image) (positions : list (Q * Q)) (shapes : list ap_shape)
    : list phot_row :=
  (fun p => mk_phot_row p.1 p.2 ((fun s => aperture_sum (mk_aperture p.1 p.2 s) d) <$> shapes))
    <$> positions.

(** ** The cells *)

Definition aperture_radius : Q := 5.
Definition r_in : Q := 10.
Definition r_out : Q := 15.

(** [positions = (sources['xcentroid'], sources['ycentroid'])]. *)
Definition positions_of (sources : list cat_row) : list (Q * Q) :=
  (fun r => (xcentroid (row_src r), ycentroid (row_src r))) <$> sources.

(** [aperture_photometry(data - median, apertures)]. *)
Definition global_bkg_cell (data : image) (median : Q) (positions : list (Q * Q)) : list phot_row :=
  aperture_photometry (img_map (fun v => v - median)%Q data) positions [Circle aperture_radius].

(** [aperture_photometry(data, [apertures, annulus_apertures])]. *)
Definition local_bkg_cell (data : image) (positions : list (Q * Q)) : list phot_row :=
  aperture_photometry data positions [Circle aperture_radius; Annulus r_in r_out].

(** [table['aperture_k']]: [KeyError] for a column the table has not. *)
Definition sum_column (k : nat) (t : list phot_row) : result (list Q) :=
  map_result (fun row => match aperture_sums row !! k with
                         | Some s => Ok s
                         | None => Err (KeyError "aperture_sum")
                         end) t.

(** [bkg_mean = aperture_sum_1 / annulus.area()],
    [bkg_sum = bkg_mean * apertures.area()],
    [final_sum = aperture_sum_0 - bkg_sum]. *)
Definition residual_cell (t : list phot_row) : result (list Q) :=
  sum_1 <- sum_column 1 t;;
  sum_0 <- sum_column 0 t;;
  let bkg_mean := (fun s => s / area (Annulus r_in r_out))%Q <$> sum_1 in
  let bkg_sum := (fun m => m * area (Circle aperture_radius))%Q <$> bkg_mean in
  Ok (zip_with Qminus sum_0 bkg_sum).

End Photometry.

(** [table[a * 1.5 < b]] and [table[a * 1.5 > b]] of two columns of one
    length: the rows, by index, of each selection. *)
Definition compare_cell (residual global : list Q) : result (list nat * list nat) :=
  if bool_decide (length residual = length global) then
    let idx := seq 0 (length residual) in
    let pairs := zip residual global in
    Ok ((fun ip => ip.1) <$> List.filter (fun ip => Qltb (ip.2.1 * (3 / 2)) ip.2.2) (zip idx pairs),
        (fun ip => ip.1) <$> List.filter (fun ip => Qltb ip.2.2 (ip.2.1 * (3 / 2))) (zip idx pairs))
  else Err ValueError.

Definition stamp_radius : Q := 20.

(** [data[int(y - r):int(y + r), int(x - r):int(x + r)]]. *)
Definition stamp (data : image) (x y : Q) : image :=
  py_slice2 data (py_int (y - stamp_radius)) (py_int (y + stamp_radius))
                 (py_int (x - stamp_radius)) (py_int (x + stamp_radius)).

Section Annulus.
Context `{ApertureGeometry} `{PhotLib}.

(** [m0.apply(data)] for the mask of [CircularAnnulus((x, y), r_in, r_out)]
    by pixel centre. *)
Definition annulus_cutout (x y : Q) (data : image) : image :=
  let a := mk_aperture x y (Annulus r_in r_out) in
  imap (fun i row => imap (fun j v => if center_in a i j then v else 0%Q) row) data.

(** [cutout_data[cutout_data != 0]]. *)
Definition annulus_array (x y : Q) (data : image) : list Q :=
  List.filter (fun v => negb (Qeq_bool v 0)) (concat (annulus_cutout x y data)).

(** [sigma_clip(annulus_array, sigma=3, iters=2)] and the median and
    variance ([std ** 2]) of the values it keeps. *)
Definition clipped_stats (values : list Q) : Q * Q :=
  let kept := sigma_clip 3 2 values in
  (default 0%Q (np_median kept), default 0%Q (np_var kept)).

(** [F = aperture_sum_1[source_num] - median_clipped * aperture_area] and
    [sigma_F = sqrt(F / g + aperture_area * std_clipped ** 2)]. *)
Definition error_cell (t : list phot_row) (source_num : nat) (g : Q) (values : list Q)
    : result (Q * Q) :=
  sum_1 <- sum_column 1 t;;
  s <- py_index sum_1 source_num;;
  let '(median_clipped, var_clipped) := clipped_stats values in
  let aperture_area := area (Circle aperture_radius) in
  let F := (s - median_clipped * aperture_area)%Q in
  Ok (F, q_sqrt (F / g + aperture_area * var_clipped)%Q).

(** The annulus cells and the error estimate for source [source_num],
    in the notebook's order. *)
Definition annulus_error_run (data : image) (t : list phot_row) (source_num : nat) (g : Q)
    : result (Q * Q) :=
  row <- py_index t source_num;;
  error_cell t source_num g (annulus_array (xcenter row) (ycenter row) data).

End Annulus.

(** ** Weighted sums *)

Lemma row_wsum_cons w v row : row_wsum w (v :: row) = (w O * v + row_wsum (fun j => w (S j)) row)%Q.
Proof. reflexivity. Qed.

Lemma weighted_sum_cons w row d :
  weighted_sum w (row :: d) = (row_wsum (w O) row + weighted_sum (fun i => w (S i)) d)%Q.
Proof. reflexivity. Qed.

Lemma row_wsum_affine w (f : Q -> Q) k c row :
  (forall v, f v == k * v + c) ->
  row_wsum w (f <$> row) == k * row_wsum w row + c * row_wsum w ((fun _ => 1%Q) <$> row).
Proof.
  intros Hf. revert w. induction row as [|v row IH]; intros w; [change (0 == k * 0 + c * 0)%Q; ring|].
  rewrite !fmap_cons, !row_wsum_cons, IH, Hf. ring.
Qed.

(** An aperture sum of [k * data + c] is [k] times the sum plus [c] times
    the covered area. *)
Lemma weighted_sum_affine w (f : Q -> Q) k c d :
  (forall v, f v == k * v + c) ->
  weighted_sum w (img_map f d) == k * weighted_sum w d + c * weight_total w d.
Proof.
  intros Hf. unfold weight_total. revert w.
  induction d as [|row d IH]; intros w; [change (0 == k * 0 + c * 0)%Q; ring|].
  unfold img_map. rewrite !fmap_cons, !weighted_sum_cons. fold (img_map f d) (img_map (fun _ => 1%Q) d).
  rewrite IH, (row_wsum_affine _ f k c row Hf). ring.
Qed.

Lemma row_wsum_add w r1 r2 :
  length r1 = length r2 -> row_wsum w (zip_with Qplus r1 r2) == row_wsum w r1 + row_wsum w r2.
Proof.
  revert w r2. induction r1 as [|v r1 IH]; intros w [|v' r2] Hl; try discriminate; [change (0 == 0 + 0)%Q; ring|].
  cbn [zip_with]. rewrite !row_wsum_cons, IH by (cbn in Hl; lia). ring.
Qed.

(** Aperture sums add up over images of one shape. *)
Lemma weighted_sum_add w a b :
  shape a = shape b -> weighted_sum w (img_zip Qplus a b) == weighted_sum w a + weighted_sum w b.
Proof.
  revert w b. induction a as [|ra a IH]; intros w [|rb b] Hsh; try discriminate; [change (0 == 0 + 0)%Q; ring|].
  injection Hsh as Hl Hsh. unfold img_zip. cbn [zip_with]. rewrite !weighted_sum_cons.
  fold (img_zip Qplus a b). rewrite IH, row_wsum_add by assumption. ring.
Qed.

Lemma row_wsum_proper w r1 r2 : r1 ≡ r2 -> row_wsum w r1 == row_wsum w r2.
Proof.
  intros Hr. apply list_equiv_Forall2 in Hr. revert w. induction Hr as [|v v' r1 r2 Hv _ IH]; intros w;
    [reflexivity|]. rewrite !row_wsum_cons, IH. unfold equiv, Q_equiv in Hv. rewrite Hv. reflexivity.
Qed.

#[export] Instance weighted_sum_proper w : Proper ((≡) ==> Qeq) (weighted_sum w).
Proof.
  intros a b Hab. apply list_equiv_Forall2 in Hab. revert w.
  induction Hab as [|ra rb a b Hr _ IH]; intros w; [reflexivity|].
  rewrite !weighted_sum_cons, IH, (row_wsum_proper _ _ _ Hr). reflexivity.
Qed.

(** The all-ones image depends on the shape only. *)
Lemma ones_shape a b : shape a = shape b -> img_map (fun _ => 1%Q) a = img_map (fun _ => 1%Q) b.
Proof.
  revert b. induction a as [|ra a IH]; intros [|rb b] Hsh; try discriminate; [reflexivity|].
  injection Hsh as Hl Hsh. unfold img_map. rewrite !fmap_cons. fold (img_map (fun _ => 1%Q) a).
  fold (img_map (fun _ => 1%Q) b). rewrite (IH b Hsh). f_equal.
  revert rb Hl. induction ra as [|x ra IHr]; intros [|y rb] Hl; try discriminate; [reflexivity|].
  rewrite !fmap_cons, (IHr rb) by (cbn in Hl; lia). reflexivity.
Qed.

Lemma weight_total_shape w a b : shape a = shape b -> weight_total w a = weight_total w b.
Proof. intros Hsh. unfold weight_total. rewrite (ones_shape a b Hsh). reflexivity. Qed.

(** An aperture on an image that is a source image [s] on a flat
    background [c] sums the source and [c] times the covered area. *)
Lemma weighted_sum_flat w d s c :
  d ≡ img_map (fun v => v + c)%Q s ->
  weighted_sum w d == weighted_sum w s + c * weight_total w s /\ weight_total w d = weight_total w s.
Proof.
  intros Hd. split.
  - rewrite Hd, (weighted_sum_affine w _ 1 c s) by (intros; ring). ring.
  - apply weight_total_shape. rewrite (shape_equiv _ _ Hd). apply shape_img_map.
Qed.

Section Background.
Context `{ApertureGeometry}.

Definition circ_at (p : Q * Q) : aperture := mk_aperture p.1 p.2 (Circle aperture_radius).
Definition ann_at (p : Q * Q) : aperture := mk_aperture p.1 p.2 (Annulus r_in r_out).

Lemma sum_column_photometry d ps shapes k s :
  shapes !! k = Some s ->
  sum_column k (aperture_photometry d ps shapes) =
  Ok ((fun p => aperture_sum (mk_aperture p.1 p.2 s) d) <$> ps).
Proof.
  intros Hk. unfold sum_column, aperture_photometry.
  induction ps as [|p ps IH]; [reflexivity|]. rewrite !fmap_cons. cbn [map_result aperture_sums].
  rewrite list_lookup_fmap, Hk. cbn [fmap option_fmap option_map]. rewrite IH. reflexivity.
Qed.

(** The local background cell, exactly: it never raises, and gives every
    source its aperture sum less the annulus mean times the aperture area. *)
Lemma residual_cell_local d ps :
  residual_cell (local_bkg_cell d ps) =
  Ok ((fun p => aperture_sum (circ_at p) d -
                aperture_sum (ann_at p) d / area (Annulus r_in r_out) * area (Circle aperture_radius))%Q
      <$> ps).
Proof.
  unfold residual_cell, local_bkg_cell.
  rewrite (sum_column_photometry _ _ _ 1 (Annulus r_in r_out)) by reflexivity.
  rewrite (sum_column_photometry _ _ _ 0 (Circle aperture_radius)) by reflexivity. cbn [bind].
  rewrite <- !list_fmap_compose, zip_with_fmap_same. reflexivity.
Qed.

(** The global background cell, exactly. *)
Lemma global_bkg_cell_eq d median ps :
  global_bkg_cell d median ps =
  (fun p => mk_phot_row p.1 p.2 [aperture_sum (circ_at p) (img_map (fun v => v - median)%Q d)]) <$> ps.
Proof. reflexivity. Qed.

(** (C10) Local background subtraction removes a flat background: when
    the image is a source image on a constant background [c], the
    apertures lie inside the image (they cover their area) and no source
    light falls in the annuli, the residual aperture sum of every source is
    its own flux, whatever [c]. *)
Theorem local_bkg_removes_flat_background d s c ps :
  d ≡ img_map (fun v => v + c)%Q s ->
  ~ area (Annulus r_in r_out) == 0 ->
  Forall (fun p => weight_total (overlap (circ_at p)) s == area (Circle aperture_radius) /\
                   weight_total (overlap (ann_at p)) s == area (Annulus r_in r_out) /\
                   aperture_sum (ann_at p) s == 0) ps ->
  exists res, residual_cell (local_bkg_cell d ps) = Ok res /\
    Forall2 (fun p r => r == aperture_sum (circ_at p) s) ps res.
Proof.
  intros Hd Ha Hps. eexists. split; [apply residual_cell_local|].
  apply Forall2_fmap_r, Forall_Forall2_diag. apply (Forall_impl _ _ _ Hps).
  intros p (Hc & Han & Hs0). unfold compose; cbv beta. unfold aperture_sum in *.
  destruct (weighted_sum_flat (overlap (circ_at p)) d s c Hd) as [Ec _].
  destruct (weighted_sum_flat (overlap (ann_at p)) d s c Hd) as [Ea _].
  rewrite Ec, Ea, Hc, Han, Hs0. field. exact Ha.
Qed.

(** (C26) Global background subtraction is exact only when the median is
    the background: on a source image over a constant background [c], each
    [aperture_sum] is the source flux plus [(c - median)] times the
    aperture area. *)
Theorem global_bkg_bias d s c median ps :
  d ≡ img_map (fun v => v + c)%Q s ->
  Forall (fun p => weight_total (overlap (circ_at p)) s == area (Circle aperture_radius)) ps ->
  Forall2 (fun p row => exists x, aperture_sums row = [x] /\
             x == aperture_sum (circ_at p) s + (c - median) * area (Circle aperture_radius))
          ps (global_bkg_cell d median ps).
Proof.
  intros Hd Hps. rewrite global_bkg_cell_eq. apply Forall2_fmap_r, Forall_Forall2_diag.
  apply (Forall_impl _ _ _ Hps). intros p Hc. eexists. split; [reflexivity|].
  unfold aperture_sum in *. rewrite (weighted_sum_affine _ _ 1 (- median) d) by (intros; ring).
  destruct (weighted_sum_flat (overlap (circ_at p)) d s c Hd) as [Ec Et].
  rewrite Ec, Et, Hc. ring.
Qed.

End Background.

(** ** The comparison exercise *)

Lemma elem_of_zip_seq {A} (l : list A) k x : (k, x) ∈ zip (seq 0 (length l)) l <-> l !! k = Some x.
Proof.
  rewrite list_elem_of_lookup. split.
  - intros [i Hi]. rewrite lookup_zip_with in Hi.
    destruct (seq 0 (length l) !! i) as [n|] eqn:Es; [|discriminate]. cbn in Hi.
    apply lookup_seq in Es as [-> Hlt]. destruct (l !! i) eqn:El; [|discriminate].
    cbn in Hi. injection Hi as -> ->. exact El.
  - intros Hk. exists k. rewrite lookup_zip_with, lookup_seq_lt
      by (apply lookup_lt_Some in Hk; exact Hk). cbn. rewrite Hk. reflexivity.
Qed.

(** A row index is selected exactly when its two values pass the test. *)
Lemma elem_of_select (P : Q -> Q -> bool) res glob k :
  length res = length glob ->
  k ∈ (fun ip : nat * (Q * Q) => ip.1) <$>
        List.filter (fun ip => P ip.2.1 ip.2.2) (zip (seq 0 (length res)) (zip res glob)) <->
  exists l g, res !! k = Some l /\ glob !! k = Some g /\ P l g = true.
Proof.
  intros Hlen. assert (Hz : length (zip res glob) = length res) by (rewrite length_zip; lia).
  change (fmap (M := list) ?f ?l) with (map f l). rewrite elem_of_map. split.
  - intros ([k' [l g]] & -> & Hin). apply list_elem_of_In, filter_In in Hin as [Hin HP].
    apply list_elem_of_In in Hin. rewrite <- Hz in Hin. apply elem_of_zip_seq, lookup_zip_Some in Hin.
    exists l, g. tauto.
  - intros (l & g & Hl & Hg & HP). exists (k, (l, g)). split; [reflexivity|].
    apply list_elem_of_In, filter_In. split; [|exact HP]. apply list_elem_of_In.
    rewrite <- Hz. apply elem_of_zip_seq, lookup_zip_Some. auto.
Qed.

(** The exercise's two selections: a source is [very_different] when
    [1.5 * residual < global] and [quite_similar] when [1.5 * residual >
    global]; the cell raises [ValueError] only for columns of different
    lengths.  A source with [1.5 * residual = global] is in neither, and
    one whose local flux is far above its global flux is [quite_similar]. *)
Theorem compare_cell_classes res glob :
  length res = length glob ->
  exists vd qs, compare_cell res glob = Ok (vd, qs) /\
    (forall k, k ∈ vd <-> exists l g, res !! k = Some l /\ glob !! k = Some g /\ (l * (3 / 2) < g)%Q) /\
    (forall k, k ∈ qs <-> exists l g, res !! k = Some l /\ glob !! k = Some g /\ (g < l * (3 / 2))%Q).
Proof.
  intros Hlen. unfold compare_cell. rewrite bool_decide_true by exact Hlen.
  do 2 eexists. split; [reflexivity|]. split; intros k.
  - rewrite (elem_of_select (fun l g => Qltb (l * (3 / 2)) g)) by exact Hlen.
    setoid_rewrite Qltb_iff. reflexivity.
  - rewrite (elem_of_select (fun l g => Qltb g (l * (3 / 2)))) by exact Hlen.
    setoid_rewrite Qltb_iff. reflexivity.
Qed.

Lemma compare_cell_length_error res glob :
  length res <> length glob -> compare_cell res glob = Err ValueError.
Proof. intros Hlen. unfold compare_cell. rewrite bool_decide_false by exact Hlen. reflexivity. Qed.

(** ** The stamp *)

(** (C27) The stamp of a source within 19 pixels of the bottom edge is
    empty: [int(y - 20)] is negative, so numpy counts it from the end of
    the image, past [int(y + 20)]. *)
Theorem stamp_near_edge_empty data x y :
  (0 <= y <= 19)%Q -> 59 <= length data -> stamp data x y = [].
Proof.
  intros Hy Hn. unfold stamp, py_slice2.
  enough (Hs : py_slice data (py_int (y - stamp_radius)) (py_int (y + stamp_radius)) = [])
    by (rewrite Hs; reflexivity).
  assert (Ha : (-20 <= py_int (y - stamp_radius) <= -1)%Z).
  { apply py_int_between_nonpos; [lia | |]; unfold stamp_radius; unfold inject_Z; lra. }
  assert (Hb : (20 <= py_int (y + stamp_radius) <= 39)%Z).
  { apply py_int_between_nonneg; [lia | |]; unfold stamp_radius; unfold inject_Z; lra. }
  unfold py_slice. rewrite (slice_bound_neg _ (py_int (y - stamp_radius))) by lia.
  rewrite (slice_bound_in_range _ (py_int (y + stamp_radius))) by lia.
  replace (Z.to_nat (py_int (y + stamp_radius)) - _) with 0 by lia. reflexivity.
Qed.

(** ** The annulus pixels and the error estimate *)

Section ErrorEstimate.
Context `{ApertureGeometry}.

(** [cutout_data[cutout_data != 0]] keeps exactly the non-zero pixels
    whose centre is in the annulus: a pixel of the annulus whose value is 0
    is dropped with the pixels outside the mask. *)
Theorem annulus_array_spec x y d v :
  v ∈ annulus_array x y d <->
  ~ v == 0 /\ exists i j row, d !! i = Some row /\ row !! j = Some v /\
                          center_in (mk_aperture x y (Annulus r_in r_out)) i j = true.
Proof.
  unfold annulus_array, annulus_cutout. rewrite list_elem_of_In, filter_In, <- list_elem_of_In, elem_of_concat.
  rewrite negb_true_iff. split.
  - intros [(l & Hv & Hl) Hnz]. apply Qeq_bool_neq in Hnz.
    apply elem_of_lookup_imap in Hl as (i & row & -> & Hrow).
    apply elem_of_lookup_imap in Hv as (j & v0 & -> & Hv0).
    destruct (center_in _ i j) eqn:Ec; [|exfalso; apply Hnz; reflexivity].
    split; [exact Hnz|]. exists i, j, row. auto.
  - intros [Hnz (i & j & row & Hrow & Hv & Hc)]. split.
    + eexists. split; [|apply (elem_of_lookup_imap_2 _ _ _ _ Hrow)].
      apply elem_of_lookup_imap. exists j, v. rewrite Hc. auto.
    + destruct (Qeq_bool v 0) eqn:E; [|reflexivity]. apply Qeq_bool_iff in E. contradiction.
Qed.

(** The error cell on the local photometry table, exactly. *)
Lemma error_cell_local `{PhotLib} d ps k g vals :
  error_cell (local_bkg_cell d ps) k g vals =
  match ps !! k with
  | Some p =>
      let '(median_clipped, var_clipped) := clipped_stats vals in
      let F := (aperture_sum (ann_at p) d - median_clipped * area (Circle aperture_radius))%Q in
      Ok (F, q_sqrt (F / g + area (Circle aperture_radius) * var_clipped)%Q)
  | None => Err IndexError
  end.
Proof.
  unfold error_cell, local_bkg_cell.
  rewrite (sum_column_photometry _ _ _ 1 (Annulus r_in r_out)) by reflexivity. cbn [bind].
  unfold py_index. rewrite list_lookup_fmap. destruct (ps !! k); reflexivity.
Qed.

(** (C11) The error estimate reads [aperture_sum_1], the annulus, where the
    formula needs the source's own sum [aperture_sum_0]: adding light to
    the image anywhere the annulus does not see leaves [F] unchanged, so
    [F] does not measure the source. *)
Theorem error_estimate_ignores_source `{PhotLib} d star ps k p g vals F e :
  shape star = shape d -> ps !! k = Some p -> aperture_sum (ann_at p) star == 0 ->
  error_cell (local_bkg_cell d ps) k g vals = Ok (F, e) ->
  exists F' e', error_cell (local_bkg_cell (img_zip Qplus d star) ps) k g vals = Ok (F', e') /\ F' == F.
Proof.
  intros Hsh Hk Hstar. rewrite !error_cell_local, Hk.
  destruct (clipped_stats vals) as [med var]. intros [= <- _].
  do 2 eexists. split; [reflexivity|]. unfold aperture_sum in *.
  rewrite weighted_sum_add by (symmetry; exact Hsh). rewrite Hstar. ring.
Qed.

End ErrorEstimate.

(** ** Examples *)

(** Square apertures on whole pixels: the pixels within [r] of the centre
    in both coordinates, and a ring of them for an annulus. *)
Definition in_box (r x y : Q) (i j : nat) : bool :=
  Qle_bool (Qabs (inject_Z (Z.of_nat i) - y)) r && Qle_bool (Qabs (inject_Z (Z.of_nat j) - x)) r.

Definition box_overlap (a : aperture) (i j : nat) : Q :=
  match ap_kind a with
  | Circle r => if in_box r (ap_x a) (ap_y a) i j then 1%Q else 0%Q
  | Annulus ri ro =>
      if in_box ro (ap_x a) (ap_y a) i j && negb (in_box ri (ap_x a) (ap_y a) i j) then 1%Q else 0%Q
  end.

#[export] Instance box_geometry : ApertureGeometry := {
  overlap := box_overlap;
  area s := match s with
            | Circle r => ((2 * r + 1) * (2 * r + 1))%Q
            | Annulus ri ro => ((2 * ro + 1) * (2 * ro + 1) - (2 * ri + 1) * (2 * ri + 1))%Q
            end;
  center_in a i j := Qeq_bool (box_overlap a i j) 1%Q
}.

(** A 31 x 31 image with one source of 100 at its centre. *)
Definition ex_star_img : image :=
  imap (fun i row => imap (fun j _ => if (i =? 15) && (j =? 15) then 100%Q else 0%Q) row)
       (repeat (repeat 0%Q 31) 31).

(** The same source on a background of 7. *)
Definition ex_sky : image := img_map (fun v => v + 7)%Q ex_star_img.

Lemma local_bkg_removes_flat_background_witness :
  exists res, residual_cell (local_bkg_cell ex_sky [(15, 15)%Q]) = Ok res /\
    Forall2 (fun p r => r == aperture_sum (circ_at p) ex_star_img) [(15, 15)%Q] res.
Proof.
  apply (local_bkg_removes_flat_background ex_sky ex_star_img 7 [(15, 15)%Q]).
  - reflexivity.
  - intros Hc. vm_compute in Hc. discriminate.
  - repeat constructor; vm_compute; reflexivity.
Defined.

Lemma global_bkg_bias_witness :
  Forall2 (fun p row => exists x, aperture_sums row = [x] /\
             x == aperture_sum (circ_at p) ex_star_img + (7 - 3) * area (Circle aperture_radius))
          [(15, 15)%Q] (global_bkg_cell ex_sky 3 [(15, 15)%Q]).
Proof.
  apply (global_bkg_bias ex_sky ex_star_img 7 3 [(15, 15)%Q]).
  - reflexivity.
  - repeat constructor; vm_compute; reflexivity.
Defined.

(** A source with ten times more flux after the local subtraction than
    after the global one is [quite_similar]. *)
Lemma compare_cell_classes_witness :
  compare_cell [100; 10]%Q [10; 200]%Q = Ok ([1], [0]) /\
  exists vd qs, compare_cell [100; 10]%Q [10; 200]%Q = Ok (vd, qs) /\
    (forall k, k ∈ vd <-> exists l g, [100; 10]%Q !! k = Some l /\ [10; 200]%Q !! k = Some g /\
                                    (l * (3 / 2) < g)%Q) /\
    (forall k, k ∈ qs <-> exists l g, [100; 10]%Q !! k = Some l /\ [10; 200]%Q !! k = Some g /\
                                    (g < l * (3 / 2))%Q).
Proof.
  split; [vm_compute; reflexivity|]. apply compare_cell_classes. reflexivity.
Defined.

Lemma stamp_near_edge_empty_witness : stamp (repeat (repeat 0%Q 3) 60) 30 5 = [].
Proof. apply stamp_near_edge_empty; [split; vm_compute; discriminate | cbn; lia]. Defined.

Definition ex_error : Q * Q :=
  ok_or (0, 0)%Q (error_cell (local_bkg_cell ex_sky [(15, 15)%Q]) 0 1 [1; 2; 3]%Q).

Lemma error_estimate_ignores_source_witness :
  error_cell (local_bkg_cell ex_sky [(15, 15)%Q]) 0 1 [1; 2; 3]%Q = Ok ex_error /\
  exists F' e', error_cell (local_bkg_cell (img_zip Qplus ex_sky ex_star_img) [(15, 15)%Q]) 0 1 [1; 2; 3]%Q
                = Ok (F', e') /\ F' == ex_error.1.
Proof.
  split; [vm_compute; reflexivity|].
  apply (error_estimate_ignores_source ex_sky ex_star_img [(15, 15)%Q] 0 (15, 15)%Q 1 [1; 2; 3]%Q
           ex_error.1 ex_error.2).
  - vm_compute. reflexivity.
  - reflexivity.
  - vm_compute. reflexivity.
  - vm_compute. reflexivity.
Defined.

End Aperture.
