(* ===== verification/Psf.v ===== *)
(** The PSF modelling cells of src/notebooks/photutils.ipynb: the radial
    profile of one source (lines 376-390), the choice of the model to fit
    (lines 406-421), the conversion of the fitted parameters into a FWHM
    (lines 440-446) and the check of the fit with its plotting grid
    (lines 464-473).

    The profile cell reads [image], [median] and [isource].  In the
    notebook [image] is then the loop variable of the detection cell
    (line 194, [for image in statistics]), the last row of [statistics],
    and [image - median] on a table row raises [TypeError] (with no row,
    [image] is unbound: [NameError]); [profile_cell] is that.  The loops of
    lines 382-390 are modelled as a function of the values they read
    ([profile_loops]: [bkg_subtracted_image] and [isource], which no cell
    defines), and the later cells as functions of [flux_counts] and
    [pixel_distance]; no theorem claims that the notebook reaches them.
    [bkg_subtracted_image[y][x]] is Python integer indexing twice, negative
    indices counting from the end ([PySlice.py_getitem]).  astropy's fitter, [np.sqrt] and the real
    power [2 ** (1 / alpha)] are the interface [FitLib] (with [PhotLib]'s
    square root): only how the notebook uses them is modelled. *)

From S2P Require Import Prelude PySlice Stats Image Detection.

Module Psf.

Import PySlice Stats Image Detection.
Local Open Scope string_scope.

(** ** The radial profile (lines 376-390) *)

Definition analysis_radius : Z := 10.

Section Profile.
Context `{PhotLib}.

(** [np.linalg.norm((dx, dy))]. *)
Definition norm2 (dx dy : Q) : Q := q_sqrt (sq dx + sq dy)%Q.

(** One iteration of the inner loop: append the normalised pixel value and
    its distance to the centroid. *)
Definition profile_step (bkg : image) (src : source) (x : Z) (acc : list Q * list Q) (y : Z)
    : result (list Q * list Q) :=
  row <- py_getitem bkg y;;
  v <- py_getitem row x;;
  Ok ((acc.1 ++ [v / peak src]%Q)%list,
      (acc.2 ++ [norm2 (xcentroid src - inject_Z x) (ycentroid src - inject_Z y)])%list).

(** Lines 379-380: [bkg_subtracted_image = image - median] with [image]
    the last row of [statistics]: a table row minus a number raises
    [TypeError]; with no row [image] was never bound. *)
Definition profile_cell (statistics : list stat_row) : result image :=
  match last statistics with
  | None => Err (NameError "image")
  | Some _ => Err TypeError
  end.

(** Lines 382-390 on [bkg_subtracted_image] and [isource]:
    [flux_counts] and [pixel_distance]. *)
Definition profile_loops (bkg : image) (src : source) : result (list Q * list Q) :=
  let x_cen := py_int (xcentroid src) in
  let y_cen := py_int (ycentroid src) in
  for_each (fun acc x =>
              for_each (profile_step bkg src x)
                       (py_range (y_cen - analysis_radius) (y_cen + analysis_radius)) acc)
           (py_range (x_cen - analysis_radius) (x_cen + analysis_radius)) ([], []).

End Profile.

(** ** The model and the fit (lines 406-421) *)

Inductive model1d :=
| Gaussian1D (amplitude mean stddev : Q)
| Moffat1D (amplitude x_0 gamma alpha : Q).

Definition same_kind (m1 m2 : model1d) : bool :=
  match m1, m2 with
  | Gaussian1D _ _ _, Gaussian1D _ _ _ | Moffat1D _ _ _ _, Moffat1D _ _ _ _ => true
  | _, _ => false
  end.

(** astropy's [SimplexLSQFitter] and the real power: the fitter returns a
    model of the class of its initial guess and the final value of the
    objective ([fit_info['final_func_val']]). *)
Class FitLib := {
  simplex_fit : model1d -> list Q -> list Q -> model1d * Q;
  simplex_fit_kind : forall m xs ys, same_kind (simplex_fit m xs ys).1 m = true;
  q_rpow : Q -> Q -> Q
}.

Definition unknown_model (model : string) : py_error :=
  Exception ("Unknown model type: " +:+ model +:+ ". Must be gaussian or moffat.").

Definition model_init (model : string) : result model1d :=
  if String.eqb model "gaussian" then Ok (Gaussian1D 1 0 (3 / 2))
  else if String.eqb model "moffat" then Ok (Moffat1D 1 0 2 (7 / 2))
  else Err (unknown_model model).

(** ** The FWHM (lines 440-446) *)

Section Fit.
Context `{PhotLib} `{FitLib}.

(** [fitted_model.stddev] of a Moffat model, or [.gamma] of a Gaussian one,
    raises [AttributeError]. *)
Definition fwhm_conversion (model : string) (fitted : model1d) (pixelscale : Q) : result Q :=
  if String.eqb model "gaussian" then
    match fitted with
    | Gaussian1D _ _ stddev => Ok (2355 / 1000 * stddev * pixelscale)%Q
    | _ => Err AttributeError
    end
  else if String.eqb model "moffat" then
    match fitted with
    | Moffat1D _ _ gamma alpha => Ok (gamma * 2 * q_sqrt (q_rpow 2 (1 / alpha) - 1) * pixelscale)%Q
    | _ => Err AttributeError
    end
  else Err (unknown_model model).

(** ** The check of the fit (lines 464-473) *)

Definition fit_color (final_func_val : Q) : string :=
  if Qltb final_func_val 5 then "green" else "red".

(** [max(l)]: [ValueError] on an empty sequence. *)
Definition py_max (l : list Q) : result Q :=
  match l with
  | [] => Err ValueError
  | x :: l' => Ok (foldl Qmax x l')
  end.

(** [np.linspace(start, stop, num)] with its end point. *)
Definition linspace (start stop : Q) (num : nat) : list Q :=
  match num with
  | 0 => []
  | 1 => [start]
  | S n => (fun i => start + inject_Z (Z.of_nat i) * ((stop - start) / inject_Z (Z.of_nat n)))%Q <$> seq 0 num
  end.

Definition check_cell (final_func_val : Q) (pixel_distance : list Q) : result (string * list Q) :=
  m <- py_max pixel_distance;;
  let k := py_int m in
  Ok (fit_color final_func_val, linspace 0 (inject_Z k) (Z.to_nat (k * 10)%Z)).

(** The fit of the notebook's [model = 'moffat'] to [flux_counts] and
    [pixel_distance], the FWHM and the check, in order. *)
Definition psf_fit_run (flux_counts pixel_distance : list Q) (pixelscale : Q)
    : result (Q * string * list Q) :=
  let model := "moffat" in
  model_init <- model_init model;;
  let '(fitted_model, final_func_val) := simplex_fit model_init pixel_distance flux_counts in
  iFWHM <- fwhm_conversion model fitted_model pixelscale;;
  checked <- check_cell final_func_val pixel_distance;;
  Ok (iFWHM, checked.1, checked.2).

End Fit.

Local Open Scope list_scope.

(** ** The fit and the FWHM *)

Section FitSpec.
Context `{PhotLib} `{FitLib}.

Lemma py_max_Ok l : l <> [] -> exists m, py_max l = Ok m.
Proof. destruct l as [|x l]; [congruence|]. intros _. eexists. reflexivity. Qed.


End FitSpec.

(** ** Examples *)

(** A fitter that returns its initial guess, for the examples. *)
#[export] Program Instance ex_fit_lib : FitLib := {
  simplex_fit m _ _ := (m, 0%Q);
  q_rpow x _ := x
}.
Next Obligation. intros [] _ _; reflexivity. Qed.

(** A 20 x 20 image whose pixel [(i, j)] is [100 i + j], and a source
    at its left edge. *)
Definition ex_grid : image :=
  imap (fun i row => imap (fun j _ => inject_Z (100 * Z.of_nat i + Z.of_nat j)) row)
       (repeat (repeat 0%Q 20) 20).

Definition ex_left : source := mk_source 0 10 0 0 1000 0 0.

Definition ex_profile : list Q * list Q := ok_or ([], []) (profile_loops ex_grid ex_left).


End Psf.
