(* ===== verification/Astrometry.v ===== *)
(** The astrometric calibration cells of src/notebooks/photutils.ipynb:
    the loop that copies the WCS solution of every [*.wcs] file into the
    header of the reduced image of the same name and writes it as a
    [bfa_] file (lines 95-106), and the pixel scale read from the last
    image's WCS (lines 126-129).

    A FITS file is its primary HDU: a header, a list of cards (keyword,
    value of astropy's Python type, comment), and the data.
    [header.extend(other, update=True)] is astropy's [Header.extend] with
    its defaults: a copy of [other] is stripped ([Header.strip] removes the
    first card of [SIMPLE], [BITPIX], [NAXIS], [NAXIS1..n], [EXTEND],
    [PCOUNT], [GCOUNT], the table keywords and so on, reading [NAXIS] and
    [TFIELDS] through [range], which raises [TypeError] on a non-integer);
    then, card by card, a non-commentary keyword the header has updates the
    value and comment of its first card, and every other card is collected,
    except a [COMMENT]/[HISTORY] card whose text the header already holds;
    the collected cards go through [Header.append] (after the last non-blank
    card, a non-commentary card before the trailing commentary cards, one
    trailing blank card dropped; cards are one 80-character image each).
    The file names are computed with [str.replace] as the code does
    ([PyString]); the WCS projection itself is the interface [WcsLib].
    After the loop the code reads [calibrated_name] and [clean_image],
    which only the loop defines: with no [*.wcs] file they are unset and
    [plot(calibrated_name)] raises [NameError]. *)

From S2P Require Import Prelude PyString Stats Image Ccdred Detection.
From stdpp Require Import gmap pretty.
From Stdlib Require Import Ascii.

Module Astrometry.

Import PyString Stats Image Ccdred Detection.
Local Open Scope string_scope.
Local Open Scope list_scope.

(** ** FITS files *)

(** The value of a card, with astropy's Python types: [int], [float],
    [str] and [bool]. *)
Inductive card_value :=
| CInt (z : Z)
| CReal (q : Q)
| CStr (s : string)
| CBool (b : bool).

(** [fits.Card]: keyword, value and comment (keywords are upper case, as
    astropy normalises them). *)
Record card := mk_card { keyword : string; cvalue : card_value; ccomment : string }.

Notation header := (list card).

Record hdu := mk_hdu { hdr : header; hdu_data : image }.

Notation fits_disk := (gmap string hdu).

Definition astrometry_dir : string := "../resources/astrometry".

(** [Card._commentary_keywords]. *)
Definition commentary_keywords : list string := [EmptyString; "COMMENT"; "HISTORY"; "END"].

Definition is_commentary (k : string) : bool := bool_decide (k ∈ commentary_keywords).

(** [Card.is_blank]: empty keyword, value and comment. *)
Definition is_blank (c : card) : bool :=
  bool_decide (keyword c = EmptyString) && bool_decide (ccomment c = EmptyString) &&
  match cvalue c with CStr s => bool_decide (s = EmptyString) | _ => false end.

(** [value == card.value] on two card values. *)
Definition cv_eqb (v w : card_value) : bool :=
  match v, w with
  | CInt a, CInt b => Z.eqb a b
  | CReal a, CReal b => Qeq_bool a b
  | CInt a, CReal b | CReal b, CInt a => Qeq_bool (inject_Z a) b
  | CStr a, CStr b => String.eqb a b
  | CBool a, CBool b => Bool.eqb a b
  | CBool a, CInt b | CInt b, CBool a => Z.eqb (Z.b2z a) b
  | CBool a, CReal b | CReal b, CBool a => Qeq_bool (inject_Z (Z.b2z a)) b
  | _, _ => false
  end.

Definition has_key (k : string) (c : card) : bool := bool_decide (keyword c = k).

(** [header[k]] (and [header.get(k)]): the first card with keyword [k]. *)
Definition hdr_get (k : string) (h : header) : option card := List.find (has_key k) h.

(** [k in header]. *)
Definition hdr_mem (k : string) (h : header) : bool := existsb (has_key k) h.

(** [header[k]] for a commentary keyword: the values of all its cards. *)
Definition hdr_values (k : string) (h : header) : list card_value :=
  map cvalue (List.filter (has_key k) h).

(** [header.remove(k, ignore_missing=True)]: the first card with keyword [k]. *)
Fixpoint hdr_remove (k : string) (h : header) : header :=
  match h with
  | [] => []
  | c :: h' => if has_key k c then h' else c :: hdr_remove k h'
  end.

(** [header[k] = (value, comment)] for a keyword [k] present: the first
    card of [k] takes the value and the comment. *)
Fixpoint hdr_set (k : string) (v : card_value) (com : string) (h : header) : header :=
  match h with
  | [] => []
  | c :: h' => if has_key k c then mk_card (keyword c) v com :: h' else c :: hdr_set k v com h'
  end.

(** [range(header.get(k, 0))]: the count, or [TypeError] for a value that
    is not an integer. *)
Definition range_count (v : option card) : result nat :=
  match cvalue <$> v with
  | None => Ok 0
  | Some (CInt z) => Ok (Z.to_nat z)
  | Some (CBool b) => Ok (if b then 1 else 0)
  | Some _ => Err TypeError
  end.

Definition numbered (name : string) (n : nat) : list string :=
  map (fun i => name +:+ pretty (S i)) (seq 0 n).

(** The keywords [Header.strip] removes, in its order. *)
Definition strip_keys (naxis tfields : nat) : list string :=
  numbered "NAXIS" naxis ++
  concat (map (fun name => numbered name tfields)
    ["TFORM"; "TSCAL"; "TZERO"; "TNULL"; "TTYPE"; "TUNIT"; "TDISP"; "TDIM"; "THEAP"; "TBCOL"]) ++
  ["SIMPLE"; "XTENSION"; "BITPIX"; "NAXIS"; "EXTEND"; "PCOUNT"; "GCOUNT"; "GROUPS"; "THEAP"; "TFIELDS"].

(** The keywords [Header.strip()] removes from [h], read from its [NAXIS]
    and [TFIELDS] before any removal. *)
Definition stripped_keys (h : header) : result (list string) :=
  naxis <- range_count (hdr_get "NAXIS" h);;
  tfields <- range_count (hdr_get "TFIELDS" h);;
  Ok (strip_keys naxis tfields).

(** [Header.strip()]: the first card of each of those keywords goes. *)
Definition hdr_strip (h : header) : result header :=
  ks <- stripped_keys h;;
  Ok (foldl (fun h k => hdr_remove k h) h ks).

(** The number of leading elements satisfying [p]. *)
Fixpoint count_while {A} (p : A -> bool) (l : list A) : nat :=
  match l with
  | [] => 0
  | x :: l' => if p x then S (count_while p l') else 0
  end.

(** [Header._countblanks()]: [for idx in range(1, len(h)): if not
    h[-idx].is_blank: return idx - 1], else 0. *)
Definition countblanks (h : header) : nat :=
  let n := count_while is_blank (take (length h - 1) (rev h)) in
  if decide (n < length h - 1) then n else 0.

(** [Header._useblanks(1)]: drop a blank last card. *)
Definition useblanks (h : header) : header :=
  match last h with
  | Some c => if is_blank c then removelast h else h
  | None => h
  end.

(** [header.append(card)] (useblanks=True, bottom=False, end=False): a
    blank card goes to the end; any other card is inserted after the last
    non-blank card, and a non-commentary card also before the commentary
    cards that end the header; one trailing blank card then makes room
    for it (a card is one 80-character image). *)
Definition hdr_append (h : header) (c : card) : header :=
  if is_blank c then h ++ [c] else
  let r := rev h in
  let n1 := count_while is_blank r in
  let n2 := if is_commentary (keyword c) then 0
            else count_while (fun d => is_commentary (keyword d)) (drop n1 r) in
  let idx := length h - n1 - n2 in
  let h' := take idx h ++ c :: drop idx h in
  if decide (0 < countblanks h') then useblanks h' else h'.

(** One card of the loop of [extend(other, update=True)]: the header [self]
    and the cards [extend_cards] still to append. *)
Definition extend_step (st : header * list card) (c : card) : header * list card :=
  let k := keyword c in
  if negb (is_commentary k) then
    if hdr_mem k st.1 then (hdr_set k (cvalue c) (ccomment c) st.1, st.2)
    else (st.1, st.2 ++ [c])
  else if hdr_mem k st.1 then
    if is_blank c then (st.1, st.2 ++ [c])
    else if existsb (fun v => cv_eqb v (cvalue c)) (hdr_values k st.1) then st
    else (st.1, st.2 ++ [c])
  else (st.1, st.2 ++ [c]).

(** [header.extend(other, update=True)] (strip=True, unique=False): strip
    a copy of [other], update or collect card by card, then append the
    collected cards. *)
Definition header_extend (h other : header) : result header :=
  temp <- hdr_strip other;;
  let st := foldl extend_step (h, []) temp in
  Ok (foldl hdr_append st.1 st.2).

(** [fits.open(p)[0]]. *)
Definition fits_open (fd : fits_disk) (p : string) : result hdu :=
  match fd !! p with
  | Some h => Ok h
  | None => Err FileNotFoundError
  end.

(** The non-commentary keywords of a header, in order. *)
Definition nc_keys (h : header) : list string :=
  List.filter (fun k => negb (is_commentary k)) (map keyword h).

(** The FITS standard's integer keywords [NAXIS] and [TFIELDS] hold
    integers (astropy reads [T]/[F] as [bool], which [range] accepts). *)
Definition int_card (c : card) : bool :=
  negb (bool_decide (keyword c ∈ ["NAXIS"; "TFIELDS"])) ||
  match cvalue c with CInt _ | CBool _ => true | _ => false end.

Definition int_counts (h : header) : Prop := Forall (fun c => int_card c = true) h.

(** ** The calibration loop (lines 95-106) *)

(** [os.path.join('..', 'resources', 'red_data', basename)] with
    [basename = os.path.basename(wcs_calib).replace('wcs', 'fit')]. *)
Definition clean_name_of (wcs_calib : string) : string :=
  path_join red_data_dir (str_replace "wcs" "fit" (basename wcs_calib)).

(** [clean_name.replace('bf_', 'bfa_')]. *)
Definition calibrated_name_of (wcs_calib : string) : string :=
  str_replace "bf_" "bfa_" (clean_name_of wcs_calib).

Section Calibrate.
Context `{DirOrder}.

(** [glob(os.path.join('..', 'resources', 'astrometry', '*.wcs'))]. *)
Definition wcs_glob (fd : fits_disk) : list string :=
  dir_order (List.filter (fun p => glob_match astrometry_dir "" p && ends_with ".wcs" p)
                         (elements (dom fd))).

(** One iteration; the state is the files and the values of
    [calibrated_name] and [clean_image] the loop leaves. *)
Definition calib_step (st : fits_disk * option (string * hdu)) (wcs_calib : string)
    : result (fits_disk * option (string * hdu)) :=
  wcs_header <- fits_open st.1 wcs_calib;;
  clean_image <- fits_open st.1 (clean_name_of wcs_calib);;
  h <- header_extend (hdr clean_image) (hdr wcs_header);;
  let img := mk_hdu h (hdu_data clean_image) in
  Ok (<[calibrated_name_of wcs_calib := img]> st.1, Some (calibrated_name_of wcs_calib, img)).

(** The loop and [plot(calibrated_name)], which opens the file. *)
Definition astrometry_cell (fd : fits_disk) : result (fits_disk * hdu) :=
  st <- for_each calib_step (wcs_glob fd) (fd, None);;
  match st.2 with
  | None => Err (NameError "calibrated_name")
  | Some (calibrated_name, clean_image) =>
      _ <- fits_open st.1 calibrated_name;;
      Ok (st.1, clean_image)
  end.

End Calibrate.

(** ** The pixel scale (lines 126-129) *)

(** [wcs.utils.proj_plane_pixel_scales(wcs.WCS(header))], in degrees. *)
Class WcsLib := { pixel_scales : header -> list Q }.

(** [np.mean(pixel_scaling).to(u.arcsec)] of [clean_image]'s WCS; the
    mean of no scale is nan, [None]. *)
Definition pixel_scale_cell `{WcsLib} (clean_image : option hdu) : result (option Q) :=
  match clean_image with
  | None => Err (NameError "clean_image")
  | Some img => Ok ((fun m => m * 3600)%Q <$> np_mean (pixel_scales (hdr img)))
  end.

Definition astrometry_run `{DirOrder} `{WcsLib} (fd : fits_disk) : result (fits_disk * option Q) :=
  r <- astrometry_cell fd;;
  scale <- pixel_scale_cell (Some r.2);;
  Ok (r.1, scale).

(** ** Headers *)

Lemma find_filter_hd {A} (p : A -> bool) l : List.find p l = hd_error (List.filter p l).
Proof. induction l as [|x l IH]; [reflexivity|]. cbn. destruct (p x); [reflexivity | exact IH]. Qed.

Lemma hdr_mem_filter k h : hdr_mem k h = false <-> List.filter (has_key k) h = [].
Proof.
  unfold hdr_mem. induction h as [|c h IH]; [tauto|]. cbn. destruct (has_key k c); [|exact IH].
  split; discriminate.
Qed.

Lemma filter_Forall_false {A} (p : A -> bool) l :
  Forall (fun x => p x = false) l -> List.filter p l = [].
Proof. induction 1 as [|x l Hx _ IH]; cbn; [reflexivity|]. rewrite Hx. exact IH. Qed.

Lemma count_while_le {A} (p : A -> bool) l : count_while p l <= length l.
Proof. induction l as [|x l IH]; cbn; [lia|]. destruct (p x); cbn; lia. Qed.

Lemma count_while_Forall {A} (p : A -> bool) l : Forall (fun x => p x = true) (take (count_while p l) l).
Proof.
  induction l as [|x l IH]; cbn; [constructor|].
  destruct (p x) eqn:E; cbn; constructor; assumption.
Qed.

Lemma drop_rev_take {A} (l : list A) m :
  m <= length l -> drop (length l - m) l = rev (take m (rev l)).
Proof.
  intros Hm. rewrite <- (take_drop (length l - m) l) at 3. rewrite rev_app_distr.
  rewrite take_app_length'; [rewrite rev_involutive; reflexivity|].
  rewrite length_rev, length_drop. lia.
Qed.

Lemma filter_removelast_blank k l c :
  k <> EmptyString -> last l = Some c -> is_blank c = true ->
  List.filter (has_key k) (removelast l) = List.filter (has_key k) l.
Proof.
  intros Hk Hl Hb. apply last_Some in Hl as [l' ->]. rewrite removelast_last, List.filter_app.
  cbn. unfold is_blank in Hb. apply andb_prop in Hb as [Hb _]. apply andb_prop in Hb as [Hb _].
  apply bool_decide_eq_true in Hb. unfold has_key. rewrite bool_decide_false by congruence.
  rewrite app_nil_r. reflexivity.
Qed.

(** The cards after the insertion point of [header.append(c)]: blank
    cards, or commentary cards when [c] is not one. *)
Lemma append_tail_cards h c :
  let r := rev h in
  let n1 := count_while is_blank r in
  let n2 := if is_commentary (keyword c) then 0
            else count_while (fun d => is_commentary (keyword d)) (drop n1 r) in
  Forall (fun d => is_blank d = true \/ (is_commentary (keyword c) = false /\ is_commentary (keyword d) = true))
    (drop (length h - n1 - n2) h).
Proof.
  intros r n1 n2.
  assert (Hn1 : n1 <= length r) by apply count_while_le.
  assert (Hn2 : n2 <= length (drop n1 r)) by (unfold n2; destruct (is_commentary _); [lia | apply count_while_le]).
  rewrite length_drop in Hn2. unfold r in *. rewrite length_rev in *.
  replace (length h - n1 - n2) with (length h - (n1 + n2)) by lia.
  rewrite drop_rev_take by lia. apply Forall_rev. rewrite <- take_take_drop. apply Forall_app. split.
  - eapply Forall_impl; [apply count_while_Forall | intros d Hd; left; exact Hd].
  - unfold n2. destruct (is_commentary (keyword c)) eqn:E; [rewrite take_0; constructor|].
    eapply Forall_impl; [apply count_while_Forall | intros d Hd; right; split; [reflexivity | exact Hd]].
Qed.

(** [header.append(c)] adds [c] after every card of a keyword other than
    the blank one. *)
Lemma hdr_append_filter k h c :
  k <> EmptyString ->
  List.filter (has_key k) (hdr_append h c) =
  List.filter (has_key k) h ++ (if has_key k c then [c] else []).
Proof.
  intros Hk. unfold hdr_append.
  assert (Hkc : is_blank c = true -> has_key k c = false).
  { unfold is_blank, has_key. intros Hb. apply andb_prop in Hb as [Hb _]. apply andb_prop in Hb as [Hb _].
    apply bool_decide_eq_true in Hb. apply bool_decide_false. congruence. }
  destruct (is_blank c) eqn:Eb.
  { rewrite List.filter_app. cbn. rewrite (Hkc eq_refl). reflexivity. }
  pose proof (append_tail_cards h c) as Htail. cbn zeta in Htail |- *.
  set (idx := length h - _ - _) in Htail |- *.
  assert (Hfilt : List.filter (has_key k) (take idx h ++ c :: drop idx h) =
                  List.filter (has_key k) h ++ (if has_key k c then [c] else [])).
  { assert (Hh : List.filter (has_key k) h =
      List.filter (has_key k) (take idx h) ++ List.filter (has_key k) (drop idx h))
      by (rewrite <- List.filter_app, take_drop; reflexivity).
    rewrite Hh, !List.filter_app. cbn.
    destruct (has_key k c) eqn:Ec; [|rewrite app_nil_r; reflexivity].
    replace (List.filter (has_key k) (drop idx h)) with (@nil card); [rewrite app_nil_r; reflexivity|].
    symmetry. apply filter_Forall_false.
    eapply Forall_impl; [exact Htail|]. cbn. intros d Hd.
    unfold has_key in Ec |- *. apply bool_decide_eq_true in Ec.
    apply bool_decide_false. intros Hdk. subst k.
    destruct Hd as [Hd | [Hc Hd]].
    - unfold is_blank in Hd. apply andb_prop in Hd as [Hd _]. apply andb_prop in Hd as [Hd _].
      apply bool_decide_eq_true in Hd. congruence.
    - rewrite Hdk, Hc in Hd. discriminate. }
  destruct (decide _); [|exact Hfilt].
  unfold useblanks. destruct (last _) as [d|] eqn:El; [|exact Hfilt].
  destruct (is_blank d) eqn:Ed; [|exact Hfilt].
  rewrite (filter_removelast_blank k _ d Hk El Ed). exact Hfilt.
Qed.

Lemma hdr_get_filter k h : hdr_get k h = hd_error (List.filter (has_key k) h).
Proof. apply find_filter_hd. Qed.

Lemma has_key_eq k c : has_key k c = true <-> keyword c = k.
Proof. unfold has_key. apply bool_decide_eq_true. Qed.

Lemma has_key_ne k c : has_key k c = false <-> keyword c <> k.
Proof. unfold has_key. apply bool_decide_eq_false. Qed.

(** Removing the first card of [k'] removes the first of the cards of [k]
    when [k = k'] and no card of [k] otherwise. *)
Lemma filter_hdr_remove k k' h :
  List.filter (has_key k) (hdr_remove k' h) =
  if bool_decide (k = k') then tail (List.filter (has_key k) h) else List.filter (has_key k) h.
Proof.
  induction h as [|c h IH]; cbn; [case_bool_decide; reflexivity|].
  destruct (has_key k' c) eqn:E'; cbn.
  - apply has_key_eq in E'. case_bool_decide as Hk.
    + subst. rewrite (proj2 (has_key_eq _ c) eq_refl). reflexivity.
    + rewrite (proj2 (has_key_ne k c)) by congruence. reflexivity.
  - rewrite IH. apply has_key_ne in E'. case_bool_decide as Hk.
    + subst. rewrite (proj2 (has_key_ne k' c) E'). reflexivity.
    + destruct (has_key k c); reflexivity.
Qed.

(** The removals of [Header.strip] on a header with at most one card of
    [k]: none is left exactly when [k] is stripped. *)
Lemma filter_strip_fold k h ks :
  length (List.filter (has_key k) h) <= 1 ->
  List.filter (has_key k) (foldl (fun h k => hdr_remove k h) h ks) =
  if bool_decide (k ∈ ks) then [] else List.filter (has_key k) h.
Proof.
  revert h. induction ks as [|k' ks IH]; intros h Hle; cbn [foldl].
  - rewrite bool_decide_false by apply not_elem_of_nil. reflexivity.
  - assert (Hle' : length (List.filter (has_key k) (hdr_remove k' h)) <= 1).
    { rewrite filter_hdr_remove. destruct (bool_decide (k = k')); [|exact Hle].
      destruct (List.filter _ h) as [|? [|]]; cbn in *; lia. }
    rewrite (IH _ Hle'), filter_hdr_remove.
    destruct (decide (k = k')) as [->|Hk].
    + rewrite (bool_decide_true (k' = k')) by reflexivity.
      rewrite (bool_decide_true (k' ∈ k' :: ks)) by apply list_elem_of_here.
      destruct (bool_decide (k' ∈ ks)); [reflexivity|].
      destruct (List.filter _ h) as [|? [|]]; cbn in *; [reflexivity | reflexivity | lia].
    + rewrite (bool_decide_false (k = k')) by exact Hk.
      replace (bool_decide (k ∈ k' :: ks)) with (bool_decide (k ∈ ks)); [reflexivity|].
      apply bool_decide_ext. rewrite elem_of_cons. intuition congruence.
Qed.

Lemma hdr_mem_set k k' v com h : hdr_mem k (hdr_set k' v com h) = hdr_mem k h.
Proof.
  unfold hdr_mem. induction h as [|c h IH]; [reflexivity|]. cbn [hdr_set].
  destruct (has_key k' c); cbn [existsb]; [reflexivity|]. rewrite IH. reflexivity.
Qed.

Lemma filter_hdr_set_ne k k' v com h :
  k <> k' -> List.filter (has_key k) (hdr_set k' v com h) = List.filter (has_key k) h.
Proof.
  intros Hk. induction h as [|c h IH]; [reflexivity|]. cbn.
  destruct (has_key k' c) eqn:E; cbn.
  - apply has_key_eq in E. change (has_key k (mk_card (keyword c) v com)) with (has_key k c).
    rewrite (proj2 (has_key_ne k c)) by congruence. reflexivity.
  - rewrite IH. reflexivity.
Qed.

Lemma hdr_get_set k v com h :
  hdr_mem k h = true -> hdr_get k (hdr_set k v com h) = Some (mk_card k v com).
Proof.
  induction h as [|c h IH]; [discriminate|]. cbn. destruct (has_key k c) eqn:E; cbn.
  - apply has_key_eq in E as <-. unfold has_key. cbn. rewrite bool_decide_true by reflexivity.
    reflexivity.
  - intros Hm. rewrite E. exact (IH Hm).
Qed.

(** The loop of [extend] never changes which keywords the header has. *)
Lemma extend_fold_mem k temp st : hdr_mem k (foldl extend_step st temp).1 = hdr_mem k st.1.
Proof.
  revert st. induction temp as [|c temp IH]; intros st; [reflexivity|]. cbn [foldl].
  rewrite IH. destruct st as [s p]. unfold extend_step. cbn [fst snd].
  repeat match goal with |- context [if ?b then _ else _] => destruct b end;
    cbn [fst snd]; rewrite ?hdr_mem_set; reflexivity.
Qed.

(** It only updates non-commentary cards. *)
Lemma extend_fold_commentary k temp st :
  is_commentary k = true ->
  List.filter (has_key k) (foldl extend_step st temp).1 = List.filter (has_key k) st.1.
Proof.
  intros Hk. revert st. induction temp as [|c temp IH]; intros st; [reflexivity|]. cbn [foldl].
  rewrite IH. destruct st as [s p]. unfold extend_step. cbn [fst snd].
  destruct (is_commentary (keyword c)) eqn:Ec; cbn [negb];
    [repeat match goal with |- context [if ?b then _ else _] => destruct b end; reflexivity|].
  destruct (hdr_mem _ s); [|reflexivity].
  apply filter_hdr_set_ne. intros ->. congruence.
Qed.

(** The cards of a keyword the loop does not meet are left alone. *)
Lemma extend_fold_absent k temp st :
  Forall (fun c => has_key k c = false) temp ->
  List.filter (has_key k) (foldl extend_step st temp).1 = List.filter (has_key k) st.1 /\
  List.filter (has_key k) (foldl extend_step st temp).2 = List.filter (has_key k) st.2.
Proof.
  intros Hall. revert st. induction Hall as [|c temp Hc _ IH]; intros st; [split; reflexivity|].
  cbn [foldl]. rewrite !(proj1 (IH _)), !(proj2 (IH _)).
  apply has_key_ne in Hc. destruct st as [s p]. unfold extend_step. cbn [fst snd].
  repeat match goal with |- context [if ?b then _ else _] => destruct b end;
    cbn [fst snd]; rewrite ?List.filter_app; cbn;
    rewrite ?(proj2 (has_key_ne k c) Hc), ?app_nil_r;
    split; try reflexivity; apply filter_hdr_set_ne; congruence.
Qed.

Lemma hdr_mem_filter_eq k a b :
  List.filter (has_key k) a = List.filter (has_key k) b -> hdr_mem k a = hdr_mem k b.
Proof.
  intros Hab. destruct (hdr_mem k b) eqn:Eb.
  - destruct (hdr_mem k a) eqn:Ea; [reflexivity|].
    apply hdr_mem_filter in Ea. rewrite Hab in Ea. apply hdr_mem_filter in Ea. congruence.
  - apply hdr_mem_filter. rewrite Hab. apply hdr_mem_filter, Eb.
Qed.

Lemma filter_nil_Forall {A} (p : A -> bool) l :
  List.filter p l = [] -> Forall (fun x => p x = false) l.
Proof.
  induction l as [|x l IH]; cbn; [constructor|]. destruct (p x) eqn:E; [discriminate|].
  intros Hl. constructor; [exact E | exact (IH Hl)].
Qed.

Lemma extend_step_absent k c st :
  has_key k c = false ->
  List.filter (has_key k) (extend_step st c).1 = List.filter (has_key k) st.1 /\
  List.filter (has_key k) (extend_step st c).2 = List.filter (has_key k) st.2.
Proof. intros Hc. exact (extend_fold_absent k [c] st (Forall_cons_2 _ _ _ Hc (Forall_nil_2 _))). Qed.

(** A non-commentary keyword the header has: its first card takes the
    value and comment of the (only) card of [temp] with that keyword. *)
Lemma extend_fold_nc_present k temp st :
  is_commentary k = false -> hdr_mem k st.1 = true ->
  length (List.filter (has_key k) temp) <= 1 ->
  hdr_get k (foldl extend_step st temp).1 =
    match hdr_get k temp with Some c => Some c | None => hdr_get k st.1 end /\
  List.filter (has_key k) (foldl extend_step st temp).2 = List.filter (has_key k) st.2.
Proof.
  intros Hk. revert st. induction temp as [|c temp IH]; intros st Hm Hle; [split; reflexivity|].
  cbn [foldl]. cbn [List.filter length] in Hle. unfold hdr_get at 2. cbn [List.find].
  destruct (has_key k c) eqn:Ec.
  - cbn [length] in Hle.
    assert (Hnil : List.filter (has_key k) temp = []) by (destruct (List.filter _ temp); [reflexivity | cbn in Hle; lia]).
    destruct (extend_fold_absent k temp (extend_step st c) (filter_nil_Forall _ _ Hnil)) as [H1 H2].
    rewrite !hdr_get_filter, H1, H2. apply has_key_eq in Ec.
    destruct st as [s p]. unfold extend_step. cbn [fst snd] in *.
    rewrite Ec, Hk, Hm. cbn [negb fst snd]. split; [|reflexivity].
    rewrite <- hdr_get_filter, hdr_get_set by exact Hm. destruct c. cbn in Ec. subst. reflexivity.
  - destruct (extend_step_absent k c st Ec) as [H1 H2].
    destruct (IH (extend_step st c)) as [IH1 IH2];
      [rewrite (hdr_mem_filter_eq _ _ _ H1); exact Hm | exact Hle|].
    rewrite IH1, IH2, H2, !(hdr_get_filter k (extend_step st c).1), H1, <- hdr_get_filter.
    split; reflexivity.
Qed.

(** A non-commentary keyword the header lacks: every card of it is
    collected for appending. *)
Lemma extend_fold_nc_absent k temp st :
  is_commentary k = false -> hdr_mem k st.1 = false ->
  List.filter (has_key k) (foldl extend_step st temp).1 = List.filter (has_key k) st.1 /\
  List.filter (has_key k) (foldl extend_step st temp).2 =
    List.filter (has_key k) st.2 ++ List.filter (has_key k) temp.
Proof.
  intros Hk. revert st. induction temp as [|c temp IH]; intros st Hm;
    [rewrite app_nil_r; split; reflexivity|].
  cbn [foldl List.filter]. destruct (has_key k c) eqn:Ec.
  - apply has_key_eq in Ec as Ec'. destruct st as [s p]. cbn [fst snd] in Hm.
    assert (Hst : extend_step (s, p) c = (s, p ++ [c]))
      by (unfold extend_step; cbn [fst snd]; rewrite Ec', Hk, Hm; reflexivity).
    rewrite Hst. destruct (IH (s, p ++ [c]) Hm) as [IH1 IH2]. rewrite IH1, IH2.
    cbn [fst snd]. rewrite List.filter_app. cbn. rewrite Ec, <- app_assoc. split; reflexivity.
  - destruct (extend_step_absent k c st Ec) as [H1 H2].
    destruct (IH (extend_step st c)) as [IH1 IH2]; [rewrite (hdr_mem_filter_eq _ _ _ H1); exact Hm|].
    rewrite IH1, IH2, H1, H2. split; reflexivity.
Qed.

(** A commentary keyword other than the blank one: a card of it is
    collected unless the header already has a card of it with an equal
    value. *)
Lemma extend_fold_commentary_pending k temp st :
  is_commentary k = true -> k <> EmptyString ->
  List.filter (has_key k) (foldl extend_step st temp).2 =
  List.filter (has_key k) st.2 ++
  List.filter (fun c => has_key k c &&
    (negb (hdr_mem k st.1) || negb (existsb (fun v => cv_eqb v (cvalue c)) (hdr_values k st.1)))) temp.
Proof.
  intros Hk Hne. revert st. induction temp as [|c temp IH]; intros st; [rewrite app_nil_r; reflexivity|].
  cbn [foldl List.filter]. destruct (has_key k c) eqn:Ec; cbn [andb].
  - apply has_key_eq in Ec as Ec'. destruct st as [s p]. cbn [fst snd].
    assert (Hb : is_blank c = false).
    { unfold is_blank. rewrite Ec', bool_decide_false by exact Hne. reflexivity. }
    assert (Hst : extend_step (s, p) c =
      if negb (hdr_mem k s) || negb (existsb (fun v => cv_eqb v (cvalue c)) (hdr_values k s))
      then (s, p ++ [c]) else (s, p)).
    { unfold extend_step. cbn [fst snd]. rewrite Ec', Hk, Hb. cbn [negb].
      destruct (hdr_mem k s), (existsb _ _); reflexivity. }
    rewrite Hst. destruct (_ || _); rewrite IH; cbn [fst snd];
      rewrite ?List.filter_app; cbn; rewrite ?Ec, <- ?app_assoc; reflexivity.
  - destruct (extend_step_absent k c st Ec) as [H1 H2]. rewrite IH, H2.
    assert (Hv : hdr_values k (extend_step st c).1 = hdr_values k st.1) by (unfold hdr_values; rewrite H1; reflexivity).
    rewrite Hv, (hdr_mem_filter_eq _ _ _ H1). reflexivity.
Qed.

(** Appending cards one by one puts them after every card of their
    keyword. *)
Lemma hdr_append_fold_filter k s pend :
  k <> EmptyString ->
  List.filter (has_key k) (foldl hdr_append s pend) =
  List.filter (has_key k) s ++ List.filter (has_key k) pend.
Proof.
  intros Hk. revert s. induction pend as [|c pend IH]; intros s; cbn [foldl List.filter];
    [rewrite app_nil_r; reflexivity|].
  rewrite IH, hdr_append_filter by exact Hk. destruct (has_key k c); rewrite <- ?app_assoc; reflexivity.
Qed.

Lemma filter_strip_fold_notin k h ks :
  k ∉ ks -> List.filter (has_key k) (foldl (fun h k => hdr_remove k h) h ks) = List.filter (has_key k) h.
Proof.
  revert h. induction ks as [|k' ks IH]; intros h Hk; [reflexivity|]. cbn [foldl].
  apply not_elem_of_cons in Hk as [Hk Hks]. rewrite IH, filter_hdr_remove by exact Hks.
  rewrite bool_decide_false by exact Hk. reflexivity.
Qed.

Lemma in_nc_keys k h :
  is_commentary k = false -> List.filter (has_key k) h <> [] -> k ∈ nc_keys h.
Proof.
  intros Hk. induction h as [|c h IH]; cbn; [congruence|]. unfold nc_keys. cbn [map List.filter].
  destruct (has_key k c) eqn:Ec.
  - apply has_key_eq in Ec as ->. rewrite Hk. intros _. apply list_elem_of_here.
  - intros Hne. specialize (IH Hne). destruct (negb _); [apply elem_of_cons; right|]; exact IH.
Qed.

Lemma nc_keys_count k h :
  NoDup (nc_keys h) -> is_commentary k = false -> length (List.filter (has_key k) h) <= 1.
Proof.
  intros Hnd Hk. induction h as [|c h IH]; cbn; [lia|]. unfold nc_keys in Hnd. cbn [map List.filter] in Hnd.
  destruct (has_key k c) eqn:Ec.
  - apply has_key_eq in Ec as Ec'. rewrite Ec', Hk in Hnd. cbn [negb] in Hnd.
    apply NoDup_cons in Hnd as [Hnin _].
    destruct (List.filter (has_key k) h) eqn:Ef; [cbn; lia|].
    exfalso. apply Hnin, in_nc_keys; [exact Hk | rewrite Ef; discriminate].
  - apply IH. destruct (negb _); [apply NoDup_cons in Hnd as [_ Hnd]|]; exact Hnd.
Qed.

Lemma is_commentary_N r : is_commentary (String "N"%char r) = false.
Proof.
  apply bool_decide_eq_false. unfold commentary_keywords. rewrite !elem_of_cons, elem_of_nil.
  intros H. repeat destruct H as [H|H]; discriminate || exact H.
Qed.

Lemma is_commentary_T r : is_commentary (String "T"%char r) = false.
Proof.
  apply bool_decide_eq_false. unfold commentary_keywords. rewrite !elem_of_cons, elem_of_nil.
  intros H. repeat destruct H as [H|H]; discriminate || exact H.
Qed.

(** [Header.strip] removes no commentary keyword. *)
Lemma strip_keys_nc a b x : x ∈ strip_keys a b -> is_commentary x = false.
Proof.
  unfold strip_keys, numbered. rewrite !elem_of_app. intros [Hx | [Hx | Hx]].
  - apply Prelude.elem_of_map in Hx as (i & -> & _). apply is_commentary_N.
  - apply elem_of_concat in Hx as (l & Hx & Hl). apply Prelude.elem_of_map in Hl as (name & -> & Hname).
    apply Prelude.elem_of_map in Hx as (i & -> & _). apply list_elem_of_In in Hname.
    repeat destruct Hname as [<-|Hname]; try apply is_commentary_T. contradiction.
  - apply list_elem_of_In in Hx. repeat destruct Hx as [<-|Hx]; try reflexivity. contradiction.
Qed.

Lemma header_extend_Ok h other h' :
  header_extend h other = Ok h' ->
  exists ks, stripped_keys other = Ok ks /\
    let st := foldl extend_step (h, []) (foldl (fun h k => hdr_remove k h) other ks) in
    h' = foldl hdr_append st.1 st.2.
Proof.
  unfold header_extend, hdr_strip. destruct (stripped_keys other) as [ks|e]; cbn [bind]; [|discriminate].
  intros [= <-]. eauto.
Qed.

(** (C7) [header.extend(wcs_header, update=True)] as astropy runs it (a
    stripped copy, then update or append card by card), read back with
    [header[k]] for a non-commentary keyword, when the WCS header repeats
    no such keyword: a keyword [Header.strip] removes (the WCS file's
    [SIMPLE], [BITPIX], [NAXIS], [NAXISn], [EXTEND], ...) keeps the image's
    card; any other keyword of the WCS header reads the WCS card; the rest
    keep the image's card. *)
Theorem header_extend_get h other h' ks k :
  header_extend h other = Ok h' -> stripped_keys other = Ok ks ->
  NoDup (nc_keys other) -> is_commentary k = false ->
  hdr_get k h' =
  if bool_decide (k ∈ ks) then hdr_get k h
  else match hdr_get k other with Some c => Some c | None => hdr_get k h end.
Proof.
  intros He Hks Hnd Hk. destruct (header_extend_Ok _ _ _ He) as (ks' & Hks' & ->).
  rewrite Hks in Hks'. injection Hks' as <-. cbn zeta.
  set (temp := foldl (fun h k => hdr_remove k h) other ks).
  assert (Hk0 : k <> EmptyString) by (intros ->; discriminate Hk).
  assert (Hle := nc_keys_count k other Hnd Hk).
  assert (Ht : hdr_get k temp = if bool_decide (k ∈ ks) then None else hdr_get k other).
  { unfold temp. rewrite !hdr_get_filter, filter_strip_fold by exact Hle. case_bool_decide; reflexivity. }
  assert (Hlt : length (List.filter (has_key k) temp) <= 1).
  { unfold temp. rewrite filter_strip_fold by exact Hle. case_bool_decide; cbn; lia. }
  rewrite hdr_get_filter, hdr_append_fold_filter by exact Hk0.
  destruct (hdr_mem k h) eqn:Hm.
  - destruct (extend_fold_nc_present k temp (h, []) Hk Hm Hlt) as [H1 H2].
    rewrite H2. cbn [List.filter snd]. rewrite app_nil_r, <- hdr_get_filter, H1, Ht.
    case_bool_decide; reflexivity.
  - destruct (extend_fold_nc_absent k temp (h, []) Hk Hm) as [H1 H2].
    rewrite H1, H2. cbn [fst snd List.filter app].
    assert (Hh : List.filter (has_key k) h = []) by (apply hdr_mem_filter, Hm).
    rewrite Hh. cbn [app]. rewrite <- hdr_get_filter, Ht, (hdr_get_filter k h), Hh.
    cbn [hd_error]. case_bool_decide; [reflexivity|]. destruct (hdr_get k other); reflexivity.
Qed.

Lemma map_cvalue_filter k (q : card_value -> bool) (l : header) :
  map cvalue (List.filter (fun c => has_key k c && q (cvalue c)) l) =
  List.filter q (map cvalue (List.filter (has_key k) l)).
Proof.
  induction l as [|c l IH]; [reflexivity|]. cbn.
  destruct (has_key k c); cbn; [destruct (q (cvalue c)); cbn; rewrite IH; reflexivity | exact IH].
Qed.

(** (C8) [header.extend(wcs_header, update=True)] on the [COMMENT] and
    [HISTORY] cards: the image's cards stay, in order, and are followed by
    those of the WCS header, except, when the image already has cards of
    that keyword, the WCS cards whose text one of them already holds. *)
Theorem header_extend_commentary h other h' k :
  header_extend h other = Ok h' -> is_commentary k = true -> k <> EmptyString ->
  hdr_values k h' =
  hdr_values k h ++
  (if hdr_mem k h
   then List.filter (fun v => negb (existsb (fun w => cv_eqb w v) (hdr_values k h))) (hdr_values k other)
   else hdr_values k other).
Proof.
  intros He Hk Hne. destruct (header_extend_Ok _ _ _ He) as (ks & Hks & ->). cbn zeta.
  set (temp := foldl (fun h k => hdr_remove k h) other ks).
  assert (Ht : List.filter (has_key k) temp = List.filter (has_key k) other).
  { apply filter_strip_fold_notin. intros Hin. unfold stripped_keys in Hks.
    destruct (range_count _); cbn [bind] in Hks; [|discriminate].
    destruct (range_count _); cbn [bind] in Hks; [|discriminate].
    injection Hks as <-. rewrite (strip_keys_nc _ _ _ Hin) in Hk. discriminate. }
  unfold hdr_values at 1. rewrite hdr_append_fold_filter by exact Hne.
  rewrite extend_fold_commentary by exact Hk.
  rewrite extend_fold_commentary_pending by assumption. cbn [fst snd List.filter app].
  rewrite List.map_app. f_equal.
  destruct (hdr_mem k h); cbn [negb orb].
  - rewrite (map_cvalue_filter k (fun x => negb (existsb (fun v => cv_eqb v x) (hdr_values k h)))), Ht.
    reflexivity.
  - rewrite (List.filter_ext _ (has_key k)) by (intros c; apply andb_true_r).
    rewrite Ht. reflexivity.
Qed.

(** ** Integer counts *)

Lemma range_count_ok k h :
  k ∈ ["NAXIS"; "TFIELDS"] -> int_counts h -> exists n, range_count (hdr_get k h) = Ok n.
Proof.
  intros Hk Hh. unfold range_count. destruct (hdr_get k h) as [d|] eqn:E; [|eauto].
  apply find_some in E as [Hin Hd]. apply has_key_eq in Hd.
  unfold int_counts in Hh. rewrite Forall_forall in Hh. specialize (Hh d (proj2 (list_elem_of_In _ _) Hin)).
  unfold int_card in Hh. rewrite bool_decide_true in Hh by (rewrite Hd; exact Hk).
  cbn in Hh |- *. destruct (cvalue d); try discriminate; eauto.
Qed.

Lemma header_extend_total h other :
  int_counts other -> exists h', header_extend h other = Ok h'.
Proof.
  intros Ho. unfold header_extend, hdr_strip, stripped_keys.
  destruct (range_count_ok "NAXIS" other) as [n1 ->]; [apply list_elem_of_here | exact Ho|].
  destruct (range_count_ok "TFIELDS" other) as [n2 ->];
    [apply elem_of_cons; right; apply list_elem_of_here | exact Ho|].
  cbn [bind]. eauto.
Qed.

Lemma header_extend_Err h other e : header_extend h other = Err e -> e = TypeError.
Proof.
  unfold header_extend, hdr_strip, stripped_keys, range_count.
  destruct (cvalue <$> hdr_get "NAXIS" other) as [[]|]; cbn [bind]; try congruence;
    destruct (cvalue <$> hdr_get "TFIELDS" other) as [[]|]; cbn [bind]; congruence.
Qed.

Section Preserve.
Variable P : card -> Prop.

Lemma Forall_hdr_remove k h : Forall P h -> Forall P (hdr_remove k h).
Proof.
  induction 1 as [|c h Hc Hh IH]; cbn; [constructor|]. destruct (has_key k c); [exact Hh|].
  constructor; assumption.
Qed.

Lemma Forall_hdr_set k v com h :
  (forall d, has_key k d = true -> P (mk_card (keyword d) v com)) -> Forall P h -> Forall P (hdr_set k v com h).
Proof.
  intros Hnew. induction 1 as [|c h Hc Hh IH]; cbn; [constructor|].
  destruct (has_key k c) eqn:E; constructor; auto.
Qed.

Lemma Forall_removelast l : Forall P l -> Forall P (removelast l).
Proof.
  induction 1 as [|x l Hx Hl IH]; cbn; [constructor|]. destruct l; [constructor|]. constructor; assumption.
Qed.

Lemma Forall_hdr_append h c : Forall P h -> P c -> Forall P (hdr_append h c).
Proof.
  intros Hh Hc. unfold hdr_append. destruct (is_blank c); [apply Forall_app; split; [exact Hh | constructor; [exact Hc | constructor]]|].
  cbn zeta. set (idx := length h - _ - _).
  assert (H' : Forall P (take idx h ++ c :: drop idx h)).
  { apply Forall_app. split; [apply Forall_take, Hh|]. constructor; [exact Hc | apply Forall_drop, Hh]. }
  destruct (decide _); [|exact H']. unfold useblanks.
  destruct (last _); [destruct (is_blank _); [apply Forall_removelast|]|]; exact H'.
Qed.

End Preserve.

(** The loop writes only headers whose [NAXIS] and [TFIELDS] hold
    integers when both headers have that property. *)
Lemma header_extend_int_counts h other h' :
  int_counts h -> int_counts other -> header_extend h other = Ok h' -> int_counts h'.
Proof.
  intros Hh Ho He. destruct (header_extend_Ok _ _ _ He) as (ks & _ & ->). clear He. cbn zeta.
  unfold int_counts in *.
  assert (Ht : int_counts (foldl (fun h k => hdr_remove k h) other ks)).
  { revert Ho. generalize other. induction ks as [|k ks IH]; intros o Ho; [exact Ho|].
    cbn [foldl]. apply IH. apply Forall_hdr_remove. exact Ho. }
  assert (Hst : forall temp st, int_counts st.1 -> int_counts st.2 -> int_counts temp ->
    int_counts (foldl extend_step st temp).1 /\ int_counts (foldl extend_step st temp).2).
  { induction temp as [|c temp IH]; intros [s p] Hs Hp Htemp; [split; assumption|].
    apply Forall_cons in Htemp as [Hc Htemp]. cbn [foldl]. apply IH; [| |exact Htemp];
      unfold extend_step; cbn [fst snd];
      repeat match goal with |- context [if ?b then _ else _] => destruct b eqn:? end;
      cbn [fst snd]; try assumption; try (apply Forall_app; split; [assumption | constructor; [exact Hc | constructor]]).
    apply Forall_hdr_set; [|exact Hs]. intros d Hd. apply has_key_eq in Hd. rewrite Hd.
    destruct c; exact Hc. }
  destruct (Hst _ (h, []) Hh (Forall_nil_2 _) Ht) as [H1 H2].
  revert H1. generalize (foldl extend_step (h, []) (foldl (fun h k => hdr_remove k h) other ks)).1.
  induction H2 as [|c pend Hc _ IH]; intros s Hs; [exact Hs|]. cbn [foldl].
  apply IH, Forall_hdr_append; assumption.
Qed.

(** ** File names *)

Lemma slash_free_app a b : slash_free (a +:+ b) = slash_free a && slash_free b.
Proof. induction a as [|c a IH]; [reflexivity|]. rewrite str_app_cons. cbn. rewrite IH, andb_assoc. reflexivity. Qed.

Lemma substring_app_l x y n : String.substring (String.length x) n (x +:+ y) = String.substring 0 n y.
Proof. induction x as [|c x IH]; [reflexivity|]. rewrite str_app_cons. exact IH. Qed.

Lemma substring_full y : String.substring 0 (String.length y) y = y.
Proof. induction y as [|c y IH]; [reflexivity|]. cbn. rewrite IH. reflexivity. Qed.

Lemma ends_with_app suf x : ends_with suf (x +:+ suf) = true.
Proof.
  unfold ends_with. rewrite str_length_app, Nat.add_sub.
  rewrite substring_app_l, substring_full, String.eqb_refl, andb_true_r. apply Nat.leb_le. lia.
Qed.

(** (C32) The astrometry cell writes the WCS solution [bf_<s>.wcs] into
    [red_data/bfa_<s>.fit], a name the statistics cell's
    [glob('.../bfa_*.fit')] lists, when the stem [s] has no [/] and the
    two [str.replace] calls find nothing to replace inside it. *)
Theorem calibrated_name_spec s :
  slash_free s = true ->
  no_match_before "wcs" ("bf_" +:+ s +:+ ".") "wcs" = true ->
  no_match_before "bf_" (s +:+ ".fit") "" = true ->
  calibrated_name_of (path_join astrometry_dir ("bf_" +:+ s +:+ ".wcs")) =
    path_join red_data_dir ("bfa_" +:+ s +:+ ".fit") /\
  glob_match red_data_dir "bfa_" (path_join red_data_dir ("bfa_" +:+ s +:+ ".fit")) = true /\
  ends_with ".fit" (path_join red_data_dir ("bfa_" +:+ s +:+ ".fit")) = true.
Proof.
  intros Hs Hw Hb. split; [|split].
  - unfold calibrated_name_of, clean_name_of.
    rewrite basename_path_join by (rewrite !slash_free_app, Hs; reflexivity).
    replace ("bf_" +:+ s +:+ ".wcs") with (("bf_" +:+ s +:+ ".") +:+ "wcs")
      by (rewrite <- !str_app_assoc; reflexivity).
    rewrite str_replace_suffix by (discriminate || exact Hw).
    replace (path_join red_data_dir (("bf_" +:+ s +:+ ".") +:+ "fit"))
      with ((red_data_dir +:+ "/") +:+ "bf_" +:+ (s +:+ ".fit"))
      by (unfold path_join; rewrite <- !str_app_assoc; reflexivity).
    rewrite str_replace_once by (discriminate || reflexivity || exact Hb).
    unfold path_join. rewrite <- !str_app_assoc. reflexivity.
  - apply glob_match_spec. eexists. split; [reflexivity|].
    split; [rewrite !slash_free_app, Hs; reflexivity | eexists; reflexivity].
  - unfold path_join. rewrite !str_app_assoc. apply ends_with_app.
Qed.

(** ** The loop *)

Section Loop.
Context `{DirOrder}.

(** The loop's invariant: the value of [calibrated_name] names a file the
    loop has written, holding [clean_image]. *)
Definition loop_inv (st : fits_disk * option (string * hdu)) : Prop :=
  forall n img, st.2 = Some (n, img) -> st.1 !! n = Some img.

Lemma loop_inv_init fd : loop_inv (fd, None).
Proof. intros n img Hn. discriminate Hn. Qed.

Lemma calib_step_Ok st w st' :
  calib_step st w = Ok st' -> exists img, st' = (<[calibrated_name_of w := img]> st.1, Some (calibrated_name_of w, img)).
Proof.
  unfold calib_step. destruct (fits_open st.1 w); [|discriminate]. cbn [bind].
  destruct (fits_open st.1 _); [|discriminate]. cbn [bind].
  destruct (header_extend _ _); [|discriminate]. cbn [bind]. intros [= <-]. eauto.
Qed.

(** A step fails only on a missing file or on a [NAXIS]/[TFIELDS] card
    [range] refuses. *)
Lemma calib_step_Err st w e : calib_step st w = Err e -> e = FileNotFoundError \/ e = TypeError.
Proof.
  unfold calib_step, fits_open. destruct (st.1 !! w); cbn [bind]; [|intros [= <-]; left; reflexivity].
  destruct (st.1 !! _); cbn [bind]; [|intros [= <-]; left; reflexivity].
  destruct (header_extend _ _) eqn:E; cbn [bind]; [discriminate|].
  intros [= <-]. right. exact (header_extend_Err _ _ _ E).
Qed.

(** Every state the loop reaches satisfies the invariant, and after at
    least one iteration [calibrated_name] is set. *)
Lemma calib_loop_inv l st st' :
  loop_inv st -> for_each calib_step l st = Ok st' ->
  loop_inv st' /\ (l <> [] -> is_Some st'.2).
Proof.
  revert st. induction l as [|w l IH]; intros st Hinv Hl.
  - rewrite for_each_nil in Hl. injection Hl as <-.
    split; [exact Hinv | intros Hne; exfalso; apply Hne; reflexivity].
  - rewrite for_each_cons in Hl.
    destruct (calib_step st w) as [st1|e] eqn:E; cbn [bind] in Hl; [|discriminate Hl].
    destruct (calib_step_Ok _ _ _ E) as [img ->].
    assert (Hinv1 : loop_inv (<[calibrated_name_of w := img]> st.1, Some (calibrated_name_of w, img))).
    { intros n im Heq. cbn [snd] in Heq. injection Heq as <- <-. cbn [fst].
      exact (lookup_insert_eq st.1 (calibrated_name_of w) img). }
    destruct (IH _ Hinv1 Hl) as [Hinv' Hsome]. split; [exact Hinv'|]. intros _.
    destruct l as [|w' l].
    + rewrite for_each_nil in Hl. injection Hl as <-. exists (calibrated_name_of w, img). reflexivity.
    + apply Hsome. intros Hc; discriminate Hc.
Qed.

Lemma calib_loop_Err l st e : for_each calib_step l st = Err e -> e = FileNotFoundError \/ e = TypeError.
Proof.
  revert st. induction l as [|w l IH]; intros st; [rewrite for_each_nil; discriminate|].
  rewrite for_each_cons.
  destruct (calib_step st w) eqn:E; cbn [bind]; [apply IH | intros [= <-]; exact (calib_step_Err _ _ _ E)].
Qed.

(** (C25) The astrometry cell raises [NameError] for [calibrated_name]
    exactly when there is no [*.wcs] file: otherwise it either fails to
    open a file ([FileNotFoundError]) or plots the last file it wrote. *)
Theorem astrometry_cell_name_error fd :
  astrometry_cell fd = Err (NameError "calibrated_name") <-> wcs_glob fd = [].
Proof.
  unfold astrometry_cell. split.
  - destruct (wcs_glob fd) as [|w ws] eqn:Ew; [reflexivity|]. intros Hc; exfalso; revert Hc.
    destruct (for_each calib_step (w :: ws) (fd, None)) as [st|e] eqn:E; cbn [bind].
    + destruct (calib_loop_inv _ _ _ (loop_inv_init fd) E) as [Hinv Hsome].
      destruct (Hsome ltac:(congruence)) as [[n img] Hst]. rewrite Hst.
      unfold fits_open. rewrite (Hinv n img Hst). discriminate.
    + intros [= He]. apply calib_loop_Err in E. destruct E; congruence.
  - intros ->. reflexivity.
Qed.

Lemma elem_of_wcs_glob fd p : p ∈ wcs_glob fd -> is_Some (fd !! p).
Proof.
  unfold wcs_glob. rewrite (dir_order_perm _), list_elem_of_In, filter_In, <- list_elem_of_In.
  rewrite elem_of_elements, elem_of_dom. tauto.
Qed.

(** Every header on the disk has integer [NAXIS] and [TFIELDS] cards. *)
Definition disk_ok (fd : fits_disk) : Prop := map_Forall (fun _ f => int_counts (hdr f)) fd.

Lemma calib_step_Some st w :
  disk_ok st.1 -> is_Some (st.1 !! w) -> is_Some (st.1 !! clean_name_of w) ->
  exists img, calib_step st w = Ok (<[calibrated_name_of w := img]> st.1, Some (calibrated_name_of w, img)) /\
    int_counts (hdr img).
Proof.
  intros Hok [h1 E1] [h2 E2]. unfold calib_step, fits_open. rewrite E1. cbn [bind]. rewrite E2. cbn [bind].
  destruct (header_extend_total (hdr h2) (hdr h1) (Hok _ _ E1)) as [h' Eh]. rewrite Eh. cbn [bind].
  eexists. split; [reflexivity|]. exact (header_extend_int_counts _ _ _ (Hok _ _ E2) (Hok _ _ E1) Eh).
Qed.

(** The loop only writes the calibrated names of the files it visits. *)
Lemma calib_loop_frame l st st' p :
  for_each calib_step l st = Ok st' -> st'.1 !! p <> st.1 !! p ->
  exists w, w ∈ l /\ p = calibrated_name_of w.
Proof.
  revert st. induction l as [|w l IH]; intros st Hl Hp.
  - rewrite for_each_nil in Hl. injection Hl as <-. congruence.
  - rewrite for_each_cons in Hl.
    destruct (calib_step st w) as [st1|e] eqn:E; cbn [bind] in Hl; [|discriminate Hl].
    destruct (calib_step_Ok _ _ _ E) as [img ->].
    destruct (decide (p = calibrated_name_of w)) as [->|Hne]; [exists w; split; [left|reflexivity]|].
    destruct (IH _ Hl) as (w' & Hw' & ->).
    + cbn [fst]. rewrite lookup_insert_ne by congruence. exact Hp.
    + exists w'. split; [right; exact Hw' | reflexivity].
Qed.

(** When every file the loop opens exists, the loop finishes and leaves
    [calibrated_name] set to the calibrated name of its last file. *)
Lemma calib_loop_total l st :
  disk_ok st.1 ->
  (forall w, w ∈ l -> is_Some (st.1 !! w) /\ is_Some (st.1 !! clean_name_of w)) ->
  exists st', for_each calib_step l st = Ok st' /\
    forall w, last l = Some w -> exists img, st'.2 = Some (calibrated_name_of w, img).
Proof.
  revert st. induction l as [|w l IH]; intros st Hok Hl.
  - exists st. split; [apply for_each_nil | discriminate].
  - destruct (Hl w (list_elem_of_here _ _)) as [H1 H2].
    destruct (calib_step_Some _ _ Hok H1 H2) as (img & E & Himg). rewrite for_each_cons, E. cbn [bind].
    destruct (IH (<[calibrated_name_of w := img]> st.1, Some (calibrated_name_of w, img))) as (st' & E' & Hlast).
    { apply map_Forall_insert_2; assumption. }
    { intros w' Hw'. cbn [fst]. rewrite !lookup_insert_is_Some'.
      destruct (Hl w' (list_elem_of_further _ _ _ Hw')). tauto. }
    exists st'. split; [exact E'|]. intros w' Hw'. destruct l as [|w'' l].
    + rewrite for_each_nil in E'. injection E' as <-. injection Hw' as <-. eexists. reflexivity.
    + apply Hlast. exact Hw'.
Qed.

(** (C4) Safety of the calibration cell: every file its run adds or
    overwrites is the [bfa_] name [calibrated_name_of w] of one of the
    [*.wcs] files [w] it globbed; the raw, reduced and WCS files are left
    as they were. *)
Theorem astrometry_cell_writes_only_calibrated fd fd' img p :
  astrometry_cell fd = Ok (fd', img) -> fd' !! p <> fd !! p ->
  exists w, w ∈ wcs_glob fd /\ p = calibrated_name_of w.
Proof.
  unfold astrometry_cell. destruct (for_each calib_step (wcs_glob fd) (fd, None)) as [st|e] eqn:E;
    cbn [bind]; [|discriminate].
  destruct st.2 as [[n im]|]; [|discriminate].
  destruct (fits_open st.1 n); cbn [bind]; [|discriminate].
  intros [= <- _] Hp. exact (calib_loop_frame _ _ _ _ E Hp).
Qed.

(** (C5) Progress of the calibration cell: when every [*.wcs] file has
    its reduced image under [red_data] and the headers on the disk have
    integer [NAXIS] and [TFIELDS] cards (as the FITS standard requires;
    [Header.strip] passes them to [range]), the cell finishes and plots the
    calibrated file of the last [*.wcs] file of the glob, which holds the
    image it returns. *)
Theorem astrometry_cell_plots_last fd w :
  disk_ok fd ->
  (forall w', w' ∈ wcs_glob fd -> is_Some (fd !! clean_name_of w')) ->
  last (wcs_glob fd) = Some w ->
  exists fd' img, astrometry_cell fd = Ok (fd', img) /\ fd' !! calibrated_name_of w = Some img.
Proof.
  intros Hok Hclean Hw. unfold astrometry_cell.
  destruct (calib_loop_total (wcs_glob fd) (fd, None) Hok) as (st & E & Hlast).
  { intros w' Hw'. split; [apply elem_of_wcs_glob, Hw' | apply Hclean, Hw']. }
  destruct (Hlast w Hw) as [img Hst].
  destruct (calib_loop_inv _ _ _ (loop_inv_init fd) E) as [Hinv _].
  rewrite E. cbn [bind]. rewrite Hst. unfold fits_open. rewrite (Hinv _ _ Hst). cbn [bind].
  exists st.1, img. split; [reflexivity | exact (Hinv _ _ Hst)].
Qed.

End Loop.

(** ** Examples *)

Definition ex_image_header : header :=
  [mk_card "SIMPLE" (CBool true) EmptyString; mk_card "BITPIX" (CInt (-32)) EmptyString;
   mk_card "NAXIS" (CInt 2) EmptyString; mk_card "NAXIS1" (CInt 2) EmptyString;
   mk_card "NAXIS2" (CInt 2) EmptyString; mk_card "CRVAL1" (CReal 0) EmptyString;
   mk_card "HISTORY" (CStr "bias subtracted") EmptyString].

(** The primary header of an astrometry.net [.wcs] file: no data
    ([NAXIS = 0]), the TAN projection, and its own history. *)
Definition ex_wcs_header : header :=
  [mk_card "SIMPLE" (CBool true) "Standard FITS file"; mk_card "BITPIX" (CInt 8) "ASCII or bytes array";
   mk_card "NAXIS" (CInt 0) "Minimal header"; mk_card "EXTEND" (CBool true) "There may be FITS ext";
   mk_card "WCSAXES" (CInt 2) "no comment"; mk_card "CTYPE1" (CStr "RA---TAN") "TAN (gnomic) projection";
   mk_card "CRVAL1" (CReal (132849 # 1000)) "RA  of reference point";
   mk_card "HISTORY" (CStr "bias subtracted") EmptyString;
   mk_card "HISTORY" (CStr "Created by the Astrometry.net suite.") EmptyString].

Lemma header_extend_get_witness :
  exists h' ks,
  header_extend ex_image_header ex_wcs_header = Ok h' /\ stripped_keys ex_wcs_header = Ok ks /\
  NoDup (nc_keys ex_wcs_header) /\ is_commentary "NAXIS" = false /\ is_commentary "CRVAL1" = false /\
  hdr_get "NAXIS" h' = hdr_get "NAXIS" ex_image_header /\
  hdr_get "CRVAL1" h' = hdr_get "CRVAL1" ex_wcs_header.
Proof.
  eexists _, _. assert (He : header_extend ex_image_header ex_wcs_header = Ok _) by (vm_compute; reflexivity).
  assert (Hk : stripped_keys ex_wcs_header = Ok _) by (vm_compute; reflexivity).
  assert (Hnd : NoDup (nc_keys ex_wcs_header)) by (apply (bool_decide_unpack _); vm_compute; reflexivity).
  assert (H1 : is_commentary "NAXIS" = false) by reflexivity.
  assert (H2 : is_commentary "CRVAL1" = false) by reflexivity.
  split; [exact He|]. split; [exact Hk|]. split; [exact Hnd|]. split; [exact H1|]. split; [exact H2|].
  split.
  - rewrite (header_extend_get _ _ _ _ "NAXIS" He Hk Hnd H1). vm_compute. reflexivity.
  - rewrite (header_extend_get _ _ _ _ "CRVAL1" He Hk Hnd H2). vm_compute. reflexivity.
Defined.

Lemma header_extend_commentary_witness :
  exists h', header_extend ex_image_header ex_wcs_header = Ok h' /\
  is_commentary "HISTORY" = true /\ "HISTORY" <> EmptyString /\
  hdr_values "HISTORY" h' = [CStr "bias subtracted"; CStr "Created by the Astrometry.net suite."].
Proof.
  eexists. assert (He : header_extend ex_image_header ex_wcs_header = Ok _) by (vm_compute; reflexivity).
  assert (Hk : is_commentary "HISTORY" = true) by reflexivity.
  assert (Hne : "HISTORY" <> EmptyString) by discriminate.
  split; [exact He|]. split; [exact Hk|]. split; [exact Hne|].
  rewrite (header_extend_commentary _ _ _ "HISTORY" He Hk Hne). vm_compute. reflexivity.
Defined.

Lemma calibrated_name_spec_witness :
  calibrated_name_of (path_join astrometry_dir ("bf_" +:+ "m67_b_1" +:+ ".wcs")) =
    path_join red_data_dir ("bfa_" +:+ "m67_b_1" +:+ ".fit") /\
  glob_match red_data_dir "bfa_" (path_join red_data_dir ("bfa_" +:+ "m67_b_1" +:+ ".fit")) = true /\
  ends_with ".fit" (path_join red_data_dir ("bfa_" +:+ "m67_b_1" +:+ ".fit")) = true.
Proof. apply calibrated_name_spec; vm_compute; reflexivity. Defined.

Definition ex_wcs_file : string := path_join astrometry_dir "bf_m67_b_1.wcs".
Definition ex_clean_file : string := path_join red_data_dir "bf_m67_b_1.fit".

(** A disk with one WCS solution and its reduced image. *)
Definition ex_fd : fits_disk :=
  <[ex_wcs_file := mk_hdu ex_wcs_header []]> (<[ex_clean_file := mk_hdu ex_image_header [[1; 2]; [3; 4]]%Q]> ∅).

Definition ex_cell : fits_disk * hdu := ok_or (∅, mk_hdu [] []) (astrometry_cell ex_fd).

Lemma astrometry_cell_writes_only_calibrated_witness :
  astrometry_cell ex_fd = Ok (ex_cell.1, ex_cell.2) /\
  ex_cell.1 !! calibrated_name_of ex_wcs_file <> ex_fd !! calibrated_name_of ex_wcs_file /\
  exists w, w ∈ wcs_glob ex_fd /\ calibrated_name_of ex_wcs_file = calibrated_name_of w.
Proof.
  assert (E : astrometry_cell ex_fd = Ok (ex_cell.1, ex_cell.2)) by (vm_compute; reflexivity).
  assert (Hp : ex_cell.1 !! calibrated_name_of ex_wcs_file <> ex_fd !! calibrated_name_of ex_wcs_file)
    by (vm_compute; discriminate).
  split; [exact E|]. split; [exact Hp|].
  exact (astrometry_cell_writes_only_calibrated _ _ _ _ E Hp).
Defined.

Lemma astrometry_cell_plots_last_witness :
  disk_ok ex_fd /\
  (forall w', w' ∈ wcs_glob ex_fd -> is_Some (ex_fd !! clean_name_of w')) /\
  last (wcs_glob ex_fd) = Some ex_wcs_file /\
  exists fd' img, astrometry_cell ex_fd = Ok (fd', img) /\ fd' !! calibrated_name_of ex_wcs_file = Some img.
Proof.
  assert (Hg : wcs_glob ex_fd = [ex_wcs_file]) by (vm_compute; reflexivity).
  assert (Hc : forall w', w' ∈ wcs_glob ex_fd -> is_Some (ex_fd !! clean_name_of w')).
  { rewrite Hg. intros w' ->%list_elem_of_singleton. vm_compute. eexists. reflexivity. }
  assert (Hl : last (wcs_glob ex_fd) = Some ex_wcs_file) by (rewrite Hg; reflexivity).
  assert (Hok : disk_ok ex_fd).
  { unfold disk_ok, ex_fd. repeat apply map_Forall_insert_2; [| |apply map_Forall_empty];
      apply (bool_decide_unpack _); vm_compute; reflexivity. }
  split; [exact Hok|]. split; [exact Hc|]. split; [exact Hl|].
  exact (astrometry_cell_plots_last _ _ Hok Hc Hl).
Defined.

End Astrometry.
