(* ===== verification/Plotfits.v ===== *)
(** The notebook src/notebooks/plotfits.ipynb: the function [plot(filename,
    ext=0)] that the photutils notebook also uses (lines 37-66), and the
    introduction cells to numpy and astropy that follow it in the same
    file: the matrix and boolean-array cell (lines 128-147) and the table
    cell (lines 584-589).

    [plot] opens a FITS file ([Astrometry.fits_open]; a file is its
    primary HDU, so the [HDUList] has one element and [[ext]] is Python
    list indexing), transposes the data ([Detection.transpose], numpy's
    [.T]), computes the display limits of [simple_norm(image,
    percent=99)] (numpy's linear-interpolated percentiles at 0.5 and 99.5,
    [np_percentile]) and builds the figure: a WCS projection and the two
    celestial axes when the header is celestial (the [WcsAxes] interface
    answers [is_celestial]), none otherwise.  Drawing on screen is not
    modelled: the figure record is what the code hands to matplotlib. *)

From S2P Require Import Prelude PySlice Stats Image Schema Detection Astrometry.
From Stdlib Require Import Qround.
From stdpp Require Import list gmap strings pretty.

Module Plotfits.

Import PySlice Stats Image Schema Detection Astrometry.

(** ** [.T] *)

Section Transpose.
Implicit Types (a : image) (w : nat).

(** Column [j] of an image stored by rows. *)
Definition column (j : nat) (a : image) : list Q := (fun row => nth j row 0%Q) <$> a.

Lemma fmap_nth_seq {A} (d : A) (l : list A) : (fun j => nth j l d) <$> seq 0 (length l) = l.
Proof.
  apply list_eq. intros i. rewrite list_lookup_fmap.
  destruct (decide (i < length l)) as [Hi|Hi].
  - rewrite lookup_seq_lt by exact Hi. cbn. destruct (lookup_lt_is_Some_2 l i Hi) as [x Hx].
    rewrite Hx, (nth_lookup_Some l i d x Hx). reflexivity.
  - rewrite lookup_seq_ge, lookup_ge_None_2; [reflexivity|lia..].
Qed.

(** The transpose of an [h x w] image, [h >= 1], is the list of its [w]
    columns. *)
Lemma transpose_columns a w :
  a <> [] -> Forall (fun row => length row = w) a -> transpose a = (fun j => column j a) <$> seq 0 w.
Proof.
  induction a as [|row rest IH]; intros Hne Hw; [congruence|]. inversion Hw as [|? ? Hrow Hrest]; subst w.
  unfold column. destruct rest as [|row2 rest].
  - cbn [transpose]. rewrite <- (fmap_nth_seq 0%Q row) at 1. rewrite <- list_fmap_compose. reflexivity.
  - change (transpose (row :: row2 :: rest)) with (zip_with cons row (transpose (row2 :: rest))).
    rewrite IH by (congruence || exact Hrest). rewrite <- (fmap_nth_seq 0%Q row) at 1.
    rewrite zip_with_fmap_same. reflexivity.
Qed.

Lemma transpose_shape a w :
  a <> [] -> Forall (fun row => length row = w) a ->
  length (transpose a) = w /\ Forall (fun col => length col = length a) (transpose a).
Proof.
  intros Hne Hw. rewrite (transpose_columns a w Hne Hw), length_fmap, length_seq. split; [reflexivity|].
  apply Forall_fmap, Forall_forall. intros j _. apply length_fmap.
Qed.

Lemma nth_column i j a : i < length a -> nth i (column j a) 0%Q = nth j (nth i a []) 0%Q.
Proof.
  intros Hi. unfold column. rewrite (nth_indep _ _ ((fun row => nth j row 0%Q) [])) by (rewrite length_fmap; exact Hi).
  exact (map_nth (fun row => nth j row 0%Q) a [] i).
Qed.

End Transpose.

(** ** [plot(filename, ext=0)] (lines 37-66) *)

(** [wcs.WCS(header).swapaxes(0, 1).is_celestial]; swapping the axes
    keeps a celestial pair celestial. *)
Class WcsAxes := { is_celestial : header -> bool }.

(** [a * (1 - g) + b * g] between [a[lo]] and [a[hi]], [hi = min(lo + 1,
    n - 1)], at the virtual index [vi]: numpy's linear interpolation. *)
Definition interp (s : list Q) (vi : Q) : Q :=
  let lo := Z.to_nat (Qfloor vi) in
  let hi := Nat.min (S lo) (length s - 1) in
  let g := (vi - inject_Z (Qfloor vi))%Q in
  (nth lo s 0 * (1 - g) + nth hi s 0 * g)%Q.

(** [np.percentile(values, p)] with linear interpolation: the virtual
    index [(n - 1) * p / 100] in the sorted values; no value, no
    percentile. *)
Definition np_percentile (l : list Q) (p : Q) : option Q :=
  let s := q_sort l in
  match s with
  | [] => None
  | _ => Some (interp s (inject_Z (Z.of_nat (length s - 1)) * p / 100)%Q)
  end.

(** [simple_norm(image, percent=99)]: the limits of
    [PercentileInterval(99)], the percentiles 0.5 and 99.5 of the
    flattened values, and the linear stretch between them. *)
Definition simple_norm_limits (img : image) : option (Q * Q) :=
  vmin ← np_percentile (concat img) (1 / 2);
  vmax ← np_percentile (concat img) (199 / 2);
  Some (vmin, vmax).

Definition normalize (lim : Q * Q) (v : Q) : Q := ((v - lim.1) / (lim.2 - lim.1))%Q.

(** One axis of the celestial frame: label, ticks and tick labels. *)
Record axis := mk_axis { axis_label : string; ticks_position : string; ticklabel_position : string }.

(** What [plot] hands to matplotlib. *)
Record figure := mk_figure {
  fig_image : image;                 (** [imshow(image, ...)] *)
  fig_norm : option (Q * Q);         (** [norm=norm] *)
  fig_projection : option header;    (** [subplot_kw=projection] *)
  fig_origin : string;
  fig_cmap : string;
  fig_y_inverted : bool;             (** [invert_yaxis()] *)
  fig_grid : option string;          (** [coords.grid(color="yellow")] *)
  fig_axes : list axis               (** [lon], [lat] *)
}.

Definition plot `{WcsAxes} (fd : fits_disk) (filename : string) (ext : Z) : result figure :=
  primary <- fits_open fd filename;;
  hdu <- py_getitem [primary] ext;;
  let image := transpose (hdu_data hdu) in
  let header := hdr hdu in
  let norm := simple_norm_limits image in
  let celestial := is_celestial header in
  Ok (mk_figure image norm (if celestial then Some header else None) "lower" "Greys_r" true
       (if celestial then Some "yellow" else None)
       (if celestial then [mk_axis "Right Ascension" "l" "l"; mk_axis "Declination" "b" "b"] else [])).

(** ** The numpy cell (lines 128-147) *)

(** [np.arange(n)]. *)
Definition np_arange (n : Z) : list Z := seqZ 0 n.

(** The rows of [v.reshape(r, c)], row-major. *)
Fixpoint reshape_rows {A} (c r : nat) (v : list A) : list (list A) :=
  match r with
  | O => []
  | S r' => take c v :: reshape_rows c r' (drop c v)
  end.

(** [v.reshape(r, c)]: [ValueError] unless the sizes agree. *)
Definition np_reshape {A} (v : list A) (r c : nat) : result (list (list A)) :=
  if Nat.eqb (length v) (r * c) then Ok (reshape_rows c r v) else Err ValueError.

(** An elementwise operator on 1-D arrays with numpy's broadcasting: equal
    lengths pair up, an array of length 1 is repeated, anything else
    raises [ValueError]. *)
Definition np_broadcast {A B C} (f : A -> B -> C) (a : list A) (b : list B) : result (list C) :=
  if Nat.eqb (length a) (length b) then Ok (zip_with f a b)
  else match a, b with
       | [x], _ => Ok (f x <$> b)
       | _, [y] => Ok ((fun x => f x y) <$> a)
       | _, _ => Err ValueError
       end.

(** The printed values of the cell: the matrix, [matrix[4:7,1:2]],
    [matrix[region]], [the_facts & the_lies], [the_facts | the_lies]. *)
Definition matrix_cell : result (list (list Z) * list (list Z) * list (list Z) * list bool * list bool) :=
  let vector := np_arange 24 in
  matrix <- np_reshape vector 8 3;;
  let region := ((4, 7), (1, 2))%Z in
  let the_facts := [false; false; true] in
  let the_lies := [true; false; false] in
  both <- np_broadcast andb the_facts the_lies;;
  either <- np_broadcast orb the_facts the_lies;;
  Ok (matrix, py_slice2 matrix 4 7 1 2,
      py_slice2 matrix region.1.1 region.1.2 region.2.1 region.2.2, both, either).

(** ** The table cell (lines 584-589) *)

(** [t.add_column(col)] for a column without a name: astropy names it
    [col<number of columns>]; a name already present raises
    [ValueError]. *)
Definition add_column_unnamed (names : list string) : result (list string) :=
  let name := ("col" +:+ pretty (length names))%string in
  if bool_decide (name ∈ names) then Err ValueError else Ok (names ++ [name]).

(** [add_column(t2)] then [rename_column('col2', 'funtimes')], on the
    column names of the table. *)
Definition rename_new_column (names : list string) : result (list string) :=
  names' <- add_column_unnamed names;;
  rename_column names' "col2" "funtimes".

Definition table_cell : result (list string) := rename_new_column ["A"; "B"]%string.

(** ** The transpose round trip and the figure's shape *)

(** [.T] is a round trip on rectangular images with at least one
    row and one column: transposing the displayed image back gives the
    file's data. *)
Theorem transpose_involutive a w :
  a <> [] -> 0 < w -> Forall (fun row => length row = w) a -> transpose (transpose a) = a.
Proof.
  intros Hne Hw Hrows. destruct (transpose_shape a w Hne Hrows) as [Hl Hc].
  assert (Hne' : transpose a <> []) by (intros E; rewrite E in Hl; cbn in Hl; lia).
  rewrite (transpose_columns _ _ Hne' Hc).
  transitivity ((fun i => nth i a []) <$> seq 0 (length a)); [|apply fmap_nth_seq].
  apply list_fmap_ext. intros k i Hk. apply lookup_seq in Hk as [-> Hi]. cbn.
  assert (Hlen : length (nth k a []) = w) by exact (proj1 (Forall_nth (fun row => length row = w) [] a) Hrows k Hi).
  rewrite (transpose_columns a w Hne Hrows). unfold column at 1. rewrite <- list_fmap_compose.
  rewrite <- (fmap_nth_seq 0%Q (nth k a [])), Hlen.
  apply list_fmap_ext. intros ? j _. apply nth_column. exact Hi.
Qed.

(** ** The display limits *)

Lemma sorted_nth_le s i j : Sorted Qle s -> i <= j -> j < length s -> (nth i s 0 <= nth j s 0)%Q.
Proof.
  intros Hs. apply Sorted_StronglySorted in Hs; [|intros x y z; apply Qle_trans].
  revert i j. induction Hs as [|x s Hs IH Hall]; intros i j Hij Hj; cbn in Hj; [lia|].
  destruct i as [|i], j as [|j]; cbn; [apply Qle_refl|..|lia|apply IH; lia].
  apply (proj1 (Forall_nth (Qle x) 0%Q s) Hall). lia.
Qed.

(** The virtual index [vi] has its floor [k] in [0, n - 1] and its
    fractional part [g] in [0, 1). *)
Lemma floor_parts (vi : Q) (n : nat) :
  (0 <= vi)%Q -> (vi <= inject_Z (Z.of_nat n))%Q ->
  (0 <= Qfloor vi <= Z.of_nat n)%Z /\ (0 <= vi - inject_Z (Qfloor vi))%Q /\ (vi - inject_Z (Qfloor vi) < 1)%Q.
Proof.
  intros H0 Hn. pose proof (Qfloor_le vi). pose proof (Qlt_floor vi). rewrite inject_Z_plus in *.
  assert (Hz : (inject_Z 1 == 1)%Q) by reflexivity.
  split; [split|split; lra].
  - exact (Qfloor_resp_le 0 vi H0).
  - pose proof (Qfloor_resp_le _ _ Hn) as Hf. rewrite Qfloor_Z in Hf. exact Hf.
Qed.

Lemma interp_between (s : list Q) vi (lo hi : Q) :
  s <> [] -> (0 <= vi)%Q -> (vi <= inject_Z (Z.of_nat (length s - 1)))%Q ->
  (forall v, v ∈ s -> lo <= v <= hi)%Q -> (lo <= interp s vi <= hi)%Q.
Proof.
  intros Hne H0 Hn Hb. destruct (floor_parts vi _ H0 Hn) as ([Hk0 Hk1] & Hg0 & Hg1).
  assert (Hs : 0 < length s) by (destruct s; [congruence | cbn; lia]).
  unfold interp. set (g := (vi - inject_Z (Qfloor vi))%Q) in *.
  assert (Ha : (lo <= nth (Z.to_nat (Qfloor vi)) s 0 <= hi)%Q) by (apply Hb, list_elem_of_In, nth_In; lia).
  assert (Hb' : (lo <= nth (Nat.min (S (Z.to_nat (Qfloor vi))) (length s - 1)) s 0 <= hi)%Q)
    by (apply Hb, list_elem_of_In, nth_In; lia).
  nra.
Qed.

Lemma interp_mono (s : list Q) v1 v2 :
  Sorted Qle s -> s <> [] -> (0 <= v1)%Q -> (v1 <= v2)%Q -> (v2 <= inject_Z (Z.of_nat (length s - 1)))%Q ->
  (interp s v1 <= interp s v2)%Q.
Proof.
  intros Hs Hne H0 H12 Hn.
  assert (Hl : 0 < length s) by (destruct s; [congruence | cbn; lia]).
  destruct (floor_parts v1 _ H0 (Qle_trans _ _ _ H12 Hn)) as ([Ha0 Ha1] & Hg0 & Hg1).
  destruct (floor_parts v2 _ (Qle_trans _ _ _ H0 H12) Hn) as ([Hb0 Hb1] & Hh0 & Hh1).
  pose proof (Qfloor_resp_le _ _ H12) as Hk. unfold interp.
  set (k1 := Z.to_nat (Qfloor v1)) in *. set (k2 := Z.to_nat (Qfloor v2)) in *.
  assert (Hab1 := sorted_nth_le s k1 (Nat.min (S k1) (length s - 1)) Hs ltac:(lia) ltac:(lia)).
  assert (Hab2 := sorted_nth_le s k2 (Nat.min (S k2) (length s - 1)) Hs ltac:(lia) ltac:(lia)).
  destruct (Z.eq_dec (Qfloor v1) (Qfloor v2)) as [He|Hlt].
  - assert (k1 = k2) as <- by (unfold k1, k2; rewrite He; reflexivity). rewrite He in *. nra.
  - assert (Hm := sorted_nth_le s (Nat.min (S k1) (length s - 1)) k2 Hs ltac:(lia) ltac:(lia)). nra.
Qed.

Lemma np_percentile_Some l p :
  l <> [] -> np_percentile l p = Some (interp (q_sort l) (inject_Z (Z.of_nat (length l - 1)) * p / 100)%Q).
Proof.
  intros Hne. unfold np_percentile. rewrite length_q_sort.
  destruct (q_sort l) eqn:E; [|reflexivity].
  exfalso. apply Hne, length_zero_iff_nil. rewrite <- (length_q_sort l), E. reflexivity.
Qed.

Lemma virtual_index_bounds (n : nat) (p : Q) :
  (0 <= p <= 100)%Q -> (0 <= inject_Z (Z.of_nat n) * p / 100 <= inject_Z (Z.of_nat n))%Q.
Proof.
  intros Hp. assert (Hn : (0 <= inject_Z (Z.of_nat n))%Q) by (change 0%Q with (inject_Z 0); rewrite <- Zle_Qle; lia).
  assert (Hq : (0 <= p / 100 <= 1)%Q) by (split; [apply Qle_shift_div_l | apply Qle_shift_div_r]; lra).
  assert (E : (inject_Z (Z.of_nat n) * p / 100 == inject_Z (Z.of_nat n) * (p / 100))%Q)
    by (unfold Qdiv; ring).
  rewrite E. split; nra.
Qed.

(** (C18) The limits of [simple_norm(image, percent=99)] exist for an
    image with at least one pixel, are ordered, and lie within the range
    of the pixel values. *)
Theorem simple_norm_limits_bounds img lo hi :
  concat img <> [] -> (forall v, v ∈ concat img -> lo <= v <= hi)%Q ->
  exists vmin vmax, simple_norm_limits img = Some (vmin, vmax) /\ (lo <= vmin)%Q /\ (vmin <= vmax)%Q /\ (vmax <= hi)%Q.
Proof.
  intros Hne Hb. unfold simple_norm_limits. rewrite !np_percentile_Some by exact Hne. cbn [mbind option_bind].
  set (N := inject_Z (Z.of_nat (length (concat img) - 1))).
  assert (Hs : q_sort (concat img) <> []) by (intros E; apply Hne, length_zero_iff_nil;
    rewrite <- (length_q_sort (concat img)), E; reflexivity).
  assert (Hsb : forall v, v ∈ q_sort (concat img) -> (lo <= v <= hi)%Q).
  { intros v (y & Hy & ->)%elem_of_q_sort. rewrite !Qred_correct. apply Hb, Hy. }
  destruct (virtual_index_bounds (length (concat img) - 1) (1 / 2) ltac:(split; discriminate)) as [H1 H2].
  destruct (virtual_index_bounds (length (concat img) - 1) (199 / 2) ltac:(split; discriminate)) as [H3 H4].
  fold N in H1, H2, H3, H4. pose proof (length_q_sort (concat img)) as Hlen.
  eexists _, _. split; [reflexivity|].
  pose proof (interp_between _ (N * (1 / 2) / 100) lo hi Hs H1 ltac:(rewrite Hlen; exact H2) Hsb).
  pose proof (interp_between _ (N * (199 / 2) / 100) lo hi Hs H3 ltac:(rewrite Hlen; exact H4) Hsb).
  split; [tauto|]. split; [|tauto].
  apply interp_mono; [apply q_sort_Sorted | exact Hs | exact H1 | | rewrite Hlen; exact H4].
  assert (0 <= N)%Q by (unfold N; change 0%Q with (inject_Z 0); rewrite <- Zle_Qle; lia).
  apply Qmult_le_r; [reflexivity|]. apply Qmult_le_compat_nonneg; split; [exact H5 | apply Qle_refl | discriminate | discriminate].
Qed.

(** ** [plot] *)

Section Plot.
Context `{WcsAxes}.

Lemma py_getitem_single {A} (x : A) (ext : Z) :
  py_getitem [x] ext = if bool_decide (ext = 0 \/ ext = -1)%Z then Ok x else Err IndexError.
Proof.
  unfold py_getitem. cbn [length]. case_bool_decide as Hc.
  - destruct Hc as [-> | ->]; reflexivity.
  - destruct (Z.ltb_spec ext 0).
    + rewrite (proj2 (Z.ltb_lt (ext + Z.of_nat 1) 0)) by lia. reflexivity.
    + rewrite (proj2 (Z.ltb_ge ext 0)) by lia. unfold py_index.
      rewrite lookup_ge_None_2 by (cbn; lia). reflexivity.
Qed.


(** [plot] on a rectangular image of [h >= 1] rows of [w >= 1]
    pixels shows an image of [w] rows of [h] pixels (numpy's [.T]), with
    the lower origin and the inverted y axis, and a celestial projection
    with the two labelled axes exactly when the header is celestial. *)
Theorem plot_figure_shape fd filename ext img w :
  fits_open fd filename = Ok img -> (ext = 0 \/ ext = -1)%Z ->
  hdu_data img <> [] -> 0 < w -> Forall (fun row => length row = w) (hdu_data img) ->
  exists fig, plot fd filename ext = Ok fig /\
    length (fig_image fig) = w /\ Forall (fun col => length col = length (hdu_data img)) (fig_image fig) /\
    fig_origin fig = "lower"%string /\ fig_y_inverted fig = true /\
    (fig_projection fig = Some (hdr img) <-> is_celestial (hdr img) = true) /\
    (fig_axes fig <> [] <-> is_celestial (hdr img) = true).
Proof.
  intros Ho Hext Hne Hw Hrows. unfold plot. rewrite Ho. cbn [bind].
  rewrite py_getitem_single, bool_decide_true by exact Hext. cbn [bind].
  destruct (transpose_shape _ w Hne Hrows) as [Hl Hc].
  eexists. split; [reflexivity|]. cbn [fig_image fig_origin fig_y_inverted fig_projection fig_axes].
  do 4 (split; [assumption || reflexivity|]).
  destruct (is_celestial (hdr img)); (split; [split; congruence|]); split; congruence.
Qed.

End Plot.

(** ** The numpy cell *)

Lemma reshape_rows_spec {A} c r (v : list A) : reshape_rows c r v = (fun i => take c (drop (i * c) v)) <$> seq 0 r.
Proof.
  revert v. induction r as [|r IH]; intros v; [reflexivity|]. cbn [reshape_rows]. rewrite IH.
  change (seq 0 (S r)) with (0 :: seq (1 + 0) r). rewrite <- (fmap_add_seq 1 0 r), fmap_cons, <- list_fmap_compose.
  f_equal. apply list_fmap_ext. intros k i _. cbn. rewrite drop_drop. reflexivity.
Qed.

(** A slice [l[s:e]] of a list given by its indices, within bounds. *)
Lemma py_slice_fmap_seqZ {A} (f : Z -> A) n s e :
  (0 <= s <= e)%Z -> (e <= n)%Z -> py_slice (f <$> seqZ 0 n) s e = f <$> py_range s e.
Proof.
  intros Hs He. assert (Hl : length (f <$> seqZ 0 n) = Z.to_nat n) by (rewrite length_fmap; apply length_seqZ).
  apply (list_eq_same_length _ _ (Z.to_nat (e - s))).
  - rewrite length_fmap, py_range_length. reflexivity.
  - rewrite length_py_slice, Hl, !slice_bound_in_range by lia. lia.
  - intros i x y Hi. rewrite lookup_py_slice by (rewrite Hl, !slice_bound_in_range by lia; lia).
    rewrite Hl, slice_bound_in_range by lia. rewrite list_lookup_fmap, lookup_seqZ_lt by lia.
    rewrite list_lookup_fmap, lookup_py_range by lia. intros [= <-] [= <-]. f_equal. lia.
Qed.

Lemma arange_row (r c i : nat) :
  i < r -> take c (drop (i * c) (np_arange (Z.of_nat (r * c)))) =
           (fun j => Z.of_nat i * Z.of_nat c + j)%Z <$> seqZ 0 (Z.of_nat c).
Proof.
  intros Hi. unfold np_arange. apply (list_eq_same_length _ _ c).
  - rewrite length_fmap, length_seqZ. lia.
  - rewrite length_take, length_drop, length_seqZ. nia.
  - intros j x y Hj. rewrite lookup_take_lt, lookup_drop, lookup_seqZ_lt by nia.
    rewrite list_lookup_fmap, lookup_seqZ_lt by lia. intros [= <-] [= <-]. lia.
Qed.


(** ** The table cell *)

Lemma col_name_inj n : ("col" +:+ pretty n)%string = "col2"%string <-> n = 2.
Proof.
  split; [|intros ->; reflexivity]. intros H. injection H as H.
  apply (inj pretty). exact H.
Qed.

(** [add_column(t2)] names the new column [col<n>] after the [n]
    columns the table has, so [rename_column('col2', 'funtimes')] works
    only on a table of exactly two columns: then the new column is
    renamed, otherwise the rename raises [KeyError]. *)
Theorem rename_new_column_spec names :
  ("col" +:+ pretty (length names))%string ∉ names -> "col2"%string ∉ names -> "funtimes"%string ∉ names ->
  rename_new_column names =
    if Nat.eqb (length names) 2 then Ok (names ++ ["funtimes"%string]) else Err (KeyError "col2").
Proof.
  intros Hn H2 Hf. unfold rename_new_column, add_column_unnamed. rewrite bool_decide_false by exact Hn. cbn [bind].
  unfold rename_column. destruct (Nat.eqb_spec (length names) 2) as [E|E].
  - rewrite E in *. rewrite bool_decide_true by (apply elem_of_app; right; left).
    rewrite bool_decide_false by discriminate. rewrite bool_decide_false.
    + f_equal. rewrite map_app. cbn [map]. rewrite bool_decide_true by reflexivity. f_equal.
      rewrite <- (map_id names) at 2. apply map_ext_in. intros c Hc. rewrite bool_decide_false; [reflexivity|].
      intros ->. apply H2, list_elem_of_In, Hc.
    + rewrite elem_of_app, list_elem_of_singleton. intros [?|?]; [contradiction | discriminate].
  - rewrite bool_decide_false; [reflexivity|]. rewrite elem_of_app, list_elem_of_singleton.
    intros [?|Hc]; [contradiction|]. apply E, col_name_inj. symmetry. exact Hc.
Qed.

(** ** Examples *)

(** A header is celestial when it names a first celestial axis type. *)
#[export] Instance ex_wcs_axes : WcsAxes := { is_celestial h := bool_decide (is_Some (hdr_get "CTYPE1" h)) }.

Definition ex_rect : image := [[1; 2; 3]; [4; 5; 6]]%Q.

Lemma transpose_involutive_witness :
  ex_rect <> [] /\ 0 < 3 /\ Forall (fun row => length row = 3) ex_rect /\
  transpose ex_rect = [[1; 4]; [2; 5]; [3; 6]]%Q /\ transpose (transpose ex_rect) = ex_rect.
Proof.
  assert (Hne : ex_rect <> []) by discriminate.
  assert (Hrows : Forall (fun row => length row = 3) ex_rect) by (apply (bool_decide_unpack _); vm_compute; reflexivity).
  split; [exact Hne|]. split; [lia|]. split; [exact Hrows|]. split; [vm_compute; reflexivity|].
  apply (transpose_involutive ex_rect 3 Hne); [lia | exact Hrows].
Defined.

Lemma simple_norm_limits_bounds_witness :
  concat ex_rect <> [] /\ (forall v, v ∈ concat ex_rect -> 1 <= v <= 6)%Q /\
  simple_norm_limits ex_rect = Some (41000 # 40000, 239000 # 40000)%Q /\
  exists vmin vmax, simple_norm_limits ex_rect = Some (vmin, vmax) /\ (1 <= vmin)%Q /\ (vmin <= vmax)%Q /\ (vmax <= 6)%Q.
Proof.
  assert (Hne : concat ex_rect <> []) by discriminate.
  assert (Hb : forall v, v ∈ concat ex_rect -> (1 <= v <= 6)%Q).
  { intros v Hv. change (v ∈ [1; 2; 3; 4; 5; 6]%Q) in Hv. repeat (apply elem_of_cons in Hv as [->|Hv]; [split; discriminate|]).
    exfalso; exact (not_elem_of_nil _ Hv). }
  split; [exact Hne|]. split; [exact Hb|]. split; [vm_compute; reflexivity|].
  exact (simple_norm_limits_bounds ex_rect 1 6 Hne Hb).
Defined.

Lemma plot_figure_shape_witness :
  fits_open ex_fd ex_clean_file = Ok (mk_hdu ex_image_header [[1; 2]; [3; 4]]%Q) /\
  exists fig, plot ex_fd ex_clean_file 0 = Ok fig /\
    length (fig_image fig) = 2 /\ Forall (fun col => length col = 2) (fig_image fig) /\
    fig_origin fig = "lower"%string /\ fig_y_inverted fig = true /\
    (fig_projection fig = Some ex_image_header <-> is_celestial ex_image_header = true) /\
    (fig_axes fig <> [] <-> is_celestial ex_image_header = true).
Proof.
  assert (Ho : fits_open ex_fd ex_clean_file = Ok (mk_hdu ex_image_header [[1; 2]; [3; 4]]%Q))
    by (vm_compute; reflexivity).
  split; [exact Ho|].
  apply (plot_figure_shape ex_fd ex_clean_file 0 _ 2 Ho); [left; reflexivity | discriminate | lia |].
  apply (bool_decide_unpack _). vm_compute. reflexivity.
Defined.


Lemma rename_new_column_spec_witness :
  table_cell = Ok ["A"; "B"; "funtimes"]%string /\
  rename_new_column ["A"; "B"]%string = Ok (app ["A"; "B"] ["funtimes"])%string.
Proof.
  split; [vm_compute; reflexivity|].
  refine (rename_new_column_spec ["A"; "B"]%string _ _ _);
    apply (bool_decide_unpack _); vm_compute; reflexivity.
Defined.

End Plotfits.
