(* ===== verification/Catalogs.v ===== *)
(** The hand-off between the two photometry notebooks: the photutils
    notebook writes its catalog with
    [catalogs.write('../resources/red_data/instrumental_photometry.txt',
    format='ascii.fixed_width', overwrite=True)]
    (src/notebooks/photutils.ipynb, lines 325-327), and the standard
    photometry notebook reads it back, keeps the valid rows with
    [read_catalog[read_catalog['valid'] == 'True']] (src/unnamed/part_000,
    lines 31-35) and splits them by image file (lines 54-58).

    The fixed-width text format writes a boolean as Python's [str(True)]
    and the reader gives the column back as text, which is why the
    selection compares with the string ['True'].  Number columns are
    carried as they are: their decimal rendering is not modelled.  The
    theorem: reading the file the photutils notebook wrote and applying
    the selection gives exactly the valid rows of [catalogs], and of them
    those of each image. *)

From S2P Require Import Prelude Stats Image Ccdred Detection.
From stdpp Require Import list gmap strings.

Module Catalogs.

Import Stats Image Ccdred Detection.
Local Open Scope string_scope.

(** A row of the text table as [Table.read(..., format='ascii.fixed_width')]
    returns it: [valid] is a string column. *)
Record text_row := mk_text_row {
  t_src : source; t_file : string; t_valid : string; t_ra : Q; t_dec : Q
}.

(** Text files on disk. *)
Notation text_disk := (gmap string (list text_row)).

(** [str(b)]. *)
Definition py_str_bool (b : bool) : string := if b then "True" else "False".

(** One row of [catalogs] as the writer renders it. *)
Definition write_row (r : cat_row) : text_row :=
  mk_text_row (row_src r) (row_file r) (py_str_bool (row_valid r)) (row_ra r) (row_dec r).

Definition catalog_name : string := path_join red_data_dir "instrumental_photometry.txt".

(** [catalogs.write(catalog_name, ..., overwrite=True)]. *)
Definition write_cell (td : text_disk) (catalogs : list cat_row) : text_disk :=
  <[catalog_name := write_row <$> catalogs]> td.

(** [table.Table.read(name, format='ascii.fixed_width')]. *)
Definition read_table (td : text_disk) (name : string) : result (list text_row) :=
  match td !! name with
  | Some t => Ok t
  | None => Err FileNotFoundError
  end.

(** [t[t['valid'] == 'True']]. *)
Definition select_valid (t : list text_row) : list text_row :=
  List.filter (fun r => String.eqb (t_valid r) "True") t.

(** [t[t['Filename'] == f]]. *)
Definition select_file (t : list text_row) (f : string) : list text_row :=
  List.filter (fun r => String.eqb (t_file r) f) t.

Definition b_image : string := "../resources/red_data/bfa_m67_b_1.fit".
Definition y_image : string := "../resources/red_data/bfa_m67_y_1.fit".

(** The reading cell (lines 31-35): [catalog]. *)
Definition read_cell (td : text_disk) : result (list text_row) :=
  read_catalog <- read_table td catalog_name;;
  Ok (select_valid read_catalog).

(** The selection cell (lines 52-58): [b_catalog] and [y_catalog]. *)
Definition split_cell (catalog : list text_row) : list text_row * list text_row :=
  (select_file catalog b_image, select_file catalog y_image).

(** The two cells in order. *)
Definition standard_inputs (td : text_disk) : result (list text_row * list text_row * list text_row) :=
  catalog <- read_cell td;;
  let '(b_catalog, y_catalog) := split_cell catalog in
  Ok (catalog, b_catalog, y_catalog).

(** ** Lemmas *)

Lemma py_str_bool_true b : String.eqb (py_str_bool b) "True" = b.
Proof. destruct b; reflexivity. Qed.

Lemma filter_fmap_comm {A B} (p : B -> bool) (g : A -> B) (l : list A) :
  List.filter p (g <$> l) = g <$> List.filter (fun x => p (g x)) l.
Proof. induction l as [|x l IH]; [reflexivity|]. cbn. destruct (p (g x)); rewrite IH; reflexivity. Qed.

Lemma filter_filter_and {A} (p q : A -> bool) (l : list A) :
  List.filter q (List.filter p l) = List.filter (fun x => p x && q x) l.
Proof.
  induction l as [|x l IH]; [reflexivity|]. cbn. destruct (p x); cbn; [|exact IH].
  destruct (q x); rewrite IH; reflexivity.
Qed.

(** Writing [catalogs] in the photutils notebook and reading the file
    back in the standard-photometry notebook is a round trip through the
    text format: [catalog] is exactly the text of the valid rows, and
    [b_catalog] and [y_catalog] those of the valid rows of each image, in
    order. *)
Theorem read_after_write td catalogs :
  standard_inputs (write_cell td catalogs) =
    Ok (write_row <$> List.filter row_valid catalogs,
        write_row <$> List.filter (fun r => row_valid r && String.eqb (row_file r) b_image) catalogs,
        write_row <$> List.filter (fun r => row_valid r && String.eqb (row_file r) y_image) catalogs).
Proof.
  unfold standard_inputs, read_cell, read_table, write_cell. rewrite lookup_insert_eq. cbn [bind].
  unfold split_cell, select_valid, select_file. rewrite filter_fmap_comm.
  rewrite (List.filter_ext _ row_valid) by (intros r; apply py_str_bool_true).
  rewrite !filter_fmap_comm, !filter_filter_and. reflexivity.
Qed.

End Catalogs.
