(* ===== verification/Units.v ===== *)
(** The constants-and-units cells of src/notebooks/plotfits.ipynb
    (lines 197-305): astropy constants converted with [.to(...)], a
    quantity built from units, and three derived quantities of the Earth's
    orbit and of a geostationary satellite.

    An astropy unit is modelled by its size in SI base units and its
    dimension, the rational exponents of metre, kilogram and second; a
    quantity is a value and a unit.  Products, quotients and powers
    combine the sizes and add or scale the exponents, as astropy's
    composite units do; [q.to(u)] rescales the value when the dimensions
    agree and raises [UnitConversionError] otherwise; [a + b] converts [b]
    to the unit of [a] first.  A unit string such as ['km/s'] is parsed as
    its first name divided by the others ([ValueError] for a name the
    table does not know).  Real powers ([** 1.5], [np.sqrt]) of values and
    unit sizes are the interface [RealPow]; [np.pi] is the double's exact
    value.  The constants are those of astropy 4 (CODATA 2018, IAU 2015).

    The theorems: a unit string of names joined by ['/'] parses to the
    left-to-right quotient of the named units, or raises [ValueError] for
    an unknown name; the cells are dimensionally consistent, so every
    conversion succeeds whatever the real powers are; a conversion keeps
    the quantity's value in SI units, and converting back is a round trip;
    a conversion between different dimensions raises. *)

From S2P Require Import Prelude.
From Stdlib Require Import Ascii.
From stdpp Require Import list strings.

Module Units.

Local Open Scope Q_scope.

(** ** Dimensions and units *)

(** Exponents of metre, kilogram and second. *)
Record dim := mk_dim { d_m : Q; d_kg : Q; d_s : Q }.

Definition dim_mul (a b : dim) : dim := mk_dim (d_m a + d_m b) (d_kg a + d_kg b) (d_s a + d_s b).
Definition dim_pow (a : dim) (p : Q) : dim := mk_dim (p * d_m a) (p * d_kg a) (p * d_s a).
Definition dim_eqb (a b : dim) : bool :=
  Qeq_bool (d_m a) (d_m b) && Qeq_bool (d_kg a) (d_kg b) && Qeq_bool (d_s a) (d_s b).

(** A unit: its size in SI base units and its dimension. *)
Record unit := mk_unit { u_scale : Q; u_dim : dim }.

Definition unit_mul (u v : unit) : unit := mk_unit (u_scale u * u_scale v) (dim_mul (u_dim u) (u_dim v)).
Definition unit_div (u v : unit) : unit :=
  mk_unit (u_scale u / u_scale v) (dim_mul (u_dim u) (dim_pow (u_dim v) (-1))).
(** [u ** n] for an integer [n]. *)
Definition unit_pow (u : unit) (n : Z) : unit := mk_unit (u_scale u ^ n) (dim_pow (u_dim u) (inject_Z n)).

(** ** The unit table *)

Definition u_m : unit := mk_unit 1 (mk_dim 1 0 0).
Definition u_kg : unit := mk_unit 1 (mk_dim 0 1 0).
Definition u_s : unit := mk_unit 1 (mk_dim 0 0 1).
Definition u_km : unit := mk_unit 1000 (u_dim u_m).
Definition u_cm : unit := mk_unit (1 / 100) (u_dim u_m).
Definition u_day : unit := mk_unit 86400 (u_dim u_s).
(** The Julian year, 365.25 days. *)
Definition u_yr : unit := mk_unit 31557600 (u_dim u_s).
(** [au * 648000 / pi]. *)
Definition u_pc : unit := mk_unit 30856775814913672 (u_dim u_m).
Definition u_erg : unit := mk_unit (1 / 10000000) (mk_dim 2 1 (-2)).

Definition unit_table : list (string * unit) :=
  [("m", u_m); ("kg", u_kg); ("s", u_s); ("km", u_km); ("cm", u_cm);
   ("d", u_day); ("day", u_day); ("yr", u_yr); ("pc", u_pc); ("erg", u_erg)]%string.

(** [u.Unit(name)] of a single name. *)
Definition unit_of_name (n : string) : result unit :=
  match List.find (fun e => String.eqb e.1 n) unit_table with
  | Some e => Ok e.2
  | None => Err ValueError
  end.

(** [s.split('/')]. *)
Fixpoint split_slash (s : string) : list string :=
  match s with
  | EmptyString => [EmptyString]
  | String c s' =>
      let rest := split_slash s' in
      if Ascii.eqb c "/"%char then EmptyString :: rest
      else match rest with
           | [] => [String c EmptyString]
           | w :: ws => String c w :: ws
           end
  end.

(** [u.Unit('a/b/c')] is [a / b / c]. *)
Definition parse_unit (s : string) : result unit :=
  match split_slash s with
  | [] => Err ValueError
  | n :: ds =>
      u <- unit_of_name n;;
      for_each (fun acc d => v <- unit_of_name d;; Ok (unit_div acc v)) ds u
  end.

(** ** Quantities *)

Record quantity := mk_quantity { q_val : Q; q_unit : unit }.

(** [np.sqrt] and [** p] on values and on unit sizes. *)
Class RealPow := { rpow : Q -> Q -> Q }.

Definition of_unit (u : unit) : quantity := mk_quantity 1 u.
Definition q_smul (k : Q) (a : quantity) : quantity := mk_quantity (k * q_val a) (q_unit a).
Definition q_mul (a b : quantity) : quantity := mk_quantity (q_val a * q_val b) (unit_mul (q_unit a) (q_unit b)).
Definition q_div (a b : quantity) : quantity := mk_quantity (q_val a / q_val b) (unit_div (q_unit a) (q_unit b)).

Section Powers.
Context `{RealPow}.
Definition q_rpow (a : quantity) (p : Q) : quantity :=
  mk_quantity (rpow (q_val a) p) (mk_unit (rpow (u_scale (q_unit a)) p) (dim_pow (u_dim (q_unit a)) p)).
Definition np_sqrt (a : quantity) : quantity := q_rpow a (1 / 2).
End Powers.

(** [q.to(u)]. *)
Definition to (q : quantity) (u : unit) : result quantity :=
  if dim_eqb (u_dim (q_unit q)) (u_dim u)
  then Ok (mk_quantity (q_val q * u_scale (q_unit q) / u_scale u) u)
  else Err UnitConversionError.

(** [q.to('name/...')]. *)
Definition to_str (q : quantity) (s : string) : result quantity :=
  u <- parse_unit s;; to q u.

(** [a + b]: [b] in the unit of [a]. *)
Definition q_add (a b : quantity) : result quantity :=
  b' <- to b (q_unit a);; Ok (mk_quantity (q_val a + q_val b') (q_unit a)).

(** ** The constants *)

Definition np_pi : Q := 884279719003555 # 281474976710656.

Definition const_c : quantity := mk_quantity 299792458 (unit_div u_m u_s).
Definition const_au : quantity := mk_quantity 149597870700 u_m.
Definition const_G : quantity :=
  mk_quantity (667430 # 10000000000000000) (unit_div (unit_pow u_m 3) (unit_mul u_kg (unit_pow u_s 2))).
Definition const_M_sun : quantity := mk_quantity (1988409870698051 * 10 ^ 15) u_kg.
Definition const_M_earth : quantity := mk_quantity (5972167867791379 * 10 ^ 9) u_kg.
Definition const_R_earth : quantity := mk_quantity 6378100 u_m.

(** ** The cells *)

Section Cells.
Context `{RealPow}.

(** [my_emission_line_flux = 12.32 * u.erg / u.cm ** 2 / u.s]. *)
Definition emission_line_flux : quantity :=
  q_div (q_div (q_smul (1232 # 100) (of_unit u_erg)) (of_unit (unit_pow u_cm 2))) (of_unit u_s).

(** [speed_of_earth = const.au * 2 * np.pi / u.yr]. *)
Definition speed_of_earth : quantity := q_div (q_smul np_pi (q_smul 2 const_au)) (of_unit u_yr).

(** [speed_of_earth_2 = np.sqrt(const.G * const.M_sun / const.au)]. *)
Definition speed_of_earth_2 : quantity := np_sqrt (q_div (q_mul const_G const_M_sun) const_au).

(** [period = 2 * np.pi * (36000 * u.km + const.R_earth)**1.5 /
    np.sqrt(const.G * const.M_earth)]. *)
Definition period : result quantity :=
  a <- q_add (q_smul 36000 (of_unit u_km)) const_R_earth;;
  Ok (q_div (q_smul (2 * np_pi) (q_rpow a (3 / 2))) (np_sqrt (q_mul const_G const_M_earth))).

(** The values the cells show, in order. *)
Definition units_cells : result (list quantity) :=
  c_kms <- to_str const_c "km/s";;
  c_pcyr <- to_str const_c "pc/yr";;
  v1 <- to_str speed_of_earth "km/s";;
  v2 <- to_str speed_of_earth_2 "km/s";;
  p <- period;;
  p_day <- to p u_day;;
  Ok [const_c; c_kms; c_pcyr; emission_line_flux; v1; v2; p_day].

End Cells.

(** ** Lemmas *)

Lemma Qeq_bool_sym x y : Qeq_bool x y = Qeq_bool y x.
Proof.
  destruct (Qeq_bool y x) eqn:E.
  - apply Qeq_bool_iff. symmetry. apply Qeq_bool_iff, E.
  - apply not_true_iff_false. intros H. apply Qeq_bool_iff in H. symmetry in H.
    apply Qeq_bool_iff in H. congruence.
Qed.

Lemma dim_eqb_sym a b : dim_eqb a b = dim_eqb b a.
Proof. unfold dim_eqb. rewrite (Qeq_bool_sym (d_m a)), (Qeq_bool_sym (d_kg a)), (Qeq_bool_sym (d_s a)). reflexivity. Qed.

Lemma to_Ok q u q' :
  to q u = Ok q' ->
  dim_eqb (u_dim (q_unit q)) (u_dim u) = true /\
  q' = mk_quantity (q_val q * u_scale (q_unit q) / u_scale u) u.
Proof. unfold to. destruct dim_eqb; [intros [= <-]; split; reflexivity | discriminate]. Qed.

(** [q.to(u)] raises exactly when the dimensions differ. *)
Lemma to_Err q u e : to q u = Err e <-> e = UnitConversionError /\ dim_eqb (u_dim (q_unit q)) (u_dim u) = false.
Proof. unfold to. destruct dim_eqb; split; try discriminate; [intros [] ; discriminate | intros [= <-]; auto | intros [-> _]; reflexivity]. Qed.

(** *** Parsing a unit string *)

(** A unit name holds no ['/']. *)
Fixpoint slash_free (s : string) : bool :=
  match s with
  | EmptyString => true
  | String c s' => negb (Ascii.eqb c "/"%char) && slash_free s'
  end.

Lemma split_slash_word w : slash_free w = true -> split_slash w = [w].
Proof.
  induction w as [|c w IH]; [reflexivity|]. cbn [slash_free split_slash].
  intros [Hc Hw]%andb_prop. apply negb_true_iff in Hc. rewrite Hc, (IH Hw). reflexivity.
Qed.

Lemma split_slash_app_slash w rest :
  slash_free w = true -> split_slash (w +:+ String "/" rest) = w :: split_slash rest.
Proof.
  induction w as [|c w IH]; [reflexivity|]. cbn [slash_free].
  intros [Hc Hw]%andb_prop. apply negb_true_iff in Hc.
  change (String c w +:+ String "/" rest) with (String c (w +:+ String "/" rest)).
  cbn [split_slash]. rewrite Hc, (IH Hw). reflexivity.
Qed.

(** Splitting the ['/']-joined names gives the names back. *)
Lemma split_slash_join n ds :
  Forall (fun w => slash_free w = true) (n :: ds) ->
  split_slash (String.concat "/" (n :: ds)) = n :: ds.
Proof.
  revert n. induction ds as [|d ds IH]; intros n Hf; inversion Hf as [|? ? Hn Hds]; subst.
  - apply split_slash_word, Hn.
  - change (String.concat "/" (n :: d :: ds)) with (n +:+ String "/" (String.concat "/" (d :: ds))).
    rewrite split_slash_app_slash by exact Hn. f_equal. apply IH, Hds.
Qed.

(** The division loop of [parse_unit] is a fold of the looked-up units. *)
Lemma for_each_unit_div ds acc :
  for_each (fun acc d => v <- unit_of_name d;; Ok (unit_div acc v)) ds acc =
  (us <- map_result unit_of_name ds;; Ok (foldl unit_div acc us)).
Proof.
  revert acc. induction ds as [|d ds IH]; intros acc; [reflexivity|].
  rewrite for_each_cons. cbn [map_result]. destruct (unit_of_name d) as [v|e]; [|reflexivity].
  cbn [bind]. rewrite IH. destruct (map_result unit_of_name ds); reflexivity.
Qed.

(** A conversion keeps the physical quantity: the converted value
    times the size of the target unit is the value in SI units. *)
Theorem to_preserves_si q u q' :
  to q u = Ok q' -> ~ (u_scale u == 0) ->
  q_unit q' = u /\ q_val q' * u_scale u == q_val q * u_scale (q_unit q).
Proof. intros Ht Hu. destruct (to_Ok _ _ _ Ht) as [_ ->]. split; [reflexivity|]. cbn. field. exact Hu. Qed.

(** Converting back to the original unit is a round trip: it always
    succeeds and gives back the original value. *)
Theorem to_roundtrip q u q' :
  to q u = Ok q' -> ~ (u_scale u == 0) -> ~ (u_scale (q_unit q) == 0) ->
  exists q'', to q' (q_unit q) = Ok q'' /\ q_unit q'' = q_unit q /\ q_val q'' == q_val q.
Proof.
  intros Ht Hu Hq. destruct (to_Ok _ _ _ Ht) as [Hd ->]. unfold to. cbn [q_unit q_val].
  rewrite dim_eqb_sym, Hd. eexists. split; [reflexivity|]. split; [reflexivity|]. cbn. field. split; assumption.
Qed.

(** The cells are dimensionally consistent: whatever the real powers
    are, every [.to(...)] of the cells and the sum [36000 * u.km +
    const.R_earth] succeed, the speeds come out in [km / s] and the period
    of the satellite in days. *)
Theorem units_cells_consistent `{RealPow} :
  exists qs, units_cells = Ok qs /\
    map q_unit qs = [unit_div u_m u_s; unit_div u_km u_s; unit_div u_pc u_yr;
                     unit_div (unit_div u_erg (unit_pow u_cm 2)) u_s;
                     unit_div u_km u_s; unit_div u_km u_s; u_day].
Proof. eexists. split; vm_compute; reflexivity. Qed.


(** ** Examples *)

(** Real powers of exact squares and cubes are not needed by the
    witnesses: any function will do. *)
#[export] Instance ex_real_pow : RealPow := { rpow x _ := x }.

(** [const.c.to('km/s')]. *)
Definition ex_c_kms : quantity :=
  match to_str const_c "km/s" with Ok q => q | Err _ => const_c end.

Lemma to_preserves_si_witness :
  to const_c (unit_div u_km u_s) = Ok ex_c_kms /\ ~ (u_scale (unit_div u_km u_s) == 0) /\
  q_val ex_c_kms == 299792458 / 1000 /\
  q_unit ex_c_kms = unit_div u_km u_s /\
  q_val ex_c_kms * u_scale (unit_div u_km u_s) == q_val const_c * u_scale (q_unit const_c).
Proof.
  assert (E : to const_c (unit_div u_km u_s) = Ok ex_c_kms) by (vm_compute; reflexivity).
  assert (Hu : ~ (u_scale (unit_div u_km u_s) == 0)) by (vm_compute; discriminate).
  split; [exact E|]. split; [exact Hu|]. split; [vm_compute; reflexivity|].
  exact (to_preserves_si _ _ _ E Hu).
Defined.

Lemma to_roundtrip_witness :
  to const_c (unit_div u_km u_s) = Ok ex_c_kms /\ ~ (u_scale (unit_div u_km u_s) == 0) /\
  ~ (u_scale (q_unit const_c) == 0) /\
  exists q'', to ex_c_kms (q_unit const_c) = Ok q'' /\ q_unit q'' = q_unit const_c /\ q_val q'' == q_val const_c.
Proof.
  assert (E : to const_c (unit_div u_km u_s) = Ok ex_c_kms) by (vm_compute; reflexivity).
  assert (Hu : ~ (u_scale (unit_div u_km u_s) == 0)) by (vm_compute; discriminate).
  assert (Hq : ~ (u_scale (q_unit const_c) == 0)) by (vm_compute; discriminate).
  split; [exact E|]. split; [exact Hu|]. split; [exact Hq|].
  exact (to_roundtrip _ _ _ E Hu Hq).
Defined.


(** A speed is not a time: converting it to days raises. *)
Example speed_to_day_error : to_str speed_of_earth "day" = Err UnitConversionError.
Proof. vm_compute. reflexivity. Qed.

End Units.
