(* ===== verification/Coords.v ===== *)
(** The coordinate-definition cells of src/notebooks/plotfits.ipynb
    (lines 328-351): one point of the sky given six ways, as quantities,
    as numbers with a unit, and as sexagesimal strings in the forms
    ['00h42m30s'], ['00h42.5m'], ['00 42 30 +41 12 00'] and
    ['00:42.5 +41:12'], which the text above them (line 337) says all
    represent the same location.

    Modelled: astropy's angle lexer (the tokens [UINT], [UFLOAT],
    [SIGN], [COLON] and the unit letters [h], [d], [m], [s]), the
    productions of [parse_angle] for the hour/degree, colon, spaced and
    simple forms, with the sign applied to the whole tuple
    ([np.copysign] on the first field); [Angle]'s unit (the string's own
    unit first, else the [unit=] argument, else [UnitsError]) and the
    hour (for hour angles), minute and second range checks; [Longitude]'s wrapping into
    [0, 360) and [Latitude]'s [-90, 90] check; [SkyCoord]'s split of a
    single string into RA and Dec ([_parse_ra_dec]).  Angles are exact
    rationals in degrees; the spelled-out unit names ([hour], [deg],
    ...) and the unicode symbols of the lexer are not modelled.

    The theorem: the six cells give the same coordinate, (10.625, 41.2)
    degrees. *)

From S2P Require Import Prelude.
From Stdlib Require Import Ascii Qround.
From stdpp Require Import list strings.

Module Coords.

Local Open Scope Q_scope.

(** ** The lexer of [astropy.coordinates.angle_formats] *)

Inductive token :=
| UINT (v : Z)
| UFLOAT (v : Q)
| SIGN (neg : bool)
| HOUR
| DEGREE
| MINUTE
| SECOND
| COLON.

Definition digit_of (c : ascii) : option Z :=
  let n := Z.of_nat (nat_of_ascii c) in
  if ((48 <=? n) && (n <=? 57))%Z then Some (n - 48)%Z else None.

(** A run of digits: its value, its length and the rest of the string. *)
Fixpoint lex_digits (s : string) (acc : Z) (len : nat) : Z * nat * string :=
  match s with
  | String c s' =>
      match digit_of c with
      | Some v => lex_digits s' (10 * acc + v)%Z (S len)
      | None => (acc, len, s)
      end
  | EmptyString => (acc, len, EmptyString)
  end.

(** [t_UFLOAT] (digits, a dot, digits) before [t_UINT]; whitespace is
    ignored; any other character is a lexing error ([ValueError]).  The
    fuel is the length of the string: each token consumes a character. *)
Fixpoint lex (fuel : nat) (s : string) : result (list token) :=
  match fuel with
  | O => Err ValueError
  | S f =>
      match s with
      | EmptyString => Ok []
      | String c s' =>
          let tok t := ts <- lex f s';; Ok (t :: ts) in
          if Ascii.eqb c " " then lex f s'
          else if Ascii.eqb c "+" then tok (SIGN false)
          else if Ascii.eqb c "-" then tok (SIGN true)
          else if Ascii.eqb c "h" then tok HOUR
          else if Ascii.eqb c "d" then tok DEGREE
          else if Ascii.eqb c "m" then tok MINUTE
          else if Ascii.eqb c "s" then tok SECOND
          else if Ascii.eqb c ":" then tok COLON
          else match digit_of c with
               | None => Err ValueError
               | Some _ =>
                   let '(v, _, r) := lex_digits s 0 0 in
                   match r with
                   | String d r' =>
                       if Ascii.eqb d "." then
                         let '(w, k, r'') := lex_digits r' 0 0 in
                         ts <- lex f r'';; Ok (UFLOAT (inject_Z v + inject_Z w / inject_Z (10 ^ Z.of_nat k)) :: ts)
                       else ts <- lex f r;; Ok (UINT v :: ts)
                   | EmptyString => ts <- lex f r;; Ok (UINT v :: ts)
                   end
               end
      end
  end.

Definition tokenize (s : string) : result (list token) := lex (S (String.length s)) s.

(** ** [parse_angle] *)

Inductive angle_unit := Hourangle | Deg.

(** A parsed angle: a sign and one to three sexagesimal fields, or a
    single value; with the unit the string names, if any. *)
Record parsed := mk_parsed { p_neg : bool; p_fields : Q * Q * Q; p_unit : option angle_unit }.

Definition ufloat (t : token) : option Q :=
  match t with UINT v => Some (inject_Z v) | UFLOAT v => Some v | _ => None end.

Definition hd_unit (t : token) : option angle_unit :=
  match t with HOUR => Some Hourangle | DEGREE => Some Deg | _ => None end.

(** The productions [hms], [dms], [colon], [spaced] and [simple], after
    the optional [SIGN]. *)
Definition parse_unsigned (ts : list token) : option (Q * Q * Q * option angle_unit) :=
  match ts with
  | [UINT a; u] =>
      match hd_unit u with Some un => Some (inject_Z a, 0, 0, Some un) | None =>
        match ufloat u with Some x => Some (inject_Z a, x, 0, None) | None => None end end
  | [UFLOAT a; u] => match hd_unit u with Some un => Some (a, 0, 0, Some un) | None => None end
  | [UINT a; u; x] =>
      match hd_unit u, ufloat x with
      | Some un, Some xv => Some (inject_Z a, xv, 0, Some un)
      | None, _ => match u, ufloat x with
                   | COLON, Some xv => Some (inject_Z a, xv, 0, None)
                   | UINT b, Some xv => Some (inject_Z a, inject_Z b, xv, None)
                   | _, _ => None
                   end
      | _, _ => None
      end
  | [UINT a; u; b; MINUTE] =>
      match hd_unit u, ufloat b with Some un, Some bv => Some (inject_Z a, bv, 0, Some un) | _, _ => None end
  | [UINT a; u; UINT b; MINUTE; x] =>
      match hd_unit u, ufloat x with Some un, Some xv => Some (inject_Z a, inject_Z b, xv, Some un) | _, _ => None end
  | [UINT a; COLON; UINT b; COLON; x] =>
      match ufloat x with Some xv => Some (inject_Z a, inject_Z b, xv, None) | None => None end
  | [UINT a; u; UINT b; MINUTE; x; SECOND] =>
      match hd_unit u, ufloat x with Some un, Some xv => Some (inject_Z a, inject_Z b, xv, Some un) | _, _ => None end
  | [x] => match ufloat x with Some xv => Some (xv, 0, 0, None) | None => None end
  | _ => None
  end.

(** [parse_angle(s)]: lexing and parsing errors are [ValueError]. *)
Definition parse_angle (s : string) : result parsed :=
  ts <- tokenize s;;
  let '(neg, ts') := match ts with SIGN n :: r => (n, r) | _ => (false, ts) end in
  match parse_unsigned ts' with
  | Some (a, b, c, u) => Ok (mk_parsed neg (a, b, c) u)
  | None => Err ValueError
  end.

(** [Angle._tuple_to_float(angle, unit)]: [hms_to_hours] for hours, whose
    [check_hms_ranges] raises [IllegalHourError] for more than 24 hours,
    and [dms_to_degrees] for degrees; both raise [IllegalMinuteError] and
    [IllegalSecondError] above 60 (each a [RangeError], a [ValueError];
    exactly 24 hours or 60 minutes or seconds only warns). *)
Definition tuple_to_float (u : angle_unit) (p : parsed) : result Q :=
  let '(a, b, c) := p_fields p in
  if match u with Hourangle => Qltb 24 a | Deg => false end || Qltb 60 b || Qltb 60 c
  then Err ValueError
  else let v := a + b / 60 + c / 3600 in Ok (if p_neg p then - v else v).

(** An angle in degrees. *)
Definition to_degrees (u : angle_unit) (v : Q) : Q :=
  match u with Hourangle => 15 * v | Deg => v end.

(** [Angle(s, unit)]: the string's unit wins, else the [unit=] argument,
    else [UnitsError]. *)
Definition angle_of_string (s : string) (unit : option angle_unit) : result Q :=
  p <- parse_angle s;;
  u <- match p_unit p, unit with
       | Some u, _ => Ok u
       | None, Some u => Ok u
       | None, None => Err (Exception "UnitsError")
       end;;
  v <- tuple_to_float u p;;
  Ok (to_degrees u v).

(** [Longitude]: wrapped into [0, 360). *)
Definition wrap_360 (x : Q) : Q := x - 360 * inject_Z (Qfloor (x / 360)).

(** [Latitude]: within [-90, 90]. *)
Definition check_latitude (x : Q) : result Q :=
  if Qltb x (-90) || Qltb 90 x then Err ValueError else Ok x.

(** ** [SkyCoord] *)

(** An argument of [SkyCoord]: a quantity in degrees, a bare number or a string. *)
Inductive coord_arg := CQty (deg : Q) | CNum (x : Q) | CStr (s : string).

Definition angle_of_arg (a : coord_arg) (unit : option angle_unit) : result Q :=
  match a with
  | CQty deg => Ok deg
  | CNum x => match unit with Some u => Ok (to_degrees u x) | None => Err (Exception "UnitsError") end
  | CStr s => angle_of_string s unit
  end.

(** [s.split()]: the whitespace-separated words. *)
Fixpoint words_acc (s : string) (cur : string) : list string :=
  match s with
  | EmptyString => if String.eqb cur "" then [] else [cur]
  | String c s' =>
      if Ascii.eqb c " " then (if String.eqb cur "" then words_acc s' "" else cur :: words_acc s' "")
      else words_acc s' (cur ++ String c EmptyString)
  end.
Definition words (s : string) : list string := words_acc s "".

(** [_parse_ra_dec] of a single string: six words are two groups of
    three; two words are RA and Dec. *)
Definition parse_ra_dec (s : string) : result (string * string) :=
  match words s with
  | [a; b; c; d; e; f] => Ok (a +:+ " " +:+ b +:+ " " +:+ c, d +:+ " " +:+ e +:+ " " +:+ f)
  | [a; b] => Ok (a, b)
  | _ => Err ValueError
  end.

(** [SkyCoord(ra, dec, unit=(u1, u2))] or [SkyCoord('ra dec', unit=...)]:
    [(ra, dec)] in degrees. *)
Definition skycoord (args : list coord_arg) (unit : option (angle_unit * angle_unit)) : result (Q * Q) :=
  p <- match args with
       | [CStr s] => rd <- parse_ra_dec s;; Ok (CStr rd.1, CStr rd.2)
       | [r; d] => Ok (r, d)
       | _ => Err TypeError
       end;;
  let '(ra_arg, dec_arg) := p in
  ra <- angle_of_arg ra_arg (fst <$> unit);;
  dec <- angle_of_arg dec_arg (snd <$> unit);;
  dec' <- check_latitude dec;;
  Ok (wrap_360 ra, dec').

(** ** The cells *)

(** Lines 329 and 346-350, in order. *)
Definition coord_cells : list (result (Q * Q)) :=
  [skycoord [CQty (85 # 8); CQty (206 # 5)] None;
   skycoord [CNum (85 # 8); CNum (206 # 5)] (Some (Deg, Deg));
   skycoord [CStr "00h42m30s"; CStr "+41d12m00s"] None;
   skycoord [CStr "00h42.5m"; CStr "+41d12m"] None;
   skycoord [CStr "00 42 30 +41 12 00"] (Some (Hourangle, Deg));
   skycoord [CStr "00:42.5 +41:12"] (Some (Hourangle, Deg))].

(** ** Lemmas on the lexer *)

Definition is_digit (c : ascii) : Prop := digit_of c <> None.

(** The value of a run of digits. *)
Fixpoint dval (acc : Z) (ds : list ascii) : Z :=
  match ds with
  | [] => acc
  | c :: r => dval (10 * acc + default 0%Z (digit_of c))%Z r
  end.

Definition sl (ds : list ascii) : string := String.string_of_list_ascii ds.

(** The character after a run of digits ends it. *)
Definition ends_run (s : string) : Prop :=
  match s with String c _ => digit_of c = None | EmptyString => True end.

Lemma lex_digits_app ds rest acc len :
  Forall is_digit ds -> ends_run rest ->
  lex_digits (sl ds ++ rest) acc len = (dval acc ds, (len + length ds)%nat, rest).
Proof.
  intros Hds Hr. revert acc len. induction Hds as [|c ds Hc _ IH]; intros acc len.
  - cbn [sl String.string_of_list_ascii dval length]. rewrite Nat.add_0_r. change ("" +:+ rest) with rest.
    destruct rest as [|c rest]; cbn [lex_digits]; [reflexivity|]. cbn [ends_run] in Hr. rewrite Hr. reflexivity.
  - cbn [sl String.string_of_list_ascii dval length].
    change (String c (String.string_of_list_ascii ds) +:+ rest) with (String c (sl ds +:+ rest)).
    cbn [lex_digits]. destruct (digit_of c) as [v|] eqn:E; [|contradiction]. rewrite IH. cbn [default].
    f_equal. f_equal. lia.
Qed.

Lemma digit_not_special c : is_digit c ->
  Ascii.eqb c " " = false /\ Ascii.eqb c "+" = false /\ Ascii.eqb c "-" = false /\ Ascii.eqb c "h" = false /\
  Ascii.eqb c "d" = false /\ Ascii.eqb c "m" = false /\ Ascii.eqb c "s" = false /\ Ascii.eqb c ":" = false.
Proof.
  unfold is_digit, digit_of. intros Hc.
  destruct ((48 <=? Z.of_nat (nat_of_ascii c)) && (Z.of_nat (nat_of_ascii c) <=? 57))%Z eqn:E; [|congruence].
  apply andb_true_iff in E as [E1 E2]. apply Z.leb_le in E1, E2.
  repeat split; apply Ascii.eqb_neq; intros ->; vm_compute in E1, E2; congruence.
Qed.

(** A run of digits, followed by a separator that is not a dot, is one [UINT]. *)
Lemma lex_uint f ds rest :
  ds <> [] -> Forall is_digit ds -> ends_run rest -> (match rest with String c _ => c <> "."%char | _ => True end) ->
  lex (S f) (sl ds ++ rest) = (ts <- lex f rest;; Ok (UINT (dval 0 ds) :: ts)).
Proof.
  intros Hne Hds Hr Hdot. destruct ds as [|c ds]; [congruence|]. pose proof Hds as Hds'.
  inversion Hds' as [|? ? Hc _]; subst. destruct (digit_not_special c Hc) as (E1 & E2 & E3 & E4 & E5 & E6 & E7 & E8).
  change (sl (c :: ds) +:+ rest) with (String c (sl ds +:+ rest)). cbn [lex]. rewrite E1, E2, E3, E4, E5, E6, E7, E8.
  destruct (digit_of c) as [v|] eqn:Ec; [|contradiction].
  change (String c (sl ds +:+ rest)) with (sl (c :: ds) +:+ rest).
  rewrite (lex_digits_app (c :: ds) rest 0 0 Hds Hr).
  destruct rest as [|d rest]; [reflexivity|]. destruct (Ascii.eqb d ".") eqn:Ed; [|reflexivity].
  apply Ascii.eqb_eq in Ed. contradiction.
Qed.

Lemma sl_app_length ds s : String.length (sl ds ++ s) = (length ds + String.length s)%nat.
Proof. induction ds as [|c ds IH]; [reflexivity|]. cbn. rewrite <- IH. reflexivity. Qed.

Lemma sl_app_nil ds : sl ds +:+ "" = sl ds.
Proof.
  induction ds as [|c ds IH]; [reflexivity|].
  change (sl (c :: ds) +:+ "") with (String c (sl ds +:+ "")). rewrite IH. reflexivity.
Qed.

Lemma sl_length ds : String.length (sl ds) = length ds.
Proof. rewrite <- (sl_app_nil ds), sl_app_length. cbn [String.length]. lia. Qed.

Lemma lex_sep f c t rest :
  (c, t) = ("h"%char, Some HOUR) \/ (c, t) = ("d"%char, Some DEGREE) \/ (c, t) = ("m"%char, Some MINUTE) \/
  (c, t) = ("s"%char, Some SECOND) \/ (c, t) = (":"%char, Some COLON) \/ (c, t) = (" "%char, None) ->
  lex (S f) (String c rest) = match t with Some tk => ts <- lex f rest;; Ok (tk :: ts) | None => lex f rest end.
Proof. intros H. repeat destruct H as [H|H]; injection H as -> ->; reflexivity. Qed.

(** The unit letter of the [hms] and [dms] spellings. *)
Definition unit_letter (u : angle_unit) : ascii := match u with Hourangle => "h" | Deg => "d" end.
Definition unit_token (u : angle_unit) : token := match u with Hourangle => HOUR | Deg => DEGREE end.

Section Spellings.
Variables (a b c : list ascii).
Hypotheses (Ha : a <> []) (Hb : b <> []) (Hc : c <> []).
Hypotheses (Da : Forall is_digit a) (Db : Forall is_digit b) (Dc : Forall is_digit c).

Let K : nat := (length a + length b + length c - 3)%nat.

Lemma length_pos (l : list ascii) : l <> [] -> (1 <= length l)%nat.
Proof. destruct l; [congruence | cbn; lia]. Qed.

Ltac uint_step := rewrite lex_uint by (assumption || exact I || reflexivity || discriminate); cbn [bind].

Lemma tokenize_letters u :
  tokenize (sl a +:+ String (unit_letter u) (sl b +:+ String "m" (sl c +:+ "s"))) =
  Ok [UINT (dval 0 a); unit_token u; UINT (dval 0 b); MINUTE; UINT (dval 0 c); SECOND].
Proof.
  pose proof (length_pos a Ha). pose proof (length_pos b Hb). pose proof (length_pos c Hc).
  unfold tokenize. do 3 (rewrite ?sl_app_length, ?sl_length; cbn [String.length]).
  replace (S (length a + S (length b + S (length c + 1)))) with (S (S (S (S (S (S (S K))))))) by (unfold K; lia).
  destruct u; uint_step; rewrite (lex_sep _ _ (Some _)) by auto; cbn [bind];
  uint_step; rewrite (lex_sep _ "m" (Some MINUTE)) by auto; cbn [bind];
  uint_step; rewrite (lex_sep _ "s" (Some SECOND)) by auto; reflexivity.
Qed.

Lemma tokenize_seps (sep : ascii) (t : option token) :
  (sep, t) = (":"%char, Some COLON) \/ (sep, t) = (" "%char, None) ->
  tokenize (sl a +:+ String sep (sl b +:+ String sep (sl c))) =
  Ok (UINT (dval 0 a) :: option_list t ++ UINT (dval 0 b) :: option_list t ++ [UINT (dval 0 c)]).
Proof.
  intros Hsep. pose proof (length_pos a Ha). pose proof (length_pos b Hb). pose proof (length_pos c Hc).
  unfold tokenize. do 3 (rewrite ?sl_app_length, ?sl_length; cbn [String.length]).
  replace (S (length a + S (length b + S (length c)))) with (S (S (S (S (S (S K)))))) by (unfold K; lia).
  destruct Hsep as [[= -> ->] | [= -> ->]]; cbn [option_list app].
  - uint_step. rewrite (lex_sep _ ":" (Some COLON)) by (do 4 right; left; reflexivity). cbn [bind].
    uint_step. rewrite (lex_sep _ ":" (Some COLON)) by (do 4 right; left; reflexivity). cbn [bind].
    rewrite <- (sl_app_nil c). uint_step. reflexivity.
  - uint_step. rewrite (lex_sep _ " " None) by (do 5 right; reflexivity).
    uint_step. rewrite (lex_sep _ " " None) by (do 5 right; reflexivity).
    rewrite <- (sl_app_nil c). uint_step. reflexivity.
Qed.

(** (C20) The letter, colon and spaced spellings of the same fields give
    the same angle: [parse_angle] reads ['AhBmCs'] (or ['AdBmCs']) as
    ['A:B:C'] and ['A B C'] with that unit, for all digit strings [A],
    [B], [C]; and that angle is [A + B/60 + C/3600] hours (or degrees)
    unless a minute or second exceeds 60 or, for hours, the hours exceed
    24, where all three raise. *)
Theorem sexagesimal_spellings_agree u :
  angle_of_string (sl a +:+ String (unit_letter u) (sl b +:+ String "m" (sl c +:+ "s"))) None =
    angle_of_string (sl a +:+ String ":" (sl b +:+ String ":" (sl c))) (Some u) /\
  angle_of_string (sl a +:+ String " " (sl b +:+ String " " (sl c))) (Some u) =
    angle_of_string (sl a +:+ String ":" (sl b +:+ String ":" (sl c))) (Some u) /\
  angle_of_string (sl a +:+ String ":" (sl b +:+ String ":" (sl c))) (Some u) =
    (let h := inject_Z (dval 0 a) in let m := inject_Z (dval 0 b) in let s := inject_Z (dval 0 c) in
     if match u with Hourangle => Qltb 24 h | Deg => false end || Qltb 60 m || Qltb 60 s
     then Err ValueError else Ok (to_degrees u (h + m / 60 + s / 3600))).
Proof.
  unfold angle_of_string, parse_angle.
  rewrite tokenize_letters, (tokenize_seps ":" (Some COLON)), (tokenize_seps " " None) by auto.
  destruct u; cbn; repeat split; try reflexivity;
    repeat match goal with |- context [if ?b then _ else _] => destruct b end; reflexivity.
Qed.

End Spellings.

(** The six definitions of the coordinate cells give the same
    point, RA 10.625 and Dec 41.2 degrees, as the text of the notebook
    says. *)
Theorem coord_cells_same_location :
  Forall (fun r => match r with Ok (ra, dec) => ra == 85 # 8 /\ dec == 206 # 5 | Err _ => False end) coord_cells.
Proof. vm_compute. repeat constructor. Qed.

(** ** Witnesses *)

Definition w_h : list ascii := ["0"; "0"]%char.
Definition w_m : list ascii := ["4"; "2"]%char.
Definition w_s : list ascii := ["3"; "0"]%char.

Lemma sexagesimal_spellings_agree_witness :
  angle_of_string (sl w_h +:+ String (unit_letter Hourangle) (sl w_m +:+ String "m" (sl w_s +:+ "s"))) None =
    angle_of_string (sl w_h +:+ String ":" (sl w_m +:+ String ":" (sl w_s))) (Some Hourangle) /\
  angle_of_string (sl w_h +:+ String " " (sl w_m +:+ String " " (sl w_s))) (Some Hourangle) =
    angle_of_string (sl w_h +:+ String ":" (sl w_m +:+ String ":" (sl w_s))) (Some Hourangle) /\
  angle_of_string (sl w_h +:+ String ":" (sl w_m +:+ String ":" (sl w_s))) (Some Hourangle) =
    (let h := inject_Z (dval 0 w_h) in let m := inject_Z (dval 0 w_m) in let s := inject_Z (dval 0 w_s) in
     if match Hourangle with Hourangle => Qltb 24 h | Deg => false end || Qltb 60 m || Qltb 60 s
     then Err ValueError else Ok (to_degrees Hourangle (h + m / 60 + s / 3600))).
Proof.
  apply (sexagesimal_spellings_agree w_h w_m w_s); try discriminate;
    repeat constructor; unfold is_digit; vm_compute; discriminate.
Defined.

End Coords.
