(* ===== verification/Calendar.v ===== *)
(** The two calendars behind astropy's [Time] and Python's [datetime],
    which the time cells of src/notebooks/plotfits.ipynb (lines 479-561)
    go through: CPython's proleptic Gregorian ordinals ([_ymd2ord] and
    [_ord2ymd] of Lib/datetime.py: day 1 is 0001-01-01), which
    [datetime - timedelta] and [astimezone] use, and ERFA's [eraCal2jd] and
    the Fliegel-Van Flandern day loop of [eraJd2cal], which astropy uses to
    turn a date into a Julian date and back.

    Both are transcribed with their integer divisions: Python's [//],
    [divmod] and [>>] are [Z.div], [Z.modulo] and [Z.shiftr] (floor); C's
    [/] and [%] on [long] are [Z.quot] and [Z.rem] (truncation).

    The theorems: both calendars are periodic with the 400-year Gregorian
    cycle of 146097 days; each pair of conversions is a round trip on the
    whole range of [datetime] (years 1 to 9999); and the two calendars
    agree: [eraCal2jd] is the ordinal shifted to the Modified Julian Date,
    and the ERFA day loop inverts the Python ordinal.  Each is proved by
    periodicity from the first cycle.  The cycle is not checked day by
    day: both [_ord2ymd] and the ERFA day loop are chains of divisions,
    and on an interval where every quotient of the chain is the same at
    both ends the date moves with the day number (division is monotone).
    Each month is cut into at most three such pieces, and one evaluation
    checks the 4800 months of the cycle piece by piece. *)

From S2P Require Import Prelude.
From stdpp Require Import list.

Module Calendar.

Local Open Scope Z_scope.

(** ** CPython's proleptic Gregorian calendar *)

Definition DAYS_IN_MONTH : list Z := [-1; 31; 28; 31; 30; 31; 30; 31; 31; 30; 31; 30; 31].

(** [_DAYS_BEFORE_MONTH], built by the module's loop over
    [_DAYS_IN_MONTH[1:]]. *)
Fixpoint days_before (dbm : Z) (dims : list Z) : list Z :=
  match dims with
  | [] => []
  | d :: ds => dbm :: days_before (dbm + d) ds
  end.
Definition DAYS_BEFORE_MONTH : list Z := -1 :: days_before 0 (tail DAYS_IN_MONTH).

(** [l[i]] of the module's tables, read at valid indices only. *)
Definition tbl (l : list Z) (i : Z) : Z := nth (Z.to_nat i) l 0.

Definition is_leap (year : Z) : bool :=
  (year mod 4 =? 0) && (negb (year mod 100 =? 0) || (year mod 400 =? 0)).

Definition days_before_year (year : Z) : Z :=
  let y := year - 1 in y * 365 + y / 4 - y / 100 + y / 400.

Definition days_in_month (year month : Z) : Z :=
  if (month =? 2) && is_leap year then 29 else tbl DAYS_IN_MONTH month.

Definition days_before_month (year month : Z) : Z :=
  tbl DAYS_BEFORE_MONTH month + (if (month >? 2) && is_leap year then 1 else 0).

(** [_ymd2ord(year, month, day)]. *)
Definition ymd2ord (year month day : Z) : Z :=
  days_before_year year + days_before_month year month + day.

Definition DI400Y : Z := 146097.
Definition DI100Y : Z := 36524.
Definition DI4Y : Z := 1461.

(** [_ord2ymd(n)]. *)
Definition ord2ymd (n : Z) : Z * Z * Z :=
  let n := n - 1 in
  let n400 := n / DI400Y in let n := n mod DI400Y in
  let year := n400 * 400 + 1 in
  let n100 := n / DI100Y in let n := n mod DI100Y in
  let n4 := n / DI4Y in let n := n mod DI4Y in
  let n1 := n / 365 in let n := n mod 365 in
  let year := year + n100 * 100 + n4 * 4 + n1 in
  if (n1 =? 4) || (n100 =? 4) then (year - 1, 12, 31)
  else
    let leapyear := (n1 =? 3) && (negb (n4 =? 24) || (n100 =? 3)) in
    let month := Z.shiftr (n + 50) 5 in
    let preceding := tbl DAYS_BEFORE_MONTH month + (if (month >? 2) && leapyear then 1 else 0) in
    if preceding >? n then
      let month := month - 1 in
      let preceding := preceding - (tbl DAYS_IN_MONTH month + (if (month =? 2) && leapyear then 1 else 0)) in
      (year, month, n - preceding + 1)
    else (year, month, n - preceding + 1).

(** The dates [datetime] accepts: [MINYEAR <= year <= MAXYEAR], a month
    and a day of that month. *)
Definition valid_date (year month day : Z) : bool :=
  (1 <=? year) && (year <=? 9999) && (1 <=? month) && (month <=? 12) &&
  (1 <=? day) && (day <=? days_in_month year month).

(** [_MAXORDINAL], the ordinal of 9999-12-31. *)
Definition MAXORDINAL : Z := 3652059.

(** ** ERFA's calendar *)

Definition mtab : list Z := [31; 28; 31; 30; 31; 30; 31; 31; 30; 31; 30; 31].
Definition IYMIN : Z := -4799.

(** [eraCal2jd(iy, im, id, &djm0, &djm)]: the Modified Julian Date [djm]
    of the date at 0h ([djm0] is 2400000.5).  A negative status (bad year,
    month or day) is raised by astropy's ERFA wrapper as [ErfaError], a
    [ValueError]. *)
Definition cal2jd (iy im id : Z) : result Z :=
  if iy <? IYMIN then Err ValueError
  else if (im <? 1) || (12 <? im) then Err ValueError
  else
    let ly := if (im =? 2) && (Z.rem iy 4 =? 0) && (negb (Z.rem iy 100 =? 0) || (Z.rem iy 400 =? 0)) then 1 else 0 in
    if (id <? 1) || (tbl mtab (im - 1) + ly <? id) then Err ValueError
    else
      let my := Z.quot (im - 14) 12 in
      let iypmy := iy + my in
      Ok (Z.quot (1461 * (iypmy + 4800)) 4 + Z.quot (367 * (im - 2 - 12 * my)) 12
          - Z.quot (3 * Z.quot (iypmy + 4900) 100) 4 + id - 2432076).

(** The day loop of [eraJd2cal]: the Gregorian date of the Julian day
    number [jd] (the day that starts at the 0h following JD [jd - 0.5]). *)
Definition jd2cal_day (jd : Z) : Z * Z * Z :=
  let l := jd + 68569 in
  let n := Z.quot (4 * l) 146097 in
  let l := l - Z.quot (146097 * n + 3) 4 in
  let i := Z.quot (4000 * (l + 1)) 1461001 in
  let l := l - Z.quot (1461 * i) 4 + 31 in
  let k := Z.quot (80 * l) 2447 in
  let id := l - Z.quot (2447 * k) 80 in
  let l := Z.quot k 11 in
  let im := k + 2 - 12 * l in
  let iy := 100 * (n - 49) + i + l in
  (iy, im, id).

(** The Modified Julian Date of ordinal 0 and the Julian day number of
    ordinal 0: 0001-01-01 is MJD -678575 and JD day 1721426. *)
Definition ORD_MJD : Z := 678576.
Definition ORD_JD : Z := 1721425.

(** ** The 400-year cycle of the Python calendar *)

(** [400] is a multiple of each modulus of the leap-year rule. *)
Lemma mod_400 y c : c = 4 \/ c = 100 \/ c = 400 -> (y + 400) mod c = y mod c.
Proof.
  intros Hc. rewrite <- (Z_mod_plus_full y (400 / c) c). f_equal.
  destruct Hc as [->|[->| ->]]; reflexivity.
Qed.

Lemma is_leap_400 y : is_leap (y + 400) = is_leap y.
Proof. unfold is_leap. rewrite !mod_400 by lia. reflexivity. Qed.

Lemma days_in_month_400 y m : days_in_month (y + 400) m = days_in_month y m.
Proof. unfold days_in_month. rewrite is_leap_400. reflexivity. Qed.

Lemma days_before_year_400 y : days_before_year (y + 400) = days_before_year y + DI400Y.
Proof.
  unfold days_before_year, DI400Y.
  replace (y + 400 - 1) with (y - 1 + 100 * 4) by lia. rewrite Z.div_add by lia.
  replace (y - 1 + 100 * 4) with (y - 1 + 4 * 100) by lia. rewrite Z.div_add by lia.
  replace (y - 1 + 4 * 100) with (y - 1 + 1 * 400) by lia. rewrite Z.div_add by lia. lia.
Qed.

Lemma ymd2ord_400 y m d : ymd2ord (y + 400) m d = ymd2ord y m d + DI400Y.
Proof. unfold ymd2ord, days_before_month. rewrite days_before_year_400, is_leap_400. lia. Qed.

Lemma ord2ymd_400 n :
  ord2ymd (n + DI400Y) = let '(y, m, d) := ord2ymd n in (y + 400, m, d).
Proof.
  unfold ord2ymd. replace (n + DI400Y - 1) with (n - 1 + 1 * DI400Y) by lia.
  rewrite Z.div_add, Z_mod_plus_full by (unfold DI400Y; lia).
  set (r := (n - 1) mod DI400Y). set (q := (n - 1) / DI400Y).
  repeat case_match; rewrite !pair_equal_spec; lia.
Qed.

Lemma ymd2ord_shift y m d (k : nat) : ymd2ord (y + 400 * Z.of_nat k) m d = ymd2ord y m d + DI400Y * Z.of_nat k.
Proof.
  induction k as [|k IH]; [rewrite !Z.mul_0_r, !Z.add_0_r; reflexivity|].
  replace (y + 400 * Z.of_nat (S k)) with (y + 400 * Z.of_nat k + 400) by lia.
  rewrite ymd2ord_400, IH. lia.
Qed.

Lemma ord2ymd_shift n (k : nat) :
  ord2ymd (n + DI400Y * Z.of_nat k) = let '(y, m, d) := ord2ymd n in (y + 400 * Z.of_nat k, m, d).
Proof.
  induction k as [|k IH].
  - rewrite Z.mul_0_r, Z.add_0_r. destruct (ord2ymd n) as [[y m] d]. rewrite !pair_equal_spec; lia.
  - replace (n + DI400Y * Z.of_nat (S k)) with (n + DI400Y * Z.of_nat k + DI400Y) by lia.
    rewrite ord2ymd_400, IH. destruct (ord2ymd n) as [[y m] d]. rewrite !pair_equal_spec; lia.
Qed.

Lemma rem_400 y c : 0 <= y -> c = 4 \/ c = 100 \/ c = 400 -> Z.rem (y + 400) c = Z.rem y c.
Proof.
  intros Hy Hc. rewrite !Z.rem_mod_nonneg by lia. apply mod_400, Hc.
Qed.

Lemma cal2jd_400 y m d : 0 <= y ->
  cal2jd (y + 400) m d = (mjd <- cal2jd y m d;; Ok (mjd + DI400Y)).
Proof.
  intros Hy. unfold cal2jd, IYMIN. rewrite !rem_400 by lia.
  destruct (y + 400 <? -4799) eqn:E1; [lia|]. destruct (y <? -4799) eqn:E2; [lia|].
  destruct ((m <? 1) || (12 <? m)) eqn:Em; [reflexivity|].
  case_match; [reflexivity|]. cbn [bind]. f_equal. unfold DI400Y.
  apply orb_false_iff in Em as [Em1 Em2]. apply Z.ltb_ge in Em1, Em2.
  set (my := Z.quot (m - 14) 12).
  assert (Hmy : m < 3 /\ my = -1 \/ 3 <= m /\ my = 0).
  { unfold my. destruct (Z.lt_ge_cases m 3).
    - left. split; [lia|]. assert (m = 1 \/ m = 2) as [-> | ->] by lia; reflexivity.
    - right. split; [lia|]. apply Z.quot_small_iff; lia. }
  rewrite (Z.quot_div_nonneg (y + 400 + my + 4900) 100), (Z.quot_div_nonneg (y + my + 4900) 100) by lia.
  assert (0 <= (y + 400 + my + 4900) / 100) by (apply Z.div_pos; lia).
  assert (0 <= (y + my + 4900) / 100) by (apply Z.div_pos; lia).
  rewrite !Z.quot_div_nonneg by lia.
  replace (1461 * (y + 400 + my + 4800)) with (1461 * (y + my + 4800) + 146100 * 4) by lia.
  rewrite Z.div_add by lia.
  replace (y + 400 + my + 4900) with (y + my + 4900 + 4 * 100) by lia. rewrite Z.div_add by lia.
  replace (3 * ((y + my + 4900) / 100 + 4)) with (3 * ((y + my + 4900) / 100) + 3 * 4) by lia.
  rewrite Z.div_add by lia. lia.
Qed.

Lemma jd2cal_day_400 jd : -68569 <= jd ->
  jd2cal_day (jd + DI400Y) = let '(y, m, d) := jd2cal_day jd in (y + 400, m, d).
Proof.
  intros Hjd. unfold jd2cal_day, DI400Y.
  assert (Hn : 0 <= 4 * (jd + 68569) / 146097) by (apply Z.div_pos; lia).
  rewrite !(Z.quot_div_nonneg (4 * _)) by lia.
  replace (4 * (jd + 146097 + 68569)) with (4 * (jd + 68569) + 4 * 146097) by lia.
  rewrite Z.div_add by lia.
  rewrite !(Z.quot_div_nonneg (146097 * _ + 3)) by lia.
  replace (146097 * (4 * (jd + 68569) / 146097 + 4) + 3) with (146097 * (4 * (jd + 68569) / 146097) + 3 + 146097 * 4) by lia.
  rewrite Z.div_add by lia.
  replace (jd + 146097 + 68569 - ((146097 * (4 * (jd + 68569) / 146097) + 3) / 4 + 146097))
    with (jd + 68569 - (146097 * (4 * (jd + 68569) / 146097) + 3) / 4) by lia.
  rewrite !pair_equal_spec. lia.
Qed.

Lemma cal2jd_shift y m d (k : nat) : 0 <= y ->
  cal2jd (y + 400 * Z.of_nat k) m d = (mjd <- cal2jd y m d;; Ok (mjd + DI400Y * Z.of_nat k)).
Proof.
  intros Hy. induction k as [|k IH].
  - rewrite Z.mul_0_r, Z.add_0_r. destruct (cal2jd y m d); cbn; [rewrite Z.add_0_r|]; reflexivity.
  - replace (y + 400 * Z.of_nat (S k)) with (y + 400 * Z.of_nat k + 400) by lia.
    rewrite cal2jd_400, IH by lia. destruct (cal2jd y m d); cbn; [f_equal; lia | reflexivity].
Qed.

Lemma jd2cal_day_shift jd (k : nat) : -68569 <= jd ->
  jd2cal_day (jd + DI400Y * Z.of_nat k) = let '(y, m, d) := jd2cal_day jd in (y + 400 * Z.of_nat k, m, d).
Proof.
  intros Hjd. induction k as [|k IH].
  - rewrite Z.mul_0_r, Z.add_0_r. destruct (jd2cal_day jd) as [[y m] d]. rewrite !pair_equal_spec. lia.
  - replace (jd + DI400Y * Z.of_nat (S k)) with (jd + DI400Y * Z.of_nat k + DI400Y) by lia.
    rewrite jd2cal_day_400 by (unfold DI400Y; lia). rewrite IH.
    destruct (jd2cal_day jd) as [[y m] d]. rewrite !pair_equal_spec. lia.
Qed.

Lemma days_in_month_shift y m (k : nat) : days_in_month (y + 400 * Z.of_nat k) m = days_in_month y m.
Proof.
  induction k as [|k IH]; [rewrite Z.mul_0_r, Z.add_0_r; reflexivity|].
  replace (y + 400 * Z.of_nat (S k)) with (y + 400 * Z.of_nat k + 400) by lia.
  rewrite days_in_month_400. exact IH.
Qed.

(** A year is [y0 + 400 k] with [y0] in the first cycle. *)
Lemma year_cycle y : 1 <= y ->
  exists y0 (k : nat), 1 <= y0 <= 400 /\ y = y0 + 400 * Z.of_nat k.
Proof.
  intros Hy. exists ((y - 1) mod 400 + 1), (Z.to_nat ((y - 1) / 400)).
  pose proof (Z.mod_pos_bound (y - 1) 400 ltac:(lia)). pose proof (Z.div_mod (y - 1) 400 ltac:(lia)).
  assert (0 <= (y - 1) / 400) by (apply Z.div_pos; lia).
  rewrite Z2Nat.id by lia. lia.
Qed.

Lemma ord_cycle n : 1 <= n ->
  exists n0 (k : nat), 1 <= n0 <= DI400Y /\ n = n0 + DI400Y * Z.of_nat k.
Proof.
  intros Hn. exists ((n - 1) mod DI400Y + 1), (Z.to_nat ((n - 1) / DI400Y)). unfold DI400Y in *.
  pose proof (Z.mod_pos_bound (n - 1) 146097 ltac:(lia)). pose proof (Z.div_mod (n - 1) 146097 ltac:(lia)).
  assert (0 <= (n - 1) / 146097) by (apply Z.div_pos; lia).
  rewrite Z2Nat.id by lia. lia.
Qed.

(** [f x] for [x = a, a + 1, ..., a + n - 1]: the exhaustive checks
    count on [Z], not through [nat]. *)
Fixpoint all_from (f : Z -> bool) (a : Z) (n : nat) : bool :=
  match n with
  | O => true
  | S n' => f a && all_from f (a + 1) n'
  end.

Lemma all_from_spec f a n : all_from f a n = true -> forall x, a <= x < a + Z.of_nat n -> f x = true.
Proof.
  revert a. induction n as [|n IH]; intros a Ha x Hx; [lia|]. cbn [all_from] in Ha.
  apply andb_true_iff in Ha as [Hfa Hrest]. destruct (Z.eq_dec x a) as [->|Hne]; [exact Hfa|].
  apply (IH (a + 1) Hrest). lia.
Qed.

Definition eqb3 (a b : Z * Z * Z) : bool :=
  (a.1.1 =? b.1.1) && (a.1.2 =? b.1.2) && (a.2 =? b.2).

Lemma eqb3_eq a b : eqb3 a b = true -> a = b.
Proof.
  destruct a as [[a1 a2] a3], b as [[b1 b2] b3]. unfold eqb3. cbn.
  rewrite !andb_true_iff, !Z.eqb_eq. intros [[-> ->] ->]. reflexivity.
Qed.

Lemma valid_date_spec y m d :
  valid_date y m d = true <-> 1 <= y <= 9999 /\ 1 <= m <= 12 /\ 1 <= d <= days_in_month y m.
Proof. unfold valid_date. rewrite !andb_true_iff, !Z.leb_le. tauto. Qed.

(** ** Pieces on which the conversions are affine

    [_ord2ymd] and the ERFA day loop are chains of divisions.  On an
    interval of day numbers where every quotient of the chain is the same
    at both ends it is the same throughout (division is monotone), and
    the date moves with the day number.  A month is cut into at most
    three such pieces, and one 400-year cycle is checked piece by piece. *)

(** The quotients of [_ord2ymd] and its last comparison. *)
Definition ord2ymd_q (n : Z) : Z * Z * Z * Z * Z * bool :=
  let n := n - 1 in
  let n400 := n / DI400Y in let n := n mod DI400Y in
  let n100 := n / DI100Y in let n := n mod DI100Y in
  let n4 := n / DI4Y in let n := n mod DI4Y in
  let n1 := n / 365 in let n := n mod 365 in
  let leapyear := (n1 =? 3) && (negb (n4 =? 24) || (n100 =? 3)) in
  let month := Z.shiftr (n + 50) 5 in
  let preceding := tbl DAYS_BEFORE_MONTH month + (if (month >? 2) && leapyear then 1 else 0) in
  (n400, n100, n4, n1, month, preceding >? n).

(** The last day of a 4-year or 100-year block, which [_ord2ymd] treats apart. *)
Definition q_edge (q : Z * Z * Z * Z * Z * bool) : bool :=
  let '(_, n100, _, n1, _, _) := q in (n1 =? 4) || (n100 =? 4).
Definition ord2ymd_edge (n : Z) : bool := q_edge (ord2ymd_q n).

(** The quotients of the ERFA day loop. *)
Definition jd2cal_q (jd : Z) : Z * Z * Z :=
  let l := jd + 68569 in
  let n := Z.quot (4 * l) 146097 in
  let l := l - Z.quot (146097 * n + 3) 4 in
  let i := Z.quot (4000 * (l + 1)) 1461001 in
  let l := l - Z.quot (1461 * i) 4 + 31 in
  (n, i, Z.quot (80 * l) 2447).

Lemma div_between c x y z : 0 < c -> x <= y <= z -> x / c = z / c ->
  y / c = x / c /\ y mod c = x mod c + (y - x) /\ x mod c <= y mod c <= z mod c.
Proof.
  intros Hc Hy Hq. pose proof (Z.div_le_mono x y c Hc (proj1 Hy)). pose proof (Z.div_le_mono y z c Hc (proj2 Hy)).
  assert (E : y / c = x / c) by lia. split; [exact E|]. rewrite !Z.mod_eq by lia. rewrite E, <- Hq.
  set (q := x / c). nia.
Qed.

Lemma quot_between c x y z : 0 < c -> x <= y <= z -> Z.quot x c = Z.quot z c -> Z.quot y c = Z.quot x c.
Proof.
  intros Hc Hy Hq. pose proof (Z.quot_le_mono x y c Hc (proj1 Hy)). pose proof (Z.quot_le_mono y z c Hc (proj2 Hy)). lia.
Qed.

Lemma gtb_between p x y z : x <= y <= z -> (p >? x) = (p >? z) -> (p >? y) = (p >? x).
Proof.
  intros Hy. rewrite !Z.gtb_ltb. destruct (Z.ltb_spec x p), (Z.ltb_spec z p), (Z.ltb_spec y p); intros; try congruence; lia.
Qed.

(** [_ord2ymd] on a piece: the day moves with the ordinal. *)
Lemma ord2ymd_affine a n b :
  a <= n <= b -> ord2ymd_q a = ord2ymd_q b -> a = b \/ ord2ymd_edge a = false ->
  ord2ymd n = let '(y, m, d) := ord2ymd a in (y, m, d + (n - a)).
Proof.
  intros Hn Hq Hedge. destruct (Z.eq_dec a b) as [<-|Hab].
  { replace n with a by lia. destruct (ord2ymd a) as [[y m] d]. rewrite Z.sub_diag, Z.add_0_r. reflexivity. }
  destruct Hedge as [|Hedge]; [contradiction|].
  unfold ord2ymd_edge, q_edge, ord2ymd_q in Hedge. unfold ord2ymd_q in Hq. unfold ord2ymd.
  cbv zeta in Hq, Hedge |- *. unfold DI400Y, DI100Y, DI4Y in *.
  rewrite !Z.shiftr_div_pow2 in * by lia. change (2 ^ 5) with 32 in *.
  injection Hq as H1 H2 H3 H4 H5 H6.
  destruct (div_between 146097 (a - 1) (n - 1) (b - 1) ltac:(lia) ltac:(lia) H1) as (E1 & M1 & B1).
  rewrite E1. set (xa := (a - 1) mod 146097) in *. set (xn := (n - 1) mod 146097) in *. set (xb := (b - 1) mod 146097) in *.
  destruct (div_between 36524 xa xn xb ltac:(lia) ltac:(lia) H2) as (E2 & M2 & B2).
  rewrite E2. set (ya := xa mod 36524) in *. set (yn := xn mod 36524) in *. set (yb := xb mod 36524) in *.
  destruct (div_between 1461 ya yn yb ltac:(lia) ltac:(lia) H3) as (E3 & M3 & B3).
  rewrite E3. set (za := ya mod 1461) in *. set (zn := yn mod 1461) in *. set (zb := yb mod 1461) in *.
  destruct (div_between 365 za zn zb ltac:(lia) ltac:(lia) H4) as (E4 & M4 & B4).
  rewrite E4. set (wa := za mod 365) in *. set (wn := zn mod 365) in *. set (wb := zb mod 365) in *.
  destruct (div_between 32 (wa + 50) (wn + 50) (wb + 50) ltac:(lia) ltac:(lia) H5) as (E5 & _ & _).
  rewrite E5. rewrite <- H5, <- H4, <- H3, <- H2 in H6. rewrite (gtb_between _ wa wn wb ltac:(lia) H6).
  rewrite Hedge. cbv beta iota. repeat case_match; cbv beta iota; rewrite !pair_equal_spec; lia.
Qed.

(** The ERFA day loop on a piece: the day moves with the day number. *)
Lemma jd2cal_day_affine a j b :
  a <= j <= b -> jd2cal_q a = jd2cal_q b ->
  jd2cal_day j = let '(y, m, d) := jd2cal_day a in (y, m, d + (j - a)).
Proof.
  intros Hj Hq. unfold jd2cal_q in Hq. unfold jd2cal_day. cbv zeta in Hq |- *.
  injection Hq as H1 H2 H3.
  rewrite (quot_between 146097 (4 * (a + 68569)) (4 * (j + 68569)) (4 * (b + 68569)) ltac:(lia) ltac:(lia) H1).
  rewrite <- H1 in H2, H3. set (n := Z.quot (4 * (a + 68569)) 146097) in *.
  set (c1 := Z.quot (146097 * n + 3) 4) in *.
  rewrite (quot_between 1461001 (4000 * (a + 68569 - c1 + 1)) (4000 * (j + 68569 - c1 + 1))
             (4000 * (b + 68569 - c1 + 1)) ltac:(lia) ltac:(lia) H2).
  rewrite <- H2 in H3. set (i := Z.quot (4000 * (a + 68569 - c1 + 1)) 1461001) in *.
  set (c2 := Z.quot (1461 * i) 4) in *.
  rewrite (quot_between 2447 (80 * (a + 68569 - c1 - c2 + 31)) (80 * (j + 68569 - c1 - c2 + 31))
             (80 * (b + 68569 - c1 - c2 + 31)) ltac:(lia) ltac:(lia) H3).
  rewrite !pair_equal_spec. lia.
Qed.

(** [_ymd2ord] and [eraCal2jd] move with the day of the month. *)
Lemma ymd2ord_day y m d : ymd2ord y m d = ymd2ord y m 1 + (d - 1).
Proof. unfold ymd2ord. lia. Qed.

Lemma cal2jd_day y m d :
  1 <= d <= tbl mtab (m - 1) +
            (if (m =? 2) && (Z.rem y 4 =? 0) && (negb (Z.rem y 100 =? 0) || (Z.rem y 400 =? 0)) then 1 else 0) ->
  cal2jd y m d = (mjd <- cal2jd y m 1;; Ok (mjd + (d - 1))).
Proof.
  intros Hd. unfold cal2jd. cbv zeta. destruct (y <? IYMIN); [reflexivity|].
  destruct ((m <? 1) || (12 <? m)); [reflexivity|].
  rewrite !(proj2 (orb_false_iff _ _)) by (split; apply Z.ltb_ge; lia). cbn [bind]. f_equal. lia.
Qed.

(** A month cut where [_ord2ymd]'s month estimate [(n + 50) >> 5] steps,
    and before its last day. *)
Definition month_pieces (y m : Z) : list (Z * Z) :=
  let dim := days_in_month y m in
  let b := 33 - (days_before_month y m + 50) mod 32 in
  if (2 <=? b) && (b <=? dim - 1) then [(1, b - 1); (b, dim - 1); (dim, dim)]
  else [(1, dim - 1); (dim, dim)].

Lemma month_pieces_cover y m d : 1 <= d <= days_in_month y m ->
  exists lo hi, In (lo, hi) (month_pieces y m) /\ lo <= d <= hi.
Proof.
  intros Hd. unfold month_pieces. set (b := 33 - _ mod 32). set (dim := days_in_month y m) in *.
  destruct ((2 <=? b) && (b <=? dim - 1)) eqn:E.
  - apply andb_true_iff in E as [E1 E2]. apply Z.leb_le in E1, E2.
    destruct (Z.lt_ge_cases d b); [exists 1, (b - 1); split; [left; reflexivity | lia]|].
    destruct (Z.lt_ge_cases d dim); [exists b, (dim - 1); split; [right; left; reflexivity | lia]|].
    exists dim, dim. split; [right; right; left; reflexivity | lia].
  - destruct (Z.lt_ge_cases d dim); [exists 1, (dim - 1); split; [left; reflexivity | lia]|].
    exists dim, dim. split; [right; left; reflexivity | lia].
Qed.

(** A piece [lo..hi] of month [m] of year [y]: both conversions give the
    first day right and keep their quotients to the last day. *)
Definition piece_ok (y m s0 : Z) (p : Z * Z) : bool :=
  let '(lo, hi) := p in
  let s := s0 + (lo - 1) in
  let e := s0 + (hi - 1) in
  eqb3 (ord2ymd s) (y, m, lo) && eqb3 (jd2cal_day (s + ORD_JD)) (y, m, lo) &&
  ((lo =? hi) ||
   (let qs := ord2ymd_q s in
    bool_decide (qs = ord2ymd_q e) && negb (q_edge qs) &&
    bool_decide (jd2cal_q (s + ORD_JD) = jd2cal_q (e + ORD_JD)))).

(** A month of the first cycle: its pieces, its ordinals in the cycle
    (year 400 last), the next month starting the day after, [eraCal2jd]
    on its first day and ERFA's month length. *)
Definition month_ok (y m : Z) : bool :=
  let s := ymd2ord y m 1 in
  let e := s + (days_in_month y m - 1) in
  forallb (piece_ok y m s) (month_pieces y m) &&
  (1 <=? s) && (e <=? DI400Y) && ((y =? 400) || (e <=? 145731)) && ((y <? 400) || (145732 <=? s)) &&
  (e + 1 =? (if m =? 12 then ymd2ord (y + 1) 1 1 else ymd2ord y (m + 1) 1)) &&
  match cal2jd y m 1 with Ok mjd => mjd =? s - ORD_MJD | Err _ => false end &&
  (tbl mtab (m - 1) + (if (m =? 2) && (Z.rem y 4 =? 0) && (negb (Z.rem y 100 =? 0) || (Z.rem y 400 =? 0)) then 1 else 0)
     =? days_in_month y m).

(** Month [i] of the cycle, from 0: year [i / 12 + 1], month [i mod 12 + 1]. *)
Definition month_ok_i (i : Z) : bool := month_ok (i / 12 + 1) (i mod 12 + 1).

(** The first cycle, month by month.  The check is stated on a named
    function, so that using it never unfolds the loop. *)
Lemma check_cycle_true : all_from month_ok_i 0 4800 = true.
Proof. vm_compute. reflexivity. Qed.

Lemma div_mod_split' a b q r : 0 <= r < b -> a = b * q + r -> a / b = q /\ a mod b = r.
Proof.
  intros Hr ->. split; symmetry; [apply Z.div_unique_pos with r | apply Z.mod_unique_pos with q]; lia.
Qed.

Lemma month_ok_spec y m : 1 <= y <= 400 -> 1 <= m <= 12 -> month_ok y m = true.
Proof.
  intros Hy Hm. pose proof (all_from_spec month_ok_i 0 4800 check_cycle_true (12 * (y - 1) + (m - 1)) ltac:(lia)) as H.
  unfold month_ok_i in H.
  rewrite (proj1 (div_mod_split' (12 * (y - 1) + (m - 1)) 12 (y - 1) (m - 1) ltac:(lia) ltac:(lia))),
          (proj2 (div_mod_split' (12 * (y - 1) + (m - 1)) 12 (y - 1) (m - 1) ltac:(lia) ltac:(lia))) in H.
  rewrite !Z.sub_add in H. exact H.
Qed.

(** On a checked piece, both conversions give back the date. *)
Lemma piece_spec y m s0 lo hi d : piece_ok y m s0 (lo, hi) = true -> lo <= d <= hi ->
  ord2ymd (s0 + (d - 1)) = (y, m, d) /\ jd2cal_day (s0 + (d - 1) + ORD_JD) = (y, m, d).
Proof.
  cbn [piece_ok]. cbv zeta. rewrite !andb_true_iff, orb_true_iff, !andb_true_iff. intros [[Ho Hj] Hq] Hd.
  apply eqb3_eq in Ho, Hj. destruct Hq as [Heq | [[Hq1 Hedge] Hq2]].
  { apply Z.eqb_eq in Heq. replace d with lo by lia. split; assumption. }
  apply bool_decide_eq_true in Hq1, Hq2. apply negb_true_iff in Hedge. split.
  - rewrite (ord2ymd_affine (s0 + (lo - 1)) _ (s0 + (hi - 1))) by (auto || lia).
    rewrite Ho. f_equal. lia.
  - rewrite (jd2cal_day_affine (s0 + (lo - 1) + ORD_JD) _ (s0 + (hi - 1) + ORD_JD)) by (auto || lia).
    rewrite Hj. f_equal. lia.
Qed.

(** Every date of the first cycle: both round trips, [eraCal2jd], and
    where its ordinal lies. *)
Lemma date_in_cycle y m d : 1 <= y <= 400 -> 1 <= m <= 12 -> 1 <= d <= days_in_month y m ->
  ord2ymd (ymd2ord y m d) = (y, m, d) /\ jd2cal_day (ymd2ord y m d + ORD_JD) = (y, m, d) /\
  cal2jd y m d = Ok (ymd2ord y m d - ORD_MJD) /\ 1 <= ymd2ord y m d <= DI400Y /\
  (y < 400 -> ymd2ord y m d <= 145731) /\ (y = 400 -> 145732 <= ymd2ord y m d).
Proof.
  intros Hy Hm Hd. pose proof (month_ok_spec y m Hy Hm) as Hc. unfold month_ok in Hc.
  rewrite !andb_true_iff, !orb_true_iff, !Z.leb_le, !Z.eqb_eq, !Z.ltb_lt in Hc.
  destruct Hc as [[[[[[[Hp H1] H2] H3] H4] _] H6] H7].
  destruct (month_pieces_cover y m d Hd) as (lo & hi & Hin & Hlohi).
  rewrite forallb_forall in Hp. rewrite (ymd2ord_day y m d).
  destruct (piece_spec y m _ lo hi d (Hp _ Hin) Hlohi) as [Ho Hj].
  split; [exact Ho|]. split; [exact Hj|]. split; [|lia].
  rewrite (cal2jd_day y m d) by lia. destruct (cal2jd y m 1); [|discriminate].
  apply Z.eqb_eq in H6. cbn [bind]. f_equal. lia.
Qed.

(** Intervals [s i .. e i] that follow each other cover [s 0 .. e K]. *)
Lemma interval_cover (s e : Z -> Z) (K : nat) :
  (forall i, 0 <= i < Z.of_nat K -> s (i + 1) = e i + 1) ->
  forall x, s 0 <= x <= e (Z.of_nat K) -> exists i, 0 <= i <= Z.of_nat K /\ s i <= x <= e i.
Proof.
  intros Hadj x Hx. induction K as [|K IH].
  - exists 0. split; [lia | exact Hx].
  - destruct (Z.le_gt_cases x (e (Z.of_nat K))) as [Hle|Hgt].
    + destruct IH as (i & Hi & Hin); [intros i Hi; apply Hadj; lia | lia | exists i; split; [lia | exact Hin]].
    + exists (Z.of_nat (S K)). split; [lia|]. rewrite Nat2Z.inj_succ, <- Z.add_1_r, Hadj by lia.
      rewrite Nat2Z.inj_succ, <- Z.add_1_r in Hx. lia.
Qed.

(** The months of the first cycle, numbered from 0. *)
Definition month_start (i : Z) : Z := ymd2ord (i / 12 + 1) (i mod 12 + 1) 1.
Definition month_end (i : Z) : Z := month_start i + (days_in_month (i / 12 + 1) (i mod 12 + 1) - 1).

(** Every ordinal of the first cycle is the ordinal of a date of it. *)
Lemma ord_in_cycle n : 1 <= n <= DI400Y ->
  exists y m d, 1 <= y <= 400 /\ 1 <= m <= 12 /\ 1 <= d <= days_in_month y m /\ ymd2ord y m d = n.
Proof.
  intros Hn.
  assert (Hadj : forall i, 0 <= i < Z.of_nat 4799 -> month_start (i + 1) = month_end i + 1).
  { intros i Hi. pose proof (Z.div_mod i 12 ltac:(lia)). pose proof (Z.mod_pos_bound i 12 ltac:(lia)).
    pose proof (Z.div_mod (i + 1) 12 ltac:(lia)). pose proof (Z.mod_pos_bound (i + 1) 12 ltac:(lia)).
    assert (Hy : 1 <= i / 12 + 1 <= 400) by lia.
    pose proof (month_ok_spec (i / 12 + 1) (i mod 12 + 1) Hy ltac:(lia)) as Hc. unfold month_ok in Hc.
    rewrite !andb_true_iff, Z.eqb_eq in Hc. destruct Hc as [[[_ H5] _] _].
    unfold month_end, month_start. rewrite H5. unfold month_start.
    destruct (Z.eq_dec (i mod 12) 11) as [E|E].
    - replace ((i + 1) / 12) with (i / 12 + 1) by lia. replace ((i + 1) mod 12) with 0 by lia.
      rewrite E. reflexivity.
    - replace ((i + 1) / 12) with (i / 12) by lia. replace ((i + 1) mod 12) with (i mod 12 + 1) by lia.
      replace (i mod 12 + 1 =? 12) with false by (symmetry; apply Z.eqb_neq; lia). reflexivity. }
  destruct (interval_cover month_start month_end 4799 Hadj n) as (i & Hi & Hin).
  { change (month_start 0) with (ymd2ord 1 1 1). change (Z.of_nat 4799) with 4799.
    replace (ymd2ord 1 1 1) with 1 by reflexivity. replace (month_end 4799) with DI400Y by reflexivity. lia. }
  pose proof (Z.mod_pos_bound i 12 ltac:(lia)).
  exists (i / 12 + 1), (i mod 12 + 1), (n - month_start i + 1).
  assert (1 <= i / 12 + 1 <= 400) by (pose proof (Z.div_mod i 12 ltac:(lia)); lia).
  unfold month_end in Hin. repeat split; try lia.
  rewrite ymd2ord_day. unfold month_start in *. lia.
Qed.

(** ** The round trips and the agreement, for all years *)

(** [_ord2ymd] inverts [_ymd2ord] on every date [datetime] accepts. *)
Lemma ord2ymd_ymd2ord y m d : valid_date y m d = true -> ord2ymd (ymd2ord y m d) = (y, m, d).
Proof.
  intros (Hy & Hm & Hd)%valid_date_spec. destruct (year_cycle y ltac:(lia)) as (y0 & k & Hy0 & ->).
  rewrite days_in_month_shift in Hd. rewrite ymd2ord_shift, ord2ymd_shift.
  rewrite (proj1 (date_in_cycle y0 m d Hy0 Hm Hd)). reflexivity.
Qed.

(** The ordinal of a date [datetime] accepts is in [1, _MAXORDINAL]. *)
Lemma ymd2ord_range y m d : valid_date y m d = true -> 1 <= ymd2ord y m d <= MAXORDINAL.
Proof.
  intros (Hy & Hm & Hd)%valid_date_spec. destruct (year_cycle y ltac:(lia)) as (y0 & k & Hy0 & ->).
  rewrite days_in_month_shift in Hd. rewrite ymd2ord_shift.
  destruct (date_in_cycle y0 m d Hy0 Hm Hd) as (_ & _ & _ & H1 & H2 & _). unfold MAXORDINAL, DI400Y in *.
  assert (k <= 24)%nat by nia. destruct (decide (k = 24%nat)) as [->|]; [specialize (H2 ltac:(lia)); lia|]. nia.
Qed.

(** Every ordinal of [datetime]'s range is the ordinal of the valid date
    [_ord2ymd] gives. *)
Lemma ymd2ord_ord2ymd n : 1 <= n <= MAXORDINAL ->
  let '(y, m, d) := ord2ymd n in valid_date y m d = true /\ ymd2ord y m d = n.
Proof.
  intros Hn. destruct (ord_cycle n ltac:(lia)) as (n0 & k & Hn0 & ->).
  destruct (ord_in_cycle n0 Hn0) as (y & m & d & Hy & Hm & Hd & <-).
  destruct (date_in_cycle y m d Hy Hm Hd) as (Ho & _ & _ & _ & _ & H400).
  rewrite ord2ymd_shift, Ho. split.
  - apply valid_date_spec. rewrite days_in_month_shift. unfold MAXORDINAL, DI400Y in *.
    assert (k <= 24)%nat by nia. destruct (decide (k = 24%nat)) as [->|]; [|lia].
    destruct (decide (y = 400)) as [->|]; [specialize (H400 eq_refl); lia | lia].
  - rewrite ymd2ord_shift. reflexivity.
Qed.

(** ERFA's [eraCal2jd] is CPython's ordinal, shifted to the MJD. *)
Lemma cal2jd_ymd2ord y m d : valid_date y m d = true -> cal2jd y m d = Ok (ymd2ord y m d - ORD_MJD).
Proof.
  intros (Hy & Hm & Hd)%valid_date_spec. destruct (year_cycle y ltac:(lia)) as (y0 & k & Hy0 & ->).
  rewrite days_in_month_shift in Hd. rewrite cal2jd_shift, ymd2ord_shift by lia.
  rewrite (proj1 (proj2 (proj2 (date_in_cycle y0 m d Hy0 Hm Hd)))). cbn [bind]. f_equal. lia.
Qed.

(** ERFA's day loop inverts CPython's ordinal. *)
Lemma jd2cal_day_ord n : 1 <= n -> jd2cal_day (n + ORD_JD) = ord2ymd n.
Proof.
  intros Hn. destruct (ord_cycle n Hn) as (n0 & k & Hn0 & ->).
  replace (n0 + DI400Y * Z.of_nat k + ORD_JD) with (n0 + ORD_JD + DI400Y * Z.of_nat k) by lia.
  rewrite jd2cal_day_shift, ord2ymd_shift by (unfold ORD_JD; lia).
  destruct (ord_in_cycle n0 Hn0) as (y & m & d & Hy & Hm & Hd & <-).
  destruct (date_in_cycle y m d Hy Hm Hd) as (Ho & Hj & _). rewrite Ho, Hj. reflexivity.
Qed.

(** ** The two calendars *)

(** CPython's [_ymd2ord] and [_ord2ymd] are inverse bijections
    between the dates [datetime] accepts (years 1 to 9999) and the
    ordinals 1 to [_MAXORDINAL]. *)
Theorem python_calendar_bijection :
  (forall y m d, valid_date y m d = true ->
     1 <= ymd2ord y m d <= MAXORDINAL /\ ord2ymd (ymd2ord y m d) = (y, m, d)) /\
  (forall n, 1 <= n <= MAXORDINAL ->
     let '(y, m, d) := ord2ymd n in valid_date y m d = true /\ ymd2ord y m d = n).
Proof.
  split; [intros y m d Hv; split; [apply ymd2ord_range | apply ord2ymd_ymd2ord]; exact Hv|].
  exact ymd2ord_ord2ymd.
Qed.

(** ERFA's calendar agrees with CPython's: [eraCal2jd] gives the
    ordinal shifted to the Modified Julian Date on every valid date, and
    the day loop of [eraJd2cal] gives, for every Julian day number from
    that of 0001-01-01 on, the date [_ord2ymd] gives for the matching
    ordinal. *)
Theorem erfa_agrees_with_python :
  (forall y m d, valid_date y m d = true -> cal2jd y m d = Ok (ymd2ord y m d - ORD_MJD)) /\
  (forall n, 1 <= n -> jd2cal_day (n + ORD_JD) = ord2ymd n).
Proof. split; [exact cal2jd_ymd2ord | exact jd2cal_day_ord]. Qed.

End Calendar.
