(* ===== verification/AstroTime.v ===== *)
(** The time cells of src/notebooks/plotfits.ipynb (lines 479-561):
    [Time] built from ISOT strings, from Modified Julian Dates and from a
    timezone-aware [datetime]; its conversions to JD, MJD and FITS; and
    [to_datetime(timezone=...)] back to an aware [datetime].

    The layers are those the cells go through:
    - CPython's [datetime] (Lib/datetime.py): a date, a time of day to the
      microsecond and a fixed-offset [tzinfo]; [datetime + timedelta]
      normalises the sum as a [timedelta] (days, seconds, microseconds,
      that is floor division of the total in microseconds) and rebuilds
      the date with [_ord2ymd]; [astimezone] goes through UTC and
      [tzinfo.fromutc];
    - astropy's [TimezoneInfo], whose offset is a [timedelta] of
      [utc_offset.to_value(u.day)] days;
    - ERFA's [eraDtf2d], [eraJd2cal], [eraD2tf] and [eraD2dtf]: a date
      and time of day to a Julian date and back, the time of day rounded
      to [ndp] decimals of the second;
    - astropy's [Time]: its Julian date [jd1 + jd2] (kept as one
      rational: every operation used here reads the sum only), its scale
      and its format; [Time(datetime)] subtracts the [utcoffset()];
      [to_datetime] reads the fields with [eraD2dtf] at 6 decimals.

    The calendars are those of [Calendar].  Leap seconds are not
    modelled: [eraDat]'s table is not transcribed, so every UTC day has
    86400 s (ERFA stretches the 27 days that end in a leap second to
    86401 s), and [gps], [byear_str] and [jyear_str], which need TAI-UTC,
    are not modelled.  Floats are exact rationals.

    The theorems: [eraD2dtf] inverts [eraDtf2d] at every precision on
    every date [datetime] accepts; converting an aware [datetime] to
    [Time] and back with its own timezone gives it back, whatever its
    offset; and the cells print what the notebook shows. *)

From S2P Require Import Prelude PySlice Units Calendar.
From Stdlib Require Import Qround Ascii.
From stdpp Require Import list strings.

Module AstroTime.

Import PySlice Units Calendar.

Local Open Scope Z_scope.

(** ** CPython's [datetime] *)

(** A [datetime]; its [tzinfo] is [None] or a fixed offset, in
    microseconds east of UTC. *)
Record datetime := mk_datetime {
  year : Z; month : Z; day : Z;
  hour : Z; minute : Z; second : Z; microsecond : Z;
  tzinfo : option Z }.

Definition US_PER_SEC : Z := 1000000.
Definition US_PER_DAY : Z := 86400000000.

(** [_check_time_fields]. *)
Definition check_time_fields (h mi s us : Z) : bool :=
  (0 <=? h) && (h <=? 23) && (0 <=? mi) && (mi <=? 59) &&
  (0 <=? s) && (s <=? 59) && (0 <=? us) && (us <=? 999999).

(** [datetime(year, month, day, hour, minute, second, microsecond,
    tzinfo)]: [_check_date_fields] and [_check_time_fields]. *)
Definition mk_dt (y m d h mi s us : Z) (tz : option Z) : result datetime :=
  if valid_date y m d && check_time_fields h mi s us
  then Ok (mk_datetime y m d h mi s us tz) else Err ValueError.

(** A time of day in units of [1 / rs] s: [((h * 60 + mi) * 60 + s) * rs + f]. *)
Definition hms_units (rs h mi s f : Z) : Z := ((h * 60 + mi) * 60 + s) * rs + f.

(** The [timedelta] [__add__] builds from a [datetime]:
    [timedelta(self.toordinal(), hours=..., minutes=..., seconds=...,
    microseconds=...)], in microseconds. *)
Definition dt_total (dt : datetime) : Z :=
  ymd2ord (year dt) (month dt) (day dt) * US_PER_DAY +
  hms_units US_PER_SEC (hour dt) (minute dt) (second dt) (microsecond dt).

(** The end of [datetime.__add__]: the normalised [timedelta] [t] (its
    [days], [seconds] and [microseconds]), [divmod(delta.seconds, 3600)],
    [divmod(rem, 60)], the range check and [combine]. *)
Definition of_total (t : Z) (tz : option Z) : result datetime :=
  let days := t / US_PER_DAY in
  let seconds := (t mod US_PER_DAY) / US_PER_SEC in
  let us := (t mod US_PER_DAY) mod US_PER_SEC in
  let hour := seconds / 3600 in
  let rem := seconds mod 3600 in
  if (0 <? days) && (days <=? MAXORDINAL) then
    let '(y, m, d) := ord2ymd days in
    Ok (mk_datetime y m d hour (rem / 60) (rem mod 60) us tz)
  else Err OverflowError.

(** [dt + timedelta(microseconds=delta)]. *)
Definition dt_add (dt : datetime) (delta : Z) : result datetime :=
  of_total (dt_total dt + delta) (tzinfo dt).

(** [_check_utc_offset]: strictly inside one day. *)
Definition check_utc_offset (off : Z) : bool := (- US_PER_DAY <? off) && (off <? US_PER_DAY).

(** [dt.utcoffset()] of an aware [datetime]. *)
Definition utcoffset (dt : datetime) : result (option Z) :=
  match tzinfo dt with
  | None => Ok None
  | Some off => if check_utc_offset off then Ok (Some off) else Err ValueError
  end.

Definition replace_tzinfo (dt : datetime) (tz : option Z) : datetime :=
  mk_datetime (year dt) (month dt) (day dt) (hour dt) (minute dt) (second dt) (microsecond dt) tz.

(** [tzinfo.fromutc(dt)] with [dst()] zero: [dt += utcoffset] when it is
    not zero, then [dt + dst]. *)
Definition fromutc (dt : datetime) : result datetime :=
  off <- utcoffset dt;;
  match off with
  | None => Err ValueError
  | Some o =>
      dt' <- (if o =? 0 then Ok dt else dt_add dt o);;
      dt_add dt' 0
  end.

(** [dt.astimezone(tz)] of an aware [datetime]:
    [tz.fromutc((self - offset).replace(tzinfo=tz))].  (Its shortcut
    [if tz is mytz: return self] is for one [tzinfo] object; the cells
    always pass two.) *)
Definition astimezone (dt : datetime) (tz : Z) : result datetime :=
  off <- utcoffset dt;;
  match off with
  | None => Err ValueError
  | Some o =>
      utc <- dt_add dt (- o);;
      fromutc (replace_tzinfo utc (Some tz))
  end.

(** ** astropy's [TimezoneInfo] *)

(** Python's [round] of a float: to the nearest integer, ties to even. *)
Definition round_half_even (q : Q) : Z :=
  let f := Qfloor q in
  let r := (q - inject_Z f)%Q in
  if Qltb r (1 # 2) then f
  else if Qltb (1 # 2) r then f + 1
  else if Z.even f then f else f + 1.

(** [datetime.timedelta(days)] of a float number of days, in
    microseconds (CPython rounds the microseconds half to even). *)
Definition timedelta_days (days : Q) : Z := round_half_even (days * inject_Z US_PER_DAY)%Q.

(** [TimezoneInfo(utc_offset=...)]: [@quantity_input(utc_offset=u.day)]
    and [datetime.timedelta(utc_offset.to_value(u.day))]. *)
Definition timezone_info (utc_offset : quantity) : result Z :=
  d <- to utc_offset u_day;;
  Ok (timedelta_days (q_val d)).

(** astropy's [u.hour]. *)
Definition u_hour : unit := mk_unit 3600 (u_dim u_s).

(** ** ERFA *)

(** [ERFA_DNINT]: to the nearest integer, ties away from zero. *)
Definition dnint (q : Q) : Z :=
  if Qltb q 0 then Qceiling (q - (1 # 2))%Q else Qfloor (q + (1 # 2))%Q.

(** [eraDtf2d] for a day of 86400 s: [eraCal2jd], the validation of the
    hour, minute and second (status -4, -5, -6, raised as [ValueError];
    a second past 60 is the warning status 2) and
    [d1 + d2 = 2400000.5 + djm + (60 (60 ihr + imn) + sec) / 86400]. *)
Definition dtf2d (iy im id ihr imn : Z) (sec : Q) : result Q :=
  djm <- cal2jd iy im id;;
  if negb ((0 <=? ihr) && (ihr <=? 23)) then Err ValueError
  else if negb ((0 <=? imn) && (imn <=? 59)) then Err ValueError
  else if Qltb sec 0 then Err ValueError
  else Ok ((4800001 # 2) + inject_Z djm + (60 * inject_Z (60 * ihr + imn) + sec) / 86400)%Q.

(** [eraJd2cal(dj1, dj2)]: the range check ([DJMIN], [DJMAX]), the day
    number and fraction of [dj1 + dj2 + 0.5] (the compensated summation
    is exact on rationals) and the day loop. *)
Definition jd2cal (dj : Q) : result (Z * Z * Z * Q) :=
  if Qltb dj (-137139 # 2) || Qltb (inject_Z 1000000000) dj then Err ValueError
  else
    let t := (dj + (1 # 2))%Q in
    let jd := Qfloor t in
    Ok (jd2cal_day jd, (t - inject_Z jd)%Q).

(** [eraD2tf(ndp, days)] for [ndp >= 0]: the interval rounded to units of
    [10^-ndp] s and broken into hours, minutes, seconds and fraction
    ([ERFA_DINT] of non-negative values is [Z.quot]). *)
Definition d2tf (ndp : Z) (days : Q) : Z * Z * Z * Z :=
  let rs := 10 ^ ndp in
  let rm := rs * 60 in
  let rh := rm * 60 in
  let a := dnint (inject_Z (86400 * rs) * Qabs days)%Q in
  let ah := Z.quot a rh in
  let a := a - ah * rh in
  let am := Z.quot a rm in
  let a := a - am * rm in
  let as_ := Z.quot a rs in
  let af := a - as_ * rs in
  (ah, am, as_, af).

(** [eraD2dtf(scale, ndp, d1, d2)] for a day of 86400 s: the provisional
    date and time of day, and 0h of the next day when the rounded time
    reaches 24h ([eraJd2cal(a1+1.5, b1-fd)]). *)
Definition d2dtf (ndp : Z) (dj : Q) : result (Z * Z * Z * (Z * Z * Z * Z)) :=
  c <- jd2cal dj;;
  let '(ymd, fd) := c in
  let '(h, mi, s, f) := d2tf ndp fd in
  if 23 <? h then
    c2 <- jd2cal (dj + (3 # 2) - fd)%Q;;
    Ok (c2.1, (0, 0, 0, 0))
  else Ok (ymd, (h, mi, s, f)).

(** ** astropy's [Time] *)

Inductive time_scale := UTC | TAI.
Inductive time_format := Fisot | Fmjd | Fdatetime.

Record Time := mk_time { jd : Q; scale : time_scale; format : time_format }.

(** [TimeDatetime.set_jds]: an aware [datetime] is first moved to UTC,
    [(dt - dt.utcoffset()).replace(tzinfo=None)]; then [erfa.dtf2d] with
    [dsec = dt.second + dt.microsecond / 1e6]. *)
Definition time_of_datetime (dt : datetime) : result Time :=
  off <- utcoffset dt;;
  dt' <- match off with
         | Some o => dt_add dt (- o)
         | None => Ok dt
         end;;
  j <- dtf2d (year dt') (month dt') (day dt') (hour dt') (minute dt')
             (inject_Z (second dt') + inject_Z (microsecond dt') / inject_Z US_PER_SEC)%Q;;
  Ok (mk_time j UTC Fdatetime).

(** [TimeDatetime.to_value(timezone)]: [erfa.d2dtf] at 6 decimals, the
    leap-second check, then [datetime(..., tzinfo=TimezoneInfo())
    .astimezone(timezone)] or a naive [datetime]. *)
Definition to_datetime (t : Time) (timezone : option Z) : result datetime :=
  if match timezone with Some _ => negb (match scale t with UTC => true | TAI => false end) | None => false end
  then Err (Exception "ScaleValueError")
  else
    c <- d2dtf 6 (jd t);;
    let '((y, m, d), (h, mi, s, f)) := c in
    if 60 <=? s then Err ValueError
    else match timezone with
         | Some tz => dt <- mk_dt y m d h mi s f (Some 0);; astimezone dt tz
         | None => mk_dt y m d h mi s f None
         end.

(** [TimeMJD.set_jds]: [jd1 = mjd + MJD_ZERO]. *)
Definition MJD_ZERO : Q := 4800001 # 2.
Definition time_of_mjd (mjd : Q) (sc : time_scale) : Time := mk_time (mjd + MJD_ZERO)%Q sc Fmjd.
Definition to_mjd (t : Time) : Q := (jd t - MJD_ZERO)%Q.

(** ** Strings: [TimeString.parse_string] and the output formats *)

Local Open Scope string_scope.
Local Open Scope Z_scope.

Definition digit_of (c : ascii) : option Z :=
  let n := Z.of_nat (nat_of_ascii c) in
  if (48 <=? n) && (n <=? 57) then Some (n - 48) else None.

(** The value of a non-empty run of decimal digits. *)
Fixpoint digits_value (acc : Z) (s : string) : option Z :=
  match s with
  | EmptyString => Some acc
  | String c s' => match digit_of c with Some v => digits_value (10 * acc + v) s' | None => None end
  end.
Definition parse_nat (s : string) : option Z :=
  match s with EmptyString => None | _ => digits_value 0 s end.

(** [timestr.rindex('.')]. *)
Fixpoint rindex_dot (s : string) : option nat :=
  match s with
  | EmptyString => None
  | String c s' => match rindex_dot s' with
                   | Some i => Some (S i)
                   | None => if Ascii.eqb c "." then Some 0%nat else None
                   end
  end.

(** [float('.ddd')]: the fraction of a second after the last dot. *)
Definition parse_fracsec (s : string) : option Q :=
  match s with
  | String c digits => if Ascii.eqb c "." then
                         match parse_nat digits with
                         | Some v => Some (inject_Z v / inject_Z (10 ^ Z.of_nat (String.length digits)))%Q
                         | None => None
                         end
                       else None
  | EmptyString => None
  end.

(** The two-digit field at [i] in [lo, hi]. *)
Definition field_at (s : string) (i : nat) (lo hi : Z) : option Z :=
  match parse_nat (String.substring i 2 s) with
  | Some v => if (lo <=? v) && (v <=? hi) then Some v else None
  | None => None
  end.

Definition char_is (s : string) (i : nat) (c : ascii) : bool :=
  match String.get i s with Some c' => Ascii.eqb c' c | None => false end.

(** [time.strptime(timestr, '%Y-%m-%d')] of the canonical zero-padded
    spelling, with its check that the day exists; the time fields
    ['%H:%M:%S'] or ['%H:%M'] follow after a ['T']. *)
Definition strptime_date (s : string) : option (Z * Z * Z) :=
  if char_is s 4 "-" && char_is s 7 "-" then
    match parse_nat (String.substring 0 4 s), field_at s 5 1 12, field_at s 8 1 31 with
    | Some y, Some m, Some d => if valid_date y m d then Some (y, m, d) else None
    | _, _, _ => None
    end
  else None.

Definition strptime_hms (s : string) : option (Z * Z * Z * Z * Z * Z) :=
  if (String.length s =? 19)%nat && char_is s 10 "T" && char_is s 13 ":" && char_is s 16 ":" then
    match strptime_date (String.substring 0 10 s), field_at s 11 0 23, field_at s 14 0 59, field_at s 17 0 61 with
    | Some (y, m, d), Some h, Some mi, Some sec => Some (y, m, d, h, mi, sec)
    | _, _, _, _ => None
    end
  else None.

Definition strptime_hm (s : string) : option (Z * Z * Z * Z * Z * Z) :=
  if (String.length s =? 16)%nat && char_is s 10 "T" && char_is s 13 ":" then
    match strptime_date (String.substring 0 10 s), field_at s 11 0 23, field_at s 14 0 59 with
    | Some (y, m, d), Some h, Some mi => Some (y, m, d, h, mi, 0)
    | _, _, _ => None
    end
  else None.

Definition strptime_d (s : string) : option (Z * Z * Z * Z * Z * Z) :=
  if (String.length s =? 10)%nat then
    match strptime_date s with Some (y, m, d) => Some (y, m, d, 0, 0, 0) | None => None end
  else None.

(** [TimeISOT.parse_string]: the fraction after the last dot, then the
    subformats ['date_hms'], ['date_hm'] and ['date'] in turn. *)
Definition parse_isot (timestr : string) : result (Z * Z * Z * Z * Z * Q) :=
  f <- match rindex_dot timestr with
       | None => Ok (timestr, 0%Q)
       | Some idot => match parse_fracsec (String.substring idot (String.length timestr - idot) timestr) with
                      | Some fr => Ok (String.substring 0 idot timestr, fr)
                      | None => Err ValueError
                      end
       end;;
  let '(ts, fracsec) := f in
  match strptime_hms ts with
  | Some (y, m, d, h, mi, sec) => Ok (y, m, d, h, mi, (inject_Z sec + fracsec)%Q)
  | None => match strptime_hm ts with
            | Some (y, m, d, h, mi, sec) => Ok (y, m, d, h, mi, (inject_Z sec + fracsec)%Q)
            | None => match strptime_d ts with
                      | Some (y, m, d, h, mi, sec) => Ok (y, m, d, h, mi, (inject_Z sec + fracsec)%Q)
                      | None => Err ValueError
                      end
            end
  end.

(** [Time(timestr)] in the default ISOT format and UTC scale:
    [erfa.dtf2d] of the parsed fields. *)
Definition time_of_isot (timestr : string) : result Time :=
  v <- parse_isot timestr;;
  let '(y, m, d, h, mi, sec) := v in
  j <- dtf2d y m d h mi sec;;
  Ok (mk_time j UTC Fisot).

(** [Time(list)]: each element in turn. *)
Definition times_of_isot (l : list string) : result (list Time) :=
  for_each (fun acc s => t <- time_of_isot s;; Ok (acc ++ [t])%list) l [].

(** ['%d'] of a non-negative integer, and ['%0wd']. *)
Definition dec_digit (n : Z) : string := String (ascii_of_nat (Z.to_nat (48 + n))) EmptyString.
Fixpoint fmt_int_fuel (fuel : nat) (n : Z) : string :=
  match fuel with
  | O => dec_digit n
  | S fuel' => if n <? 10 then dec_digit n else fmt_int_fuel fuel' (n / 10) ++ dec_digit (n mod 10)
  end.
Definition fmt_int (n : Z) : string := fmt_int_fuel 20 n.
(** [format(n, '<fill><w>d')]: [n] right-aligned in [w] characters. *)
Definition fmt_fill (fill : string) (w : nat) (n : Z) : string :=
  let s := fmt_int n in
  String.concat "" (repeat fill (w - String.length s)) ++ s.
Definition fmt_pad (w : nat) (n : Z) : string := fmt_fill "0" w n.

(** [TimeISOT] and [TimeFITS] values, [erfa.d2dtf] at [precision]
    decimals: ['{year:4d}-{mon:02d}-{day:02d}T{hour:02d}:{min:02d}:{sec:02d}']
    (FITS writes ['{year:04d}']), then ['.{fracsec:0{precision}d}']. *)
Definition iso_str (year_fill : string) (precision : Z) (t : Time) : result string :=
  c <- d2dtf precision (jd t);;
  let '((y, m, d), (h, mi, s, f)) := c in
  Ok (fmt_fill year_fill 4 y ++ "-" ++ fmt_pad 2 m ++ "-" ++ fmt_pad 2 d ++ "T" ++
      fmt_pad 2 h ++ ":" ++ fmt_pad 2 mi ++ ":" ++ fmt_pad 2 s ++
      (if 0 <? precision then "." ++ fmt_pad (Z.to_nat precision) f else "")).
Definition isot_str (t : Time) : result string := iso_str " " 3 t.
Definition fits_str (t : Time) : result string := iso_str "0" 3 t.

(** [_format_offset] of a [utcoffset] in microseconds. *)
Definition format_offset (off : option Z) : string :=
  match off with
  | None => ""
  | Some o =>
      let sign := if o <? 0 then "-" else "+" in
      let a := Z.abs o in
      let hh := a / 3600000000 in
      let rest := a mod 3600000000 in
      let mm := rest / 60000000 in
      let ss := rest mod 60000000 in
      sign ++ fmt_pad 2 hh ++ ":" ++ fmt_pad 2 mm ++
      (if ss =? 0 then "" else ":" ++ fmt_pad 2 (ss / US_PER_SEC) ++
         (if ss mod US_PER_SEC =? 0 then "" else "." ++ fmt_pad 6 (ss mod US_PER_SEC)))
  end.

(** [str(dt)], that is [dt.isoformat(sep=' ')]. *)
Definition dt_str (dt : datetime) : result string :=
  off <- utcoffset dt;;
  Ok (fmt_pad 4 (year dt) ++ "-" ++ fmt_pad 2 (month dt) ++ "-" ++ fmt_pad 2 (day dt) ++ " " ++
      fmt_pad 2 (hour dt) ++ ":" ++ fmt_pad 2 (minute dt) ++ ":" ++ fmt_pad 2 (second dt) ++
      (if microsecond dt =? 0 then "" else "." ++ fmt_pad 6 (microsecond dt)) ++
      format_offset off).

(** [print(t)] of a [Time] in the [datetime] format: [str(t.datetime)]. *)
Definition time_str (t : Time) : result string :=
  dt <- to_datetime t None;;
  dt_str dt.

(** ** The cells *)

(** Lines 479-482: [t1 = Time(times)] and its display. *)
Definition times : list string := ["2017-09-13T00:00:00"; "2017-09-15T11:20:15.123456789"].
Definition t1_cell : result (list string) :=
  t1 <- times_of_isot times;;
  for_each (fun acc t => v <- isot_str t;; Ok (acc ++ [v])%list) t1 [].

(** Lines 498-500: [Time([58009, 58011.47239726], format='mjd', scale='tai')]. *)
Definition t2 : list Time := map (fun mjd => time_of_mjd mjd TAI) [58009; 5801147239726 # 100000000]%Q.

(** Lines 518-520: [t1[0].jd], [t1[0].mjd] and [t1[0].fits]. *)
Definition conversion_cell : result (Q * Q * string) :=
  t1 <- times_of_isot times;;
  t <- py_getitem t1 0;;
  f <- fits_str t;;
  Ok (jd t, to_mjd t, f).

(** Lines 546-552 and 561: [TimezoneInfo(utc_offset=1*u.hour)], the aware
    [datetime], [print(t)] and [print(t.to_datetime(timezone=...))]. *)
Definition timezone_cell : result (string * string) :=
  utc_plus_one_hour <- timezone_info (q_smul 1 (of_unit u_hour));;
  dt_aware <- mk_dt 2000 1 1 0 0 0 0 (Some utc_plus_one_hour);;
  t <- time_of_datetime dt_aware;;
  s1 <- time_str t;;
  dt' <- to_datetime t (Some utc_plus_one_hour);;
  s2 <- dt_str dt';;
  Ok (s1, s2).

Local Close Scope string_scope.

(** ** Lemmas *)

(** Division of a sum [q * b + r] with [0 <= r < b]. *)
Lemma div_mod_split a b q r : 0 <= r < b -> a = q * b + r -> a / b = q /\ a mod b = r.
Proof.
  intros Hr ->. split; symmetry; [apply Z.div_unique_pos with r | apply Z.mod_unique_pos with q]; lia.
Qed.

Lemma quot_split a b q r : 0 <= q -> 0 <= r < b -> a = q * b + r -> Z.quot a b = q.
Proof.
  intros Hq Hr Ha. rewrite Z.quot_div_nonneg by nia. exact (proj1 (div_mod_split a b q r Hr Ha)).
Qed.

Lemma check_time_fields_spec h mi s us :
  check_time_fields h mi s us = true <-> 0 <= h <= 23 /\ 0 <= mi <= 59 /\ 0 <= s <= 59 /\ 0 <= us <= 999999.
Proof. unfold check_time_fields. rewrite !andb_true_iff, !Z.leb_le. tauto. Qed.

Lemma check_utc_offset_spec o : check_utc_offset o = true <-> - US_PER_DAY < o < US_PER_DAY.
Proof. unfold check_utc_offset. rewrite andb_true_iff, !Z.ltb_lt. tauto. Qed.

Lemma hms_units_range rs h mi s f :
  0 <= h <= 23 -> 0 <= mi <= 59 -> 0 <= s <= 59 -> 0 <= f < rs ->
  0 <= hms_units rs h mi s f < 86400 * rs.
Proof. unfold hms_units. nia. Qed.

(** The [datetime]s the constructor accepts. *)
Definition dt_valid (dt : datetime) : bool :=
  valid_date (year dt) (month dt) (day dt) && check_time_fields (hour dt) (minute dt) (second dt) (microsecond dt).

Lemma mk_dt_Ok y m d h mi s us tz dt :
  mk_dt y m d h mi s us tz = Ok dt <-> dt = mk_datetime y m d h mi s us tz /\ dt_valid dt = true.
Proof.
  unfold mk_dt. split.
  - destruct (valid_date y m d && check_time_fields h mi s us) eqn:E; [intros [= <-]; auto | discriminate].
  - intros [-> Hv]. unfold dt_valid in Hv; cbn in Hv. rewrite Hv. reflexivity.
Qed.

(** [of_total] takes a date and time of day apart again. *)
Lemma of_total_fields y m d h mi s us tz :
  valid_date y m d = true -> check_time_fields h mi s us = true ->
  of_total (ymd2ord y m d * US_PER_DAY + hms_units US_PER_SEC h mi s us) tz = Ok (mk_datetime y m d h mi s us tz).
Proof.
  intros Hd (Hh & Hmi & Hs & Hus)%check_time_fields_spec. pose proof (ymd2ord_range y m d Hd) as Hr.
  unfold of_total, hms_units, US_PER_DAY, US_PER_SEC, MAXORDINAL in *.
  destruct (div_mod_split (ymd2ord y m d * 86400000000 + (((h * 60 + mi) * 60 + s) * 1000000 + us)) 86400000000
              (ymd2ord y m d) (((h * 60 + mi) * 60 + s) * 1000000 + us) ltac:(lia) ltac:(lia)) as [-> ->].
  destruct (div_mod_split (((h * 60 + mi) * 60 + s) * 1000000 + us) 1000000 ((h * 60 + mi) * 60 + s) us ltac:(lia) ltac:(lia)) as [-> ->].
  destruct (div_mod_split ((h * 60 + mi) * 60 + s) 3600 h (mi * 60 + s) ltac:(lia) ltac:(lia)) as [-> ->].
  destruct (div_mod_split (mi * 60 + s) 60 mi s ltac:(lia) ltac:(lia)) as [-> ->].
  replace ((0 <? ymd2ord y m d) && (ymd2ord y m d <=? 3652059)) with true by (symmetry; apply andb_true_iff; lia).
  rewrite (ord2ymd_ymd2ord y m d Hd). reflexivity.
Qed.

Lemma of_total_self dt : dt_valid dt = true -> of_total (dt_total dt) (tzinfo dt) = Ok dt.
Proof.
  destruct dt as [y m d h mi s us tz]. unfold dt_valid, dt_total. cbn. intros [Hd Ht]%andb_true_iff.
  exact (of_total_fields y m d h mi s us tz Hd Ht).
Qed.

(** What [of_total] returns is a valid [datetime] with that total. *)
Lemma of_total_inv t tz dt :
  of_total t tz = Ok dt -> dt_valid dt = true /\ dt_total dt = t /\ tzinfo dt = tz.
Proof.
  unfold of_total. destruct ((0 <? t / US_PER_DAY) && (t / US_PER_DAY <=? MAXORDINAL)) eqn:E; [|discriminate].
  apply andb_true_iff in E as [E1 E2]. apply Z.ltb_lt in E1. apply Z.leb_le in E2.
  pose proof (ymd2ord_ord2ymd (t / US_PER_DAY) ltac:(lia)) as Ho.
  destruct (ord2ymd (t / US_PER_DAY)) as [[y m] d]. destruct Ho as [Hv Hn]. intros [= <-].
  unfold dt_valid, dt_total, hms_units, US_PER_DAY, US_PER_SEC in *; cbn. rewrite Hv, Hn. cbn.
  pose proof (Z.div_mod t 86400000000 ltac:(lia)). pose proof (Z.mod_pos_bound t 86400000000 ltac:(lia)).
  set (r := t mod 86400000000) in *.
  pose proof (Z.div_mod r 1000000 ltac:(lia)). pose proof (Z.mod_pos_bound r 1000000 ltac:(lia)).
  assert (0 <= r / 1000000 < 86400) by (split; [apply Z.div_pos | apply Z.div_lt_upper_bound]; lia).
  set (S := r / 1000000) in *.
  pose proof (Z.div_mod S 3600 ltac:(lia)). pose proof (Z.mod_pos_bound S 3600 ltac:(lia)).
  assert (0 <= S / 3600 < 24) by (split; [apply Z.div_pos | apply Z.div_lt_upper_bound]; lia).
  set (R := S mod 3600) in *.
  pose proof (Z.div_mod R 60 ltac:(lia)). pose proof (Z.mod_pos_bound R 60 ltac:(lia)).
  assert (0 <= R / 60 < 60) by (split; [apply Z.div_pos | apply Z.div_lt_upper_bound]; lia).
  split; [apply check_time_fields_spec; lia | split; [lia | reflexivity]].
Qed.

(** *** Rounding and ERFA *)

Lemma Qfloor_eq q z : (inject_Z z <= q)%Q -> (q < inject_Z (z + 1))%Q -> Qfloor q = z.
Proof.
  intros H1 H2. pose proof (Qfloor_le q). pose proof (Qlt_floor q).
  assert (Qfloor q < z + 1). { rewrite Zlt_Qlt. apply Qle_lt_trans with q; assumption. }
  assert (z < Qfloor q + 1). { rewrite Zlt_Qlt. apply Qle_lt_trans with q; assumption. }
  lia.
Qed.

Lemma inject_Z_nonneg z : 0 <= z -> (0 <= inject_Z z)%Q.
Proof. intros Hz. change 0%Q with (inject_Z 0). rewrite <- Zle_Qle. exact Hz. Qed.

Lemma inject_Z_pos z : 0 < z -> (0 < inject_Z z)%Q.
Proof. intros Hz. change 0%Q with (inject_Z 0). rewrite <- Zlt_Qlt. exact Hz. Qed.

Lemma inject_Z_succ z : (inject_Z (z + 1) == inject_Z z + 1)%Q.
Proof. rewrite inject_Z_plus. reflexivity. Qed.

(** [ERFA_DNINT] of an integer is that integer. *)
Lemma dnint_int x z : (x == inject_Z z)%Q -> 0 <= z -> dnint x = z.
Proof.
  intros Hx Hz. unfold dnint.
  assert (Hx0 : (0 <= x)%Q) by (rewrite Hx; apply inject_Z_nonneg, Hz).
  replace (Qltb x 0) with false by (symmetry; apply Qltb_false; exact Hx0).
  apply Qfloor_eq; rewrite ?inject_Z_succ, Hx; lra.
Qed.

(** [eraD2tf] takes apart a time of day that is a whole number of units. *)
Lemma d2tf_hms ndp fd h mi s f :
  0 <= ndp -> 0 <= h <= 23 -> 0 <= mi <= 59 -> 0 <= s <= 59 -> 0 <= f < 10 ^ ndp ->
  (inject_Z (86400 * 10 ^ ndp) * fd == inject_Z (hms_units (10 ^ ndp) h mi s f))%Q ->
  d2tf ndp fd = (h, mi, s, f).
Proof.
  intros Hn Hh Hmi Hs Hf Hfd. pose proof (hms_units_range (10 ^ ndp) h mi s f Hh Hmi Hs Hf) as Hr.
  assert (Hfd0 : (0 <= fd)%Q).
  { apply (Qmult_le_l _ _ (inject_Z (86400 * 10 ^ ndp))); [apply inject_Z_pos; lia|].
    rewrite Qmult_0_r, Hfd. apply inject_Z_nonneg. lia. }
  assert (Ha : dnint (inject_Z (86400 * 10 ^ ndp) * Qabs fd) = hms_units (10 ^ ndp) h mi s f).
  { apply dnint_int; [|lia]. rewrite (Qabs_pos fd Hfd0). exact Hfd. }
  unfold d2tf. rewrite Ha. unfold hms_units.
  set (rs := 10 ^ ndp) in *.
  rewrite (quot_split _ (rs * 60 * 60) h ((mi * 60 + s) * rs + f)) by nia.
  replace (((h * 60 + mi) * 60 + s) * rs + f - h * (rs * 60 * 60)) with ((mi * 60 + s) * rs + f) by ring.
  rewrite (quot_split _ (rs * 60) mi (s * rs + f)) by nia.
  replace ((mi * 60 + s) * rs + f - mi * (rs * 60)) with (s * rs + f) by ring.
  rewrite (quot_split _ rs s f) by nia. f_equal. ring.
Qed.

(** [eraDtf2d] on a valid date and time: the Julian date is the
    ordinal's Julian day number, less half a day, plus the time of day. *)
Lemma dtf2d_Ok y m d h mi sec :
  valid_date y m d = true -> 0 <= h <= 23 -> 0 <= mi <= 59 -> (0 <= sec)%Q ->
  exists j, dtf2d y m d h mi sec = Ok j /\
    (j + (1 # 2) == inject_Z (ymd2ord y m d + ORD_JD) + (60 * inject_Z (60 * h + mi) + sec) / 86400)%Q.
Proof.
  intros Hd Hh Hmi Hs. unfold dtf2d. rewrite (cal2jd_ymd2ord y m d Hd). cbn [bind].
  replace ((0 <=? h) && (h <=? 23)) with true by (symmetry; apply andb_true_iff; lia).
  replace ((0 <=? mi) && (mi <=? 59)) with true by (symmetry; apply andb_true_iff; lia).
  replace (Qltb sec 0) with false by (symmetry; apply Qltb_false; exact Hs). cbn [negb].
  eexists. split; [reflexivity|]. unfold ORD_MJD, ORD_JD, Z.sub. rewrite !inject_Z_plus, !inject_Z_opp.
  unfold inject_Z. ring.
Qed.

(** [eraJd2cal] of [k - 1/2 + x] with [0 <= x < 1], in its range. *)
Lemma jd2cal_Ok dj k x :
  ORD_JD < k < 1000000000 -> (0 <= x < 1)%Q -> (dj + (1 # 2) == inject_Z k + x)%Q ->
  exists fd, jd2cal dj = Ok (jd2cal_day k, fd) /\ (fd == x)%Q.
Proof.
  intros Hk Hx Hdj. unfold jd2cal.
  assert (Hk1 : (inject_Z 1721426 <= inject_Z k)%Q) by (rewrite <- Zle_Qle; unfold ORD_JD in Hk; lia).
  assert (Hk2 : (inject_Z (k + 1) <= inject_Z 1000000000)%Q) by (rewrite <- Zle_Qle; lia).
  rewrite inject_Z_succ in Hk2.
  replace (Qltb dj (-137139 # 2)) with false
    by (symmetry; apply Qltb_false; change (inject_Z 1721426) with (1721426 # 1) in Hk1; lra).
  replace (Qltb (inject_Z 1000000000) dj) with false
    by (symmetry; apply Qltb_false; change (inject_Z 1000000000) with (1000000000 # 1) in *; lra).
  cbn [orb]. rewrite (Qfloor_comp _ _ Hdj), (Qfloor_eq (inject_Z k + x) k) by (rewrite ?inject_Z_succ; lra).
  eexists. split; [reflexivity|]. rewrite Hdj. ring.
Qed.

Lemma Qdiv_nonneg a b : (0 <= a)%Q -> (0 < b)%Q -> (0 <= a / b)%Q.
Proof. intros Ha Hb. apply Qle_shift_div_l; [exact Hb|]. rewrite Qmult_0_l. exact Ha. Qed.

(** The time of day as a fraction of a day, in units of [1 / rs] s. *)
Lemma day_fraction rs h mi s f :
  0 < rs -> ((60 * inject_Z (60 * h + mi) + (inject_Z s + inject_Z f / inject_Z rs)) / 86400 ==
             inject_Z (hms_units rs h mi s f) / inject_Z (86400 * rs))%Q.
Proof.
  intros Hrs. unfold hms_units. repeat (rewrite inject_Z_plus || rewrite inject_Z_mult). unfold inject_Z.
  field. unfold Qeq. cbn. lia.
Qed.

Lemma day_fraction_bounds rs h mi s f :
  0 < rs -> 0 <= h <= 23 -> 0 <= mi <= 59 -> 0 <= s <= 59 -> 0 <= f < rs ->
  (0 <= inject_Z (hms_units rs h mi s f) / inject_Z (86400 * rs) < 1)%Q.
Proof.
  intros Hrs Hh Hmi Hs Hf. pose proof (hms_units_range rs h mi s f Hh Hmi Hs Hf) as Hr.
  split; [apply Qdiv_nonneg; [apply inject_Z_nonneg | apply inject_Z_pos]; lia|].
  apply Qlt_shift_div_r; [apply inject_Z_pos; lia|]. rewrite Qmult_1_l, <- Zlt_Qlt. lia.
Qed.

(** [eraD2dtf] at [ndp] decimals inverts [eraDtf2d] on every date
    [datetime] accepts and every time of day given to [ndp] decimals. *)
Lemma d2dtf_dtf2d ndp y m d h mi s f :
  0 <= ndp -> valid_date y m d = true -> 0 <= h <= 23 -> 0 <= mi <= 59 -> 0 <= s <= 59 -> 0 <= f < 10 ^ ndp ->
  exists j, dtf2d y m d h mi (inject_Z s + inject_Z f / inject_Z (10 ^ ndp))%Q = Ok j /\
    (j + (1 # 2) == inject_Z (ymd2ord y m d + ORD_JD) +
                    inject_Z (hms_units (10 ^ ndp) h mi s f) / inject_Z (86400 * 10 ^ ndp))%Q /\
    d2dtf ndp j = Ok ((y, m, d), (h, mi, s, f)).
Proof.
  intros Hn Hd Hh Hmi Hs Hf. assert (Hrs : 0 < 10 ^ ndp) by lia.
  destruct (dtf2d_Ok y m d h mi (inject_Z s + inject_Z f / inject_Z (10 ^ ndp))%Q Hd Hh Hmi)
    as (j & Hj & Hjeq).
  { assert (0 <= inject_Z s)%Q by (apply inject_Z_nonneg; lia).
    assert (0 <= inject_Z f / inject_Z (10 ^ ndp))%Q by (apply Qdiv_nonneg; [apply inject_Z_nonneg | apply inject_Z_pos]; lia).
    lra. }
  rewrite (day_fraction _ _ _ _ _ Hrs) in Hjeq. exists j. split; [exact Hj|]. split; [exact Hjeq|].
  pose proof (ymd2ord_range y m d Hd) as Hr. unfold MAXORDINAL in Hr.
  destruct (jd2cal_Ok j (ymd2ord y m d + ORD_JD) _ ltac:(unfold ORD_JD; lia)
              (day_fraction_bounds _ _ _ _ _ Hrs Hh Hmi Hs Hf) Hjeq) as (fd & Hjd & Hfd).
  unfold d2dtf. rewrite Hjd. cbn [bind].
  rewrite jd2cal_day_ord, ord2ymd_ymd2ord by (lia || exact Hd).
  rewrite (d2tf_hms ndp fd h mi s f Hn Hh Hmi Hs Hf).
  - replace (23 <? h) with false by (symmetry; apply Z.ltb_ge; lia). reflexivity.
  - rewrite Hfd, inject_Z_mult. field. unfold Qeq. cbn. lia.
Qed.

(** [d2dtf] reads back the fields of a [datetime] given to the microsecond. *)
Definition dt_fields (dt : datetime) : Z * Z * Z * (Z * Z * Z * Z) :=
  ((year dt, month dt, day dt), (hour dt, minute dt, second dt, microsecond dt)).

(** [erfa.dtf2d] of the fields of a valid [datetime], as [Time] calls
    it, and [erfa.d2dtf] at 6 decimals reads them back. *)
Lemma dtf2d_fields u : dt_valid u = true ->
  exists j, dtf2d (year u) (month u) (day u) (hour u) (minute u)
              (inject_Z (second u) + inject_Z (microsecond u) / inject_Z US_PER_SEC)%Q = Ok j /\
            d2dtf 6 j = Ok (dt_fields u).
Proof.
  intros [Hud (Hh & Hmi & Hs & Hus)%check_time_fields_spec]%andb_true_iff.
  destruct (d2dtf_dtf2d 6 (year u) (month u) (day u) (hour u) (minute u) (second u) (microsecond u)
              ltac:(lia) Hud Hh Hmi Hs ltac:(lia)) as (j & Hj & _ & Hd2).
  exists j. split; [exact Hj | exact Hd2].
Qed.

(** [Time(dt)] of an aware [datetime] whose UTC time [u] exists. *)
Lemma time_of_datetime_Ok dt o u :
  tzinfo dt = Some o -> check_utc_offset o = true -> dt_add dt (- o) = Ok u ->
  exists j, time_of_datetime dt = Ok (mk_time j UTC Fdatetime) /\ d2dtf 6 j = Ok (dt_fields u).
Proof.
  intros Htz Ho Hu. destruct (of_total_inv _ _ _ Hu) as [Huv _].
  destruct (dtf2d_fields u Huv) as (j & Hj & Hd). exists j. split; [|exact Hd].
  unfold time_of_datetime, utcoffset. rewrite Htz, Ho. cbn [bind]. rewrite Hu. cbn [bind]. rewrite Hj. reflexivity.
Qed.

Lemma time_of_datetime_inv dt o t :
  tzinfo dt = Some o -> time_of_datetime dt = Ok t ->
  check_utc_offset o = true /\ exists u j, dt_add dt (- o) = Ok u /\ dt_valid u = true /\
    t = mk_time j UTC Fdatetime /\ d2dtf 6 j = Ok (dt_fields u).
Proof.
  intros Htz Ht. pose proof Ht as Ht'. unfold time_of_datetime, utcoffset in Ht'. rewrite Htz in Ht'.
  destruct (check_utc_offset o) eqn:Ho; [|discriminate]. cbn [bind] in Ht'.
  destruct (dt_add dt (- o)) as [u|e] eqn:Hu; [|discriminate]. split; [reflexivity|].
  destruct (time_of_datetime_Ok dt o u Htz Ho Hu) as (j & Hj & Hd). rewrite Ht in Hj. injection Hj as ->.
  exists u, j. repeat split; try assumption. exact (proj1 (of_total_inv _ _ _ Hu)).
Qed.

(** [datetime + timedelta] stays in [datetime]'s range exactly when the
    total is from 0001-01-01 to 9999-12-31. *)
Lemma of_total_cond t :
  (0 <? t / US_PER_DAY) && (t / US_PER_DAY <=? MAXORDINAL) = true <->
  US_PER_DAY <= t < (MAXORDINAL + 1) * US_PER_DAY.
Proof.
  unfold US_PER_DAY, MAXORDINAL. pose proof (Z.div_mod t 86400000000 ltac:(lia)).
  pose proof (Z.mod_pos_bound t 86400000000 ltac:(lia)). rewrite andb_true_iff, Z.ltb_lt, Z.leb_le. lia.
Qed.

Lemma of_total_ok t tz : US_PER_DAY <= t < (MAXORDINAL + 1) * US_PER_DAY -> exists u, of_total t tz = Ok u.
Proof.
  intros Ht%of_total_cond. unfold of_total. rewrite Ht. destruct (ord2ymd (t / US_PER_DAY)) as [[y m] d]. eauto.
Qed.

Lemma of_total_overflow t tz :
  ~ (US_PER_DAY <= t < (MAXORDINAL + 1) * US_PER_DAY) -> of_total t tz = Err OverflowError.
Proof.
  intros Ht. unfold of_total.
  destruct ((0 <? t / US_PER_DAY) && (t / US_PER_DAY <=? MAXORDINAL)) eqn:E; [|reflexivity].
  exfalso. apply Ht, of_total_cond, E.
Qed.

(** [dt + timedelta(0)] of a valid [datetime] is itself. *)
Lemma dt_add_0 dt : dt_valid dt = true -> dt_add dt 0 = Ok dt.
Proof. intros Hv. unfold dt_add. rewrite Z.add_0_r. exact (of_total_self dt Hv). Qed.

(** [astimezone(tz)] of a valid UTC [datetime]: the sum with the
    offset, in [tz]. *)
Lemma astimezone_utc u tz :
  dt_valid u = true -> tzinfo u = Some 0 -> check_utc_offset tz = true ->
  astimezone u tz = of_total (dt_total u + tz) (Some tz).
Proof.
  intros Hv Hu Htz. unfold astimezone, utcoffset. rewrite Hu.
  replace (check_utc_offset 0) with true by reflexivity. cbn [bind].
  unfold dt_add at 1. change (- 0) with 0. rewrite Z.add_0_r, (of_total_self u Hv). cbn [bind].
  unfold fromutc, utcoffset. cbn [tzinfo replace_tzinfo]. rewrite Htz. cbn [bind].
  destruct (tz =? 0) eqn:E.
  - apply Z.eqb_eq in E as ->. reflexivity.
  - change (dt_add (replace_tzinfo u (Some tz)) tz) with (of_total (dt_total u + tz) (Some tz)).
    destruct (of_total (dt_total u + tz) (Some tz)) as [w|e] eqn:Hw; [|reflexivity]. cbn [bind].
    destruct (of_total_inv _ _ _ Hw) as (Hwv & _). exact (dt_add_0 w Hwv).
Qed.

(** [to_datetime] of a UTC [Time] whose [eraD2dtf] fields are those of
    a valid [datetime] [u]. *)
Lemma to_datetime_fields j u timezone :
  dt_valid u = true -> d2dtf 6 j = Ok (dt_fields u) ->
  to_datetime (mk_time j UTC Fdatetime) timezone =
    match timezone with
    | Some tz => astimezone (replace_tzinfo u (Some 0)) tz
    | None => Ok (replace_tzinfo u None)
    end.
Proof.
  intros Hv Hd. unfold to_datetime. cbn [scale jd]. rewrite Hd.
  replace (if match timezone with Some _ => negb true | None => false end then _ else _)
    with (bind (Ok (dt_fields u)) (fun c => let '(y, m, d, (h, mi, s, f)) := c in
           if 60 <=? s then Err ValueError else
           match timezone with
           | Some tz => dt <- mk_dt y m d h mi s f (Some 0);; astimezone dt tz
           | None => mk_dt y m d h mi s f None
           end)) by (destruct timezone; reflexivity).
  cbn [bind dt_fields]. pose proof Hv as Hv'. apply andb_true_iff in Hv' as [Hd' Ht].
  pose proof Ht as (_ & _ & Hs & _)%check_time_fields_spec.
  replace (60 <=? second u) with false by (symmetry; apply Z.leb_gt; lia).
  unfold mk_dt. rewrite Hd', Ht. cbn [andb]. destruct timezone; reflexivity.
Qed.

(** ** Theorems *)

(** (C6) Converting an aware [datetime] to [Time] and back with
    [to_datetime(timezone=tz)], [tz] its own offset, gives the same
    [datetime] back, for every valid [datetime] and offset for which
    [Time(dt)] succeeds; and [Time] keeps the UTC time: its naive
    [to_datetime()] is [dt - utcoffset]. *)
Theorem time_datetime_roundtrip y m d h mi s us o dt t :
  mk_dt y m d h mi s us (Some o) = Ok dt -> time_of_datetime dt = Ok t ->
  to_datetime t (Some o) = Ok dt /\
  exists u, dt_add dt (- o) = Ok u /\ to_datetime t None = Ok (replace_tzinfo u None).
Proof.
  intros [-> Hv]%mk_dt_Ok Ht.
  destruct (time_of_datetime_inv _ o t (eq_refl : tzinfo (mk_datetime y m d h mi s us (Some o)) = Some o) Ht) as (Ho & u & j & Hu & Huv & -> & Hd).
  rewrite !(to_datetime_fields j u _ Huv Hd). split; [|exists u; split; [exact Hu | reflexivity]].
  rewrite (astimezone_utc (replace_tzinfo u (Some 0)) o Huv eq_refl Ho). change (dt_total (replace_tzinfo u (Some 0))) with (dt_total u).
  destruct (of_total_inv _ _ _ Hu) as (_ & Htot & _). rewrite Htot, Z.add_opp_r, Z.sub_add.
  exact (of_total_self _ Hv).
Qed.

(** (C19) [Time(dt)] of a valid aware [datetime] succeeds exactly when its
    UTC time is in [datetime]'s range, 0001-01-01 to 9999-12-31; otherwise
    [dt - utcoffset] raises [OverflowError]. *)
Theorem time_of_datetime_range dt o :
  tzinfo dt = Some o -> check_utc_offset o = true ->
  (US_PER_DAY <= dt_total dt - o < (MAXORDINAL + 1) * US_PER_DAY -> exists t, time_of_datetime dt = Ok t) /\
  (~ (US_PER_DAY <= dt_total dt - o < (MAXORDINAL + 1) * US_PER_DAY) -> time_of_datetime dt = Err OverflowError).
Proof.
  intros Htz Ho. split.
  - intros Hr. destruct (of_total_ok _ (tzinfo dt) Hr) as (u & Hu).
    rewrite <- Z.add_opp_r in Hu. destruct (time_of_datetime_Ok dt o u Htz Ho Hu) as (j & Hj & _). eauto.
  - intros Hr. unfold time_of_datetime, utcoffset. rewrite Htz, Ho. cbn [bind].
    unfold dt_add. rewrite Z.add_opp_r, (of_total_overflow _ _ Hr). reflexivity.
Qed.

(** ERFA's [eraD2dtf] at [ndp] decimals inverts [eraDtf2d] on every
    date [datetime] accepts and every time of day given to [ndp]
    decimals; the Modified Julian Date in between is the CPython ordinal
    less 678576, plus the time of day as a fraction of the day. *)
Theorem erfa_dtf_roundtrip ndp y m d h mi s f :
  0 <= ndp -> valid_date y m d = true -> 0 <= h <= 23 -> 0 <= mi <= 59 -> 0 <= s <= 59 -> 0 <= f < 10 ^ ndp ->
  exists j, dtf2d y m d h mi (inject_Z s + inject_Z f / inject_Z (10 ^ ndp))%Q = Ok j /\
    (to_mjd (mk_time j UTC Fisot) == inject_Z (ymd2ord y m d - ORD_MJD) +
       inject_Z (hms_units (10 ^ ndp) h mi s f) / inject_Z (86400 * 10 ^ ndp))%Q /\
    d2dtf ndp j = Ok ((y, m, d), (h, mi, s, f)).
Proof.
  intros Hn Hd Hh Hmi Hs Hf.
  destruct (d2dtf_dtf2d ndp y m d h mi s f Hn Hd Hh Hmi Hs Hf) as (j & Hj & Hjeq & Hd2).
  exists j. split; [exact Hj|]. split; [|exact Hd2].
  unfold to_mjd, MJD_ZERO. cbn [jd]. unfold ORD_JD, ORD_MJD, Z.sub in *.
  rewrite !inject_Z_plus, !inject_Z_opp in *.
  change (inject_Z 1721425) with (1721425 # 1) in Hjeq. change (inject_Z 678576) with (678576 # 1).
  set (x := (_ / _)%Q) in *. lra.
Qed.

(** The time cells print what the notebook shows: the ISOT values of
    [t1] at millisecond precision, its first element as JD 2458009.5,
    MJD 58009 and FITS, and the aware [datetime] of 2000-01-01 00:00
    UTC+1 as 1999-12-31 23:00:00 UTC and back as 2000-01-01 00:00:00+01:00. *)
Theorem time_cells_output :
  t1_cell = Ok ["2017-09-13T00:00:00.000"; "2017-09-15T11:20:15.123"]%string /\
  match conversion_cell with
  | Ok (j, mj, f) => (j == 4916019 # 2)%Q /\ (mj == 58009)%Q /\ f = "2017-09-13T00:00:00.000"%string
  | Err _ => False
  end /\
  timezone_cell = Ok ("1999-12-31 23:00:00", "2000-01-01 00:00:00+01:00")%string.
Proof. vm_compute. repeat split; reflexivity. Qed.

(** ** Witnesses *)

Definition dt_aware : datetime := mk_datetime 2000 1 1 0 0 0 0 (Some 3600000000).
Definition t_aware : Time :=
  match time_of_datetime dt_aware with Ok t => t | Err _ => mk_time 0 UTC Fdatetime end.

Lemma time_datetime_roundtrip_witness :
  to_datetime t_aware (Some 3600000000) = Ok dt_aware /\
  exists u, dt_add dt_aware (- 3600000000) = Ok u /\ to_datetime t_aware None = Ok (replace_tzinfo u None).
Proof. apply (time_datetime_roundtrip 2000 1 1 0 0 0 0 3600000000 dt_aware t_aware); vm_compute; reflexivity. Defined.

Lemma time_of_datetime_range_witness :
  (US_PER_DAY <= dt_total dt_aware - 3600000000 < (MAXORDINAL + 1) * US_PER_DAY ->
     exists t, time_of_datetime dt_aware = Ok t) /\
  (~ (US_PER_DAY <= dt_total dt_aware - 3600000000 < (MAXORDINAL + 1) * US_PER_DAY) ->
     time_of_datetime dt_aware = Err OverflowError).
Proof. apply (time_of_datetime_range dt_aware 3600000000); reflexivity. Defined.

(** Half an hour into 0001-01-01 at UTC+1 is before [datetime]'s range in UTC. *)
Example time_of_datetime_overflow :
  time_of_datetime (mk_datetime 1 1 1 0 30 0 0 (Some 3600000000)) = Err OverflowError.
Proof. vm_compute. reflexivity. Qed.

Lemma erfa_dtf_roundtrip_witness :
  exists j, dtf2d 2017 9 15 11 20 (inject_Z 15 + inject_Z 123 / inject_Z (10 ^ 3))%Q = Ok j /\
    (to_mjd (mk_time j UTC Fisot) == inject_Z (ymd2ord 2017 9 15 - ORD_MJD) +
       inject_Z (hms_units (10 ^ 3) 11 20 15 123) / inject_Z (86400 * 10 ^ 3))%Q /\
    d2dtf 3 j = Ok ((2017, 9, 15), (11, 20, 15, 123)).
Proof. apply (erfa_dtf_roundtrip 3 2017 9 15 11 20 15 123); first [lia | vm_compute; reflexivity]. Defined.

End AstroTime.
